(* ===== verification/_CoqProject ===== *)
-Q . S2P
Prelude.v
Json.v
Core.v
Types.v
Message.v
Lines.v
Platform.v
Content.v
Schema.v
Pagination.v
UriTemplate.v
Protocol.v
State.v
Router.v
Session.v
SessionFacts.v
Registry.v
ToolRegistry.v
PromptProvider.v
ResourceProvider.v
Logging.v
Server.v
Program.v
Sampling.v
Roots.v
Client.v
Remote.v
Handshake.v
LineTransport.v
StdioClient.v
Decimal.v
Sse.v
Chunked.v
Http.v
SseChannel.v
HttpEndpoint.v
Listener.v
PostCapture.v
HttpServer.v
HttpSessions.v
ServerHub.v
HttpClient.v
HttpLink.v
HttpPair.v
HttpRemote.v
StdioRemote.v
StdioHandshake.v
HttpHandshake.v
SessionClient.v
EventStream.v
Workers.v
ReaderThreads.v
Descriptors.v
Sockets.v
Wake.v
PlatformIo.v
Processes.v
Quoting.v
EnvBlock.v
VxThreads.v
VxTasks.v
OneShot.v
SysThreads.v
Win32.v
Diagnostics.v
Calculator.v
Strtoull.v
Doubles.v
Monitor.v
MonitorSim.v
MonitorVx.v
MonitorMain.v
Examples.v
Selftest.v
FullStack.v
