(* ===== verification/Prelude.v ===== *)
(** * mcp.cpp: a verification library for the C++ Model Context Protocol SDK

    ** What the program is

    mcp.cpp is an SDK for servers and clients of the Model Context Protocol.
    A [Session] (src/core/session.cpp) exchanges JSON-RPC 2.0 messages with its
    peer over a [Transport]; it correlates requests with responses, runs the
    initialize handshake, gates incoming requests by lifecycle and negotiated
    capabilities, and handles timeouts, progress and cancellation.  It owns a
    [MessageRouter] (src/core/router.cpp), where handlers are installed.  A
    [Server] (src/server/server.cpp) installs the handlers of the protocol's
    server side on the sessions attached to it: they call the registries of
    tools, prompts and resources, and the registries' change callbacks make the
    server notify its sessions.  A [Client] (src/client/client.cpp) installs
    the handlers of the client side (sampling, elicitation, roots) and offers
    typed requests.  Transports carry messages as lines over stdio or over HTTP
    with server-sent events; the HTTP servers give each POST an answer that
    holds the responses its messages produced.

    ** How the files correspond to the code

    Paths are relative to src/ of the repository (sources) and include/mcp
    (headers).  A definition has the name of the function it translates.

    Foundations
    - [Prelude]: tactics, w-bit integers ([wrap_u], [wrap_s]), list and string
      lemmas.
    - [Json]: nlohmann/json's value type as the sources use it.  [json::parse]
      and [json::dump] are library code: class [JsonText] (with the laws
      [JsonTextLaws]: a dumped well-formed value parses back, a dump holds no
      newline).  [Json.BitText] is an executable implementation used by
      witnesses.
    - [Core]: error.hpp, result.hpp, detail/json_util.hpp, and [at], [get],
      [value] and [operator[]] of a JSON value with the exceptions they throw
      ([outcome]: a value, an exception, or undefined behaviour).
    - [State]: the monad [st] of stateful code that may throw, with triples.

    Protocol data
    - [Types]: types.hpp, capabilities.hpp.  [Message]: jsonrpc/message.cpp.
      [Content]: content.hpp, core/content.cpp.  [Protocol]: methods.hpp,
      core/progress.hpp, core/cancellation.hpp.  [Schema]: core/schema.cpp.
      [Pagination]: detail/pagination.hpp.  [UriTemplate]:
      server/uri_template.cpp.

    Sessions
    - [Router]: core/router.cpp.  The handler tables, the table of pending
      callbacks, and [dispatch].
    - [Session]: core/session.cpp.  The members of [Session], [ClientSession]
      and [ServerSession] in one record; every operation and handler.
      [SessionFacts] holds its theorems.

    Servers
    - [Registry]: vectors of named entries, shared by [ToolRegistry],
      [PromptProvider] and [ResourceProvider] (server/*.cpp of these names);
      [Logging]: server/logging.cpp.
    - [Server]: server/server.cpp, over the class [Sessions] that says what a
      server needs of its sessions.  [Program]: the server on one session, which
      discharges [Sessions] and ties the knot of [Application].

    Clients
    - [Sampling]: client/sampling.cpp, sampling.hpp.  [Roots]:
      client/roots_provider.cpp.  [Client]: client/client.cpp and
      client/elicitation.hpp.

    - [Remote]: a client and a server on the two ends of a connection;
      [Handshake]: how [run] and [connect] get them there.

    Transports
    - [Lines], [LineTransport]: transport/line_io.cpp, line_transport.cpp,
      stdio_transport.cpp.  [StdioClient]: stdio_client_transport.cpp, over the
      class [ChildHost] of what it asks of the child process.
    - [Decimal], [Sse], [Chunked], [Http]: transport/http/http_codec.cpp.
    - [SseChannel], [PostCapture]: transport/http/sse_channel.cpp.
    - [HttpEndpoint], [Listener]: transport/http/http_endpoint.cpp, a
      connection's side and the listener's.  [HttpServer]:
      http_server_transport.cpp.  [HttpSessions]: http_session_server.cpp, over
      the class [SessionHost] that says what it needs of the sessions it opens.
    - [ServerHub]: one server behind the multi-session HTTP server.
    - [HttpClient]: transport/http_client_transport.cpp.  [HttpLink]: one
      message across both ends; [HttpPair]: both ends of any number of
      connections, over the handler of the server.  [HttpRemote],
      [HttpHandshake]: client and server joined by them; [SessionClient]: a
      client and the sessions of the multi-session server.  [StdioRemote],
      [StdioHandshake]: joined by two pipes.  [EventStream]: the client's
      background stream joined to the server's channel.
    - [Workers], [ReaderThreads]: the threads of http_client_transport.cpp and
      stdio_transport.cpp, over the class [WorkerLoop] of what a thread runs:
      [connect], [disconnect] and the destructor, the thread and requests that
      wait, interleaved.

    Platform (platform/posix, win32 and vxworks)
    - [Descriptors]: the class [Kernel] of the system calls and its descriptor
      table, with ownership triples.  [Sockets]: net.cpp of the three backends.
      [Wake], [PlatformIo], [Platform]: io.cpp.  [Processes], [Quoting],
      [EnvBlock]: process.cpp.
    - [Win32]: process.cpp of Windows, and the kinds of descriptors its io.cpp
      tells apart, over the class [WinKernel].
    - [VxThreads], [VxTasks], [SysThreads]: platform/vxworks/threading.cpp and
      sys/threading_vxworks.hpp: condition variables and [join]; mutexes, timed
      waits, sleeps and the objects that own threads.  [OneShot]:
      sys/threading.hpp, on those primitives.
    - [Diagnostics]: core/log.cpp, log.hpp.

    Programs (examples/)
    - [Calculator]: calculator_server.cpp.
    - [Monitor]: vxworks_monitor/monitor_backend.hpp (class [Backend], with the
      promises [BackendLaws]) and the tools of vxworks_monitor_server.cpp;
      [MonitorSim], [MonitorVx]: the two backends, the latter over the class
      [VxKernel]; [MonitorMain]: the entry points, and the echo servers.
      [Examples]: the echo and calculator servers with their tools registered,
      and the [main]s.
    - [Strtoull], [Doubles]: the conversions and the order of doubles they use.
    - [Selftest]: tools/pal_selftest.cpp, over the classes of what it tests.
      [FullStack]: its last test, on the modelled SDK.

    ** How state, effects and closures are modelled

    An object is a record of its members.  A critical section (the code between
    taking and releasing a mutex) is one function on that record; code that runs
    without the lock between two of them is a separate function or a step, and
    the theorems about interleavings ([callbacks_exactly_once], [sse_delivery])
    quantify over every sequence of such steps.  A computation that changes the
    state and may throw is in [st]: the changes made before a throw persist.
    The closures an application hands over are names (type parameters); a class
    ([Application] for sessions, [Host] and [SessionHost] for the HTTP servers,
    [HttpClientHost] for the HTTP client) says what running one does to the
    whole program's state, so that a handler may re-enter the object that calls
    it.  What the operating system does is a class too, with its documented
    behaviour as laws and a small executable system as an instance: [Kernel],
    [ChildHost], [SemLib], [SemMLib], [VxKernel], [WinKernel].  Threads are interleaved steps of a
    program counter; an event that is not the next step of its thread has no
    successor.  Blocking waits are split into the
    part before and the part after; readings of the clock are arguments.  The
    field [trace] of a session is a ghost log of the messages it sent and the
    callbacks it ran.

    ** What the theorems show

    - Correlation: every callback of [send_request] runs exactly once or is
      still pending, for the router under any interleaving and for sessions
      under any sequence of operations; timeouts fire for exactly the requests
      whose deadline has passed, and progress restarts exactly its own clocks.
    - Lifecycle: sessions refine an abstract state machine; the handshake agrees
      on a version, and [run] and [connect] take any server and client from
      construction to Operating, over stdio and over HTTP; before Operating and without the capability nothing but the
      error answer happens; every request handled is answered exactly once.
    - Server: registries keep their invariants on every branch, a tool's handler
      runs only on conforming arguments, pages visit every item once, resources
      resolve in the documented order, changes reach exactly the operating
      sessions, and a [tools/call] is followed from the client to the function
      and back.
    - Client: an answer of the server is read back by the typed wrapper, server
      requests are answered by the configured handler, and the sampling tool
      loop ends after at most its configured number of iterations, with a
      conversation in which every tool use has its result.
    - Wire formats: messages, content, events, chunked bodies and HTTP messages
      survive serialisation, framing, any division into reads, and parsing.
    - HTTP servers: a POST is answered with the responses of its requests in
      order; each SSE stream gets its events once and in order; sessions are
      opened and closed once and do not touch each other; a client's messages
      reach the session whose id it was given, until that session is gone; what
      the server announces reaches every operating session once; the listener
      closes every descriptor once.
    - HTTP and stdio clients: a request over the HTTP transport, or over the
      pipes of a child process however they cut the bytes, returns what the
      server's handler computes; the background stream is resumed without a gap
      or a repetition, except where [EventStream.backlog_lost] shows one; a
      child process is ended in the order asked, exit, stop, kill.  Under every
      schedule the reader threads wait with an event that is there, and
      [disconnect] joins them within a bounded number of their turns, as long as
      the application keeps to [disciplined]; the schedules of
      [ReaderThreadsDemo] show what happens when it does not.
    - Platform: every way through the socket calls gives back what it opened,
      or one descriptor; wake-up events own their two; condition variables keep
      their counts in balance and wake every waiter; a thread is joined after
      its function returned; a value handed over with [OneShot] arrives, and
      under every schedule both sides finish; a child process of Windows
      inherits its three ends and the parent is left the other three; Windows command lines and environment blocks read
      back as what was given.
    - Programs: the calculator computes its grammar; the monitor's tools answer
      every conforming call with its backend's service, their ids read back, and
      its CPU reports account exactly for their own window; the self-test's
      status says whether a check failed, and on the modelled SDK none of its
      last test does.

    ** Fuel and bounds

    Nothing is cut off by a bound chosen for the model.  Recursive values (JSON,
    content) are handled by structural recursion on nested types, lines and
    chunks by recursion on the text or on the list of reads; the loops of the
    chunked decoder and of [paginate]'s client take their number of turns as an
    argument, and theorems show how many turns are enough ([feed_items],
    [chunked_roundtrip], [paginate_complete]; the client's read loops stop when
    the reads they are given end, [child_delivery], [stream_resumes]; polling in
    slices stops by its deadline, [poll_slices_returns]).  The calculator's
    recursive descent has [fuel_for] the size of its text, which
    [calculator_grammar] and [parse_returns] show to be enough.  Machine integers are [Z] with
    the wrap-around of their width written out where the code computes with
    them; time points are unbounded.

    ** What is not modelled

    The bodies of nlohmann/json, and the printing and reading of doubles
    ([std::to_string], [std::stod]), are arguments.  The threads, mutexes and
    condition variables of platforms other than VxWorks are those of the C++
    library.  The response to a POST is delivered within the client's
    [send], as in the code; the threads of the clients are interleaved as far as
    they share the running flag, the wake event and the thread object, not in
    what they deliver.  How long a connection may take to be made
    ([connect_timeout_ms]) is the connection's.  Of the self-test, the data its
    loop-back connection carries is an interface.  A string is a sequence of bytes; whether a
    dump fails on invalid UTF-8 is part of the class [JsonText]'s well-formedness
    condition.  Exceptions of [std::bad_alloc] and of locks are left out. *)

From Stdlib Require Export Ascii ZArith Lia.
From stdpp Require Export base strings list gmap fin_maps pretty.


#[export] Set Default Goal Selector "!".

(** ** Tactics *)

(** Destruct the innermost [match]/[if] scrutinee of the goal or of a
    hypothesis, remembering the equation. *)
Ltac case_match_goal :=
  match goal with
  | |- context [match ?x with _ => _ end] =>
      lazymatch x with
      | context [match _ with _ => _ end] => fail
      | _ => let E := fresh "Ecase" in destruct x eqn:E
      end
  end.

Ltac case_match_in H :=
  match type of H with
  | context [match ?x with _ => _ end] =>
      lazymatch x with
      | context [match _ with _ => _ end] => fail
      | _ => let E := fresh "Ecase" in destruct x eqn:E
      end
  end.

(** ** Machine integers *)

Definition modulus (w : Z) : Z := 2 ^ w.

(** Conversion to an unsigned [w]-bit integer: reduction modulo [2^w]. *)
Definition wrap_u (w z : Z) : Z := z mod modulus w.

(** Conversion to a signed [w]-bit integer (two's complement). *)
Definition wrap_s (w z : Z) : Z :=
  let r := wrap_u w z in
  if (r <? modulus (w - 1))%Z then r else (r - modulus w)%Z.

Definition in_u (w z : Z) : Prop := (0 <= z < modulus w)%Z.
Definition in_s (w z : Z) : Prop := (- modulus (w - 1) <= z < modulus (w - 1))%Z.

Lemma wrap_u_id w z : in_u w z -> wrap_u w z = z.
Proof. unfold in_u, wrap_u. intros H. by apply Z.mod_small. Qed.

Lemma wrap_u_range w z : (0 <= w)%Z -> in_u w (wrap_u w z).
Proof.
  intros Hw. unfold in_u, wrap_u, modulus.
  apply Z.mod_pos_bound. by apply Z.pow_pos_nonneg.
Qed.

Lemma modulus_pred w : (0 < w)%Z -> modulus w = (2 * modulus (w - 1))%Z.
Proof.
  intros Hw. unfold modulus. rewrite <- Z.pow_succ_r by lia. f_equal. lia.
Qed.

Lemma modulus_pos w : (0 <= w)%Z -> (0 < modulus w)%Z.
Proof. intros Hw. unfold modulus. by apply Z.pow_pos_nonneg. Qed.

Lemma wrap_s_id w z : (0 < w)%Z -> in_s w z -> wrap_s w z = z.
Proof.
  intros Hw [Hlo Hhi]. unfold wrap_s, wrap_u.
  pose proof (modulus_pred w Hw). pose proof (modulus_pos (w - 1) ltac:(lia)).
  destruct (decide (0 <= z)%Z) as [Hz|Hz].
  - rewrite Z.mod_small by lia. by rewrite (proj2 (Z.ltb_lt _ _)) by lia.
  - replace (z mod modulus w)%Z with (z + modulus w)%Z.
    + rewrite (proj2 (Z.ltb_ge _ _)) by lia. lia.
    + rewrite <- (Z.mod_small (z + modulus w) (modulus w)) by lia.
      rewrite <- (Z.mul_1_l (modulus w)) at 1. by rewrite Z.mod_add by lia.
Qed.

Lemma wrap_s_range w z : (0 < w)%Z -> in_s w (wrap_s w z).
Proof.
  intros Hw. unfold in_s, wrap_s.
  pose proof (modulus_pred w Hw). pose proof (modulus_pos (w - 1) ltac:(lia)).
  pose proof (wrap_u_range w z ltac:(lia)) as [Hlo Hhi].
  destruct (Z.ltb_spec (wrap_u w z) (modulus (w - 1))); lia.
Qed.

(** ** Characters *)

Notation "'LF'" := (Ascii.Ascii false true false true false false false false).
Notation "'CR'" := (Ascii.Ascii true false true true false false false false).

Definition code (c : Ascii.ascii) : N := Ascii.N_of_ascii c.

Definition in_range (lo hi c : Ascii.ascii) : bool :=
  (code lo <=? code c)%N && (code c <=? code hi)%N.

Definition is_digit (c : Ascii.ascii) : bool := in_range "0"%char "9"%char c.
Definition is_upper (c : Ascii.ascii) : bool := in_range "A"%char "Z"%char c.
Definition is_lower (c : Ascii.ascii) : bool := in_range "a"%char "z"%char c.
(** [std::isalpha] / [std::isalnum] / [std::tolower] in the "C" locale. *)
Definition is_alpha (c : Ascii.ascii) : bool := is_upper c || is_lower c.
Definition is_alnum (c : Ascii.ascii) : bool := is_alpha c || is_digit c.
Definition tolower (c : Ascii.ascii) : Ascii.ascii :=
  if is_upper c then Ascii.ascii_of_N (code c + 32) else c.

Definition digit_val (c : Ascii.ascii) : Z := Z.of_N (code c) - 48.

Lemma is_digit_val c : is_digit c = true -> (0 <= digit_val c <= 9)%Z.
Proof.
  unfold is_digit, in_range, digit_val. intros H.
  apply andb_true_iff in H as [H1 H2].
  apply N.leb_le in H1, H2. cbn in H1, H2. lia.
Qed.

(** ** Byte strings ([std::string])

    [std::string] is the standard [string] of 8-bit characters; the search and
    slicing members the sources use are written out here. *)

Abbreviation size := String.length.

(** [s.substr(n)] for [n <= s.size()]. *)
Fixpoint str_drop (n : nat) (s : string) : string :=
  match n, s with
  | O, _ => s
  | S n', String _ s' => str_drop n' s'
  | S _, EmptyString => EmptyString
  end.

(** [s.substr(0, n)]. *)
Fixpoint str_take (n : nat) (s : string) : string :=
  match n, s with
  | S n', String c s' => String c (str_take n' s')
  | _, _ => EmptyString
  end.

(** [s.find(pat)]: offset of the first occurrence. *)
Fixpoint str_find (pat s : string) : option nat :=
  if String.prefix pat s then Some O
  else match s with
       | EmptyString => None
       | String _ s' => S <$> str_find pat s'
       end.

(** [s.find(pat, pos)]: first occurrence at or after [pos]; [None] is [npos]. *)
Definition str_find_from (pat : string) (pos : nat) (s : string) : option nat :=
  if decide (pos <= size s) then Nat.add pos <$> str_find pat (str_drop pos s)
  else None.

(** [s.find(c)] for a character. *)
Definition find_char (c : Ascii.ascii) (s : string) : option nat :=
  str_find (String c EmptyString) s.

(** [s.c_str()]: the text before the first null byte. *)
Definition c_str (s : string) : string := match find_char Ascii.zero s with Some n => str_take n s | None => s end.

(** [s.compare(pos, len, t) == 0] for [pos <= s.size()]. *)
Definition str_compare_at (pos len : nat) (t s : string) : bool :=
  String.eqb (str_take len (str_drop pos s)) t.

(** Last character and its removal ([back], [pop_back]). *)
Fixpoint str_back (s : string) : option Ascii.ascii :=
  match s with
  | EmptyString => None
  | String c EmptyString => Some c
  | String _ s' => str_back s'
  end.

Fixpoint pop_back (s : string) : string :=
  match s with
  | EmptyString | String _ EmptyString => EmptyString
  | String c s' => String c (pop_back s')
  end.

Fixpoint str_forall (P : Ascii.ascii -> bool) (s : string) : bool :=
  match s with
  | EmptyString => true
  | String c s' => P c && str_forall P s'
  end.

Fixpoint str_map (f : Ascii.ascii -> Ascii.ascii) (s : string) : string :=
  match s with
  | EmptyString => EmptyString
  | String c s' => String (f c) (str_map f s')
  end.

(** [std::to_string]: decimal notation. *)
Definition to_string (z : Z) : string := pretty z.

#[global] Arguments String.append : simpl nomatch.

Lemma str_app_nil_r s : s +:+ EmptyString = s.
Proof. induction s as [|c s IH]; simpl; congruence. Qed.

Lemma str_app_assoc s1 s2 s3 : (s1 +:+ s2) +:+ s3 = s1 +:+ (s2 +:+ s3).
Proof. induction s1 as [|c s IH]; simpl; congruence. Qed.

Lemma size_app s1 s2 : size (s1 +:+ s2) = size s1 + size s2.
Proof. induction s1 as [|c s IH]; simpl; congruence. Qed.

Lemma size_drop n s : size (str_drop n s) = size s - n.
Proof. revert s; induction n as [|n IH]; intros [|c s]; simpl; auto. Qed.

Lemma size_take n s : size (str_take n s) = n `min` size s.
Proof. revert s; induction n as [|n IH]; intros [|c s]; simpl; auto. Qed.

Lemma str_take_drop n s : str_take n s +:+ str_drop n s = s.
Proof. revert s; induction n as [|n IH]; intros [|c s]; simpl; by rewrite ?IH. Qed.

Lemma str_drop_0 s : str_drop 0 s = s.
Proof. by destruct s. Qed.

Lemma str_drop_drop n m s : str_drop n (str_drop m s) = str_drop (m + n) s.
Proof.
  revert s; induction m as [|m IH]; intros [|c s]; simpl; rewrite ?str_drop_0; auto.
  by destruct n.
Qed.

Lemma str_drop_app_size s1 s2 : str_drop (size s1) (s1 +:+ s2) = s2.
Proof. induction s1 as [|c s IH]; simpl; auto. Qed.

Lemma str_drop_app_le n s1 s2 :
  n <= size s1 -> str_drop n (s1 +:+ s2) = str_drop n s1 +:+ s2.
Proof.
  revert s1; induction n as [|n IH]; intros [|c s1] H; simpl in *; auto; try lia.
  apply IH. lia.
Qed.

Lemma str_take_app_size s1 s2 : str_take (size s1) (s1 +:+ s2) = s1.
Proof. induction s1 as [|c s IH]; simpl; [by destruct s2 | congruence]. Qed.

Lemma str_take_app_le n s1 s2 :
  n <= size s1 -> str_take n (s1 +:+ s2) = str_take n s1.
Proof.
  revert s1; induction n as [|n IH]; intros [|c s1] H; simpl in *; auto; try lia.
  f_equal. apply IH. lia.
Qed.

Lemma str_take_all n s : size s <= n -> str_take n s = s.
Proof.
  revert s; induction n as [|n IH]; intros [|c s] H; simpl in *; auto; try lia.
  f_equal. apply IH. lia.
Qed.

Lemma str_drop_all n s : size s <= n -> str_drop n s = EmptyString.
Proof.
  revert s; induction n as [|n IH]; intros [|c s] H; simpl in *; auto; try lia.
  apply IH. lia.
Qed.

Lemma prefix_app p s : String.prefix p (p +:+ s) = true.
Proof.
  induction p as [|c p IH]; simpl; [by destruct s|].
  by destruct (Ascii.ascii_dec c c).
Qed.

Lemma prefix_true p s : String.prefix p s = true -> s = p +:+ str_drop (size p) s.
Proof.
  revert s; induction p as [|c p IH]; intros [|d s]; simpl; try done.
  destruct (Ascii.ascii_dec c d) as [->|]; [|done]. intros H. f_equal. auto.
Qed.

Lemma str_find_Some pat s n :
  str_find pat s = Some n ->
  n + size pat <= size s /\ s = str_take n s +:+ pat +:+ str_drop (n + size pat) s.
Proof.
  revert n; induction s as [|c s IH]; intros n; cbn [str_find].
  - destruct pat; simpl; [|done]. intros [= <-]. simpl. split; [lia|done].
  - destruct (String.prefix pat (String c s)) eqn:E.
    + intros [= <-]. apply prefix_true in E. cbn [str_take Nat.add].
      split; [|done].
      apply (f_equal size) in E. rewrite size_app in E. lia.
    + destruct (str_find pat s) as [k|]; simpl; [|done].
      intros [= <-]. destruct (IH k eq_refl) as [Hs Heq]. simpl.
      split; [lia|]. by f_equal.
Qed.

Create Rewrite HintDb str.
#[export] Hint Rewrite str_app_nil_r str_app_assoc size_app : str.

(** ** Decimal notation *)

Definition digit_char (d : Z) : Ascii.ascii := Ascii.ascii_of_N (Z.to_N (48 + d)).

Lemma digit_char_spec d : (0 <= d <= 9)%Z -> is_digit (digit_char d) = true /\ digit_val (digit_char d) = d.
Proof.
  intros H. assert (d = 0 \/ d = 1 \/ d = 2 \/ d = 3 \/ d = 4 \/ d = 5 \/ d = 6 \/ d = 7 \/ d = 8 \/ d = 9)%Z
    as Hd by lia.
  by repeat destruct Hd as [->|Hd]; [..|subst].
Qed.

Lemma pretty_N_char_digit x : (x < 10)%N -> pretty_N_char x = digit_char (Z.of_N x).
Proof.
  intros H. assert (x = 0 \/ x = 1 \/ x = 2 \/ x = 3 \/ x = 4 \/ x = 5 \/ x = 6 \/ x = 7 \/ x = 8 \/ x = 9)%N
    as Hd by lia.
  by repeat destruct Hd as [->|Hd]; [..|subst].
Qed.

Lemma pretty_N_go_app x s : pretty_N_go x s = pretty_N_go x EmptyString +:+ s.
Proof.
  revert s. induction (N.lt_wf_0 x) as [x _ IH]. intros s.
  destruct (decide (x = 0)%N) as [->|]; [done|].
  assert (x `div` 10 < x)%N as Hlt by (apply N.div_lt; lia).
  rewrite !(pretty_N_go_step x) by lia.
  rewrite (IH _ Hlt (String _ s)), (IH _ Hlt (String _ EmptyString)).
  by rewrite str_app_assoc.
Qed.

(** Induction over the decimal notation of a number, most significant digit
    first. *)
Lemma to_string_ind (P : Z -> string -> Prop) :
  (forall d, (0 <= d <= 9)%Z -> P d (String (digit_char d) EmptyString)) ->
  (forall n d s, (0 < n)%Z -> (0 <= d <= 9)%Z -> P n s ->
     P (10 * n + d)%Z (s +:+ String (digit_char d) EmptyString)) ->
  forall n, (0 <= n)%Z -> P n (to_string n).
Proof.
  intros Hdigit Hsnoc n Hn.
  assert (forall x, (0 < x)%N -> P (Z.of_N x) (pretty_N_go x EmptyString)) as Hgo.
  { intros x. induction (N.lt_wf_0 x) as [x _ IH]. intros Hx.
    rewrite pretty_N_go_step by done. rewrite pretty_N_go_app.
    assert (x `mod` 10 < 10)%N as Hmod by (apply N.mod_lt; lia).
    rewrite pretty_N_char_digit by done.
    destruct (decide (x `div` 10 = 0)%N) as [E|E].
    - rewrite E. rewrite N.mod_small by (apply N.div_small_iff; done). simpl.
      apply Hdigit. apply N.div_small_iff in E; [lia|done].
    - replace (Z.of_N x) with (10 * Z.of_N (x `div` 10) + Z.of_N (x `mod` 10))%Z
        by (pose proof (N.Div0.div_mod x 10); lia).
      assert (0 < x `div` 10)%N as Hq by by apply N.neq_0_lt_0.
      assert (x `div` 10 < x)%N as Hlt by by apply N.div_lt.
      revert Hq Hlt Hmod. generalize (x `div` 10)%N (x `mod` 10)%N. intros q r Hq Hlt Hmod.
      apply Hsnoc; [lia|lia|by apply IH]. }
  unfold to_string, pretty, pretty_Z. destruct n as [|p|p]; [by apply (Hdigit 0%Z)| |lia].
  change (P (Z.of_N (N.pos p)) (pretty_N_go (N.pos p) EmptyString)). by apply Hgo.
Qed.

Lemma str_forall_app P s1 s2 : str_forall P (s1 +:+ s2) = str_forall P s1 && str_forall P s2.
Proof. induction s1 as [|c s1 IH]; simpl; [done|]. by rewrite IH, andb_assoc. Qed.

Lemma to_string_digits n :
  (0 <= n)%Z -> str_forall is_digit (to_string n) = true /\ to_string n <> EmptyString.
Proof.
  revert n. apply (to_string_ind (fun _ s => str_forall is_digit s = true /\ s <> EmptyString)).
  - intros d Hd. apply digit_char_spec in Hd as [Hd _]. simpl. by rewrite Hd.
  - intros n d s _ Hd [H1 H2]. apply digit_char_spec in Hd as [Hd _].
    rewrite str_forall_app, H1. simpl. rewrite Hd. by destruct s.
Qed.

Lemma bind_Some_eq {A B} (f : A -> option B) (x : A) : (Some x ≫= f) = f x.
Proof. done. Qed.

Lemma fmap_Some_eq {A B} (f : A -> B) (x : A) : f <$> Some x = Some (f x).
Proof. done. Qed.

(** First element of a list satisfying a test ([std::find_if]) and its
    removal ([vector::erase] at that position). *)
Section first_match.
Context {A : Type} (P : A -> bool).

Fixpoint find_if (l : list A) : option A :=
  match l with
  | [] => None
  | x :: l' => if P x then Some x else find_if l'
  end.

Fixpoint erase_first (l : list A) : list A :=
  match l with
  | [] => []
  | x :: l' => if P x then l' else x :: erase_first l'
  end.

Lemma find_if_Some l x : find_if l = Some x -> x ∈ l /\ P x = true.
Proof.
  induction l as [|y l IH]; simpl; [done|].
  destruct (P y) eqn:E; [intros [= ->]; split; [left|done]|].
  intros H. destruct (IH H). split; [by right|done].
Qed.

Lemma find_if_None l : find_if l = None <-> forall x, x ∈ l -> P x = false.
Proof.
  induction l as [|y l IH]; simpl.
  - split; [by intros _ x ?%not_elem_of_nil|done].
  - destruct (P y) eqn:E.
    + split; [done|]. intros H. specialize (H y (list_elem_of_here y l)). congruence.
    + rewrite IH. split.
      * intros H x [->|?]%elem_of_cons; auto.
      * intros H x Hx. apply H. by right.
Qed.

Lemma find_if_app l1 l2 :
  find_if (l1 ++ l2) = match find_if l1 with Some x => Some x | None => find_if l2 end.
Proof. induction l1 as [|y l IH]; simpl; [done|]. by destruct (P y). Qed.

Lemma erase_first_none l : find_if l = None -> erase_first l = l.
Proof. induction l as [|y l IH]; simpl; [done|]. destruct (P y); [done|]. intros; f_equal; auto. Qed.

Lemma erase_first_sublist l : sublist (erase_first l) l.
Proof. induction l as [|y l IH]; simpl; [constructor|]. destruct (P y); by constructor. Qed.

Lemma erase_first_length l :
  is_Some (find_if l) -> length l = S (length (erase_first l)).
Proof.
  induction l as [|y l IH]; simpl; [by intros []|].
  destruct (P y); [done|]. intros H. simpl. f_equal. auto.
Qed.

End first_match.

Lemma erase_first_NoDup {A B} (f : A -> B) (P : A -> bool) l :
  NoDup (f <$> l) -> NoDup (f <$> erase_first P l).
Proof.
  intros H. eapply sublist_NoDup; [exact H|].
  apply fmap_sublist, erase_first_sublist.
Qed.
