(* ===== verification/Json.v ===== *)
(** * JSON values

    The value type of the vendored nlohmann/json library as the sources use
    it ([using json = nlohmann::json], include/mcp/json.hpp): a tagged union
    whose objects are [std::map]s, i.e. association lists sorted by key.
    Binary values and the [discarded] marker never occur in parsed text and
    are left out.  Doubles are IEEE binary64 values ([spec_float]). *)

From S2P Require Import Prelude.
From Stdlib Require Export Floats.SpecFloat Sorting.Sorted.

Create Rewrite HintDb json.

(** ** Doubles *)

Definition double : Set := spec_float.

#[export] Instance double_eq_dec : EqDecision double.
Proof. solve_decision. Defined.

Definition double_to_sum (d : double) : (bool + bool) + (unit + (bool * positive * Z)) :=
  match d with
  | S754_zero s => inl (inl s)
  | S754_infinity s => inl (inr s)
  | S754_nan => inr (inl tt)
  | S754_finite s m e => inr (inr (s, m, e))
  end.

Definition double_of_sum (x : (bool + bool) + (unit + (bool * positive * Z))) : double :=
  match x with
  | inl (inl s) => S754_zero s
  | inl (inr s) => S754_infinity s
  | inr (inl _) => S754_nan
  | inr (inr (s, m, e)) => S754_finite s m e
  end.

#[export] Instance double_countable : Countable double.
Proof. refine (inj_countable' double_to_sum double_of_sum _). by intros []. Defined.

(** [static_cast<double>] of an integer. *)
Definition double_of_Z (z : Z) : double := binary_normalize 53 1024 z 0 false.

(** [==] on doubles. *)
Definition double_eqb (a b : double) : bool :=
  match SFcompare a b with Some Eq => true | _ => false end.

(** Truncation toward zero; [None] on NaN and infinities. *)
Definition double_trunc (d : double) : option Z :=
  match d with
  | S754_zero _ => Some 0%Z
  | S754_finite s m e =>
      let a := if (0 <=? e)%Z then Z.shiftl (Zpos m) e else Z.shiftr (Zpos m) (- e) in
      Some (if s then (- a)%Z else a)
  | _ => None
  end.

Definition double_finite (d : double) : bool :=
  match d with S754_zero _ | S754_finite _ _ _ => true | _ => false end.

(** ** Values *)

#[warnings="-register-all"]
Inductive json : Type :=
| JNull
| JBool (b : bool)
| JInt (z : Z)           (** [number_integer], an [int64_t] *)
| JUInt (z : Z)          (** [number_unsigned], a [uint64_t] *)
| JFloat (d : double)
| JString (s : string)
| JArray (l : list json)
| JObject (o : list (string * json)).

Definition object : Type := list (string * json).

Section json_rect.
Variable P : json -> Prop.
Hypothesis Hnull : P JNull.
Hypothesis Hbool : forall b, P (JBool b).
Hypothesis Hint : forall z, P (JInt z).
Hypothesis Huint : forall z, P (JUInt z).
Hypothesis Hfloat : forall d, P (JFloat d).
Hypothesis Hstring : forall s, P (JString s).
Hypothesis Harray : forall l, Forall P l -> P (JArray l).
Hypothesis Hobject : forall o, Forall (fun kv => P kv.2) o -> P (JObject o).

(** The induction principle that reaches the values inside arrays and objects. *)
Fixpoint json_deep_ind (j : json) : P j :=
  match j with
  | JNull => Hnull
  | JBool b => Hbool b
  | JInt z => Hint z
  | JUInt z => Huint z
  | JFloat d => Hfloat d
  | JString s => Hstring s
  | JArray l =>
      Harray l ((fix go l := match l return Forall P l with
                             | [] => Forall_nil_2 _
                             | x :: l' => Forall_cons_2 _ _ _ (json_deep_ind x) (go l')
                             end) l)
  | JObject o =>
      Hobject o ((fix go o := match o return Forall (fun kv => P kv.2) o with
                              | [] => Forall_nil_2 _
                              | kv :: o' => Forall_cons_2 _ _ _ (json_deep_ind kv.2) (go o')
                              end) o)
  end.
End json_rect.

(** ** Decidable equality and countability, through generic trees *)

Abbreviation leaf := (bool + Z + Z + double + string + string)%type.

Fixpoint json_to_tree (j : json) : gen_tree leaf :=
  match j with
  | JNull => GenNode 0 []
  | JBool b => GenLeaf (inl (inl (inl (inl (inl b)))))
  | JInt z => GenLeaf (inl (inl (inl (inl (inr z)))))
  | JUInt z => GenLeaf (inl (inl (inl (inr z))))
  | JFloat d => GenLeaf (inl (inl (inr d)))
  | JString s => GenLeaf (inl (inr s))
  | JArray l => GenNode 1 (json_to_tree <$> l)
  | JObject o => GenNode 2 ((fun kv => GenNode 3 [GenLeaf (inr kv.1); json_to_tree kv.2]) <$> o)
  end.

Fixpoint json_of_tree (t : gen_tree leaf) : json :=
  match t with
  | GenLeaf (inl (inl (inl (inl (inl b))))) => JBool b
  | GenLeaf (inl (inl (inl (inl (inr z))))) => JInt z
  | GenLeaf (inl (inl (inl (inr z)))) => JUInt z
  | GenLeaf (inl (inl (inr d))) => JFloat d
  | GenLeaf (inl (inr s)) => JString s
  | GenNode 1 l => JArray (json_of_tree <$> l)
  | GenNode 2 l =>
      JObject ((fun t => match t with
                         | GenNode 3 [GenLeaf (inr k); v] => (k, json_of_tree v)
                         | _ => (EmptyString, JNull)
                         end) <$> l)
  | _ => JNull
  end.

Lemma json_of_to_tree j : json_of_tree (json_to_tree j) = j.
Proof.
  induction j using json_deep_ind; simpl; try done; f_equal.
  - induction H as [|x l Hx _ IH]; simpl; [done|]. by f_equal.
  - induction H as [|[k x] l Hx _ IH]; simpl in *; [done|].
    f_equal; [by rewrite Hx | exact IH].
Qed.

#[export] Instance json_eq_dec : EqDecision json.
Proof.
  intros x y. destruct (decide (json_to_tree x = json_to_tree y)) as [E|E].
  - left. by rewrite <- (json_of_to_tree x), E, json_of_to_tree.
  - right. by intros ->.
Defined.

#[export] Instance json_countable : Countable json.
Proof. exact (inj_countable' json_to_tree json_of_tree json_of_to_tree). Defined.

(** ** Type queries *)

Definition is_null (j : json) : bool := match j with JNull => true | _ => false end.
Definition is_boolean (j : json) : bool := match j with JBool _ => true | _ => false end.
Definition is_string (j : json) : bool := match j with JString _ => true | _ => false end.
Definition is_array (j : json) : bool := match j with JArray _ => true | _ => false end.
Definition is_object (j : json) : bool := match j with JObject _ => true | _ => false end.
Definition is_number_integer (j : json) : bool :=
  match j with JInt _ | JUInt _ => true | _ => false end.
Definition is_number (j : json) : bool :=
  match j with JInt _ | JUInt _ | JFloat _ => true | _ => false end.

Definition type_name (j : json) : string :=
  match j with
  | JNull => "null"
  | JObject _ => "object"
  | JArray _ => "array"
  | JString _ => "string"
  | JBool _ => "boolean"
  | JInt _ | JUInt _ | JFloat _ => "number"
  end.

(** ** Objects: sorted maps *)

Fixpoint obj_find (k : string) (o : object) : option json :=
  match o with
  | [] => None
  | (k', v) :: o' => if String.eqb k k' then Some v else obj_find k o'
  end.

(** [map::operator[](k) = v]. *)
Fixpoint obj_set (k : string) (v : json) (o : object) : object :=
  match o with
  | [] => [(k, v)]
  | (k', v') :: o' =>
      match String.compare k k' with
      | Eq => (k, v) :: o'
      | Lt => (k, v) :: o
      | Gt => (k', v') :: obj_set k v o'
      end
  end.

(** [map::emplace(k, v)]: keeps an existing binding. *)
Definition obj_emplace (k : string) (v : json) (o : object) : object :=
  match obj_find k o with Some _ => o | None => obj_set k v o end.

(** An initialiser list [json{{k1, v1}, ...}] of pairs. *)
Definition make_object (l : list (string * json)) : object :=
  fold_left (fun o kv => obj_emplace kv.1 kv.2 o) l [].

(** [j.find(k)]: [end()] unless [j] is an object with that key. *)
Definition jfind (k : string) (j : json) : option json :=
  match j with JObject o => obj_find k o | _ => None end.

Definition contains (k : string) (j : json) : bool :=
  match jfind k j with Some _ => true | None => false end.

(** [std::less<std::string>]: byte-wise lexicographic order. *)
Definition str_lt (a b : string) : Prop := String.compare a b = Lt.

Lemma str_compare_refl s : String.compare s s = Eq.
Proof.
  induction s as [|c s IH]; simpl; [done|].
  unfold Ascii.compare. by rewrite N.compare_refl.
Qed.

Lemma str_lt_irrefl s : ~ str_lt s s.
Proof. unfold str_lt. by rewrite str_compare_refl. Qed.

Lemma str_lt_trans a b c : str_lt a b -> str_lt b c -> str_lt a c.
Proof.
  unfold str_lt. revert b c.
  induction a as [|x a IH]; intros [|y b] [|z c]; simpl; try done.
  unfold Ascii.compare.
  destruct (N.compare_spec (N_of_ascii x) (N_of_ascii y)) as [E1|E1|E1]; try done.
  - rewrite E1. destruct (N.compare (N_of_ascii y) (N_of_ascii z)); try done. apply IH.
  - intros _. destruct (N.compare_spec (N_of_ascii y) (N_of_ascii z)) as [E2|E2|E2]; try done.
    + rewrite <- E2. by rewrite (proj2 (N.compare_lt_iff _ _) E1).
    + intros _. by rewrite (proj2 (N.compare_lt_iff _ _)) by lia.
Qed.

Lemma str_compare_gt a b : String.compare a b = Gt -> str_lt b a.
Proof. unfold str_lt. intros E. by rewrite String.compare_antisym, E. Qed.

Lemma obj_find_set_eq k v o : obj_find k (obj_set k v o) = Some v.
Proof.
  induction o as [|[k' v'] o IH]; simpl; [by rewrite String.eqb_refl|].
  destruct (String.compare k k') eqn:E; simpl; rewrite ?String.eqb_refl; try done.
  destruct (String.eqb_spec k k') as [->|]; [|done].
  by rewrite str_compare_refl in E.
Qed.

Lemma obj_find_set_ne k k' v o : k <> k' -> obj_find k (obj_set k' v o) = obj_find k o.
Proof.
  intros Hne. induction o as [|[k2 v2] o IH]; simpl.
  - by rewrite (proj2 (String.eqb_neq k k') Hne).
  - destruct (String.compare k' k2) eqn:E; simpl.
    + apply String.compare_eq_iff in E as ->.
      by rewrite (proj2 (String.eqb_neq k k2) Hne).
    + by rewrite (proj2 (String.eqb_neq k k') Hne).
    + by rewrite IH.
Qed.

Lemma obj_find_emplace_ne k k' v o :
  k <> k' -> obj_find k (obj_emplace k' v o) = obj_find k o.
Proof.
  intros Hne. unfold obj_emplace. destruct (obj_find k' o); [done|].
  by apply obj_find_set_ne.
Qed.

#[export] Hint Rewrite obj_find_set_eq : json.
#[export] Hint Rewrite obj_find_set_ne using discriminate : json.

(** The keys of an object, in map order. *)
Definition sorted_obj (o : object) : Prop := StronglySorted (fun a b => str_lt a.1 b.1) o.

Lemma obj_set_Forall (Q : string * json -> Prop) k v o :
  Q (k, v) -> Forall Q o -> Forall Q (obj_set k v o).
Proof.
  intros Hk Ho. induction Ho as [|[k' v'] o Hx Ho IH]; simpl; [by constructor|].
  destruct (String.compare k k'); by repeat constructor.
Qed.

Lemma obj_set_sorted k v o : sorted_obj o -> sorted_obj (obj_set k v o).
Proof.
  unfold sorted_obj. intros H. induction H as [|[k' v'] o Ho IH Hx]; simpl.
  - repeat constructor.
  - destruct (String.compare k k') eqn:E.
    + apply String.compare_eq_iff in E as ->. by constructor.
    + constructor; [by constructor|]. constructor; [done|].
      eapply Forall_impl; [exact Hx|]. intros kv Hkv. simpl in *.
      by eapply str_lt_trans.
    + constructor; [done|]. apply obj_set_Forall; [|done]. by apply str_compare_gt.
Qed.

Lemma obj_emplace_sorted k v o : sorted_obj o -> sorted_obj (obj_emplace k v o).
Proof. unfold obj_emplace. destruct (obj_find k o); [done|]. apply obj_set_sorted. Qed.

Lemma make_object_sorted l : sorted_obj (make_object l).
Proof.
  unfold make_object. assert (H : sorted_obj []) by constructor. revert H.
  generalize (@nil (string * json)).
  induction l as [|[k v] l IH]; intros o Ho; simpl; [done|].
  apply IH. by apply obj_emplace_sorted.
Qed.

(** Two sorted objects with the same bindings are the same list. *)
Lemma sorted_obj_find_lt k o :
  Forall (fun b => str_lt k b.1) o -> obj_find k o = None.
Proof.
  induction 1 as [|[k' v'] o Hx _ IH]; simpl in *; [done|].
  destruct (String.eqb_spec k k') as [->|]; [|done].
  by apply str_lt_irrefl in Hx.
Qed.

Lemma sorted_obj_find_in o k v :
  sorted_obj o -> (k, v) ∈ o -> obj_find k o = Some v.
Proof.
  unfold sorted_obj. induction 1 as [|[k' v'] o Ho IH Hx]; simpl.
  - by intros ?%not_elem_of_nil.
  - intros [[= -> ->]|Hin]%elem_of_cons; [by rewrite String.eqb_refl|].
    destruct (String.eqb_spec k k') as [->|]; [|auto].
    rewrite Forall_forall in Hx. specialize (Hx _ Hin). by apply str_lt_irrefl in Hx.
Qed.

Lemma obj_find_in o k v : obj_find k o = Some v -> (k, v) ∈ o.
Proof.
  induction o as [|[k' v'] o IH]; simpl; [done|].
  destruct (String.eqb_spec k k') as [->|]; [intros [= ->]; left|right; auto].
Qed.

(** ** Comparison: [operator==] *)

Fixpoint json_eqb (a b : json) {struct a} : bool :=
  match a, b with
  | JArray l, JArray l' =>
      (fix go l l' := match l, l' with
                      | [], [] => true
                      | x :: l, y :: l' => json_eqb x y && go l l'
                      | _, _ => false
                      end) l l'
  | JObject o, JObject o' =>
      (fix go o o' := match o, o' with
                      | [], [] => true
                      | (k, x) :: o, (k', y) :: o' => String.eqb k k' && json_eqb x y && go o o'
                      | _, _ => false
                      end) o o'
  | JNull, JNull => true
  | JString s, JString s' => String.eqb s s'
  | JBool x, JBool y => Bool.eqb x y
  | JInt x, JInt y => (x =? y)%Z
  | JUInt x, JUInt y => (x =? y)%Z
  | JFloat x, JFloat y => double_eqb x y
  | JInt x, JFloat y | JUInt x, JFloat y => double_eqb (double_of_Z x) y
  | JFloat x, JInt y | JFloat x, JUInt y => double_eqb x (double_of_Z y)
  | JUInt x, JInt y => (wrap_s 64 x =? y)%Z
  | JInt x, JUInt y => (x =? wrap_s 64 y)%Z
  | _, _ => false
  end.

(** ** Well-formed values

    Integers are in range for their representation and objects are maps:
    sorted by key.  Values built by the library's operations are well formed. *)

Fixpoint wf_json (j : json) : Prop :=
  match j with
  | JInt z => in_s 64 z
  | JUInt z => in_u 64 z
  | JArray l => (fix go l := match l with [] => True | x :: l' => wf_json x /\ go l' end) l
  | JObject o =>
      sorted_obj o /\
      (fix go (o : object) := match o with [] => True | kv :: o' => wf_json kv.2 /\ go o' end) o
  | _ => True
  end.

Lemma wf_json_array l : wf_json (JArray l) <-> Forall wf_json l.
Proof. simpl. induction l as [|x l IH]; simpl; [by rewrite Forall_nil|]. by rewrite Forall_cons, IH. Qed.

Lemma wf_json_object o :
  wf_json (JObject o) <-> sorted_obj o /\ Forall (fun kv => wf_json kv.2) o.
Proof.
  simpl. f_equiv. induction o as [|x l IH]; simpl; [by rewrite Forall_nil|].
  by rewrite Forall_cons, IH.
Qed.

(** ** Size, for induction over members of members *)

Fixpoint json_size (j : json) : nat :=
  match j with
  | JArray l => S (sum_list (json_size <$> l))
  | JObject o => S (sum_list ((fun kv => json_size kv.2) <$> o))
  | _ => 1
  end.

Lemma sum_list_elem {A} (f : A -> nat) l x : x ∈ l -> f x <= sum_list (f <$> l).
Proof.
  induction l as [|y l IH]; [by intros ?%not_elem_of_nil|].
  rewrite fmap_cons. cbn [sum_list_with].
  change (id (f y)) with (f y). intros [->|H]%elem_of_cons; [lia|]. specialize (IH H). lia.
Qed.

Lemma json_size_elem x l : x ∈ l -> json_size x < json_size (JArray l).
Proof. intros H. apply (sum_list_elem json_size) in H.
  change (json_size (JArray l)) with (S (sum_list (json_size <$> l))). lia. Qed.

Lemma json_size_member k v (o : object) : obj_find k o = Some v -> json_size v < json_size (JObject o).
Proof.
  intros H%obj_find_in. apply (sum_list_elem (fun kv : string * json => json_size kv.2)) in H.
  change (json_size (JObject o)) with (S (sum_list ((fun kv => json_size kv.2) <$> o))).
  simpl in H. lia.
Qed.

Lemma json_size_ind (P : json -> Prop) :
  (forall j, (forall j', json_size j' < json_size j -> P j') -> P j) -> forall j, P j.
Proof.
  intros H j. remember (json_size j) as n eqn:E. revert j E.
  induction n as [n IH] using lt_wf_ind. intros j ->. apply H. intros j' Hj'. by eapply IH.
Qed.

Lemma wf_json_elem x l : wf_json (JArray l) -> x ∈ l -> wf_json x.
Proof. rewrite wf_json_array, Forall_forall. auto. Qed.
