(* ===== verification/Core.v ===== *)
(** * Errors, results, exceptions and typed JSON access

    include/mcp/error.hpp, include/mcp/result.hpp, include/mcp/detail/json_util.hpp
    and the typed accessors of nlohmann/json ([at], [get<T>], [value],
    [operator[]]) with the exceptions they raise. *)

From S2P Require Import Prelude Json.

(** ** Errors *)

(** [enum class ErrorCode : int]. *)
Inductive ErrorCode : Set :=
| ParseError | InvalidRequest | MethodNotFound | InvalidParams | InternalError
| ConnectionNotInitialized | RequestAlreadyInProgress | CapabilityNotSupported
| ResourceNotFound | ToolExecutionFailed | InvalidUri | PaginationError.

Definition error_code (c : ErrorCode) : Z :=
  match c with
  | ParseError => -32700
  | InvalidRequest => -32600
  | MethodNotFound => -32601
  | InvalidParams => -32602
  | InternalError => -32603
  | ConnectionNotInitialized => -32000
  | RequestAlreadyInProgress => -32001
  | CapabilityNotSupported => -32002
  | ResourceNotFound => -32003
  | ToolExecutionFailed => -32004
  | InvalidUri => -32005
  | PaginationError => -32006
  end.

Record Error : Type := mkError {
  err_code : Z;              (** [int code] *)
  err_message : string;
  err_data : option json;
}.

(** [Error(ErrorCode, std::string)]. *)
Definition error (c : ErrorCode) (msg : string) : Error := mkError (error_code c) msg None.

#[export] Instance Error_eq_dec : EqDecision Error.
Proof. solve_decision. Defined.

(** [Result<T>]: a value or an [Error]. *)
Inductive Result (T : Type) : Type :=
| Ok (value : T)
| Err (e : Error).
Arguments Ok {T} value.
Arguments Err {T} e.

Definition has_value {T} (r : Result T) : bool := match r with Ok _ => true | Err _ => false end.

(** Every [value] holds or the error is returned: [if (!r) return r.error();]. *)
#[export] Instance Result_ret : MRet Result := fun A a => Ok a.
#[export] Instance Result_bind : MBind Result :=
  fun A B f r => match r with Ok a => f a | Err e => Err e end.

(** ** Exceptions

    What C++ code can throw: [json::exception], [McpError] (which carries an
    [Error]) or any other [std::exception].  [Undefined] is undefined
    behaviour (a conversion whose result the standard leaves open). *)

Inductive exn : Type :=
| ExnJson (what : string)
| ExnMcp (e : Error)
| ExnStd (what : string).

Inductive outcome (A : Type) : Type :=
| Val (a : A)
| Throw (x : exn)
| Undefined.
Arguments Val {A} a.
Arguments Throw {A} x.
Arguments Undefined {A}.

#[export] Instance outcome_ret : MRet outcome := fun A a => Val a.
#[export] Instance outcome_bind : MBind outcome :=
  fun A B f o => match o with Val a => f a | Throw x => Throw x | Undefined => Undefined end.
#[export] Instance outcome_fmap : FMap outcome :=
  fun A B f o => match o with Val a => Val (f a) | Throw x => Throw x | Undefined => Undefined end.

(** [auto r = m; if (!r) return r.error();] inside code that may also throw. *)
Definition try_bind {A B} (m : outcome (Result A)) (k : A -> outcome (Result B)) : outcome (Result B) :=
  r ← m; match r with Ok a => k a | Err e => Val (Err e) end.

Declare Scope mcp_scope.
Delimit Scope mcp_scope with mcp.
Open Scope mcp_scope.
Notation "x ←? m ; k" := (try_bind m (fun x => k))
  (at level 20, m at level 100, k at level 200) : mcp_scope.

Lemma try_bind_Ok {A B} (m : outcome (Result A)) (k : A -> outcome (Result B)) b :
  try_bind m k = Val (Ok b) <-> exists a, m = Val (Ok a) /\ k a = Val (Ok b).
Proof.
  unfold try_bind. destruct m as [[a|e]| |]; simpl.
  - split; [eauto|]. by intros (a' & [= <-] & H).
  - split; [done|]. by intros (a' & ? & ?).
  - split; [done|]. by intros (a' & ? & ?).
  - split; [done|]. by intros (a' & ? & ?).
Qed.

(** [e.what()] of a caught [std::exception]. *)
Definition what (x : exn) : string :=
  match x with ExnJson w => w | ExnMcp e => err_message e | ExnStd w => w end.

(** Map over a list, stopping at the first exception. *)
Fixpoint mapM_outcome {A B} (f : A -> outcome B) (l : list A) : outcome (list B) :=
  match l with
  | [] => Val []
  | x :: l' => y ← f x; ys ← mapM_outcome f l'; Val (y :: ys)
  end.

(** [try { m } catch (const json::exception& e) { return handler(e.what()); }]. *)
Definition catch_json {A} (m : outcome A) (handler : string -> A) : outcome A :=
  match m with Throw (ExnJson w) => Val (handler w) | _ => m end.

(** Run [f] on the member [k] of an object, if there is one.  The same as
    [f <$> obj_find k o], in a form recursive functions can use. *)
Section find_with.
Context {A : Type} (f : json -> A) (k : string).
Fixpoint find_with (o : object) : option A :=
  match o with
  | [] => None
  | (k', v) :: o' => if String.eqb k k' then Some (f v) else find_with o'
  end.
Lemma find_with_spec o : find_with o = f <$> obj_find k o.
Proof. induction o as [|[k' v] o IH]; simpl; [done|]. by destruct (String.eqb k k'). Qed.
End find_with.

Lemma mapM_outcome_Val {A B} (f : A -> outcome B) (g : B -> A) l :
  (forall y, y ∈ l -> f (g y) = Val y) -> mapM_outcome f (g <$> l) = Val l.
Proof.
  induction l as [|y l IH]; intros H; [done|].
  rewrite fmap_cons. cbn [mapM_outcome]. rewrite (H y) by left.
  cbn [mbind outcome_bind]. rewrite IH; [done|]. intros z Hz. apply H. by right.
Qed.

(** ** Typed access *)

Definition type_error_302 (expected : string) (j : json) : exn :=
  ExnJson ("[json.exception.type_error.302] type must be " +:+ expected
           +:+ ", but is " +:+ type_name j).

(** [j.at(key)]. *)
Definition at_key (key : string) (j : json) : outcome json :=
  match j with
  | JObject o =>
      match obj_find key o with
      | Some v => Val v
      | None => Throw (ExnJson ("[json.exception.out_of_range.403] key '" +:+ key +:+ "' not found"))
      end
  | _ => Throw (ExnJson ("[json.exception.type_error.304] cannot use at() with " +:+ type_name j))
  end.

(** [j[key] = v]: null becomes an object, other non-objects throw. *)
Definition index_set (key : string) (v : json) (j : json) : outcome json :=
  match j with
  | JNull => Val (JObject (obj_set key v []))
  | JObject o => Val (JObject (obj_set key v o))
  | _ => Throw (ExnJson ("[json.exception.type_error.305] cannot use operator[] with a string argument with "
                         +:+ type_name j))
  end.

(** [j.get<std::string>()]. *)
Definition get_string (j : json) : outcome string :=
  match j with JString s => Val s | _ => Throw (type_error_302 "string" j) end.

Definition get_bool (j : json) : outcome bool :=
  match j with JBool b => Val b | _ => Throw (type_error_302 "boolean" j) end.

(** [static_cast<intN_t>(double)]: defined only when the truncated value fits. *)
Definition cast_double (w : Z) (d : double) : outcome Z :=
  match double_trunc d with
  | Some z =>
      if decide (- modulus (w - 1) <= z < modulus (w - 1))%Z then Val z else Undefined
  | None => Undefined
  end.

(** [j.get<std::int64_t>()]: unsigned values wrap around. *)
Definition get_int64 (j : json) : outcome Z :=
  match j with
  | JInt z => Val z
  | JUInt z => Val (wrap_s 64 z)
  | JFloat d => cast_double 64 d
  | _ => Throw (type_error_302 "number" j)
  end.

(** [j.get<int>()]: also accepts booleans, and truncates to 32 bits. *)
Definition get_int (j : json) : outcome Z :=
  match j with
  | JInt z | JUInt z => Val (wrap_s 32 z)
  | JFloat d => cast_double 32 d
  | JBool b => Val (if b then 1 else 0)%Z
  | _ => Throw (type_error_302 "number" j)
  end.

(** [j.get<double>()]. *)
Definition get_double (j : json) : outcome double :=
  match j with
  | JInt z | JUInt z => Val (double_of_Z z)
  | JFloat d => Val d
  | _ => Throw (type_error_302 "number" j)
  end.

(** [j.get<std::vector<T>>()]. *)
Definition get_vector {T} (get : json -> outcome T) (j : json) : outcome (list T) :=
  match j with
  | JArray l => mapM_outcome get l
  | _ => Throw (type_error_302 "array" j)
  end.

Definition get_json (j : json) : outcome json := Val j.

(** [j.value(key, default)]. *)
Definition value_or {T} (get : json -> outcome T) (key : string) (default : T) (j : json) : outcome T :=
  match j with
  | JObject o => match obj_find key o with Some v => get v | None => Val default end
  | _ => Throw (ExnJson ("[json.exception.type_error.306] cannot use value() with " +:+ type_name j))
  end.

(** ** include/mcp/detail/json_util.hpp *)

(** [set_optional]: [j[key] = *value] when present.  Every call site passes an
    object. *)
Definition set_optional {T} (to_json : T -> json) (key : string) (value : option T) (o : object) : object :=
  match value with Some v => obj_set key (to_json v) o | None => o end.

(** [get_optional]: missing or null keys leave the optional empty. *)
Definition get_optional {T} (get : json -> outcome T) (j : json) (key : string) : outcome (option T) :=
  match jfind key j with
  | Some v => if is_null v then Val None else x ← get v; Val (Some x)
  | None => Val None
  end.

(** ** [Error::to_json], [Error::from_json] *)

Definition Error_to_json (e : Error) : json :=
  JObject (set_optional id "data" (err_data e)
             (make_object [("code", JInt (err_code e)); ("message", JString (err_message e))])).

Definition Error_from_json (j : json) : outcome Error :=
  c ← at_key "code" j;
  code ← get_int c;
  m ← at_key "message" j;
  message ← get_string m;
  data ← get_optional get_json j "data";
  Val (mkError code message data).

(** ** Lookup lemmas for objects under construction *)

Lemma obj_find_set_optional_eq {T} (f : T -> json) k v o :
  obj_find k (set_optional f k v o) = match v with Some x => Some (f x) | None => obj_find k o end.
Proof. destruct v; simpl; [apply obj_find_set_eq|done]. Qed.

Lemma obj_find_set_optional_ne {T} (f : T -> json) k k' v o :
  k <> k' -> obj_find k (set_optional f k' v o) = obj_find k o.
Proof. intros H. destruct v; simpl; [by apply obj_find_set_ne|done]. Qed.

Lemma set_optional_sorted {T} (f : T -> json) k v o :
  sorted_obj o -> sorted_obj (set_optional f k v o).
Proof. destruct v; simpl; [apply obj_set_sorted|done]. Qed.

#[export] Hint Rewrite @obj_find_set_optional_eq : json.
#[export] Hint Rewrite @obj_find_set_optional_ne using discriminate : json.

(** Reading back what [set_optional] wrote, when nothing else binds the key. *)
Lemma get_optional_set {T} (to_json : T -> json) (get : json -> outcome T) o k v :
  obj_find k o = (to_json <$> v) ->
  (forall x, v = Some x -> get (to_json x) = Val x /\ is_null (to_json x) = false) ->
  get_optional get (JObject o) k = Val v.
Proof.
  unfold get_optional, jfind. intros -> H. destruct v as [x|]; simpl; [|done].
  destruct (H x eq_refl) as [H1 H2]. by rewrite H2, H1.
Qed.

(** Evaluate the next [get_optional] of a reader applied to a built object:
    the field [k] was written by [f] from the option [v]. *)
Ltac read_optional f k v :=
  rewrite (get_optional_set f _ _ k v);
  [ simpl
  | autorewrite with json; by destruct v
  | first [ by intros [] | by intros ? _ | by eauto with roundtrip ] ].

Create HintDb roundtrip.

(** Simplify lookups in objects built from literals and [set_optional]. *)
Ltac json_lookup :=
  unfold at_key, jfind, contains, value_or;
  autorewrite with json; cbn [make_object fold_left obj_emplace obj_find obj_set String.compare
    fst snd]; simpl.
