(* ===== verification/Types.v ===== *)
(** * Protocol data types

    include/mcp/types.hpp (request ids, [Implementation], the initialize
    payloads) and include/mcp/capabilities.hpp, with their JSON mappings. *)

From S2P Require Import Prelude Json Core.

Definition kProtocolVersion : string := "2025-11-25".

(** ** Request ids and progress tokens *)

(** [std::variant<std::int64_t, std::string>]. *)
Inductive RequestId : Set :=
| IdInt (z : Z)
| IdString (s : string).

Abbreviation ProgressToken := RequestId.

#[export] Instance RequestId_eq_dec : EqDecision RequestId.
Proof. solve_decision. Defined.

#[export] Instance RequestId_countable : Countable RequestId.
Proof.
  refine (inj_countable' (fun i => match i with IdInt z => inl z | IdString s => inr s end)
                         (fun x => match x with inl z => IdInt z | inr s => IdString s end) _).
  by intros [].
Defined.

Definition request_id_to_json (i : RequestId) : json :=
  match i with IdInt z => JInt z | IdString s => JString s end.

Definition request_id_from_json (j : json) : option RequestId :=
  match j with
  | JInt z => Some (IdInt z)
  | JUInt z => Some (IdInt (wrap_s 64 z))   (** [get<std::int64_t>] *)
  | JString s => Some (IdString s)
  | _ => None
  end.

Definition request_id_to_string (i : RequestId) : string :=
  match i with IdInt z => to_string z | IdString s => s end.

Definition wf_id (i : RequestId) : Prop :=
  match i with IdInt z => in_s 64 z | IdString _ => True end.

Lemma request_id_roundtrip i : request_id_from_json (request_id_to_json i) = Some i.
Proof. by destruct i. Qed.

(** An id of 2^63 or more is another, negative, id. *)
Lemma large_id_wraps : request_id_to_json <$> request_id_from_json (JUInt (modulus 63)) = Some (JInt (- modulus 63)).
Proof. reflexivity. Qed.

Lemma request_id_from_json_wf j i :
  wf_json j -> request_id_from_json j = Some i -> wf_id i.
Proof.
  destruct j; simpl; intros H [= <-]; simpl; try done. by apply wrap_s_range.
Qed.

(** ** Capabilities *)

(** [detail::get_capability_flag]: a present object counts as enabled. *)
Definition get_capability_flag (j : json) (key : string) : option bool :=
  match jfind key j with
  | Some v => if is_null v then None else Some (match v with JBool b => b | _ => true end)
  | None => None
  end.

Definition LoggingCapability : Set := unit.
Definition CompletionsCapability : Set := unit.
Definition TasksCapability : Set := unit.
Record PromptsCapability := mkPromptsCap { pc_list_changed : option bool }.
Record ResourcesCapability :=
  mkResourcesCap { rc_subscribe : option bool; rc_list_changed : option bool }.
Record ToolsCapability := mkToolsCap { tc_list_changed : option bool }.
Record ExperimentalCapability := mkExperimentalCap { ec_value : json }.
Record RootsCapability := mkRootsCap { roc_list_changed : option bool }.
Record SamplingCapability := mkSamplingCap { sac_tools : option bool; sac_context : option bool }.
Record ElicitationCapability := mkElicitationCap { elc_form : option bool; elc_url : option bool }.

Record ServerCapabilities := mkServerCaps {
  sc_logging : option LoggingCapability;
  sc_prompts : option PromptsCapability;
  sc_resources : option ResourcesCapability;
  sc_tools : option ToolsCapability;
  sc_completions : option CompletionsCapability;
  sc_tasks : option TasksCapability;
  sc_experimental : option ExperimentalCapability;
}.

Record ClientCapabilities := mkClientCaps {
  cc_roots : option RootsCapability;
  cc_sampling : option SamplingCapability;
  cc_elicitation : option ElicitationCapability;
  cc_tasks : option TasksCapability;
  cc_experimental : option ExperimentalCapability;
}.

Definition UnitCapability_to_json (_ : unit) : json := JObject [].
Definition UnitCapability_from_json (_ : json) : outcome unit := Val tt.

Definition PromptsCapability_to_json (c : PromptsCapability) : json :=
  JObject (set_optional JBool "listChanged" (pc_list_changed c) []).
Definition PromptsCapability_from_json (j : json) : outcome PromptsCapability :=
  Val (mkPromptsCap (get_capability_flag j "listChanged")).

Definition ResourcesCapability_to_json (c : ResourcesCapability) : json :=
  JObject (set_optional JBool "listChanged" (rc_list_changed c)
             (set_optional JBool "subscribe" (rc_subscribe c) [])).
Definition ResourcesCapability_from_json (j : json) : outcome ResourcesCapability :=
  Val (mkResourcesCap (get_capability_flag j "subscribe") (get_capability_flag j "listChanged")).

Definition ToolsCapability_to_json (c : ToolsCapability) : json :=
  JObject (set_optional JBool "listChanged" (tc_list_changed c) []).
Definition ToolsCapability_from_json (j : json) : outcome ToolsCapability :=
  Val (mkToolsCap (get_capability_flag j "listChanged")).

Definition ExperimentalCapability_to_json (c : ExperimentalCapability) : json := ec_value c.
Definition ExperimentalCapability_from_json (j : json) : outcome ExperimentalCapability :=
  Val (mkExperimentalCap j).

Definition RootsCapability_to_json (c : RootsCapability) : json :=
  JObject (set_optional JBool "listChanged" (roc_list_changed c) []).
Definition RootsCapability_from_json (j : json) : outcome RootsCapability :=
  Val (mkRootsCap (get_capability_flag j "listChanged")).

Definition SamplingCapability_to_json (c : SamplingCapability) : json :=
  JObject (set_optional JBool "context" (sac_context c)
             (set_optional JBool "tools" (sac_tools c) [])).
Definition SamplingCapability_from_json (j : json) : outcome SamplingCapability :=
  Val (mkSamplingCap (get_capability_flag j "tools") (get_capability_flag j "context")).

Definition ElicitationCapability_to_json (c : ElicitationCapability) : json :=
  JObject (set_optional JBool "url" (elc_url c)
             (set_optional JBool "form" (elc_form c) [])).
Definition ElicitationCapability_from_json (j : json) : outcome ElicitationCapability :=
  Val (mkElicitationCap (get_capability_flag j "form") (get_capability_flag j "url")).

Definition ServerCapabilities_to_json (c : ServerCapabilities) : json :=
  let o := [] in
  let o := set_optional UnitCapability_to_json "logging" (sc_logging c) o in
  let o := set_optional PromptsCapability_to_json "prompts" (sc_prompts c) o in
  let o := set_optional ResourcesCapability_to_json "resources" (sc_resources c) o in
  let o := set_optional ToolsCapability_to_json "tools" (sc_tools c) o in
  let o := set_optional UnitCapability_to_json "completions" (sc_completions c) o in
  let o := set_optional UnitCapability_to_json "tasks" (sc_tasks c) o in
  let o := set_optional ExperimentalCapability_to_json "experimental" (sc_experimental c) o in
  JObject o.

Definition ServerCapabilities_from_json (j : json) : outcome ServerCapabilities :=
  logging ← get_optional UnitCapability_from_json j "logging";
  prompts ← get_optional PromptsCapability_from_json j "prompts";
  resources ← get_optional ResourcesCapability_from_json j "resources";
  tools ← get_optional ToolsCapability_from_json j "tools";
  completions ← get_optional UnitCapability_from_json j "completions";
  tasks ← get_optional UnitCapability_from_json j "tasks";
  experimental ← get_optional ExperimentalCapability_from_json j "experimental";
  Val (mkServerCaps logging prompts resources tools completions tasks experimental).

Definition ClientCapabilities_to_json (c : ClientCapabilities) : json :=
  let o := [] in
  let o := set_optional RootsCapability_to_json "roots" (cc_roots c) o in
  let o := set_optional SamplingCapability_to_json "sampling" (cc_sampling c) o in
  let o := set_optional ElicitationCapability_to_json "elicitation" (cc_elicitation c) o in
  let o := set_optional UnitCapability_to_json "tasks" (cc_tasks c) o in
  let o := set_optional ExperimentalCapability_to_json "experimental" (cc_experimental c) o in
  JObject o.

Definition ClientCapabilities_from_json (j : json) : outcome ClientCapabilities :=
  roots ← get_optional RootsCapability_from_json j "roots";
  sampling ← get_optional SamplingCapability_from_json j "sampling";
  elicitation ← get_optional ElicitationCapability_from_json j "elicitation";
  tasks ← get_optional UnitCapability_from_json j "tasks";
  experimental ← get_optional ExperimentalCapability_from_json j "experimental";
  Val (mkClientCaps roots sampling elicitation tasks experimental).

(** ** Initialize payloads *)

Record Implementation := mkImplementation {
  impl_name : string;
  impl_title : option string;
  impl_version : string;
}.

Definition Implementation_to_json (i : Implementation) : json :=
  JObject (set_optional JString "title" (impl_title i)
             (make_object [("name", JString (impl_name i)); ("version", JString (impl_version i))])).

Definition Implementation_from_json (j : json) : outcome Implementation :=
  n ← at_key "name" j;
  name ← get_string n;
  v ← at_key "version" j;
  version ← get_string v;
  title ← get_optional get_string j "title";
  Val (mkImplementation name title version).

Record InitializeParams := mkInitializeParams {
  ip_protocol_version : string;
  ip_capabilities : ClientCapabilities;
  ip_client_info : Implementation;
}.

Definition InitializeParams_to_json (p : InitializeParams) : json :=
  JObject (make_object [("protocolVersion", JString (ip_protocol_version p));
                        ("capabilities", ClientCapabilities_to_json (ip_capabilities p));
                        ("clientInfo", Implementation_to_json (ip_client_info p))]).

Definition InitializeParams_from_json (j : json) : outcome InitializeParams :=
  v ← at_key "protocolVersion" j;
  version ← get_string v;
  c ← value_or get_json "capabilities" (JObject []) j;
  capabilities ← ClientCapabilities_from_json c;
  i ← at_key "clientInfo" j;
  client_info ← Implementation_from_json i;
  Val (mkInitializeParams version capabilities client_info).

Record InitializeResult := mkInitializeResult {
  ir_protocol_version : string;
  ir_capabilities : ServerCapabilities;
  ir_server_info : Implementation;
  ir_instructions : option string;
}.

Definition InitializeResult_to_json (r : InitializeResult) : json :=
  JObject (set_optional JString "instructions" (ir_instructions r)
             (make_object [("protocolVersion", JString (ir_protocol_version r));
                           ("capabilities", ServerCapabilities_to_json (ir_capabilities r));
                           ("serverInfo", Implementation_to_json (ir_server_info r))])).

Definition InitializeResult_from_json (j : json) : outcome InitializeResult :=
  v ← at_key "protocolVersion" j;
  version ← get_string v;
  c ← value_or get_json "capabilities" (JObject []) j;
  capabilities ← ServerCapabilities_from_json c;
  i ← at_key "serverInfo" j;
  server_info ← Implementation_from_json i;
  instructions ← get_optional get_string j "instructions";
  Val (mkInitializeResult version capabilities server_info instructions).

(** ** Round trips *)

(** An experimental capability whose value is null is dropped on the wire. *)
Definition wf_experimental (e : option ExperimentalCapability) : Prop :=
  forall x, e = Some x -> is_null (ec_value x) = false.

Lemma get_capability_flag_set k v o :
  obj_find k o = (JBool <$> v) -> get_capability_flag (JObject o) k = v.
Proof. unfold get_capability_flag, jfind. intros ->. by destruct v. Qed.

Lemma ResourcesCapability_roundtrip c :
  ResourcesCapability_from_json (ResourcesCapability_to_json c) = Val c.
Proof. by destruct c as [[[]|] [[]|]]. Qed.

Lemma SamplingCapability_roundtrip c :
  SamplingCapability_from_json (SamplingCapability_to_json c) = Val c.
Proof. by destruct c as [[[]|] [[]|]]. Qed.

Lemma ElicitationCapability_roundtrip c :
  ElicitationCapability_from_json (ElicitationCapability_to_json c) = Val c.
Proof. by destruct c as [[[]|] [[]|]]. Qed.

Lemma PromptsCapability_roundtrip c :
  PromptsCapability_from_json (PromptsCapability_to_json c) = Val c.
Proof. by destruct c as [[[]|]]. Qed.

Lemma ToolsCapability_roundtrip c :
  ToolsCapability_from_json (ToolsCapability_to_json c) = Val c.
Proof. by destruct c as [[[]|]]. Qed.

Lemma RootsCapability_roundtrip c :
  RootsCapability_from_json (RootsCapability_to_json c) = Val c.
Proof. by destruct c as [[[]|]]. Qed.

#[export] Hint Resolve ResourcesCapability_roundtrip SamplingCapability_roundtrip
  ElicitationCapability_roundtrip PromptsCapability_roundtrip ToolsCapability_roundtrip
  RootsCapability_roundtrip : roundtrip.

Lemma ServerCapabilities_roundtrip c :
  wf_experimental (sc_experimental c) ->
  ServerCapabilities_from_json (ServerCapabilities_to_json c) = Val c.
Proof.
  intros Hexp. destruct c as [l p r t co ta e]; simpl in Hexp.
  unfold ServerCapabilities_from_json, ServerCapabilities_to_json; simpl.
  read_optional UnitCapability_to_json "logging" l.
  read_optional PromptsCapability_to_json "prompts" p.
  read_optional ResourcesCapability_to_json "resources" r.
  read_optional ToolsCapability_to_json "tools" t.
  read_optional UnitCapability_to_json "completions" co.
  read_optional UnitCapability_to_json "tasks" ta.
  rewrite (get_optional_set ExperimentalCapability_to_json _ _ "experimental" e);
    [done|autorewrite with json; by destruct e |].
  intros [x] ->. split; [done|]. by apply (Hexp (mkExperimentalCap x)).
Qed.

Lemma ClientCapabilities_roundtrip c :
  wf_experimental (cc_experimental c) ->
  ClientCapabilities_from_json (ClientCapabilities_to_json c) = Val c.
Proof.
  intros Hexp. destruct c as [r sa el ta e]; simpl in Hexp.
  unfold ClientCapabilities_from_json, ClientCapabilities_to_json; simpl.
  read_optional RootsCapability_to_json "roots" r.
  read_optional SamplingCapability_to_json "sampling" sa.
  read_optional ElicitationCapability_to_json "elicitation" el.
  read_optional UnitCapability_to_json "tasks" ta.
  rewrite (get_optional_set ExperimentalCapability_to_json _ _ "experimental" e);
    [done|autorewrite with json; by destruct e |].
  intros [x] ->. split; [done|]. by apply (Hexp (mkExperimentalCap x)).
Qed.

Lemma Implementation_roundtrip i :
  Implementation_from_json (Implementation_to_json i) = Val i.
Proof. by destruct i as [n [t|] v]. Qed.

Lemma InitializeParams_read p :
  wf_experimental (cc_experimental (ip_capabilities p)) ->
  InitializeParams_from_json (InitializeParams_to_json p) = Val p.
Proof.
  intros Hexp. destruct p as [v c i]; simpl in Hexp.
  unfold InitializeParams_from_json, InitializeParams_to_json. json_lookup.
  rewrite ClientCapabilities_roundtrip by done. simpl.
  by rewrite Implementation_roundtrip.
Qed.

Lemma InitializeResult_read r :
  wf_experimental (sc_experimental (ir_capabilities r)) ->
  InitializeResult_from_json (InitializeResult_to_json r) = Val r.
Proof.
  intros Hexp. destruct r as [v c i [s|]]; simpl in Hexp;
    unfold InitializeResult_from_json, InitializeResult_to_json; json_lookup;
    rewrite ServerCapabilities_roundtrip by done; simpl;
    by rewrite Implementation_roundtrip.
Qed.
