(* ===== verification/Message.v ===== *)
(** * JSON-RPC 2.0 messages

    include/mcp/jsonrpc/message.hpp and src/jsonrpc/message.cpp: the message
    types, their JSON form, and the parser for single messages and batches. *)

From S2P Require Import Prelude Json Core Types.

Record JsonRpcRequest := mkRequest {
  req_id : RequestId;
  req_method : string;
  req_params : option json;
}.

Record JsonRpcNotification := mkNotification {
  ntf_method : string;
  ntf_params : option json;
}.

Record JsonRpcResponse := mkResponse {
  rsp_id : option RequestId;
  rsp_result : option json;
  rsp_error : option Error;
}.

Definition is_error (r : JsonRpcResponse) : bool :=
  match rsp_error r with Some _ => true | None => false end.

(** [std::variant<JsonRpcRequest, JsonRpcNotification, JsonRpcResponse>]. *)
Inductive Message :=
| MRequest (r : JsonRpcRequest)
| MNotification (n : JsonRpcNotification)
| MResponse (r : JsonRpcResponse).

#[export] Instance JsonRpcRequest_eq_dec : EqDecision JsonRpcRequest.
Proof. solve_decision. Defined.
#[export] Instance JsonRpcNotification_eq_dec : EqDecision JsonRpcNotification.
Proof. solve_decision. Defined.
#[export] Instance JsonRpcResponse_eq_dec : EqDecision JsonRpcResponse.
Proof. solve_decision. Defined.
#[export] Instance Message_eq_dec : EqDecision Message.
Proof. solve_decision. Defined.

(** ** Serialisation to JSON values *)

Definition request_to_json (r : JsonRpcRequest) : json :=
  JObject (set_optional id "params" (req_params r)
             (make_object [("jsonrpc", JString "2.0"); ("id", request_id_to_json (req_id r));
                           ("method", JString (req_method r))])).

Definition notification_to_json (n : JsonRpcNotification) : json :=
  JObject (set_optional id "params" (ntf_params n)
             (make_object [("jsonrpc", JString "2.0"); ("method", JString (ntf_method n))])).

Definition response_to_json (r : JsonRpcResponse) : json :=
  let o := make_object [("jsonrpc", JString "2.0")] in
  let o := obj_set "id" (match rsp_id r with Some i => request_id_to_json i | None => JNull end) o in
  JObject (match rsp_error r with
           | Some e => obj_set "error" (Error_to_json e) o
           | None => obj_set "result" (default JNull (rsp_result r)) o
           end).

Definition message_to_json (m : Message) : json :=
  match m with
  | MRequest r => request_to_json r
  | MNotification n => notification_to_json n
  | MResponse r => response_to_json r
  end.

(** ** Parsing of JSON values *)

Definition valid_params (j : json) : bool := is_object j || is_array j.

Definition version_ok (j : json) : bool :=
  match jfind "jsonrpc" j with
  | Some (JString v) => String.eqb v "2.0"
  | _ => false
  end.

(** [params]: absent and null both give no params. *)
Definition parse_params (j : json) : Result (option json) :=
  match jfind "params" j with
  | Some p =>
      if is_null p then Ok None
      else if valid_params p then Ok (Some p)
      else Err (error InvalidRequest "params must be an object or array")
  | None => Ok None
  end.

Definition parse_call (j method_v : json) (id_it : option json) : Result Message :=
  match method_v with
  | JString method =>
      match parse_params j with
      | Err e => Err e
      | Ok params =>
          match id_it with
          | None => Ok (MNotification (mkNotification method params))
          | Some i =>
              match request_id_from_json i with
              | None => Err (error InvalidRequest "request id must be a string or integer")
              | Some id => Ok (MRequest (mkRequest id method params))
              end
          end
      end
  | _ => Err (error InvalidRequest "method must be a string")
  end.

Definition parse_response_id (i : json) : Result (option RequestId) :=
  if is_null i then Ok None
  else match request_id_from_json i with
       | None => Err (error InvalidRequest "response id must be a string, integer, or null")
       | Some id => Ok (Some id)
       end.

Definition parse_response (j : json) (id_it : option json) : outcome (Result Message) :=
  let has_result := contains "result" j in
  let error_it := jfind "error" j in
  let has_error := match error_it with Some _ => true | None => false end in
  if Bool.eqb has_result has_error
  then Val (Err (error InvalidRequest "response must contain exactly one of result/error"))
  else match id_it with
  | None => Val (Err (error InvalidRequest "response is missing id"))
  | Some i =>
      match parse_response_id i with
      | Err e => Val (Err e)
      | Ok rid =>
          match error_it with
          | Some err =>
              if negb (is_object err) || negb (contains "code" err) || negb (contains "message" err)
              then Val (Err (error InvalidRequest "malformed error object"))
              else e ← Error_from_json err;
                   Val (Ok (MResponse (mkResponse rid None (Some e))))
          | None =>
              r ← at_key "result" j;
              Val (Ok (MResponse (mkResponse rid (Some r) None)))
          end
      end
  end.

Definition parse_message (j : json) : outcome (Result Message) :=
  if negb (is_object j) then Val (Err (error InvalidRequest "message is not a JSON object"))
  else if negb (version_ok j) then Val (Err (error InvalidRequest "missing or invalid jsonrpc version"))
  else match jfind "method" j with
       | Some m => Val (parse_call j m (jfind "id" j))
       | None => parse_response j (jfind "id" j)
       end.

(** ** Wire text

    [json::parse] and [json::dump] of the vendored library are an interface:
    parsing the compact dump of a value gives the value back (non-negative
    integers come back as [number_unsigned]), and the dump is one line.  The
    domain excludes values [dump] rejects or alters: strings that are not
    UTF-8 and non-finite doubles. *)

Fixpoint normalize (j : json) : json :=
  match j with
  | JInt z => if (0 <=? z)%Z then JUInt z else JInt z
  | JArray l => JArray (normalize <$> l)
  | JObject o => JObject ((fun kv => (kv.1, normalize kv.2)) <$> o)
  | _ => j
  end.

(** Continuation ranges that must follow a UTF-8 lead byte. *)
Definition utf8_tail (b : N) : option (list (N * N)) :=
  let c := (128, 191)%N in
  if (b <=? 127)%N then Some []
  else if (194 <=? b)%N && (b <=? 223)%N then Some [c]
  else if (b =? 224)%N then Some [(160, 191)%N; c]
  else if ((225 <=? b)%N && (b <=? 236)%N) || (b =? 238)%N || (b =? 239)%N then Some [c; c]
  else if (b =? 237)%N then Some [(128, 159)%N; c]
  else if (b =? 240)%N then Some [(144, 191)%N; c; c]
  else if (241 <=? b)%N && (b <=? 243)%N then Some [c; c; c]
  else if (b =? 244)%N then Some [(128, 143)%N; c; c]
  else None.

Fixpoint utf8_go (pending : list (N * N)) (s : string) : bool :=
  match s, pending with
  | EmptyString, [] => true
  | EmptyString, _ :: _ => false
  | String a s', [] => match utf8_tail (code a) with Some p => utf8_go p s' | None => false end
  | String a s', (lo, hi) :: p => (lo <=? code a)%N && (code a <=? hi)%N && utf8_go p s'
  end.

Definition utf8 (s : string) : bool := utf8_go [] s.

Fixpoint dumpable (j : json) : bool :=
  match j with
  | JString s => utf8 s
  | JFloat d => double_finite d
  | JArray l => forallb dumpable l
  | JObject o => forallb (fun kv => utf8 kv.1 && dumpable kv.2) o
  | _ => true
  end.

Class JsonText := {
  json_parse : string -> option json;       (** [json::parse(text, nullptr, false)]; [None] is discarded *)
  json_dump : json -> outcome string;       (** [j.dump()]; throws on invalid UTF-8 *)
}.

Class JsonTextLaws `{JsonText} : Prop := {
  json_dump_parse j : wf_json j -> dumpable j = true ->
    exists s, json_dump j = Val s /\ json_parse s = Some (normalize j)
              /\ find_char LF s = None /\ s <> EmptyString
              /\ find_char CR s = None;
}.

Record ParsedFrame := mkFrame {
  pf_messages : list Message;
  pf_item_errors : list Error;
  pf_was_batch : bool;
}.

Section wire.
Context `{JsonText}.

Definition serialize_message (m : Message) : outcome string := json_dump (message_to_json m).

Definition serialize_batch (ms : list Message) : outcome string :=
  json_dump (JArray (message_to_json <$> ms)).

(** The loop over a batch: invalid elements go to [item_errors]. *)
Fixpoint parse_items (l : list json) (frame : ParsedFrame) : outcome ParsedFrame :=
  match l with
  | [] => Val frame
  | item :: l' =>
      parsed ← parse_message item;
      parse_items l'
        (match parsed with
         | Ok m => mkFrame (pf_messages frame ++ [m]) (pf_item_errors frame) (pf_was_batch frame)
         | Err e => mkFrame (pf_messages frame) (pf_item_errors frame ++ [e]) (pf_was_batch frame)
         end)
  end.

Definition parse_json_frame (j : json) : outcome (Result ParsedFrame) :=
  match j with
  | JArray [] => Val (Err (error InvalidRequest "batch must not be empty"))
  | JArray l => f ← parse_items l (mkFrame [] [] true); Val (Ok f)
  | _ => m ←? parse_message j; Val (Ok (mkFrame [m] [] false))
  end.

Definition parse_frame (text : string) : outcome (Result ParsedFrame) :=
  match json_parse text with
  | None => Val (Err (error ParseError "invalid JSON"))
  | Some j => parse_json_frame j
  end.

End wire.

(** ** A concrete wire format

    A small text format that satisfies [JsonTextLaws]: the bits of the generic
    encoding of the normalised value.  It stands for the JSON text of the
    vendored library when a theorem is applied to concrete inputs. *)

Module BitText.

Fixpoint bits (p : positive) : string :=
  match p with
  | xH => String "1"%char EmptyString
  | xO p => String "o"%char (bits p)
  | xI p => String "i"%char (bits p)
  end.

Fixpoint unbits (s : string) : option positive :=
  match s with
  | String "1"%char EmptyString => Some xH
  | String "o"%char s => xO <$> unbits s
  | String "i"%char s => xI <$> unbits s
  | _ => None
  end.

Definition parse (s : string) : option json := p ← unbits s; decode p.
Definition dump (j : json) : outcome string := Val (bits (encode (normalize j))).

Lemma unbits_bits p : unbits (bits p) = Some p.
Proof. induction p as [p IH|p IH|]; simpl; by rewrite ?IH. Qed.

Lemma bits_one_line p :
  find_char LF (bits p) = None /\ bits p <> EmptyString /\ find_char CR (bits p) = None.
Proof.
  induction p as [p (IH & _ & IH')|p (IH & _ & IH')|]; [..|done];
    (split; [|split; [done|]]); unfold find_char in *; cbn; cbn in IH, IH'; by rewrite ?IH, ?IH'.
Qed.

#[export] Instance text : JsonText := {| json_parse := parse; json_dump := dump |}.

#[export] Instance laws : JsonTextLaws.
Proof.
  constructor. intros j _ _. exists (bits (encode (normalize j))).
  split; [done|]. split.
  - simpl. unfold parse. rewrite unbits_bits. simpl. by rewrite decode_encode.
  - apply bits_one_line.
Qed.

End BitText.

(** ** Well-formed messages *)

Definition wf_error (e : Error) : Prop :=
  in_s 32 (err_code e) /\ (forall d, err_data e = Some d -> wf_json d /\ is_null d = false).

Definition wf_message (m : Message) : Prop :=
  match m with
  | MRequest r =>
      wf_id (req_id r) /\ (forall p, req_params r = Some p -> wf_json p /\ valid_params p = true)
  | MNotification n => forall p, ntf_params n = Some p -> wf_json p /\ valid_params p = true
  | MResponse r =>
      (forall i, rsp_id r = Some i -> wf_id i) /\
      match rsp_result r, rsp_error r with
      | Some j, None => wf_json j
      | None, Some e => wf_error e
      | _, _ => False
      end
  end.

Definition normalize_error (e : Error) : Error :=
  mkError (err_code e) (err_message e) (normalize <$> err_data e).

Definition normalize_message (m : Message) : Message :=
  match m with
  | MRequest r => MRequest (mkRequest (req_id r) (req_method r) (normalize <$> req_params r))
  | MNotification n => MNotification (mkNotification (ntf_method n) (normalize <$> ntf_params n))
  | MResponse r =>
      MResponse (mkResponse (rsp_id r) (normalize <$> rsp_result r) (normalize_error <$> rsp_error r))
  end.

(** *** [message_to_json] then [parse_message] *)

Lemma null_valid_params p : valid_params p = true -> is_null p = false.
Proof. by destruct p. Qed.

Lemma parse_params_set o params :
  obj_find "params" o = params ->
  (forall p, params = Some p -> valid_params p = true) ->
  parse_params (JObject o) = Ok params.
Proof.
  unfold parse_params, jfind. intros -> H. destruct params as [p|]; [|done].
  specialize (H p eq_refl). by rewrite (null_valid_params _ H), H.
Qed.

Lemma Error_roundtrip e :
  in_s 32 (err_code e) -> (forall d, err_data e = Some d -> is_null d = false) ->
  Error_from_json (Error_to_json e) = Val e.
Proof.
  intros Hc Hd. destruct e as [c m d]; simpl in *.
  unfold Error_from_json, Error_to_json. json_lookup.
  rewrite wrap_s_id by done.
  rewrite (get_optional_set id _ _ "data" d); [done|autorewrite with json; by destruct d|].
  intros x ->. split; [done|]. by apply Hd.
Qed.

Lemma parse_request_to_json r :
  (forall p, req_params r = Some p -> valid_params p = true) ->
  parse_message (request_to_json r) = Val (Ok (MRequest r)).
Proof.
  intros Hp. destruct r as [i m p]; simpl in *.
  unfold parse_message, request_to_json, version_ok; simpl. autorewrite with json. simpl.
  unfold parse_call. rewrite (parse_params_set _ p); [|autorewrite with json; by destruct p|done].
  by rewrite request_id_roundtrip.
Qed.

Lemma parse_notification_to_json n :
  (forall p, ntf_params n = Some p -> valid_params p = true) ->
  parse_message (notification_to_json n) = Val (Ok (MNotification n)).
Proof.
  intros Hp. destruct n as [m p]; simpl in *.
  unfold parse_message, notification_to_json, version_ok; simpl. autorewrite with json. simpl.
  unfold parse_call. by rewrite (parse_params_set _ p); [|autorewrite with json; by destruct p|done].
Qed.

Lemma parse_response_id_to_json i :
  parse_response_id (match i with Some i => request_id_to_json i | None => JNull end) = Ok i.
Proof. by destruct i as [[]|]. Qed.

Lemma parse_response_to_json r :
  wf_message (MResponse r) ->
  parse_message (response_to_json r) = Val (Ok (MResponse r)).
Proof.
  destruct r as [i [j|] [e|]]; simpl; intros [_ H]; try done;
    unfold parse_message, response_to_json, version_ok; simpl; autorewrite with json; simpl;
    autorewrite with json; simpl; unfold parse_response; json_lookup; autorewrite with json; simpl;
    rewrite parse_response_id_to_json; simpl; [done|].
  destruct H as [Hc Hd]. 
  rewrite Error_roundtrip; [done|done|]. intros d Hd'. by apply Hd.
Qed.

Lemma parse_message_to_json m :
  wf_message m -> parse_message (message_to_json m) = Val (Ok m).
Proof.
  destruct m as [r|n|r]; simpl.
  - intros [_ H]. apply parse_request_to_json. intros p Hp. by apply H.
  - intros H. apply parse_notification_to_json. intros p Hp. by apply H.
  - apply parse_response_to_json.
Qed.

(** *** Reading a value back from its text changes nothing but number tags *)

Lemma obj_find_normalize k (o : object) :
  obj_find k ((fun kv => (kv.1, normalize kv.2)) <$> o) = normalize <$> obj_find k o.
Proof.
  induction o as [|[k' v] o IH]; simpl; [done|]. by destruct (String.eqb k k').
Qed.

Create Rewrite HintDb normalize.
Create HintDb wf.

Lemma jfind_normalize k j : jfind k (normalize j) = normalize <$> jfind k j.
Proof. destruct j; simpl; try done; [by destruct (0 <=? z)%Z | apply obj_find_normalize]. Qed.

Lemma is_null_normalize j : is_null (normalize j) = is_null j.
Proof. destruct j; simpl; try done. by destruct (0 <=? z)%Z. Qed.
Lemma is_object_normalize j : is_object (normalize j) = is_object j.
Proof. destruct j; simpl; try done. by destruct (0 <=? z)%Z. Qed.
Lemma is_array_normalize j : is_array (normalize j) = is_array j.
Proof. destruct j; simpl; try done. by destruct (0 <=? z)%Z. Qed.
Lemma type_name_normalize j : type_name (normalize j) = type_name j.
Proof. destruct j; simpl; try done. by destruct (0 <=? z)%Z. Qed.
Lemma valid_params_normalize j : valid_params (normalize j) = valid_params j.
Proof. unfold valid_params. by rewrite is_object_normalize, is_array_normalize. Qed.
Lemma contains_normalize k j : contains k (normalize j) = contains k j.
Proof. unfold contains. rewrite jfind_normalize. by destruct (jfind k j). Qed.

#[export] Hint Rewrite jfind_normalize is_null_normalize is_object_normalize is_array_normalize
  type_name_normalize valid_params_normalize contains_normalize : normalize.

Lemma wf_jfind k j v : wf_json j -> jfind k j = Some v -> wf_json v.
Proof.
  destruct j as [| | | | | | |o]; simpl jfind; try done.
  rewrite wf_json_object. intros [_ Hall] Hf.
  rewrite Forall_forall in Hall. by apply (Hall (k, v)), obj_find_in.
Qed.

Lemma request_id_from_json_normalize j :
  wf_json j -> request_id_from_json (normalize j) = request_id_from_json j.
Proof.
  destruct j; simpl; try done. intros H. destruct (0 <=? z)%Z; [|done].
  simpl. by rewrite wrap_s_id.
Qed.

Lemma get_string_normalize j : get_string (normalize j) = get_string j.
Proof. destruct j; simpl; try done. by destruct (0 <=? z)%Z. Qed.

Lemma get_int_normalize j : get_int (normalize j) = get_int j.
Proof. destruct j; simpl; try done. by destruct (0 <=? z)%Z. Qed.

Lemma at_key_normalize k j : at_key k (normalize j) = normalize <$> at_key k j.
Proof.
  destruct j; simpl; try done; [by destruct (0 <=? z)%Z|].
  rewrite obj_find_normalize. by destruct (obj_find k o).
Qed.

Lemma version_ok_normalize j : version_ok (normalize j) = version_ok j.
Proof.
  unfold version_ok. rewrite jfind_normalize.
  destruct (jfind "jsonrpc" j) as [[]|]; simpl; try done. by destruct (0 <=? z)%Z.
Qed.

Lemma Error_from_json_normalize j :
  Error_from_json (normalize j) = normalize_error <$> Error_from_json j.
Proof.
  unfold Error_from_json, get_optional.
  rewrite !at_key_normalize, jfind_normalize.
  destruct (at_key "code" j) as [c| |]; simpl; try done.
  rewrite get_int_normalize. destruct (get_int c); simpl; try done.
  destruct (at_key "message" j) as [m| |]; simpl; try done.
  rewrite get_string_normalize. destruct (get_string m); simpl; try done.
  destruct (jfind "data" j) as [d|]; simpl; [|done].
  rewrite is_null_normalize. by destruct (is_null d).
Qed.

Definition fmap_result {A B} (f : A -> B) (r : Result A) : Result B :=
  match r with Ok a => Ok (f a) | Err e => Err e end.

Lemma parse_call_normalize j m i :
  wf_json j -> wf_json (default JNull i) ->
  parse_call (normalize j) (normalize m) (normalize <$> i)
  = fmap_result normalize_message (parse_call j m i).
Proof.
  intros Hj Hi. unfold parse_call.
  destruct m; simpl; try done; [by destruct (0 <=? z)%Z|].
  unfold parse_params. rewrite jfind_normalize.
  destruct (jfind "params" j) as [p|]; simpl; rewrite ?is_null_normalize, ?valid_params_normalize.
  - destruct (is_null p); simpl; [|destruct (valid_params p); simpl; [|done]];
      (destruct i as [i|]; simpl; [|done]);
      rewrite request_id_from_json_normalize by done; by destruct (request_id_from_json i).
  - destruct i as [i|]; simpl; [|done].
    rewrite request_id_from_json_normalize by done. by destruct (request_id_from_json i).
Qed.

Lemma parse_response_normalize j i :
  wf_json (default JNull i) ->
  parse_response (normalize j) (normalize <$> i)
  = fmap_result normalize_message <$> parse_response j i.
Proof.
  intros Hi. unfold parse_response.
  rewrite contains_normalize, jfind_normalize, at_key_normalize.
  destruct (jfind "error" j) as [e|] eqn:He; destruct (contains "result" j); simpl; try done;
    destruct i as [i|]; simpl; try done;
    unfold parse_response_id; rewrite is_null_normalize;
    try rewrite request_id_from_json_normalize by done.
  - destruct (is_null i); simpl; [|destruct (request_id_from_json i); simpl; [|done]];
      rewrite is_object_normalize, !contains_normalize;
      (destruct (negb (is_object e) || _ || _); [done|]);
      rewrite Error_from_json_normalize; by destruct (Error_from_json e).
  - destruct (is_null i); simpl; [|destruct (request_id_from_json i); simpl; [|done]];
      by destruct (at_key "result" j).
Qed.

Lemma parse_message_normalize j :
  wf_json j ->
  parse_message (normalize j) = fmap_result normalize_message <$> parse_message j.
Proof.
  intros Hj. unfold parse_message.
  rewrite is_object_normalize, version_ok_normalize, !jfind_normalize.
  destruct (negb (is_object j)); [done|]. destruct (negb (version_ok j)); [done|].
  assert (Hi : wf_json (default JNull (jfind "id" j))).
  { destruct (jfind "id" j) as [i|] eqn:E; [by eapply wf_jfind|done]. }
  destruct (jfind "method" j) as [m|]; simpl.
  - by rewrite parse_call_normalize.
  - by apply parse_response_normalize.
Qed.

(** *** Messages are well-formed JSON *)

Lemma wf_obj_set k v o :
  wf_json v -> wf_json (JObject o) -> wf_json (JObject (obj_set k v o)).
Proof.
  rewrite !wf_json_object. intros Hv [Hs Ho]. split; [by apply obj_set_sorted|].
  by apply obj_set_Forall.
Qed.

Lemma wf_set_optional {T} (f : T -> json) k v o :
  (forall x, v = Some x -> wf_json (f x)) -> wf_json (JObject o) ->
  wf_json (JObject (set_optional f k v o)).
Proof. intros Hv Ho. destruct v; simpl set_optional; [apply wf_obj_set; auto|done]. Qed.

Lemma wf_make_object l :
  Forall (fun kv => wf_json kv.2) l -> wf_json (JObject (make_object l)).
Proof.
  intros Hl. rewrite wf_json_object. split; [apply make_object_sorted|].
  unfold make_object. assert (H : Forall (fun kv : string * json => wf_json kv.2) []) by constructor.
  revert H. generalize (@nil (string * json)) as o.
  induction Hl as [|[k v] l Hv _ IH]; intros o Ho; simpl; [done|].
  apply IH. unfold obj_emplace. destruct (obj_find k o); [done|]. by apply obj_set_Forall.
Qed.

Lemma wf_id_json i : wf_id i -> wf_json (request_id_to_json i).
Proof. by destruct i. Qed.

#[export] Hint Resolve wf_obj_set wf_set_optional wf_make_object wf_id_json : wf.

Lemma in_s_weaken z : in_s 32 z -> in_s 64 z.
Proof. unfold in_s, modulus. intros H. change (2 ^ (64 - 1))%Z with (2 ^ 63)%Z. lia. Qed.

Lemma wf_Error_json e : wf_error e -> wf_json (Error_to_json e).
Proof.
  intros [Hc Hd]. apply wf_set_optional.
  - intros x Hx. by apply Hd.
  - apply wf_make_object. rewrite !Forall_cons, Forall_nil. simpl.
    split; [by apply in_s_weaken|done].
Qed.

Lemma wf_message_json m : wf_message m -> wf_json (message_to_json m).
Proof.
  destruct m as [r|n|r]; simpl message_to_json.
  - intros [Hi Hp]. apply wf_set_optional; [intros p E; by apply Hp|].
    apply wf_make_object. rewrite !Forall_cons, Forall_nil. simpl.
    split; [done|]. split; [by apply wf_id_json|done].
  - intros Hp. apply wf_set_optional; [intros p E; by apply Hp|].
    apply wf_make_object. by repeat constructor.
  - intros [Hi H]. unfold response_to_json.
    assert (Hid : wf_json (match rsp_id r with Some i => request_id_to_json i | None => JNull end)).
    { destruct (rsp_id r); [by apply wf_id_json, Hi|done]. }
    destruct (rsp_error r) as [e|]; simpl in H;
      (apply wf_obj_set; [|apply wf_obj_set; [done|apply wf_make_object; by repeat constructor]]).
    + destruct (rsp_result r); [done|]. by apply wf_Error_json.
    + by destruct (rsp_result r).
Qed.

(** ** Batches *)

(** What a list of per-element parse results turns into. *)
Definition ok_messages (rs : list (Result Message)) : list Message :=
  omap (fun r => match r with Ok m => Some m | Err _ => None end) rs.
Definition item_errors (rs : list (Result Message)) : list Error :=
  omap (fun r => match r with Ok _ => None | Err e => Some e end) rs.

Lemma parse_items_app l frame rs :
  mapM_outcome parse_message l = Val rs ->
  parse_items l frame =
    Val (mkFrame (pf_messages frame ++ ok_messages rs) (pf_item_errors frame ++ item_errors rs)
                 (pf_was_batch frame)).
Proof.
  revert frame rs. induction l as [|j l IH]; intros frame rs; simpl.
  - intros [= <-]. simpl. rewrite !app_nil_r. by destruct frame.
  - destruct (parse_message j) as [r| |]; simpl; try done.
    destruct (mapM_outcome parse_message l) as [rs'| |] eqn:E; simpl; try done.
    intros [= <-]. rewrite (IH _ rs' eq_refl).
    destruct r; simpl; by rewrite <- ?app_assoc.
Qed.

Lemma parse_items_Val l frame f :
  parse_items l frame = Val f -> exists rs, mapM_outcome parse_message l = Val rs.
Proof.
  revert frame. induction l as [|j l IH]; intros frame; simpl; [eauto|].
  destruct (parse_message j) as [r| |]; simpl; try done.
  intros H. destruct (IH _ H) as [rs ->]. simpl. eauto.
Qed.

Lemma mapM_parse_to_json ms :
  Forall wf_message ms ->
  mapM_outcome parse_message (normalize <$> (message_to_json <$> ms))
  = Val (Ok <$> (normalize_message <$> ms)).
Proof.
  induction 1 as [|m ms Hm _ IH]; [done|].
  rewrite !fmap_cons. cbn [mapM_outcome].
  rewrite parse_message_normalize by by apply wf_message_json.
  rewrite parse_message_to_json by done. cbn [fmap outcome_fmap mbind outcome_bind].
  by rewrite IH.
Qed.

Lemma ok_messages_Ok ms : ok_messages (Ok <$> ms) = ms.
Proof. unfold ok_messages. induction ms as [|m ms IH]; csimpl; [done|]. by rewrite IH. Qed.

Lemma item_errors_Ok ms : item_errors (Ok <$> ms) = [].
Proof. unfold item_errors. induction ms as [|m ms IH]; csimpl; done. Qed.

Lemma ok_messages_item_errors_length rs :
  length (ok_messages rs) + length (item_errors rs) = length rs.
Proof.
  unfold ok_messages, item_errors.
  induction rs as [|[m|e] rs IH]; csimpl; [done|..]; lia.
Qed.

(** ** Exceptions of the parser *)

(** An error object whose [code] is neither number nor boolean, or whose
    [message] is not a string. *)
Definition mistyped_error_object (j : json) : Prop :=
  exists err c m i,
    is_object j = true /\ version_ok j = true /\ jfind "method" j = None /\
    contains "result" j = false /\ jfind "error" j = Some err /\ is_object err = true /\
    jfind "id" j = Some i /\ has_value (parse_response_id i) = true /\
    jfind "code" err = Some c /\ jfind "message" err = Some m /\
    (is_number c || is_boolean c = false \/
     (exists z, get_int c = Val z) /\ is_string m = false).

Lemma jfind_at_key k j v : jfind k j = Some v -> at_key k j = Val v.
Proof. destruct j; simpl; try done. by intros ->. Qed.

Lemma contains_jfind k j : contains k j = true -> exists v, jfind k j = Some v.
Proof. unfold contains. destruct (jfind k j); eauto. done. Qed.

Lemma get_int_throw c x :
  get_int c = Throw x -> is_number c || is_boolean c = false.
Proof.
  destruct c; simpl; try done. unfold cast_double.
  destruct (double_trunc d); [by case_decide|done].
Qed.

Lemma Error_from_json_throws err c m :
  jfind "code" err = Some c -> jfind "message" err = Some m ->
  (exists x, Error_from_json err = Throw x) <->
  (is_number c || is_boolean c = false \/ (exists z, get_int c = Val z) /\ is_string m = false).
Proof.
  intros Hc Hm. unfold Error_from_json.
  rewrite (jfind_at_key _ _ _ Hc), (jfind_at_key _ _ _ Hm). cbn [mbind outcome_bind].
  destruct (get_int c) as [z|x|] eqn:Ec; cbn [outcome_bind].
  - destruct m as [| | | | |s| |]; cbn [get_string outcome_bind is_string].
    all: try (split; [intros _; right; split; [by eexists|done]|intros _; by eexists]).
    unfold get_optional, get_json. split.
    + intros [x H]. destruct (jfind "data" err) as [d|]; simpl in H; [|done].
      by destruct (is_null d).
    + intros [H|[_ H]]; [|done].
      destruct c; simpl in *; try done.
  - split; [|intros _; by eexists]. intros _. left. by eapply get_int_throw.
  - split; [by intros [x H]|]. intros [H|[[z H] _]]; [|done].
    by destruct c.
Qed.

Lemma parse_message_throws_elim j x : parse_message j = Throw x -> mistyped_error_object j.
Proof.
  unfold parse_message, parse_response. intros H.
  destruct (is_object j) eqn:Ho; simpl in H; [|done].
  destruct (version_ok j) eqn:Hv; simpl in H; [|done].
  destruct (jfind "method" j) eqn:Hm; [done|].
  destruct (jfind "error" j) as [err|] eqn:He, (contains "result" j) eqn:Hr; simpl in H; try done;
    destruct (jfind "id" j) as [i|] eqn:Hi; try done;
    destruct (parse_response_id i) as [rid|] eqn:Hid; try done.
  - destruct (is_object err) eqn:Heo; simpl in H; [|done].
    destruct (contains "code" err) eqn:Hc; simpl in H; [|done].
    destruct (contains "message" err) eqn:Hms; simpl in H; [|done].
    apply contains_jfind in Hc as [c Hc]. apply contains_jfind in Hms as [m Hms].
    exists err, c, m, i. rewrite Hid. do 9 (split; [done|]). split; [done|].
    apply (Error_from_json_throws err c m Hc Hms).
    destruct (Error_from_json err); simpl in H; [done|by eexists|done].
  - apply contains_jfind in Hr as [r Hr]. by rewrite (jfind_at_key _ _ _ Hr) in H.
Qed.

Lemma parse_message_throws_intro j :
  mistyped_error_object j -> exists x, parse_message j = Throw x.
Proof.
  intros (err & c & m & i & Ho & Hv & Hm & Hr & He & Heo & Hi & Hid & Hc & Hms & H).
  unfold parse_message, parse_response. rewrite Ho, Hv, Hm, Hr, He, Hi, Heo. simpl.
  destruct (parse_response_id i); [|done].
  unfold contains. rewrite Hc, Hms. simpl.
  apply (Error_from_json_throws err c m Hc Hms) in H as [x ->]. by exists x.
Qed.

(** ** Parsed messages are well formed *)

Lemma parse_params_wf j ps :
  wf_json j -> parse_params j = Ok ps ->
  forall p, ps = Some p -> wf_json p /\ valid_params p = true.
Proof.
  unfold parse_params. intros Hj. destruct (jfind "params" j) as [v|] eqn:E.
  - destruct (is_null v); [by intros [= <-]|].
    destruct (valid_params v) eqn:Ev; [|done]. intros [= <-] p [= <-].
    split; [by eapply wf_jfind|done].
  - by intros [= <-].
Qed.

Lemma wf_response_id i rid :
  wf_json i -> parse_response_id i = Ok rid -> forall r, rid = Some r -> wf_id r.
Proof.
  unfold parse_response_id. intros Hi. destruct (is_null i); [by intros [= <-]|].
  destruct (request_id_from_json i) eqn:E; [|done]. intros [= <-] r' [= <-].
  by eapply request_id_from_json_wf.
Qed.

Lemma get_int_range c z : get_int c = Val z -> in_s 32 z.
Proof.
  destruct c as [|b|z'|z'|d|s|l|o]; simpl; try done.
  - intros [= <-]. unfold in_s, modulus. destruct b; simpl; lia.
  - intros [= <-]. by apply wrap_s_range.
  - intros [= <-]. by apply wrap_s_range.
  - unfold cast_double. destruct (double_trunc d); [|done]. case_decide; [|done]. by intros [= <-].
Qed.

Lemma Error_from_json_wf err e : wf_json err -> Error_from_json err = Val e -> wf_error e.
Proof.
  unfold Error_from_json, get_optional, get_json. intros Hj H.
  destruct (at_key "code" err) as [c| |]; simpl in H; try done.
  destruct (get_int c) as [z| |] eqn:Ez; simpl in H; try done.
  destruct (at_key "message" err) as [m| |]; simpl in H; try done.
  destruct (get_string m) as [s| |]; simpl in H; try done.
  destruct (jfind "data" err) as [d|] eqn:Ed; simpl in H;
    [destruct (is_null d) eqn:En; simpl in H|]; injection H as <-;
    (split; [by eapply get_int_range|]); intros d' Hd'; simpl in Hd'; try done.
  injection Hd' as <-. split; [by eapply wf_jfind|done].
Qed.

Lemma parse_call_wf j m i msg :
  wf_json j -> wf_json (default JNull i) -> parse_call j m i = Ok msg -> wf_message msg.
Proof.
  unfold parse_call. intros Hj Hi. destruct m as [| | | | |s| |]; try done.
  destruct (parse_params j) as [ps|] eqn:Ep; [|done].
  destruct i as [i|]; simpl in Hi.
  - destruct (request_id_from_json i) as [r|] eqn:Er; [|done]. intros [= <-]. simpl.
    split; [by eapply request_id_from_json_wf|]. exact (parse_params_wf _ _ Hj Ep).
  - intros [= <-]. simpl. exact (parse_params_wf _ _ Hj Ep).
Qed.

Lemma parse_response_wf j i msg :
  wf_json j -> wf_json (default JNull i) ->
  parse_response j i = Val (Ok msg) -> wf_message msg.
Proof.
  unfold parse_response. intros Hj Hi H.
  destruct (Bool.eqb _ _); [done|]. destruct i as [i|]; [|done]. simpl in Hi.
  destruct (parse_response_id i) as [rid|] eqn:Eid; [|done].
  pose proof (wf_response_id _ _ Hi Eid) as Hrid.
  destruct (jfind "error" j) as [err|] eqn:Eerr.
  - destruct (_ || _); [done|].
    destruct (Error_from_json err) as [e| |] eqn:Ee; simpl in H; try done.
    injection H as <-. split; [done|]. simpl.
    eapply Error_from_json_wf; [|done]. exact (wf_jfind _ _ _ Hj Eerr).
  - destruct (at_key "result" j) as [r| |] eqn:Er; simpl in H; try done.
    injection H as <-. split; [done|]. simpl.
    destruct j; simpl in Er; try done. destruct (obj_find "result" o) eqn:Ef; [|done].
    injection Er as ->. by eapply (wf_jfind "result" (JObject o)).
Qed.

Lemma parse_message_wf_lemma j m : wf_json j -> parse_message j = Val (Ok m) -> wf_message m.
Proof.
  unfold parse_message. intros Hj H.
  destruct (negb (is_object j)); [done|]. destruct (negb (version_ok j)); [done|].
  assert (Hi : wf_json (default JNull (jfind "id" j))).
  { destruct (jfind "id" j) as [i|] eqn:E; [exact (wf_jfind _ _ _ Hj E)|done]. }
  destruct (jfind "method" j) as [v|].
  - injection H as H. exact (parse_call_wf _ _ _ _ Hj Hi H).
  - exact (parse_response_wf _ _ _ Hj Hi H).
Qed.

#[export] Hint Resolve parse_message_wf_lemma : wf.

(** ** Properties *)

Section wire_laws.
Context `{JsonTextLaws}.

(** A message whose text the encoder accepts. *)
Definition good_message (m : Message) : Prop := wf_message m /\ dumpable (message_to_json m) = true.

Lemma serialize_message_line m :
  wf_message m -> dumpable (message_to_json m) = true ->
  exists s, serialize_message m = Val s /\ find_char LF s = None /\ s <> EmptyString /\
            find_char CR s = None /\ parse_frame s = Val (Ok (mkFrame [normalize_message m] [] false)).
Proof.
  intros Hwf Hd. destruct (json_dump_parse _ (wf_message_json _ Hwf) Hd) as (s & Hs & Hp & Hl & Hn & Hc).
  exists s. do 4 (split; [done|]). unfold parse_frame. rewrite Hp.
  assert (Hobj : is_object (message_to_json m) = true) by by destruct m.
  assert (Hm : parse_message (normalize (message_to_json m)) = Val (Ok (normalize_message m))).
  { rewrite parse_message_normalize by by apply wf_message_json.
    by rewrite parse_message_to_json. }
  unfold parse_json_frame. destruct (message_to_json m); try done. simpl in *.
  by rewrite Hm.
Qed.

(** C10: the wire round trip.  A well-formed message whose text the encoder
    accepts is serialised to one non-empty line, and parsing that line gives
    the message back as the only element of a non-batch frame (number tags
    of the embedded JSON are those of parsed text). *)
Theorem parse_frame_serialize_message m :
  wf_message m -> dumpable (message_to_json m) = true ->
  exists s, serialize_message m = Val s /\ find_char LF s = None /\ s <> EmptyString /\
            parse_frame s = Val (Ok (mkFrame [normalize_message m] [] false)).
Proof.
  intros Hwf Hd. destruct (serialize_message_line m Hwf Hd) as (s & Hs & Hl & Hn & _ & Hp).
  by exists s.
Qed.

Lemma serialize_batch_frame ms :
  ms <> [] -> Forall wf_message ms ->
  dumpable (JArray (message_to_json <$> ms)) = true ->
  exists s, serialize_batch ms = Val s /\ s <> EmptyString /\
            parse_frame s = Val (Ok (mkFrame (normalize_message <$> ms) [] true)).
Proof.
  intros Hne Hwf Hd.
  assert (Hj : wf_json (JArray (message_to_json <$> ms))).
  { rewrite wf_json_array. apply Forall_fmap. eapply Forall_impl; [exact Hwf|].
    apply wf_message_json. }
  destruct (json_dump_parse _ Hj Hd) as (s & Hs & Hp & _ & Hn & _). exists s. split; [done|]. split; [done|].
  unfold parse_frame. rewrite Hp. unfold parse_json_frame. cbn [normalize].
  pose proof (mapM_parse_to_json ms Hwf) as Hmap.
  destruct ms as [|m ms]; [done|].
  rewrite fmap_cons in Hmap |- *. rewrite fmap_cons in Hmap |- *.
  rewrite (parse_items_app _ _ _ Hmap). cbn [mbind outcome_bind].
  by rewrite ok_messages_Ok, item_errors_Ok.
Qed.

(** A batch of well-formed messages survives the wire: all elements come
    back, in order, with no per-element error. *)
Theorem parse_frame_serialize_batch ms :
  ms <> [] -> Forall wf_message ms ->
  dumpable (JArray (message_to_json <$> ms)) = true ->
  exists s, serialize_batch ms = Val s /\
            parse_frame s = Val (Ok (mkFrame (normalize_message <$> ms) [] true)).
Proof. intros Hne Hwf Hd. destruct (serialize_batch_frame ms Hne Hwf Hd) as (s & Hs & _ & Hp). by exists s. Qed.

End wire_laws.

#[local] Existing Instances BitText.text BitText.laws.

Definition ping_request : Message := MRequest (mkRequest (IdInt 7) "ping" (Some (JObject []))).

Lemma ping_request_wf : wf_message ping_request.
Proof.
  split; [unfold wf_id, in_s, modulus; simpl; lia|]. intros p [= <-]. simpl.
  repeat split. constructor.
Qed.

Lemma parse_frame_serialize_message_witness :
  wf_message ping_request /\
  exists s, serialize_message ping_request = Val s /\ find_char LF s = None /\ s <> EmptyString /\
            parse_frame s = Val (Ok (mkFrame [normalize_message ping_request] [] false)).
Proof.
  split; [exact ping_request_wf|].
  apply parse_frame_serialize_message; [exact ping_request_wf|reflexivity].
Defined.

Lemma parse_frame_serialize_batch_witness :
  exists s, serialize_batch [ping_request; ping_request] = Val s /\
            parse_frame s = Val (Ok (mkFrame (normalize_message <$> [ping_request; ping_request]) [] true)).
Proof.
  apply parse_frame_serialize_batch; [discriminate| |reflexivity].
  repeat apply Forall_cons_2; [exact ping_request_wf|exact ping_request_wf|apply Forall_nil_2].
Defined.

(** In a non-empty batch every element is accounted for exactly once: the
    messages of the frame are the elements that parse, in order, and the item
    errors are those of the elements that do not; nothing is dropped. *)
Theorem parse_json_frame_batch x l f :
  parse_json_frame (JArray (x :: l)) = Val (Ok f) ->
  exists rs, mapM_outcome parse_message (x :: l) = Val rs /\
             pf_messages f = ok_messages rs /\ pf_item_errors f = item_errors rs /\
             pf_was_batch f = true /\
             length (pf_messages f) + length (pf_item_errors f) = length (x :: l).
Proof.
  unfold parse_json_frame. intros H.
  destruct (parse_items (x :: l) _) as [f'| |] eqn:E; try done. injection H as ->.
  destruct (parse_items_Val _ _ _ E) as [rs Hrs]. exists rs.
  pose proof (parse_items_app _ (mkFrame [] [] true) _ Hrs) as E'. rewrite E' in E.
  injection E as <-. simpl pf_messages. simpl pf_item_errors.
  do 4 (split; [done|]). rewrite ok_messages_item_errors_length.
  clear E'. revert rs Hrs. generalize (x :: l) as l'.
  induction l' as [|y l' IH]; intros rs; simpl; [by intros [= <-]|].
  destruct (parse_message y); simpl; try done.
  destruct (mapM_outcome parse_message l') as [rs'| |] eqn:E; simpl; try done.
  intros [= <-]. simpl. f_equal. by apply IH.
Qed.

Lemma parse_json_frame_batch_witness :
  let j := [JNull; message_to_json ping_request] in
  let f := mkFrame [ping_request] [error InvalidRequest "message is not a JSON object"] true in
  parse_json_frame (JArray j) = Val (Ok f) /\
  exists rs, mapM_outcome parse_message j = Val rs /\
             pf_messages f = ok_messages rs /\ pf_item_errors f = item_errors rs /\
             pf_was_batch f = true /\
             length (pf_messages f) + length (pf_item_errors f) = length j.
Proof. split; [reflexivity|]. apply parse_json_frame_batch. reflexivity. Defined.

(** C38: every message the parser accepts is well formed: ids are 64-bit,
    params are objects or arrays, a response carries exactly one of result
    and error, and an error code fits an [int]. *)
Theorem parse_message_wf j m :
  wf_json j -> parse_message j = Val (Ok m) -> wf_message m.
Proof. apply parse_message_wf_lemma. Qed.

Lemma parse_message_wf_witness :
  wf_json (message_to_json ping_request) /\ wf_message ping_request.
Proof.
  split; [exact (wf_message_json _ ping_request_wf)|].
  apply (parse_message_wf (message_to_json ping_request));
    [exact (wf_message_json _ ping_request_wf)|reflexivity].
Defined.

(** C40: the only input on which [parse_message] throws, instead of returning a
    [Result], is a response whose error object has a mistyped [code] or
    [message]; on exactly those inputs the exception escapes. *)
Theorem parse_message_throws j :
  (exists x, parse_message j = Throw x) <-> mistyped_error_object j.
Proof.
  split; [intros [x H]; by eapply parse_message_throws_elim|apply parse_message_throws_intro].
Qed.
