(* ===== verification/Lines.v ===== *)
(** * Line framing

    Splitting a growing buffer into lines: the loop
    [while ((pos = buffer.find('\n')) != npos)] of the stdio reader
    (src/transport/stdio_transport.cpp) and of the SSE parser
    (src/transport/http/http_codec.cpp), and the blocking [LineReader] of
    src/transport/line_io.cpp. *)

From S2P Require Import Prelude.

(** The complete lines of a buffer, and what is left of it. *)
Fixpoint split_lines (buffer : string) : list string * string :=
  match buffer with
  | EmptyString => ([], EmptyString)
  | String c rest =>
      let '(lines, left_) := split_lines rest in
      if Ascii.eqb c LF then (EmptyString :: lines, left_)
      else match lines with
           | [] => ([], String c left_)
           | l :: lines' => (String c l :: lines', left_)
           end
  end.

(** [if (!line.empty() && line.back() == '\r') line.pop_back()]. *)
Definition strip_cr (line : string) : string :=
  match str_back line with
  | Some c => if Ascii.eqb c CR then pop_back line else line
  | None => line
  end.

Definition end_line (line : string) : string := line +:+ String LF EmptyString.

(** ** The loop *)

Lemma find_char_cons c d s :
  find_char c (String d s) = if Ascii.eqb c d then Some 0 else S <$> find_char c s.
Proof.
  unfold find_char. cbn [str_find String.prefix]. destruct (Ascii.ascii_dec c d) as [->|Hn].
  - rewrite Ascii.eqb_refl. by destruct s.
  - by rewrite (proj2 (Ascii.eqb_neq c d) Hn).
Qed.

Lemma str_find_skip c pat l s :
  find_char c l = None -> str_find (String c pat) (l +:+ s) = Nat.add (size l) <$> str_find (String c pat) s.
Proof.
  induction l as [|d l IH]; intros Hl.
  - change (EmptyString +:+ s) with s. by destruct (str_find _ s).
  - rewrite find_char_cons in Hl. destruct (Ascii.eqb_spec c d) as [|Hn]; [done|].
    change (String d l +:+ s) with (String d (l +:+ s)). cbn [str_find String.prefix].
    destruct (Ascii.ascii_dec c d); [done|]. rewrite IH by (by destruct (find_char c l)).
    by destruct (str_find _ s).
Qed.

Lemma find_char_skip c l s : find_char c l = None -> find_char c (l +:+ s) = Nat.add (size l) <$> find_char c s.
Proof. apply str_find_skip. Qed.

Lemma find_char_at c l s : find_char c l = None -> find_char c (l +:+ String c s) = Some (size l).
Proof.
  intros Hl. rewrite find_char_skip, find_char_cons, Ascii.eqb_refl by done.
  cbn [fmap option_fmap option_map]. by rewrite Nat.add_0_r.
Qed.

(** One iteration: the first line is what precedes the first newline. *)
Lemma split_lines_find s :
  split_lines s =
    match find_char LF s with
    | None => ([], s)
    | Some pos => let '(lines, left_) := split_lines (str_drop (S pos) s) in (str_take pos s :: lines, left_)
    end.
Proof.
  induction s as [|c s IH]; [done|]. rewrite find_char_cons. cbn [split_lines].
  destruct (Ascii.eqb_spec LF c) as [<-|Hn].
  - cbn [str_drop str_take]. rewrite ?str_drop_0. by destruct (split_lines s).
  - rewrite (proj2 (Ascii.eqb_neq c LF)) by congruence. rewrite IH.
    destruct (find_char LF s) as [pos|]; cbn [fmap option_fmap option_map]; [|done].
    change (str_drop (S (S pos)) (String c s)) with (str_drop (S pos) s).
    change (str_take (S pos) (String c s)) with (String c (str_take pos s)).
    by destruct (split_lines (str_drop (S pos) s)).
Qed.

(** Splitting does not depend on how the bytes arrive. *)
Lemma split_lines_app a b :
  split_lines (a +:+ b) =
    let '(l1, r1) := split_lines a in let '(l2, r2) := split_lines (r1 +:+ b) in (app l1 l2, r2).
Proof.
  induction a as [|c a IH]; simpl; [by destruct (split_lines b)|].
  rewrite IH. destruct (split_lines a) as [l1 r1].
  destruct (Ascii.eqb c LF) eqn:Ec.
  - by destruct (split_lines (r1 +:+ b)) as [l2 r2].
  - destruct l1 as [|x l1]; simpl.
    + rewrite Ec. destruct (split_lines (r1 +:+ b)) as [l2 r2]. by destruct l2.
    + by destruct (split_lines (r1 +:+ b)) as [l2 r2].
Qed.

Lemma split_lines_none s : find_char LF s = None -> split_lines s = ([], s).
Proof. intros H. by rewrite split_lines_find, H. Qed.

Lemma split_lines_end l s :
  find_char LF l = None ->
  split_lines (end_line l +:+ s) = let '(ls, r) := split_lines s in (l :: ls, r).
Proof.
  unfold end_line. rewrite str_app_assoc. induction l as [|c l IH]; intros Hl.
  - simpl. by destruct (split_lines s).
  - rewrite find_char_cons in Hl. destruct (Ascii.eqb_spec LF c) as [|Hn]; [done|].
    change (String c l +:+ (String LF EmptyString +:+ s)) with (String c (l +:+ (String LF EmptyString +:+ s))).
    cbn [split_lines]. rewrite IH by (by destruct (find_char LF l)).
    rewrite (proj2 (Ascii.eqb_neq c LF)) by congruence. by destruct (split_lines s).
Qed.

Lemma split_lines_concat ls s :
  Forall (fun l => find_char LF l = None) ls ->
  split_lines (foldr (fun l r => end_line l +:+ r) s ls) = let '(ls', r) := split_lines s in (app ls ls', r).
Proof.
  induction 1 as [|l ls Hl _ IH]; simpl; [by destruct (split_lines s)|].
  rewrite split_lines_end by done. rewrite IH. by destruct (split_lines s).
Qed.

(** A line without carriage returns is kept as it is. *)
Lemma strip_cr_none l : find_char CR l = None -> strip_cr l = l.
Proof.
  unfold strip_cr. destruct (str_back l) as [c|] eqn:E; [|done]. intros Hl.
  destruct (Ascii.eqb_spec c CR) as [->|]; [|done]. exfalso.
  induction l as [|d l IH]; [done|]. rewrite find_char_cons in Hl.
  destruct (Ascii.eqb_spec CR d) as [|Hn]; [done|].
  destruct l as [|d' l]; simpl in E; [congruence|]. apply IH; [done|]. by destruct (find_char CR _).
Qed.

(** ** Texts without line breaks *)

(** No line break of either kind: what a field of an event may hold. *)
Definition single_line (s : string) : Prop := find_char LF s = None /\ find_char CR s = None.

Lemma find_char_app c a b :
  find_char c a = None -> find_char c b = None -> find_char c (a +:+ b) = None.
Proof.
  intros Ha Hb. induction a as [|d a IH]; [done|]. rewrite find_char_cons in Ha.
  change (String d a +:+ b) with (String d (a +:+ b)). rewrite find_char_cons.
  destruct (Ascii.eqb c d); [done|]. rewrite IH; [done|]. by destruct (find_char c a).
Qed.

Lemma single_line_app a b : single_line a -> single_line b -> single_line (a +:+ b).
Proof. intros [] []. split; by apply find_char_app. Qed.

Lemma single_line_to_string n : (0 <= n)%Z -> single_line (to_string n).
Proof.
  intros Hn. destruct (to_string_digits n Hn) as [Hd _].
  assert (forall c s, is_digit c = false -> str_forall is_digit s = true -> find_char c s = None) as H.
  { intros c s Hc. induction s as [|d s IH]; [done|]. cbn [str_forall]. intros [Hd' Hs]%andb_true_iff.
    rewrite find_char_cons. destruct (Ascii.eqb_spec c d) as [->|]; [congruence|]. by rewrite IH. }
  split; by apply H.
Qed.

(** ** [LineReader] *)

Inductive read_result := ReadData (chunk : string) | ReadEof | ReadError.
Inductive reader_status := ReadLine (line : string) | AtEof | AtError.

Record LineReader := mkLineReader { lr_buffer : string; lr_eof : bool }.

(** [next], given the results of the reads that follow; the reads it did not
    need are returned, and [None] means it is still blocked on a read. *)
Fixpoint next_line (reads : list read_result) (r : LineReader)
  : option (reader_status * LineReader) * list read_result :=
  match find_char LF (lr_buffer r) with
  | Some pos =>
      (Some (ReadLine (strip_cr (str_take pos (lr_buffer r))),
             mkLineReader (str_drop (S pos) (lr_buffer r)) (lr_eof r)), reads)
  | None =>
      if lr_eof r then
        if String.eqb (lr_buffer r) EmptyString then (Some (AtEof, r), reads)
        else (Some (ReadLine (lr_buffer r), mkLineReader EmptyString (lr_eof r)), reads)
      else
        match reads with
        | [] => (None, [])
        | ReadData chunk :: reads' => next_line reads' (mkLineReader (lr_buffer r +:+ chunk) (lr_eof r))
        | ReadEof :: reads' =>
            (* the loop goes round once more, now at the end of the file *)
            (if String.eqb (lr_buffer r) EmptyString then (Some (AtEof, mkLineReader (lr_buffer r) true), reads')
             else (Some (ReadLine (lr_buffer r), mkLineReader EmptyString true), reads'))
        | ReadError :: reads' => (Some (AtError, r), reads')
        end
  end.

(** A caller that reads lines until the end of the file. *)
Fixpoint read_all (fuel : nat) (reads : list read_result) (r : LineReader) : option (list string) :=
  match fuel with
  | O => None
  | S fuel =>
      match next_line reads r with
      | (Some (ReadLine l, r'), reads') => cons l <$> read_all fuel reads' r'
      | (Some (AtEof, _), _) => Some []
      | _ => None
      end
  end.
