(* ===== verification/Platform.v ===== *)
(** * The platform layer

    The POSIX backend behind src/platform/pal.hpp: src/platform/posix/io.cpp
    and process.cpp.  What the kernel does with a call is an argument: a list
    of the results of the calls that are made, or a function. *)

From S2P Require Import Prelude Lines.

(** ** Reading and writing whole buffers *)

Inductive read_call := ReadInterrupted | ReadFails | ReadBytes (chunk : string).

(** [read_some]: interrupted calls are repeated; [None] is a call that blocks. *)
Fixpoint read_some (calls : list read_call) : option read_result * list read_call :=
  match calls with
  | [] => (None, [])
  | ReadInterrupted :: calls => read_some calls
  | ReadFails :: calls => (Some ReadError, calls)
  | ReadBytes chunk :: calls =>
      (Some (if String.eqb chunk EmptyString then ReadEof else ReadData chunk), calls)
  end.

(** [WriteCount n]: the kernel took [n] bytes. *)
Inductive write_call := WriteInterrupted | WriteFails | WriteCount (n : nat).

(** [write_all]: its result, the bytes the kernel took and the calls not made. *)
Fixpoint write_all (calls : list write_call) (data : string) : option bool * string * list write_call :=
  if String.eqb data EmptyString then (Some true, EmptyString, calls)
  else
    match calls with
    | [] => (None, EmptyString, [])
    | WriteInterrupted :: calls => write_all calls data
    | WriteFails :: calls => (Some false, EmptyString, calls)
    | WriteCount n :: calls =>
        let '(r, out, calls) := write_all calls (str_drop n data) in (r, str_take n data +:+ out, calls)
    end.

(** The kernel has taken a prefix of the data: all of it exactly when the
    result is true. *)
Lemma write_all_spec calls data r out rest :
  write_all calls data = (r, out, rest) ->
  (exists left_, data = out +:+ left_ /\ (r = Some true <-> left_ = EmptyString)).
Proof.
  revert data r out rest. induction calls as [|c calls IH]; intros data r out rest.
  - cbn [write_all]. destruct (String.eqb_spec data EmptyString) as [->|Hne]; intros [= <- <- <-].
    + by exists EmptyString.
    + exists data. split; [done|]. split; [done|]. by intros ->.
  - cbn [write_all]. destruct (String.eqb_spec data EmptyString) as [->|Hne]; [intros [= <- <- <-]; by exists EmptyString|].
    destruct c as [| |n].
    + apply IH.
    + intros [= <- <- <-]. exists data. split; [done|]. split; [done|]. by intros ->.
    + destruct (write_all calls (str_drop n data)) as [[r1 out1] rest1] eqn:E. intros [= <- <- <-].
      destruct (IH _ _ _ _ E) as (left_ & Hd & Hl). exists left_. split; [|done].
      by rewrite str_app_assoc, <- Hd, str_take_drop.
Qed.

(** If every call that is made takes something, as many calls as there are
    bytes are enough. *)
Definition progresses (c : write_call) : bool :=
  match c with WriteInterrupted => true | WriteFails => false | WriteCount n => (0 <? n)%nat end.

Definition is_count (c : write_call) : bool := match c with WriteCount _ => true | _ => false end.

Lemma write_all_total calls data :
  forallb progresses calls = true -> size data <= length (filter is_count calls) ->
  exists rest, write_all calls data = (Some true, data, rest).
Proof.
  revert data. induction calls as [|c calls IH]; intros data Hp Hl; cbn [write_all].
  - destruct data; [by exists []|cbn in Hl; lia].
  - destruct (String.eqb_spec data EmptyString) as [->|Hne]; [by eexists|].
    cbn [forallb] in Hp. apply andb_true_iff in Hp as [Hc Hp]. destruct c as [| |n]; [|done|].
    + apply IH; [done|]. by rewrite filter_cons_False in Hl by (intros []).
    + destruct n as [|n]; [done|]. rewrite filter_cons_True in Hl by done. cbn [length] in Hl.
      destruct (IH (str_drop (S n) data) Hp) as (rest & ->).
      { rewrite size_drop. lia. }
      exists rest. by rewrite str_take_drop.
Qed.

(** [close_fd]: the descriptor is invalid afterwards. *)
Definition close_fd (fd : Z) : Z := if (0 <=? fd)%Z then -1 else fd.

(** ** Waiting for a descriptor *)

(** What [poll] says about the wake pipe and the descriptor. *)
Inductive poll_call := PollInterrupted | PollFails | PollTimeout | PollEvents (wake fd : bool).

Inductive readiness := Readable | Woken | PollFailed.

(** [poll_readable]: 1, 0 and -1; a wake-up takes precedence. *)
Fixpoint poll_readable (watch_wake : bool) (calls : list poll_call) : option readiness :=
  match calls with
  | [] => None
  | PollInterrupted :: calls => poll_readable watch_wake calls
  | PollFails :: _ => Some PollFailed
  | PollTimeout :: _ => Some Woken
  | PollEvents wake fd :: calls =>
      if watch_wake && wake then Some Woken else if fd then Some Readable else poll_readable watch_wake calls
  end.

(** ** The child's environment *)

Record ProcessSpec : Type := mkProcessSpec {
  ps_command : string;
  ps_args : list string;
  ps_env : list (string * string);   (** a [std::map] *)
  ps_cwd : option string;
}.

Definition child_argv (spec : ProcessSpec) : list string := ps_command spec :: ps_args spec.

Definition entry_key (entry : string) : string :=
  match find_char "="%char entry with Some n => str_take n entry | None => entry end.

Definition overrides (env : list (string * string)) (key : string) : bool := existsb (fun kv => String.eqb kv.1 key) env.

Definition env_entry (kv : string * string) : string := kv.1 +:+ "=" +:+ kv.2.

Definition child_environment (inherited : list string) (env : list (string * string)) : list string :=
  filter (fun entry => overrides env (entry_key entry) = false) inherited ++ (env_entry <$> env).

(** [getenv]: the first entry of a name counts. *)
Fixpoint getenv (name : string) (entries : list string) : option string :=
  match entries with
  | [] => None
  | entry :: entries =>
      match find_char "="%char entry with
      | Some n => if String.eqb (str_take n entry) name then Some (str_drop (S n) entry) else getenv name entries
      | None => getenv name entries
      end
  end.

Lemma find_char_none_app c a b : find_char c a = None -> find_char c (a +:+ b) = None <-> find_char c b = None.
Proof. intros Ha. rewrite find_char_skip by done. by destruct (find_char c b). Qed.

Lemma entry_split key value :
  find_char "="%char key = None ->
  find_char "="%char (env_entry (key, value)) = Some (size key) /\ str_take (size key) (env_entry (key, value)) = key /\
  str_drop (S (size key)) (env_entry (key, value)) = value.
Proof.
  intros Hk. unfold env_entry. cbn [fst snd]. split; [by apply (find_char_at "="%char key value)|].
  split; [apply str_take_app_size|]. replace (S (size key)) with (size key + 1) by lia.
  by rewrite <- str_drop_drop, str_drop_app_size.
Qed.

Lemma getenv_app name l1 l2 : getenv name (l1 ++ l2) = match getenv name l1 with Some v => Some v | None => getenv name l2 end.
Proof.
  induction l1 as [|e l1 IH]; [done|]. cbn [app getenv]. destruct (find_char "="%char e); [|done].
  by destruct (String.eqb _ name).
Qed.

Lemma getenv_inherited name inherited env :
  getenv name (filter (fun entry => overrides env (entry_key entry) = false) inherited) =
  if overrides env name then None else getenv name inherited.
Proof.
  induction inherited as [|e l IH]; [by destruct (overrides env name)|]. rewrite filter_cons.
  destruct (decide (overrides env (entry_key e) = false)) as [Ho|Ho]; cbn [getenv]; unfold entry_key in Ho;
    destruct (find_char "="%char e) as [n|]; try exact IH.
  - destruct (String.eqb_spec (str_take n e) name) as [<-|]; [by rewrite Ho|exact IH].
  - destruct (String.eqb_spec (str_take n e) name) as [<-|]; [|exact IH]. by destruct (overrides env (str_take n e)).
Qed.

Lemma getenv_entries name env :
  Forall (fun kv => find_char "="%char kv.1 = None) env ->
  getenv name (env_entry <$> env) = snd <$> find (fun kv => String.eqb kv.1 name) env.
Proof.
  induction 1 as [|[k v] env Hk _ IH]; [done|]. rewrite fmap_cons. cbn [getenv find fst] in *.
  destruct (entry_split k v Hk) as (-> & -> & ->). by destruct (String.eqb k name).
Qed.

(** The child's environment: a variable of the launch parameters has the
    value given there, every other one the value it has in the parent, whatever
    the parent's entries look like and however often they occur. *)
Theorem child_environment_spec inherited env name :
  Forall (fun kv => find_char "="%char kv.1 = None) env ->
  getenv name (child_environment inherited env) =
    match find (fun kv => String.eqb kv.1 name) env with
    | Some kv => Some kv.2
    | None => getenv name inherited
    end.
Proof.
  intros Hk. unfold child_environment. rewrite getenv_app, getenv_inherited, getenv_entries by done.
  destruct (find (fun kv => String.eqb kv.1 name) env) as [[k v]|] eqn:E.
  - apply find_some in E as [Hin He]. cbn in He. assert (overrides env name = true) as ->; [|done].
    apply existsb_exists. by exists (k, v).
  - assert (overrides env name = false) as ->; [|by destruct (getenv name inherited)].
    apply not_true_iff_false. intros ([k v] & Hin & He)%existsb_exists. eapply find_none in E; [|exact Hin]. cbn in *. congruence.
Qed.

Lemma child_environment_spec_witness :
  getenv "A" (child_environment ["A=1"; "B=2"] [("A", "x=y")]) = Some "x=y".
Proof. apply (child_environment_spec ["A=1"; "B=2"] [("A", "x=y")] "A"). repeat constructor. Defined.

(** ** Processes *)

Record Process : Type := mkProcess { pid : Z; stdin_fd : Z; stdout_fd : Z; stderr_fd : Z }.

(** What the child runs: a program, or nothing but an exit code. *)
Inductive child_fate := Runs (argv envp : list string) | Exits (code : Z).

(** [exec_ok]: [execvp] finds the program and does not return. *)
Definition child_start (inherited : list string) (spec : ProcessSpec) (chdir_ok exec_ok : bool) : child_fate :=
  if match ps_cwd spec with Some _ => negb chdir_ok | None => false end then Exits 126
  else if exec_ok then Runs (child_argv spec) (child_environment inherited (ps_env spec)) else Exits 127.

(** A turn of the loop in [wait_exit]: what [waitpid] says, and whether the
    deadline has passed. *)
Inductive wait_call := ChildRuns (expired : bool) | ChildExited (status : Z) | NoSuchChild.

(** The status, or [None] at the deadline; the outer option is a wait that goes
    on. *)
Fixpoint wait_exit (calls : list wait_call) : option (option Z) :=
  match calls with
  | [] => None
  | ChildExited status :: _ => Some (Some status)
  | NoSuchChild :: _ => Some (Some (-1)%Z)
  | ChildRuns true :: _ => Some None
  | ChildRuns false :: calls => wait_exit calls
  end.
