(* ===== verification/Content.v ===== *)
(** * Content blocks

    include/mcp/content.hpp and src/core/content.cpp: annotations, icons,
    resource contents and the recursive content variant, with their JSON
    mappings. *)

From S2P Require Import Prelude Json Core.

Record Annotations := mkAnnotations {
  an_audience : option (list string);
  an_priority : option double;
  an_last_modified : option string;
}.

Record Icon := mkIcon {
  icon_src : string;
  icon_mime_type : option string;
  icon_sizes : option string;
}.

Record ResourceContents := mkResourceContents {
  rc_uri : string;
  rc_mime_type : option string;
  rc_text : option string;
  rc_blob : option string;
}.

Record ToolUse := mkToolUse {
  tu_id : string;
  tu_name : string;
  tu_input : json;
}.

(** [std::variant<TextContent, ImageContent, AudioContent, EmbeddedResource,
    ToolUseContent, ToolResultContent>]. *)
#[warnings="-register-all"]
Inductive Content : Type :=
| TextContent (text : string) (annotations : option Annotations)
| ImageContent (data mime_type : string) (annotations : option Annotations)
| AudioContent (data mime_type : string) (annotations : option Annotations)
| EmbeddedResource (resource : ResourceContents) (annotations : option Annotations)
| ToolUseContent (use : ToolUse)
| ToolResultContent (tool_use_id : string) (content : list Content) (is_error : bool).

Inductive Role : Set := User | Assistant.

Section content_ind.
Variable P : Content -> Prop.
Hypothesis Htext : forall t a, P (TextContent t a).
Hypothesis Himage : forall d m a, P (ImageContent d m a).
Hypothesis Haudio : forall d m a, P (AudioContent d m a).
Hypothesis Hresource : forall r a, P (EmbeddedResource r a).
Hypothesis Huse : forall u, P (ToolUseContent u).
Hypothesis Hresult : forall i l e, Forall P l -> P (ToolResultContent i l e).
Fixpoint content_deep_ind (c : Content) : P c :=
  match c with
  | TextContent t a => Htext t a
  | ImageContent d m a => Himage d m a
  | AudioContent d m a => Haudio d m a
  | EmbeddedResource r a => Hresource r a
  | ToolUseContent u => Huse u
  | ToolResultContent i l e =>
      Hresult i l e ((fix go l := match l return Forall P l with
                                  | [] => Forall_nil_2 _
                                  | x :: l' => Forall_cons_2 _ _ _ (content_deep_ind x) (go l')
                                  end) l)
  end.
End content_ind.

Definition role_to_string (r : Role) : string :=
  match r with Assistant => "assistant" | User => "user" end.

Definition role_from_string (name : string) : option Role :=
  if String.eqb name "user" then Some User
  else if String.eqb name "assistant" then Some Assistant
  else None.

(** ** Leaf records *)

Definition strings_to_json (l : list string) : json := JArray (JString <$> l).

Definition Annotations_to_json (a : Annotations) : json :=
  let o := set_optional strings_to_json "audience" (an_audience a) [] in
  let o := set_optional JFloat "priority" (an_priority a) o in
  let o := set_optional JString "lastModified" (an_last_modified a) o in
  JObject o.

Definition Annotations_from_json (j : json) : outcome Annotations :=
  audience ← get_optional (get_vector get_string) j "audience";
  priority ← get_optional get_double j "priority";
  last_modified ← get_optional get_string j "lastModified";
  Val (mkAnnotations audience priority last_modified).

Definition Icon_to_json (i : Icon) : json :=
  let o := make_object [("src", JString (icon_src i))] in
  let o := set_optional JString "mimeType" (icon_mime_type i) o in
  let o := set_optional JString "sizes" (icon_sizes i) o in
  JObject o.

Definition Icon_from_json (j : json) : outcome Icon :=
  s ← at_key "src" j;
  src ← get_string s;
  mime_type ← get_optional get_string j "mimeType";
  sizes ← get_optional get_string j "sizes";
  Val (mkIcon src mime_type sizes).

Definition ResourceContents_to_json (r : ResourceContents) : json :=
  let o := make_object [("uri", JString (rc_uri r))] in
  let o := set_optional JString "mimeType" (rc_mime_type r) o in
  let o := set_optional JString "text" (rc_text r) o in
  let o := set_optional JString "blob" (rc_blob r) o in
  JObject o.

Definition ResourceContents_from_json (j : json) : outcome ResourceContents :=
  u ← at_key "uri" j;
  uri ← get_string u;
  mime_type ← get_optional get_string j "mimeType";
  text ← get_optional get_string j "text";
  blob ← get_optional get_string j "blob";
  Val (mkResourceContents uri mime_type text blob).

Definition set_annotations (a : option Annotations) (o : object) : object :=
  set_optional Annotations_to_json "annotations" a o.

Definition get_annotations (j : json) : outcome (option Annotations) :=
  get_optional Annotations_from_json j "annotations".

(** ** Content *)

Fixpoint content_to_json (c : Content) : json :=
  match c with
  | TextContent text a =>
      JObject (set_annotations a (make_object [("type", JString "text"); ("text", JString text)]))
  | ImageContent data mime a =>
      JObject (set_annotations a (make_object [("type", JString "image"); ("data", JString data);
                                               ("mimeType", JString mime)]))
  | AudioContent data mime a =>
      JObject (set_annotations a (make_object [("type", JString "audio"); ("data", JString data);
                                               ("mimeType", JString mime)]))
  | EmbeddedResource r a =>
      JObject (set_annotations a (make_object [("type", JString "resource");
                                               ("resource", ResourceContents_to_json r)]))
  | ToolUseContent u =>
      JObject (make_object [("type", JString "tool_use"); ("id", JString (tu_id u));
                            ("name", JString (tu_name u)); ("input", tu_input u)])
  | ToolResultContent i l e =>
      JObject (make_object [("type", JString "tool_result"); ("toolUseId", JString i);
                            ("content", JArray (content_to_json <$> l)); ("isError", JBool e)])
  end.

Definition content_list_to_json (l : list Content) : json := JArray (content_to_json <$> l).

(** [content_list_from_json], over the parser for one element. *)
Section content_list.
Context (parse : json -> outcome (Result Content)).
Fixpoint parse_contents (l : list json) : outcome (Result (list Content)) :=
  match l with
  | [] => Val (Ok [])
  | item :: l' => c ←? parse item; cs ←? parse_contents l'; Val (Ok (c :: cs))
  end.
Definition content_list_with (j : json) : outcome (Result (list Content)) :=
  match j with
  | JArray l => parse_contents l
  | _ => Val (Err (error InvalidParams "content must be an array"))
  end.
End content_list.

Definition string_member (k : string) (j : json) : outcome string := v ← at_key k j; get_string v.

Fixpoint content_from_json (j : json) : outcome (Result Content) :=
  match j with
  | JObject o =>
    match obj_find "type" o with
    | Some (JString type) =>
      catch_json
        (if String.eqb type "text" then
           text ← string_member "text" j;
           a ← get_annotations j;
           Val (Ok (TextContent text a))
         else if String.eqb type "image" then
           data ← string_member "data" j;
           mime ← string_member "mimeType" j;
           a ← get_annotations j;
           Val (Ok (ImageContent data mime a))
         else if String.eqb type "audio" then
           data ← string_member "data" j;
           mime ← string_member "mimeType" j;
           a ← get_annotations j;
           Val (Ok (AudioContent data mime a))
         else if String.eqb type "resource" then
           r ← at_key "resource" j;
           resource ← ResourceContents_from_json r;
           a ← get_annotations j;
           Val (Ok (EmbeddedResource resource a))
         else if String.eqb type "tool_use" then
           id ← string_member "id" j;
           name ← string_member "name" j;
           input ← value_or get_json "input" (JObject []) j;
           Val (Ok (ToolUseContent (mkToolUse id name input)))
         else if String.eqb type "tool_result" then
           nested ←? match find_with (content_list_with content_from_json) "content" o with
                     | Some r => r
                     | None => Val (Ok [])
                     end;
           tool_use_id ← string_member "toolUseId" j;
           is_error ← value_or get_bool "isError" false j;
           Val (Ok (ToolResultContent tool_use_id nested is_error))
         else Val (Err (error InvalidParams ("unknown content type: " +:+ type))))
        (fun w => Err (error InvalidParams ("malformed content: " +:+ w)))
    | _ => Val (Err (error InvalidParams "content is missing a type"))
    end
  | _ => Val (Err (error InvalidParams "content is missing a type"))
  end.

Definition content_list_from_json (j : json) : outcome (Result (list Content)) :=
  content_list_with content_from_json j.

(** ** Reading back what was written *)

Lemma get_vector_strings l : get_vector get_string (strings_to_json l) = Val l.
Proof. unfold strings_to_json. simpl. by apply mapM_outcome_Val. Qed.

Lemma Annotations_roundtrip a : Annotations_from_json (Annotations_to_json a) = Val a.
Proof.
  destruct a as [au pr lm]. unfold Annotations_from_json, Annotations_to_json. simpl.
  rewrite (get_optional_set strings_to_json _ _ "audience" au);
    [simpl | autorewrite with json; by destruct au
     | intros x _; split; [apply get_vector_strings|done]].
  read_optional JFloat "priority" pr.
  by read_optional JString "lastModified" lm.
Qed.

Lemma Icon_roundtrip i : Icon_from_json (Icon_to_json i) = Val i.
Proof. by destruct i as [s [m|] [z|]]. Qed.

Lemma ResourceContents_roundtrip r : ResourceContents_from_json (ResourceContents_to_json r) = Val r.
Proof. by destruct r as [u [m|] [t|] [b|]]. Qed.

Lemma get_annotations_set a o :
  obj_find "annotations" o = Annotations_to_json <$> a -> get_annotations (JObject o) = Val a.
Proof.
  intros H. unfold get_annotations. eapply get_optional_set; [exact H|].
  intros x _. split; [apply Annotations_roundtrip|done].
Qed.

Lemma string_member_obj k o s :
  obj_find k o = Some (JString s) -> string_member k (JObject o) = Val s.
Proof. unfold string_member, at_key. by intros ->. Qed.

Lemma obj_find_set_annotations_ne k a o :
  k <> "annotations" -> obj_find k (set_annotations a o) = obj_find k o.
Proof. apply obj_find_set_optional_ne. Qed.

Lemma obj_find_set_annotations a o :
  obj_find "annotations" o = None ->
  obj_find "annotations" (set_annotations a o) = Annotations_to_json <$> a.
Proof. intros H. unfold set_annotations. rewrite obj_find_set_optional_eq. by destruct a. Qed.

#[export] Hint Rewrite obj_find_set_annotations_ne using discriminate : json.

(** Unfold the reader on an object whose "type" member is [ty]. *)
Ltac read_type ty :=
  simpl content_to_json; cbn [content_from_json];
  match goal with
  | |- context [obj_find "type" ?o] =>
      replace (obj_find "type" o) with (Some (JString ty)) by (autorewrite with json; done)
  end;
  cbn [String.eqb Ascii.eqb Bool.eqb].

Ltac read_string k s :=
  rewrite (string_member_obj k _ s) by (autorewrite with json; done); cbn [mbind outcome_bind].

Ltac read_annotations a :=
  rewrite (get_annotations_set a) by (by apply obj_find_set_annotations).

Lemma parse_contents_map (f : json -> outcome (Result Content)) (g : Content -> json) l :
  Forall (fun c => f (g c) = Val (Ok c)) l ->
  parse_contents f (g <$> l) = Val (Ok l).
Proof.
  induction 1 as [|c l Hc _ IH]; [done|].
  rewrite fmap_cons. cbn [parse_contents]. unfold try_bind. rewrite Hc.
  cbn [mbind outcome_bind]. by rewrite IH.
Qed.

Lemma content_text_roundtrip t a :
  content_from_json (content_to_json (TextContent t a)) = Val (Ok (TextContent t a)).
Proof. read_type "text". read_string "text" t. by read_annotations a. Qed.

Lemma content_image_roundtrip d m a :
  content_from_json (content_to_json (ImageContent d m a)) = Val (Ok (ImageContent d m a)).
Proof. read_type "image". read_string "data" d. read_string "mimeType" m. by read_annotations a. Qed.

Lemma content_audio_roundtrip d m a :
  content_from_json (content_to_json (AudioContent d m a)) = Val (Ok (AudioContent d m a)).
Proof. read_type "audio". read_string "data" d. read_string "mimeType" m. by read_annotations a. Qed.

Lemma content_resource_roundtrip r a :
  content_from_json (content_to_json (EmbeddedResource r a)) = Val (Ok (EmbeddedResource r a)).
Proof.
  read_type "resource". unfold at_key. autorewrite with json.
  cbn [make_object fold_left obj_emplace obj_find obj_set String.compare Ascii.compare fst snd
       String.eqb Ascii.eqb Bool.eqb mbind outcome_bind].
  unfold obj_emplace. simpl. rewrite ResourceContents_roundtrip. cbn [mbind outcome_bind].
  by read_annotations a.
Qed.

Lemma content_tool_use_roundtrip u :
  content_from_json (content_to_json (ToolUseContent u)) = Val (Ok (ToolUseContent u)).
Proof. by destruct u. Qed.

Lemma content_tool_result_roundtrip i l e :
  Forall (fun c => content_from_json (content_to_json c) = Val (Ok c)) l ->
  content_from_json (content_to_json (ToolResultContent i l e)) = Val (Ok (ToolResultContent i l e)).
Proof.
  intros Hl. read_type "tool_result". rewrite find_with_spec.
  unfold obj_emplace. simpl obj_find. cbn [fmap option_fmap option_map content_list_with].
  rewrite parse_contents_map by done. unfold try_bind. cbn [mbind outcome_bind]. done.
Qed.

Lemma content_roundtrip_lemma c : content_from_json (content_to_json c) = Val (Ok c).
Proof.
  induction c using content_deep_ind.
  - apply content_text_roundtrip.
  - apply content_image_roundtrip.
  - apply content_audio_roundtrip.
  - apply content_resource_roundtrip.
  - apply content_tool_use_roundtrip.
  - by apply content_tool_result_roundtrip.
Qed.

Lemma content_list_roundtrip l : content_list_from_json (content_list_to_json l) = Val (Ok l).
Proof.
  unfold content_list_from_json, content_list_to_json. simpl.
  apply parse_contents_map. apply Forall_true. apply content_roundtrip_lemma.
Qed.

(** ** Errors of the content parser *)

(** A reader that can only end in a value or a [json::exception]. *)
Definition json_safe {A} (m : outcome A) : Prop :=
  (exists a, m = Val a) \/ (exists w, m = Throw (ExnJson w)).

Lemma json_safe_bind {A B} (m : outcome A) (k : A -> outcome B) :
  json_safe m -> (forall a, json_safe (k a)) -> json_safe (mbind k m).
Proof. intros [[a ->]|[w ->]] Hk; simpl; [apply Hk|right; by eexists]. Qed.

Lemma json_safe_Val {A} (a : A) : json_safe (Val a).
Proof. left. by eexists. Qed.

Lemma json_safe_at k j : json_safe (at_key k j).
Proof. destruct j; simpl; try (right; by eexists). destruct (obj_find k o); [left|right]; by eexists. Qed.

Lemma json_safe_get_string j : json_safe (get_string j).
Proof. destruct j; simpl; (left; by eexists) || (right; by eexists). Qed.
Lemma json_safe_get_bool j : json_safe (get_bool j).
Proof. destruct j; simpl; (left; by eexists) || (right; by eexists). Qed.
Lemma json_safe_get_double j : json_safe (get_double j).
Proof. destruct j; simpl; (left; by eexists) || (right; by eexists). Qed.

Lemma json_safe_mapM {A} (get : json -> outcome A) l :
  (forall j, json_safe (get j)) -> json_safe (mapM_outcome get l).
Proof.
  intros H. induction l as [|j l IH]; simpl; [apply json_safe_Val|].
  apply json_safe_bind; [done|]. intros a. apply json_safe_bind; [done|]. intros; apply json_safe_Val.
Qed.

Lemma json_safe_get_vector {A} (get : json -> outcome A) j :
  (forall j, json_safe (get j)) -> json_safe (get_vector get j).
Proof. intros H. destruct j; simpl; try (right; by eexists). by apply json_safe_mapM. Qed.

Lemma json_safe_get_optional {A} (get : json -> outcome A) j k :
  (forall j, json_safe (get j)) -> json_safe (get_optional get j k).
Proof.
  intros H. unfold get_optional. destruct (jfind k j) as [v|]; [|apply json_safe_Val].
  destruct (is_null v); [apply json_safe_Val|]. apply json_safe_bind; [done|].
  intros; apply json_safe_Val.
Qed.

Lemma json_safe_value_or {A} (get : json -> outcome A) k d j :
  (forall j, json_safe (get j)) -> json_safe (value_or get k d j).
Proof.
  intros H. destruct j; simpl; try (right; by eexists).
  destruct (obj_find k o); [done|apply json_safe_Val].
Qed.

Create HintDb json_safe.
#[export] Hint Resolve json_safe_Val json_safe_at json_safe_get_string json_safe_get_bool
  json_safe_get_double json_safe_get_vector json_safe_get_optional json_safe_value_or : json_safe.
#[export] Hint Extern 2 (json_safe (mbind _ _)) => apply json_safe_bind; [|intros ?] : json_safe.
#[export] Hint Extern 2 (json_safe (get_json _)) => apply json_safe_Val : json_safe.

Lemma json_safe_string_member k j : json_safe (string_member k j).
Proof. unfold string_member. auto with json_safe. Qed.

Lemma json_safe_Annotations j : json_safe (Annotations_from_json j).
Proof. unfold Annotations_from_json. auto 10 with json_safe. Qed.

Lemma json_safe_get_annotations j : json_safe (get_annotations j).
Proof. unfold get_annotations. apply json_safe_get_optional, json_safe_Annotations. Qed.

Lemma json_safe_ResourceContents j : json_safe (ResourceContents_from_json j).
Proof. unfold ResourceContents_from_json. auto 12 with json_safe. Qed.

#[export] Hint Resolve json_safe_string_member json_safe_Annotations json_safe_get_annotations
  json_safe_ResourceContents : json_safe.

(** A result that is a value, or an error with the given code. *)
Definition ok_or_code {A} (c : ErrorCode) (m : outcome (Result A)) : Prop :=
  (exists a, m = Val (Ok a)) \/ (exists msg, m = Val (Err (error c msg))).

(** Every error a reader returns (inside its [try]) has code [c]. *)
Definition safe_code {A} (c : ErrorCode) (m : outcome (Result A)) : Prop :=
  json_safe m /\ forall e, m = Val (Err e) -> exists msg, e = error c msg.

Lemma catch_json_code {A} c (m : outcome (Result A)) h :
  safe_code c m -> (forall w, exists msg, h w = Err (error c msg)) -> ok_or_code c (catch_json m h).
Proof.
  intros [Hsafe He] Hh. destruct Hsafe as [[[a|e] ->]|[w ->]]; simpl.
  - left. by eexists.
  - right. destruct (He e eq_refl) as [msg ->]. by eexists.
  - right. destruct (Hh w) as [msg ->]. by eexists.
Qed.

Lemma safe_code_bind {A B} c (m : outcome A) (k : A -> outcome (Result B)) :
  json_safe m -> (forall a, safe_code c (k a)) -> safe_code c (mbind k m).
Proof.
  intros [[a ->]|[w ->]] Hk; simpl; [apply Hk|].
  split; [right; by eexists|done].
Qed.

Lemma safe_code_Ok {A} c (a : A) : safe_code c (Val (Ok a)).
Proof. split; [apply json_safe_Val|done]. Qed.

Lemma safe_code_Err {A} c msg : @safe_code A c (Val (Err (error c msg))).
Proof. split; [apply json_safe_Val|]. intros e [= <-]. by eexists. Qed.

Lemma safe_code_try {A B} c (m : outcome (Result A)) (k : A -> outcome (Result B)) :
  ok_or_code c m -> (forall a, safe_code c (k a)) -> safe_code c (try_bind m k).
Proof.
  intros [[a ->]|[msg ->]] Hk; unfold try_bind; simpl; [apply Hk|apply safe_code_Err].
Qed.

Lemma parse_contents_ok f l :
  Forall (fun j => ok_or_code InvalidParams (f j)) l -> ok_or_code InvalidParams (parse_contents f l).
Proof.
  induction 1 as [|j l Hj _ IH]; simpl; [left; by eexists|].
  destruct Hj as [[c ->]|[msg ->]]; unfold try_bind; simpl; [|right; by eexists].
  destruct IH as [[cs ->]|[msg ->]]; simpl; [left|right]; by eexists.
Qed.

(** An element of a tool result is reached through two containers. *)
Lemma content_from_json_ok j : ok_or_code InvalidParams (content_from_json j).
Proof.
  induction j as [j IH] using json_size_ind.
  destruct j as [| | | | | | |o]; try (right; by eexists).
  cbn [content_from_json]. destruct (obj_find "type" o) as [[]|]; try (right; by eexists).
  apply catch_json_code; [|intros w; by eexists].
  repeat match goal with
  | |- safe_code _ (if ?b then _ else _) => destruct b
  | |- safe_code _ (mbind _ _) => apply safe_code_bind; [auto with json_safe|intros ?]
  | |- safe_code _ (Val (Ok _)) => apply safe_code_Ok
  | |- safe_code _ (Val (Err _)) => apply safe_code_Err
  | |- safe_code _ (try_bind _ _) => apply safe_code_try; [|intros ?]
  end.
  rewrite find_with_spec. destruct (obj_find "content" o) as [v|] eqn:Ev; simpl; [|left; by eexists].
  apply json_size_member in Ev.
  destruct v as [| | | | | |l|]; try (right; by eexists). simpl.
  apply parse_contents_ok. rewrite Forall_forall. intros x Hx. apply IH.
  apply json_size_elem in Hx. lia.
Qed.

Lemma content_list_from_json_ok j : ok_or_code InvalidParams (content_list_from_json j).
Proof.
  destruct j as [| | | | | |l|]; try (right; by eexists). unfold content_list_from_json. simpl.
  apply parse_contents_ok. apply Forall_true. apply content_from_json_ok.
Qed.

(** ** Properties *)

(** Every content block, of any nesting depth of tool results, reads back
    from its JSON form as itself. *)
Theorem content_roundtrip c : content_from_json (content_to_json c) = Val (Ok c).
Proof. apply content_roundtrip_lemma. Qed.

(** The content parser is total: on any JSON value it returns a block or an
    error with code InvalidParams; no [json::exception] escapes its [try]. *)
Theorem content_from_json_total j :
  (exists c, content_from_json j = Val (Ok c)) \/
  (exists msg, content_from_json j = Val (Err (error InvalidParams msg))).
Proof. apply content_from_json_ok. Qed.
