(* ===== verification/Schema.v ===== *)
(** * JSON Schema validation

    include/mcp/detail/schema.hpp and src/core/schema.cpp: the recursive
    validator for the supported subset of JSON Schema, against a declarative
    definition of conformance. *)

From S2P Require Import Prelude Json Core Message.

Definition matches_type (value : json) (type : string) : bool :=
  if String.eqb type "object" then is_object value
  else if String.eqb type "array" then is_array value
  else if String.eqb type "string" then is_string value
  else if String.eqb type "number" then is_number value
  else if String.eqb type "integer" then is_number_integer value
  else if String.eqb type "boolean" then is_boolean value
  else if String.eqb type "null" then is_null value
  else true.

Definition invalid (path w : string) : Error :=
  let at_ := if String.eqb path EmptyString then "value" else path in
  error InvalidParams (at_ +:+ " " +:+ w).

(** The "type" keyword: a name, or a list of names of which one must match. *)
Definition type_ok (value t : json) : bool :=
  match t with
  | JString s => matches_type value s
  | JArray l => existsb (fun x => match x with JString s => matches_type value s | _ => false end) l
  | _ => true
  end.

Definition enum_ok (value : json) (candidates : list json) : bool :=
  existsb (fun candidate => json_eqb candidate value) candidates.

(** The first required name that [value] lacks. *)
Definition missing_required (value : json) (names : list json) : option json :=
  find_if (fun name => match name with JString s => negb (contains s value) | _ => false end) names.

(** The first member of [value] that "properties" does not list. *)
Definition unexpected_member (props : option object) (value : object) : option (string * json) :=
  find_if (fun kv => match props with
                     | Some ps => match obj_find kv.1 ps with Some _ => false | None => true end
                     | None => true
                     end) value.

Definition properties_of (o : object) : option object :=
  match obj_find "properties" o with Some (JObject ps) => Some ps | _ => None end.

Section validate.
Context `{JsonText}.

Definition valid : outcome (Result unit) := Val (Ok tt).

Definition check_type (value : json) (o : object) (path : string) : outcome (Result unit) :=
  match obj_find "type" o with
  | None => valid
  | Some t =>
      if type_ok value t then valid
      else expected ← json_dump t;
           Val (Err (invalid path ("has wrong type (expected " +:+ expected +:+ ")")))
  end.

Definition check_enum (value : json) (o : object) (path : string) : outcome (Result unit) :=
  match obj_find "enum" o with
  | Some (JArray candidates) =>
      if enum_ok value candidates then valid
      else Val (Err (invalid path "is not one of the allowed values"))
  | _ => valid
  end.

Definition check_required (value : json) (o : object) (path : string) : outcome (Result unit) :=
  match obj_find "required" o with
  | Some (JArray names) =>
      match missing_required value names with
      | Some (JString name) =>
          Val (Err (invalid path ("is missing required property '" +:+ name +:+ "'")))
      | _ => valid
      end
  | _ => valid
  end.

Definition check_additional (value : object) (o : object) (path : string) : outcome (Result unit) :=
  match obj_find "additionalProperties" o with
  | Some (JBool false) =>
      match unexpected_member (properties_of o) value with
      | Some (key, _) => Val (Err (invalid path ("has unexpected property '" +:+ key +:+ "'")))
      | None => valid
      end
  | _ => valid
  end.

Section loops.
Context (validate : json -> json -> string -> outcome (Result unit)).

(** The loop over "properties", in key order. *)
Fixpoint check_properties (value : json) (path : string) (props : object) : outcome (Result unit) :=
  match props with
  | [] => valid
  | (key, sub) :: props' =>
      _ ←? match jfind key value with
           | Some v => validate sub v (path +:+ "/" +:+ key)
           | None => valid
           end;
      check_properties value path props'
  end.

(** The loop over the elements of an array. *)
Fixpoint check_elements (items : json) (path : string) (index : nat) (l : list json)
  : outcome (Result unit) :=
  match l with
  | [] => valid
  | element :: l' =>
      _ ←? validate items element (path +:+ "/" +:+ to_string (Z.of_nat index));
      check_elements items path (S index) l'
  end.
End loops.

Fixpoint validate_at (schema value : json) (path : string) {struct schema} : outcome (Result unit) :=
  match schema with
  | JObject o =>
      _ ←? check_type value o path;
      _ ←? check_enum value o path;
      _ ←? match value with
           | JObject members =>
               _ ←? check_required value o path;
               _ ←? match find_with (fun props => match props with
                                                  | JObject ps => check_properties validate_at value path ps
                                                  | _ => valid
                                                  end) "properties" o with
                    | Some r => r
                    | None => valid
                    end;
               check_additional members o path
           | _ => valid
           end;
      match value with
      | JArray l =>
          match find_with (fun items => if is_object items
                                        then check_elements validate_at items path 0 l
                                        else valid) "items" o with
          | Some r => r
          | None => valid
          end
      | _ => valid
      end
  | _ => valid
  end.

Definition validate_schema (value schema : json) : outcome (Result unit) :=
  validate_at schema value EmptyString.

(** ** Conformance, declaratively *)

Inductive conforms : json -> json -> Prop :=
| conforms_trivial v s : is_object s = false -> conforms v s
| conforms_object v o :
    (forall t, obj_find "type" o = Some t -> type_ok v t = true) ->
    (forall l, obj_find "enum" o = Some (JArray l) -> exists c, c ∈ l /\ json_eqb c v = true) ->
    (forall members names name,
       v = JObject members -> obj_find "required" o = Some (JArray names) ->
       JString name ∈ names -> is_Some (obj_find name members)) ->
    (forall members ps key sub x,
       v = JObject members -> obj_find "properties" o = Some (JObject ps) ->
       (key, sub) ∈ ps -> obj_find key members = Some x -> conforms x sub) ->
    (forall members key x,
       v = JObject members -> obj_find "additionalProperties" o = Some (JBool false) ->
       (key, x) ∈ members -> exists ps sub, properties_of o = Some ps /\ obj_find key ps = Some sub) ->
    (forall l items x,
       v = JArray l -> obj_find "items" o = Some items -> is_object items = true ->
       x ∈ l -> conforms x items) ->
    conforms v (JObject o).

(** ** The validator decides conformance *)

Lemma valid_ok : valid = Val (Ok ()).
Proof. done. Qed.

Lemma check_type_ok v o p :
  check_type v o p = Val (Ok tt) <-> forall t, obj_find "type" o = Some t -> type_ok v t = true.
Proof.
  unfold check_type. destruct (obj_find "type" o) as [t|]; [|split; done].
  destruct (type_ok v t) eqn:E; split; try done.
  - by intros _ t' [= <-].
  - destruct (json_dump t); done.
  - intros H'. specialize (H' t eq_refl). congruence.
Qed.

Lemma enum_ok_spec v l : enum_ok v l = true <-> exists c, c ∈ l /\ json_eqb c v = true.
Proof.
  unfold enum_ok. rewrite existsb_exists. by setoid_rewrite list_elem_of_In.
Qed.

Lemma check_enum_ok v o p :
  check_enum v o p = Val (Ok tt) <->
  forall l, obj_find "enum" o = Some (JArray l) -> exists c, c ∈ l /\ json_eqb c v = true.
Proof.
  unfold check_enum. destruct (obj_find "enum" o) as [[| | | | | |l|]|]; try (split; done).
  destruct (enum_ok v l) eqn:E.
  - split; [|done]. intros _ l' [= <-]. by apply enum_ok_spec.
  - split; [done|]. intros H'. specialize (H' l eq_refl). apply enum_ok_spec in H'. congruence.
Qed.

Lemma contains_spec k (o : object) : contains k (JObject o) = true <-> is_Some (obj_find k o).
Proof. unfold contains, jfind. destruct (obj_find k o); split; first [by intros []|by eauto|done]. Qed.

Lemma missing_required_string v names x : missing_required v names = Some x -> is_string x = true.
Proof. intros [_ H']%find_if_Some. by destruct x. Qed.

Lemma check_required_ok members o p :
  check_required (JObject members) o p = Val (Ok tt) <->
  forall names name, obj_find "required" o = Some (JArray names) ->
    JString name ∈ names -> is_Some (obj_find name members).
Proof.
  unfold check_required.
  destruct (obj_find "required" o) as [[| | | | | |names|]|]; try (split; done).
  destruct (missing_required (JObject members) names) as [x|] eqn:E.
  - pose proof (missing_required_string _ _ _ E) as Hs.
    apply find_if_Some in E as [Hin Hx]. destruct x as [| | | | |name| |]; try done.
    split; [done|]. intros H'. specialize (H' names name eq_refl Hin).
    apply contains_spec in H'. by rewrite H' in Hx.
  - split; [|done]. intros _ names' name [= <-] Hin.
    unfold missing_required in E. rewrite find_if_None in E. specialize (E _ Hin). simpl in E.
    apply contains_spec. by destruct (contains name (JObject members)).
Qed.

Lemma check_additional_ok members o p :
  check_additional members o p = Val (Ok tt) <->
  forall key x, obj_find "additionalProperties" o = Some (JBool false) ->
    (key, x) ∈ members -> exists ps sub, properties_of o = Some ps /\ obj_find key ps = Some sub.
Proof.
  unfold check_additional.
  destruct (obj_find "additionalProperties" o) as [[|[]| | | | | |]|]; try (split; done).
  destruct (unexpected_member (properties_of o) members) as [[key x]|] eqn:E.
  - apply find_if_Some in E as [Hin Hx]. split; [done|]. intros H'.
    destruct (H' key x eq_refl Hin) as (ps & sub & Hp & Hs). simpl in Hx.
    rewrite Hp, Hs in Hx. done.
  - split; [|done]. intros _ key x _ Hin. unfold unexpected_member in E.
    rewrite find_if_None in E. specialize (E _ Hin). simpl in E.
    destruct (properties_of o) as [ps|]; [|done].
    destruct (obj_find key ps) as [sub|] eqn:Es; [|done]. by exists ps, sub.
Qed.

Section loop_specs.
Context (validate : json -> json -> string -> outcome (Result unit)).

Lemma check_properties_ok v p props :
  check_properties validate v p props = Val (Ok tt) <->
  forall key sub x, (key, sub) ∈ props -> jfind key v = Some x ->
    validate sub x (p +:+ "/" +:+ key) = Val (Ok tt).
Proof.
  induction props as [|[key sub] props IH]; simpl.
  - split; [|done]. by intros _ ? ? ? ?%not_elem_of_nil.
  - rewrite try_bind_Ok. setoid_rewrite IH. split.
    + intros ([] & H1 & H2) key' sub' x [[= -> ->]|Hin]%elem_of_cons Hx; [by rewrite Hx in H1|].
      by eapply H2.
    + intros H'. exists tt. split.
      * destruct (jfind key v) as [x|] eqn:E; [|done]. apply H'; [left|done].
      * intros. eapply H'; [by right|done].
Qed.

Lemma check_elements_ok items p n l :
  check_elements validate items p n l = Val (Ok tt) <->
  forall i x, l !! i = Some x ->
    validate items x (p +:+ "/" +:+ to_string (Z.of_nat (n + i))) = Val (Ok tt).
Proof.
  revert n. induction l as [|y l IH]; intros n; simpl; [done|].
  rewrite try_bind_Ok. setoid_rewrite IH. split.
  - intros ([] & H1 & H2) [|i] x; simpl.
    + intros [= <-]. by rewrite Nat.add_0_r.
    + intros Hx. rewrite Nat.add_succ_r. by apply (H2 i).
  - intros H'. exists tt. split.
    + rewrite <- (Nat.add_0_r n). by apply (H' 0).
    + intros i x Hx. rewrite Nat.add_succ_comm. by apply (H' (S i)).
Qed.
End loop_specs.

Lemma validate_properties_ok rec members o p :
  match find_with (fun props => match props with
                                | JObject ps => check_properties rec (JObject members) p ps
                                | _ => valid
                                end) "properties" o with
  | Some r => r
  | None => valid
  end = Val (Ok tt) <->
  forall ps key sub x, obj_find "properties" o = Some (JObject ps) -> (key, sub) ∈ ps ->
    obj_find key members = Some x -> rec sub x (p +:+ "/" +:+ key) = Val (Ok tt).
Proof.
  rewrite find_with_spec.
  destruct (obj_find "properties" o) as [[| | | | | | |ps]|]; simpl; try (split; done).
  rewrite check_properties_ok. split.
  - intros H' ps' key sub x [= <-]. apply H'.
  - intros H' key sub x. by apply H'.
Qed.

Lemma validate_items_ok rec l o p :
  match find_with (fun items => if is_object items then check_elements rec items p 0 l else valid)
                  "items" o with
  | Some r => r
  | None => valid
  end = Val (Ok tt) <->
  forall items i x, obj_find "items" o = Some items -> is_object items = true -> l !! i = Some x ->
    rec items x (p +:+ "/" +:+ to_string (Z.of_nat i)) = Val (Ok tt).
Proof.
  rewrite find_with_spec. destruct (obj_find "items" o) as [items|]; simpl; [|split; done].
  destruct (is_object items) eqn:E.
  - rewrite check_elements_ok. split; [|naive_solver].
    intros H' items' i x [= <-] _. apply H'.
  - split; [|done]. intros _ items' i x [= <-]. congruence.
Qed.

Lemma json_size_sub ps key sub o k :
  obj_find k o = Some (JObject ps) -> (key, sub) ∈ ps -> json_size sub < json_size (JObject o).
Proof.
  intros H1%json_size_member H2.
  apply (sum_list_elem (fun kv : string * json => json_size kv.2)) in H2.
  change (json_size (JObject ps)) with (S (sum_list ((fun kv => json_size kv.2) <$> ps))) in H1.
  simpl in H2. lia.
Qed.

Lemma try_unit_Ok (a k : outcome (Result unit)) :
  (_ ←? a; k) = Val (Ok tt) <-> a = Val (Ok tt) /\ k = Val (Ok tt).
Proof.
  rewrite try_bind_Ok. split; [by intros ([] & H1 & H2)|intros [H1 H2]; by exists tt].
Qed.

Lemma validate_at_conforms s : forall v p, validate_at s v p = Val (Ok tt) <-> conforms v s.
Proof.
  induction s as [s IH] using json_size_ind. intros v p.
  destruct s as [| | | | | | |o]; try (split; [by constructor|done]).
  cbn [validate_at]. rewrite !try_unit_Ok, check_type_ok, check_enum_ok. split.
  - intros (Ht & He & Hobj & Harr).
    apply conforms_object; try done.
    + intros members names name -> Hn Hin. rewrite !try_unit_Ok, check_required_ok in Hobj.
      destruct Hobj as (Hreq & _). by eapply Hreq.
    + intros members ps key sub x -> Hps Hin Hx.
      rewrite !try_unit_Ok, validate_properties_ok in Hobj. destruct Hobj as (_ & Hp & _).
      assert (json_size sub < json_size (JObject o)) by by eapply json_size_sub.
      apply (IH sub) with (p := p +:+ "/" +:+ key); [done|]. by eapply Hp.
    + intros members key x -> Hap Hin. rewrite !try_unit_Ok, check_additional_ok in Hobj.
      destruct Hobj as (_ & _ & Ha). by eapply Ha.
    + intros l items x -> Hitems Hobj' [i Hi]%list_elem_of_lookup. rewrite validate_items_ok in Harr.
      eapply (IH items); [by eapply json_size_member|]. by eapply Harr.
  - inversion 1 as [|v' o' Ht He Hr Hp Ha Hi]; subst; [done|].
    split; [done|]. split; [done|]. split.
    + destruct v as [| | | | | | |members]; try done.
      rewrite !try_unit_Ok, check_required_ok, validate_properties_ok, check_additional_ok.
      split; [naive_solver|]. split; [|naive_solver].
      intros ps key sub x Hps Hin Hx.
      apply (IH sub); [by eapply json_size_sub|]. by eapply Hp.
    + destruct v as [| | | | | |l|]; try done.
      rewrite validate_items_ok. intros items i x Hitems Hobj Hx.
      apply (IH items); [by eapply json_size_member|].
      eapply Hi; try done. by eapply list_elem_of_lookup_2.
Qed.

(** C30: the validator decides conformance: it accepts a value exactly when the
    value conforms to the schema, whatever the nesting of "properties" and
    "items". *)
Theorem validate_schema_correct value schema :
  validate_schema value schema = Val (Ok tt) <-> conforms value schema.
Proof. apply validate_at_conforms. Qed.

End validate.
