(* ===== verification/Pagination.v ===== *)
(** * Cursor pagination

    include/mcp/detail/pagination.hpp: the page a cursor names, over a list
    snapshot.  Machine arithmetic on [std::size_t] is written out ([wrap_u 64]);
    an iterator range whose end precedes its start is [Undefined]. *)

From S2P Require Import Prelude Core.

Record Page (T : Type) := mkPage { page_items : list T; next_cursor : option string }.
Arguments mkPage {T}.
Arguments page_items {T}.
Arguments next_cursor {T}.

Section paginate.
Context {T : Type}.

(** The accumulation loop over the digits of a cursor. *)
Fixpoint read_cursor (items_size : Z) (start : Z) (cursor : string) : option Z :=
  match cursor with
  | EmptyString => Some start
  | String c cursor' =>
      let start := wrap_u 64 (wrap_u 64 (start * 10) + digit_val c) in
      if (items_size <? start)%Z then None else read_cursor items_size start cursor'
  end.

Definition cursor_start (items_size : Z) (cursor : option string) : Result Z :=
  match cursor with
  | None => Ok 0%Z
  | Some c =>
      if String.eqb c EmptyString then Err (error PaginationError "invalid cursor")
      else if negb (str_forall is_digit c) then Err (error PaginationError "invalid cursor")
      else match read_cursor items_size 0 c with
           | None => Err (error PaginationError "cursor out of range")
           | Some start => Ok start
           end
  end.

Definition paginate (items : list T) (cursor : option string) (page_size : Z)
  : outcome (Result (Page T)) :=
  let n := Z.of_nat (length items) in
  start ←? Val (cursor_start n cursor);
  let end_ := Z.min (wrap_u 64 (start + page_size)) n in
  if (end_ <? start)%Z then Undefined
  else Val (Ok (mkPage (take (Z.to_nat (end_ - start)) (drop (Z.to_nat start) items))
                       (if (end_ <? n)%Z then Some (to_string end_) else None))).

(** A client that follows [next_cursor] until it is absent. *)
Fixpoint walk (fuel : nat) (items : list T) (cursor : option string) (page_size : Z) : option (list T) :=
  match fuel with
  | O => None
  | S fuel =>
      match paginate items cursor page_size with
      | Val (Ok p) =>
          match next_cursor p with
          | None => Some (page_items p)
          | Some c => app (page_items p) <$> walk fuel items (Some c) page_size
          end
      | _ => None
      end
  end.

(** ** Cursors *)

Lemma read_cursor_app n a s1 s2 :
  read_cursor n a (s1 +:+ s2) = (b ← read_cursor n a s1; read_cursor n b s2).
Proof. revert a. induction s1 as [|c s1 IH]; intros a; simpl; [done|]. by case_match. Qed.

Lemma read_cursor_to_string n k :
  (0 <= k)%Z -> (10 * n + 10 < modulus 64)%Z ->
  (k <= n)%Z -> read_cursor n 0 (to_string k) = Some k.
Proof.
  intros Hk Hn. revert k Hk. apply (to_string_ind (fun k s => (k <= n)%Z -> read_cursor n 0 s = Some k)).
  - intros d Hd Hle. simpl. apply digit_char_spec in Hd as Hd'. destruct Hd' as [_ ->].
    change (wrap_u 64 (0 * 10)) with 0%Z. rewrite wrap_u_id by (split; lia).
    destruct (Z.ltb_spec n (0 + d)); [lia|done].
  - intros k d s Hk Hd IH Hle. rewrite read_cursor_app, IH by lia. simpl.
    apply digit_char_spec in Hd as Hd'. destruct Hd' as [_ ->].
    replace (k * 10)%Z with (10 * k)%Z by lia.
    rewrite (wrap_u_id _ (10 * k)) by (split; lia). rewrite wrap_u_id by (split; lia).
    destruct (Z.ltb_spec n (10 * k + d)); [lia|done].
Qed.

Lemma read_cursor_bound n a s b :
  (0 <= a <= n)%Z -> read_cursor n a s = Some b -> (0 <= b <= n)%Z.
Proof.
  revert a. induction s as [|c s IH]; intros a Ha; simpl; [by intros [= <-]|].
  destruct (Z.ltb_spec n (wrap_u 64 (wrap_u 64 (a * 10) + digit_val c))); [done|].
  apply IH. pose proof (wrap_u_range 64 (wrap_u 64 (a * 10) + digit_val c) ltac:(lia)).
  unfold in_u in *. lia.
Qed.

(** ** Pages *)

(** A snapshot whose size fits the address space. *)
Definition small (items : list T) : Prop := (10 * Z.of_nat (length items) + 10 < modulus 64)%Z.

Definition page_at (items : list T) (k page_size : nat) : Page T :=
  mkPage (take page_size (drop k items))
         (if decide (k + page_size < length items) then Some (to_string (Z.of_nat (k + page_size)))
          else None).

Lemma paginate_at_start items cursor k page_size :
  cursor_start (Z.of_nat (length items)) cursor = Ok (Z.of_nat k) ->
  k <= length items -> (Z.of_nat (k + page_size) < modulus 64)%Z ->
  paginate items cursor (Z.of_nat page_size) = Val (Ok (page_at items k page_size)).
Proof.
  intros Hc Hk Hsz. unfold paginate. rewrite Hc. unfold try_bind. simpl.
  rewrite wrap_u_id by (split; lia).
  replace (Z.of_nat k + Z.of_nat page_size)%Z with (Z.of_nat (k + page_size)) by lia.
  destruct (Z.ltb_spec (Z.of_nat (k + page_size) `min` Z.of_nat (length items)) (Z.of_nat k)); [lia|].
  unfold page_at. rewrite Nat2Z.id. do 3 f_equal.
  - destruct (decide (k + page_size <= length items)).
    + f_equal. lia.
    + rewrite !take_ge by (rewrite length_drop; lia). done.
  - destruct (Z.ltb_spec (Z.of_nat (k + page_size) `min` Z.of_nat (length items)) (Z.of_nat (length items)));
      case_decide; try lia; [|done]. f_equal. f_equal. lia.
Qed.

Lemma cursor_start_to_string items k :
  small items -> k <= length items ->
  cursor_start (Z.of_nat (length items)) (Some (to_string (Z.of_nat k))) = Ok (Z.of_nat k).
Proof.
  intros Hs Hk. unfold cursor_start.
  destruct (to_string_digits (Z.of_nat k) ltac:(lia)) as [Hd Hne].
  rewrite (proj2 (String.eqb_neq _ _) Hne), Hd. simpl.
  unfold small in Hs. by rewrite read_cursor_to_string by lia.
Qed.

Lemma walk_at items cursor k page_size fuel :
  small items -> 0 < page_size ->
  (Z.of_nat (length items + page_size) < modulus 64)%Z ->
  cursor_start (Z.of_nat (length items)) cursor = Ok (Z.of_nat k) ->
  k <= length items -> length items - k < fuel ->
  walk fuel items cursor (Z.of_nat page_size) = Some (drop k items).
Proof.
  intros Hs Hp Hfit. revert cursor k. induction fuel as [|fuel IH]; intros cursor k Hc Hk Hf; [lia|].
  cbn [walk]. rewrite (paginate_at_start _ _ k) by (done || lia). unfold page_at. simpl.
  case_decide as Hd.
  - rewrite (IH _ (k + page_size)); [|by apply cursor_start_to_string; [|lia]|lia|lia].
    simpl. f_equal. rewrite <- drop_drop. apply take_drop.
  - f_equal. apply take_ge. rewrite length_drop. lia.
Qed.

(** ** Properties *)

(** C37: following the cursors from the first page visits every item of the
    snapshot exactly once and in order, and the walk ends: one page per item,
    plus one, is enough fuel. *)
Theorem paginate_complete (items : list T) (page_size : nat) :
  small items -> 0 < page_size -> (Z.of_nat (length items + page_size) < modulus 64)%Z ->
  walk (S (length items)) items None (Z.of_nat page_size) = Some items.
Proof. intros. rewrite (walk_at _ _ 0) by (done || lia). done. Qed.


(** With a page size large enough for [start + page_size] to wrap around,
    a valid non-zero cursor makes the end of the range precede its start, which
    is undefined behaviour in [vector::assign]. *)
Theorem paginate_overflow (items : list T) (k : nat) (page_size : Z) :
  small items -> 0 < k <= length items ->
  (modulus 64 - Z.of_nat k <= page_size < modulus 64)%Z ->
  paginate items (Some (to_string (Z.of_nat k))) page_size = Undefined.
Proof.
  intros Hs Hk Hp. unfold paginate. rewrite cursor_start_to_string by (done || lia).
  unfold try_bind. simpl.
  assert (wrap_u 64 (Z.of_nat k + page_size) = Z.of_nat k + page_size - modulus 64)%Z as ->.
  { unfold wrap_u. unfold small in Hs. symmetry. apply (Z.mod_unique _ _ 1); [left|]; lia. }
  destruct (Z.ltb_spec ((Z.of_nat k + page_size - modulus 64) `min` Z.of_nat (length items)) (Z.of_nat k)); [done|lia].
Qed.
End paginate.

Definition three : list nat := [10; 20; 30].

Lemma three_small : small three.
Proof. by vm_compute. Qed.

Lemma paginate_complete_witness : walk 4 three None 2 = Some three.
Proof. apply (paginate_complete three 2); [apply three_small|lia|by vm_compute]. Defined.


Lemma paginate_overflow_witness : paginate three (Some "1") 18446744073709551615 = Undefined.
Proof. apply (paginate_overflow three 1); [apply three_small|simpl; lia|by vm_compute]. Defined.
