(* ===== verification/UriTemplate.v ===== *)
(** * URI templates

    src/server/uri_template.cpp: level-1 templates, as a tokenizer and a
    leftmost matcher, against a declarative reading of a template. *)

From S2P Require Import Prelude.

Inductive Segment : Set := Literal (text : string) | Variable_ (name : string).

Definition is_variable (s : Segment) : bool :=
  match s with Literal _ => false | Variable_ _ => true end.

Definition flush (current : string) (segments : list Segment) : list Segment :=
  if String.eqb current EmptyString then segments else Literal current :: segments.

(** The loop of [tokenize] over the characters; [skip] is how far the index was
    moved past the current character by [i = close]. *)
Fixpoint tokenize_from (skip : nat) (current rest : string) : option (list Segment) :=
  match rest with
  | EmptyString => Some (flush current [])
  | String c rest' =>
      match skip with
      | S k => tokenize_from k current rest'
      | O =>
          if Ascii.eqb c "{"%char then
            match find_char "}"%char rest' with
            | None | Some O => None
            | Some close =>
                segs ← tokenize_from (S close) EmptyString rest';
                Some (flush current (Variable_ (str_take close rest') :: segs))
            end
          else tokenize_from 0 (current +:+ String c EmptyString) rest'
      end
  end.

Definition tokenize (uri_template : string) : option (list Segment) :=
  tokenize_from 0 EmptyString uri_template.

(** The matching loop: [pos] is the offset in [uri], [variables] the map built
    so far. *)
Fixpoint match_segments (segments : list Segment) (uri : string) (pos : nat)
    (variables : gmap string string) : option (gmap string string) :=
  match segments with
  | [] => if decide (pos = size uri) then Some variables else None
  | Literal text :: segments' =>
      if str_compare_at pos (size text) text uri
      then match_segments segments' uri (pos + size text) variables
      else None
  | Variable_ name :: segments' =>
      value_end ← match segments' with
                  | [] => Some (size uri)
                  | Variable_ _ :: _ => None
                  | Literal next :: _ => str_find_from next pos uri
                  end;
      if decide (value_end = pos) then None
      else match_segments segments' uri value_end
             (<[name := str_take (value_end - pos) (str_drop pos uri)]> variables)
  end.

Definition match_uri_template (uri_template uri : string) : option (gmap string string) :=
  segments ← tokenize uri_template; match_segments segments uri 0 ∅.

(** ** The declarative reading *)

(** [reads segs u vs]: [u] splits along [segs]; each variable takes a non-empty
    value that ends at the first occurrence of the literal after it, or at the
    end of [u]; two variables are never adjacent. *)
Inductive reads : list Segment -> string -> list (string * string) -> Prop :=
| reads_nil : reads [] EmptyString []
| reads_literal t segs u vs : reads segs u vs -> reads (Literal t :: segs) (t +:+ u) vs
| reads_last n v : v <> EmptyString -> reads [Variable_ n] v [(n, v)]
| reads_variable n t segs v u vs :
    v <> EmptyString -> str_find t (v +:+ u) = Some (size v) ->
    reads (Literal t :: segs) u vs -> reads (Variable_ n :: Literal t :: segs) (v +:+ u) ((n, v) :: vs).

(** Later bindings of a name overwrite earlier ones. *)
Definition bind_all (vs : list (string * string)) (m : gmap string string) : gmap string string :=
  foldl (fun m kv => <[kv.1 := kv.2]> m) m vs.

(** The text of a segment list, and a template's expansion by a binding. *)
Definition render_segment (s : Segment) : string :=
  match s with Literal t => t | Variable_ n => String "{" (n +:+ "}") end.
Definition render (segs : list Segment) : string := foldr (fun s r => render_segment s +:+ r) EmptyString segs.

Fixpoint expand (segs : list Segment) (m : gmap string string) : option string :=
  match segs with
  | [] => Some EmptyString
  | Literal t :: segs' => (fun r => t +:+ r) <$> expand segs' m
  | Variable_ n :: segs' => v ← m !! n; (fun r => v +:+ r) <$> expand segs' m
  end.

Definition names (segs : list Segment) : list string :=
  omap (fun s => match s with Variable_ n => Some n | Literal _ => None end) segs.

(** ** Tokenizing *)

Lemma render_flush current segs : render (flush current segs) = current +:+ render segs.
Proof.
  unfold flush. destruct (String.eqb_spec current EmptyString) as [->|]; [done|]. done.
Qed.

Lemma tokenize_from_skip k current rest :
  k <= size rest -> tokenize_from k current rest = tokenize_from 0 current (str_drop k rest).
Proof.
  revert rest. induction k as [|k IH]; intros [|c rest] Hk; [done|done|simpl in Hk; lia|].
  apply IH. simpl in Hk. lia.
Qed.

Lemma tokenize_from_render rest current segs :
  tokenize_from 0 current rest = Some segs -> render segs = current +:+ rest.
Proof.
  remember (size rest) as n eqn:Hn. revert rest current segs Hn.
  induction (lt_wf n) as [n _ IH]. intros rest current segs ->. destruct rest as [|c rest]; simpl.
  { intros [= <-]. by rewrite render_flush. }
  destruct (Ascii.eqb_spec c "{"%char) as [->|_].
  - destruct (find_char "}"%char rest) as [[|close]|] eqn:E; try done.
    unfold find_char in E. apply str_find_Some in E as [Hle Heq].
    change (size (String _ _)) with 1 in Hle, Heq.
    rewrite tokenize_from_skip by lia.
    destruct (tokenize_from 0 EmptyString _) as [segs'|] eqn:Es; simpl; [|done].
    assert (size (str_drop (S (S close)) rest) < size (String "{" rest)) as Hlt
      by (rewrite size_drop; simpl; lia).
    intros [= <-]. apply (IH _ Hlt _ _ _ eq_refl) in Es.
    rewrite render_flush. f_equal.
    change (String "{" ((str_take (S close) rest +:+ "}") +:+ render segs') = String "{" rest).
    rewrite Es, str_app_assoc. f_equal. rewrite Nat.add_1_r in Heq. by symmetry.
  - intros H. apply (IH (size rest) ltac:(simpl; lia) _ _ _ eq_refl) in H.
    rewrite H, str_app_assoc. done.
Qed.

Lemma tokenize_render t segs : tokenize t = Some segs -> render segs = t.
Proof. apply tokenize_from_render. Qed.

(** ** Matching *)

Lemma str_drop_split pos n s : str_drop pos s = str_take n (str_drop pos s) +:+ str_drop (pos + n) s.
Proof. rewrite <- str_drop_drop. by rewrite str_take_drop. Qed.

Lemma str_drop_end pos s : pos <= size s -> str_drop pos s = EmptyString -> pos = size s.
Proof. intros Hp H. apply (f_equal size) in H. rewrite size_drop in H. simpl in H. lia. Qed.

Lemma match_segments_sound segs u pos m m' :
  pos <= size u -> match_segments segs u pos m = Some m' ->
  exists vs, reads segs (str_drop pos u) vs /\ m' = bind_all vs m.
Proof.
  revert pos m. induction segs as [|[t|n] segs IH]; intros pos m Hp; cbn [match_segments].
  - case_decide; [|done]. intros [= <-]. subst. exists []. split; [|done].
    rewrite str_drop_all by lia. constructor.
  - unfold str_compare_at. destruct (String.eqb_spec (str_take (size t) (str_drop pos u)) t) as [E|]; [|done].
    intros H. assert (pos + size t <= size u).
    { apply (f_equal size) in E. rewrite size_take, size_drop in E. lia. }
    apply IH in H as (vs & Hr & ->); [|done]. exists vs. split; [|done].
    rewrite (str_drop_split pos (size t) u), E. by constructor.
  - destruct segs as [|[t|n'] segs].
    + simpl. case_decide; [done|]. simpl. case_decide; [|done]. intros [= <-].
      exists [(n, str_drop pos u)]. split.
      * constructor. intros H'. apply str_drop_end in H'; [done|lia].
      * simpl. by rewrite str_take_all by (rewrite size_drop; lia).
    + unfold str_find_from. case_decide; [|done].
      destruct (str_find t (str_drop pos u)) as [k|] eqn:E; [|done]. rewrite fmap_Some_eq, bind_Some_eq.
      apply str_find_Some in E as Hf. destruct Hf as [Hk Heq]. rewrite size_drop in Hk.
      case_decide; [done|]. intros H'. replace (pos + k - pos) with k in H' by lia.
      apply IH in H' as (vs & Hr & ->); [|lia].
      exists ((n, str_take k (str_drop pos u)) :: vs). split; [|done].
      rewrite (str_drop_split pos k u) at 1. constructor; [| |done].
      * intros H'. apply (f_equal size) in H'. rewrite size_take, size_drop in H'. simpl in H'. lia.
      * rewrite <- str_drop_split, E. f_equal. rewrite size_take, size_drop. lia.
    + done.
Qed.

Lemma match_segments_complete segs u vs pre m :
  reads segs u vs -> match_segments segs (pre +:+ u) (size pre) m = Some (bind_all vs m).
Proof.
  intros H. revert pre m. induction H as [|t segs u vs H IH|n v Hv|n t segs v u vs Hv Hf H IH]; intros pre m.
  - simpl. rewrite str_app_nil_r. by rewrite decide_True.
  - cbn [match_segments]. unfold str_compare_at. rewrite str_drop_app_size, str_take_app_size, String.eqb_refl.
    rewrite <- size_app, <- str_app_assoc. apply IH.
  - simpl. rewrite decide_False by (rewrite size_app; destruct v; simpl in *; [done|lia]). simpl.
    rewrite decide_True by done. rewrite str_drop_app_size. f_equal.
    rewrite str_take_all; [done|rewrite size_app; lia].
  - cbn [match_segments]. unfold str_find_from.
    rewrite decide_True by (rewrite size_app; lia). rewrite str_drop_app_size, Hf. rewrite fmap_Some_eq, bind_Some_eq.
    rewrite decide_False by (destruct v; simpl; [done|lia]).
    replace (size pre + size v - size pre) with (size v) by lia. rewrite str_take_app_size.
    specialize (IH (pre +:+ v) (<[n:=v]> m)). rewrite size_app, str_app_assoc in IH. apply IH.
Qed.

(** ** Expansion *)

Lemma reads_names segs u vs : reads segs u vs -> vs.*1 = names segs.
Proof.
  induction 1 as [|t segs u vs _ IH| |n t segs v u vs _ _ _ IH]; [done|exact IH|done|].
  rewrite fmap_cons, IH. done.
Qed.

Lemma bind_all_lookup_ne vs m n : n ∉ vs.*1 -> bind_all vs m !! n = m !! n.
Proof.
  revert m. induction vs as [|[k v] vs IH]; intros m Hn; [done|]. rewrite fmap_cons in Hn.
  apply not_elem_of_cons in Hn as [Hk Hn]. simpl in *. rewrite IH by done. by rewrite lookup_insert_ne.
Qed.

Lemma reads_expand segs u vs m :
  reads segs u vs -> NoDup (names segs) -> expand segs (bind_all vs m) = Some u.
Proof.
  intros H. revert m. induction H as [|t segs u vs H IH|n v Hv|n t segs v u vs Hv Hf H IH]; intros m Hnd.
  - done.
  - cbn [expand]. by rewrite IH.
  - simpl. rewrite lookup_insert_eq. simpl. by rewrite str_app_nil_r.
  - cbn [names omap list_omap] in Hnd. apply NoDup_cons in Hnd as [Hn Hnd].
    change (expand (Variable_ n :: Literal t :: segs) (bind_all ((n, v) :: vs) m))
      with (v' ← bind_all vs (<[n:=v]> m) !! n;
            (fun r => v' +:+ r) <$> expand (Literal t :: segs) (bind_all vs (<[n:=v]> m))).
    rewrite bind_all_lookup_ne by (by rewrite (reads_names _ _ _ H)).
    rewrite lookup_insert_eq. cbn [mbind option_bind]. by rewrite IH.
Qed.

(** ** Properties *)

(** C36: the matcher implements the declarative reading of a template: it
    succeeds exactly on the URIs that split along the template, with the
    leftmost values. *)
Theorem match_uri_template_spec t u m :
  match_uri_template t u = Some m <->
  exists segs vs, tokenize t = Some segs /\ reads segs u vs /\ m = bind_all vs ∅.
Proof.
  unfold match_uri_template. destruct (tokenize t) as [segs|]; simpl; [|naive_solver].
  split.
  - intros H. apply match_segments_sound in H as (vs & Hr & ->); [|lia].
    rewrite str_drop_0 in Hr. by exists segs, vs.
  - intros (segs' & vs & [= <-] & Hr & ->). by apply (match_segments_complete _ _ _ EmptyString).
Qed.

(** When the names of a template are distinct, substituting the values a
    match returns back into the template gives the URI that was matched, and
    the segments are the template's own text. *)
Theorem match_uri_template_expand t u m segs :
  match_uri_template t u = Some m -> tokenize t = Some segs -> NoDup (names segs) ->
  render segs = t /\ expand segs m = Some u.
Proof.
  unfold match_uri_template. intros H Ht Hnd. split; [by apply tokenize_render|].
  rewrite Ht in H. simpl in H. apply match_segments_sound in H as (vs & Hr & ->); [|lia].
  rewrite str_drop_0 in Hr. by eapply reads_expand.
Qed.

Lemma match_uri_template_expand_witness :
  render [Literal "file:///"; Variable_ "path"; Literal ".txt"] = "file:///{path}.txt" /\
  expand [Literal "file:///"; Variable_ "path"; Literal ".txt"] {["path" := "notes"]} = Some "file:///notes.txt".
Proof.
  apply (match_uri_template_expand "file:///{path}.txt" "file:///notes.txt"); [by vm_compute|done|].
  apply (bool_decide_unpack _). by vm_compute.
Defined.
