(* ===== verification/Protocol.v ===== *)
(** * Method names and the payloads of the built-in notifications

    include/mcp/methods.hpp, core/progress.hpp and core/cancellation.hpp. *)

From S2P Require Import Prelude Json Core Types Message Content.

Definition kInitialize : string := "initialize".
Definition kPing : string := "ping".
Definition kToolsList : string := "tools/list".
Definition kToolsCall : string := "tools/call".
Definition kResourcesList : string := "resources/list".
Definition kResourcesRead : string := "resources/read".
Definition kResourcesTemplatesList : string := "resources/templates/list".
Definition kResourcesSubscribe : string := "resources/subscribe".
Definition kResourcesUnsubscribe : string := "resources/unsubscribe".
Definition kPromptsList : string := "prompts/list".
Definition kPromptsGet : string := "prompts/get".
Definition kCompletionComplete : string := "completion/complete".
Definition kLoggingSetLevel : string := "logging/setLevel".
Definition kSamplingCreateMessage : string := "sampling/createMessage".
Definition kRootsList : string := "roots/list".
Definition kElicitationCreate : string := "elicitation/create".
Definition kNotificationInitialized : string := "notifications/initialized".
Definition kNotificationCancelled : string := "notifications/cancelled".
Definition kNotificationProgress : string := "notifications/progress".
Definition kNotificationMessage : string := "notifications/message".
Definition kNotificationToolsListChanged : string := "notifications/tools/list_changed".
Definition kNotificationResourcesListChanged : string := "notifications/resources/list_changed".
Definition kNotificationResourcesUpdated : string := "notifications/resources/updated".
Definition kNotificationPromptsListChanged : string := "notifications/prompts/list_changed".
Definition kNotificationRootsListChanged : string := "notifications/roots/list_changed".

(** ** notifications/progress *)

Record ProgressNotification := mkProgress {
  pn_token : ProgressToken;
  pn_progress : double;
  pn_total : option double;
  pn_message : option string;
}.

Definition ProgressNotification_to_json (n : ProgressNotification) : json :=
  JObject (set_optional JString "message" (pn_message n)
    (set_optional JFloat "total" (pn_total n)
      (make_object [("progressToken", request_id_to_json (pn_token n)); ("progress", JFloat (pn_progress n))]))).

Definition ProgressNotification_from_json (j : json) : outcome (Result ProgressNotification) :=
  match jfind "progressToken" j, jfind "progress" j with
  | Some t, Some p =>
      if negb (is_number p) then Val (Err (error InvalidParams "malformed progress notification"))
      else match request_id_from_json t with
           | None => Val (Err (error InvalidParams "progressToken must be a string or integer"))
           | Some token =>
               progress ← get_double p;
               total ← get_optional get_double j "total";
               message ← get_optional get_string j "message";
               Val (Ok (mkProgress token progress total message))
           end
  | _, _ => Val (Err (error InvalidParams "malformed progress notification"))
  end.

(** ** notifications/cancelled *)

Record CancelledNotification := mkCancelled {
  cn_request_id : RequestId;
  cn_reason : option string;
}.

Definition CancelledNotification_to_json (n : CancelledNotification) : json :=
  JObject (set_optional JString "reason" (cn_reason n)
    (make_object [("requestId", request_id_to_json (cn_request_id n))])).

Definition CancelledNotification_from_json (j : json) : outcome (Result CancelledNotification) :=
  match jfind "requestId" j with
  | None => Val (Err (error InvalidParams "malformed cancelled notification"))
  | Some i =>
      match request_id_from_json i with
      | None => Val (Err (error InvalidParams "requestId must be a string or integer"))
      | Some id => reason ← get_optional get_string j "reason"; Val (Ok (mkCancelled id reason))
      end
  end.

(** ** Round trips *)

Lemma ProgressNotification_read n :
  ProgressNotification_from_json (ProgressNotification_to_json n) = Val (Ok n).
Proof.
  destruct n as [token progress total message].
  unfold ProgressNotification_from_json, ProgressNotification_to_json, jfind. json_lookup. cbn [negb is_number].
  rewrite request_id_roundtrip. simpl.
  by destruct total, message.
Qed.

Lemma CancelledNotification_read n :
  CancelledNotification_from_json (CancelledNotification_to_json n) = Val (Ok n).
Proof.
  destruct n as [i reason]. unfold CancelledNotification_from_json, CancelledNotification_to_json, jfind.
  json_lookup. rewrite request_id_roundtrip. by destruct reason.
Qed.
