(* ===== verification/State.v ===== *)
(** * Stateful code that may throw

    A computation transforms a state and either returns, throws, or is
    undefined; the state changes made before a throw persist, as they do in the
    sources. *)

From S2P Require Import Prelude Core.

Definition st (S A : Type) : Type := S -> S * outcome A.

#[export] Instance st_ret {S} : MRet (st S) := fun A a s => (s, Val a).
#[export] Instance st_bind {S} : MBind (st S) :=
  fun A B k m s => match m s with
                   | (s', Val a) => k a s'
                   | (s', Throw e) => (s', Throw e)
                   | (s', Undefined) => (s', Undefined)
                   end.

Definition gets {S A} (f : S -> A) : st S A := fun s => (s, Val (f s)).
Definition modify {S} (f : S -> S) : st S unit := fun s => (f s, Val tt).
Definition lift {S A} (m : outcome A) : st S A := fun s => (s, m).
Definition skip {S} : st S unit := fun s => (s, Val tt).

(** [catch m h]: a [try] block whose handlers cover every [std::exception]. *)
Definition catch {S A} (m : st S A) (h : exn -> st S A) : st S A :=
  fun s => match m s with (s', Throw e) => h e s' | r => r end.

(** A loop over a list, in order. *)
Fixpoint for_each {S A} (f : A -> st S unit) (l : list A) : st S unit :=
  match l with
  | [] => skip
  | x :: l' => _ ← f x; for_each f l'
  end.

(** A computation on a part of the state. *)
Definition zoom {S P A} (get : S -> P) (put : P -> S -> S) (m : st P A) : st S A :=
  fun s => let '(p, r) := m (get s) in (put p s, r).

Lemma st_bind_val {S A B} (m : st S A) (k : A -> st S B) s s' a :
  m s = (s', Val a) -> mbind k m s = k a s'.
Proof. unfold mbind, st_bind. by intros ->. Qed.

Lemma st_bind_inv {S A B} (m : st S A) (k : A -> st S B) s s' r :
  mbind k m s = (s', r) ->
  (exists s1 a, m s = (s1, Val a) /\ k a s1 = (s', r)) \/
  (exists e, m s = (s', Throw e) /\ r = Throw e) \/ (m s = (s', Undefined) /\ r = Undefined).
Proof.
  unfold mbind, st_bind. destruct (m s) as [s1 [a|e|]].
  - left. by exists s1, a.
  - intros [= <- <-]. right. left. by exists e.
  - intros [= <- <-]. by right; right.
Qed.

Lemma for_each_app {S A} (f : A -> st S unit) l1 l2 s :
  for_each f (l1 ++ l2) s = (_ ← for_each f l1; for_each f l2) s.
Proof.
  revert s. induction l1 as [|x l1 IH]; intros s; [done|]. cbn [for_each app]. unfold mbind, st_bind in *.
  destruct (f x s) as [s1 [a|e|]]; [|done|done]. apply IH.
Qed.

(** ** Properties kept by a computation on every outcome *)

Definition keeps {S A} (I : S -> Prop) (m : st S A) : Prop := forall s, I s -> I (m s).1.

Lemma keeps_ret {S A} (I : S -> Prop) (a : A) : keeps I (mret a).
Proof. by intros s. Qed.

Lemma keeps_skip {S} (I : S -> Prop) : keeps I skip.
Proof. by intros s. Qed.

Lemma keeps_gets {S A} (I : S -> Prop) (f : S -> A) : keeps I (gets f).
Proof. by intros s. Qed.

Lemma keeps_lift {S A} (I : S -> Prop) (m : outcome A) : keeps I (lift m).
Proof. by intros s. Qed.

Lemma keeps_bind {S A B} (I : S -> Prop) (m : st S A) (k : A -> st S B) :
  keeps I m -> (forall a, keeps I (k a)) -> keeps I (mbind k m).
Proof.
  intros Hm Hk s Hs. unfold mbind, st_bind. specialize (Hm s Hs).
  destruct (m s) as [s' [a|e|]]; simpl in *; [by apply Hk|done|done].
Qed.

Lemma keeps_modify {S} (I : S -> Prop) (f : S -> S) : (forall s, I s -> I (f s)) -> keeps I (modify f).
Proof. intros H s. apply H. Qed.

Lemma keeps_catch {S A} (I : S -> Prop) (m : st S A) h :
  keeps I m -> (forall e, keeps I (h e)) -> keeps I (catch m h).
Proof.
  intros Hm Hh s Hs. unfold catch. specialize (Hm s Hs).
  destruct (m s) as [s' [a|e|]]; simpl in *; [done|by apply Hh|done].
Qed.

Lemma keeps_for_each {S A} (I : S -> Prop) (f : A -> st S unit) l :
  (forall x, x ∈ l -> keeps I (f x)) -> keeps I (for_each f l).
Proof.
  induction l as [|x l IH]; intros H; simpl; [apply keeps_skip|].
  apply keeps_bind; [apply H; left|]. intros _. apply IH. intros y Hy. apply H. by right.
Qed.

Create HintDb keeps.
#[export] Hint Resolve keeps_ret keeps_skip keeps_gets keeps_lift : keeps.
#[export] Hint Extern 2 (keeps _ (mbind _ _)) => apply keeps_bind; [|intros ?] : keeps.
#[export] Hint Extern 2 (keeps _ (catch _ _)) => apply keeps_catch; [|intros ?] : keeps.
#[export] Hint Extern 3 (keeps _ (match ?x with _ => _ end)) => destruct x eqn:? : keeps.

(** ** Triples: what holds when a computation returns *)

Definition triple {S A} (P : S -> Prop) (m : st S A) (Q : A -> S -> Prop) : Prop :=
  forall s s' a, P s -> m s = (s', Val a) -> Q a s'.

Abbreviation preserves I m := (triple I%function m (fun _ => I%function)).

Lemma triple_bind {S A B} (P : S -> Prop) (m : st S A) Q (k : A -> st S B) R :
  triple P m Q -> (forall a, triple (Q a) (k a) R) -> triple P (mbind k m) R.
Proof.
  intros Hm Hk s s' b HP H. apply st_bind_inv in H as [(s1 & a & H1 & H2)|[(e & _ & ?)|[_ ?]]]; [|done|done].
  eapply Hk; [|exact H2]. by eapply Hm.
Qed.

Lemma triple_ret {S A} (a : A) (Q : A -> S -> Prop) : triple (Q a) (mret a) Q.
Proof. by intros s s' b HQ [= <- <-]. Qed.

Lemma preserves_ret {S A} (P : S -> Prop) (a : A) : preserves P (mret a).
Proof. by intros s s' b HP [= <- <-]. Qed.

Lemma triple_skip {S} (P : S -> Prop) : preserves P skip.
Proof. by intros s s' [] HP [= <-]. Qed.

Lemma triple_gets {S A} (P : S -> Prop) (f : S -> A) : triple P (gets f) (fun a s => P s /\ a = f s).
Proof. by intros s s' a HP [= <- <-]. Qed.

Lemma triple_modify {S} (P Q : S -> Prop) (f : S -> S) :
  (forall s, P s -> Q (f s)) -> triple P (modify f) (fun _ => Q).
Proof. intros H s s' [] HP [= <-]. by apply H. Qed.

Lemma triple_lift {S A} (P : S -> Prop) (m : outcome A) : triple P (lift m) (fun a s => P s /\ m = Val a).
Proof. by intros s s' a HP [= <- ->]. Qed.

Lemma triple_pre {S A} (P P' : S -> Prop) (m : st S A) Q :
  triple P' m Q -> (forall s, P s -> P' s) -> triple P m Q.
Proof. intros H HP s s' a ?. by apply H, HP. Qed.

Lemma triple_post {S A} (P : S -> Prop) (m : st S A) (Q Q' : A -> S -> Prop) :
  triple P m Q' -> (forall a s, Q' a s -> Q a s) -> triple P m Q.
Proof. intros H HQ s s' a HP Hm. by eapply HQ, H. Qed.

Lemma triple_catch {S A} (I : S -> Prop) (m : st S A) h :
  keeps I m -> (forall e, preserves I (h e)) -> preserves I (catch m h).
Proof.
  intros Hm Hh s s' a HI. unfold catch. specialize (Hm s HI).
  destruct (m s) as [s1 [b|e|]]; simpl in Hm.
  - by intros [= <- <-].
  - by apply Hh.
  - done.
Qed.

Lemma triple_for_each {S A} (I : S -> Prop) (f : A -> st S unit) l :
  (forall x, x ∈ l -> preserves I (f x)) -> preserves I (for_each f l).
Proof.
  induction l as [|x l IH]; intros H; simpl; [apply triple_skip|].
  eapply triple_bind; [apply H; left|]. intros ?. apply IH. intros y Hy. apply H. by right.
Qed.

Lemma keeps_preserves {S A} (I : S -> Prop) (m : st S A) : keeps I m -> preserves I m.
Proof. intros H s s' a HI Hm. specialize (H s HI). by rewrite Hm in H. Qed.

(** Unfold the combinators and reduce: symbolic execution of a computation. *)
Ltac run := cbv beta iota zeta delta [mbind st_bind mret st_ret gets modify lift skip catch zoom fst snd].
Ltac run_in H :=
  cbv beta iota zeta delta [mbind st_bind mret st_ret gets modify lift skip catch zoom fst snd] in H.
