(* ===== verification/Router.v ===== *)
(** * Message routing

    include/mcp/core/router.hpp and src/core/router.cpp.  Handlers and
    callbacks are the names [H], [N], [K] of the closures that are registered;
    what a handler does is given by the functions [call_request],
    [call_notification] and [call_back], which act on the whole state [W] of
    the program that owns the router, so a handler may re-enter it.  The mutex
    makes each access to the tables atomic; no lock is held during a call. *)

From S2P Require Import Prelude Json Core Types Message State.

Section tables.
Context {H N K : Type}.

Record Router := mkRouter {
  request_handlers : gmap string H;
  notification_handlers : gmap string N;
  wildcard_request_handlers : list (string * H);
  wildcard_notification_handlers : list (string * N);
  pending : gmap RequestId K;
}.

Definition empty_router : Router := mkRouter ∅ ∅ [] [] ∅.

Definition is_wildcard (method : string) : bool :=
  match str_back method with Some c => Ascii.eqb c "*"%char | None => false end.

(** Longest matching prefix wins; the first registered among equals. *)
Fixpoint match_wildcard {A} (best : option (string * A)) (patterns : list (string * A))
    (method : string) : option A :=
  match patterns with
  | [] => snd <$> best
  | entry :: patterns' =>
      let better := match best with None => true | Some b => size b.1 <? size entry.1 end in
      match_wildcard
        (if str_compare_at 0 (size entry.1) entry.1 method && better then Some entry else best)
        patterns' method
  end.

Definition set_request_handler (method : string) (handler : H) (r : Router) : Router :=
  if is_wildcard method then
    mkRouter (request_handlers r) (notification_handlers r)
      (wildcard_request_handlers r ++ [(str_take (size method - 1) method, handler)])
      (wildcard_notification_handlers r) (pending r)
  else
    mkRouter (<[method := handler]> (request_handlers r)) (notification_handlers r)
      (wildcard_request_handlers r) (wildcard_notification_handlers r) (pending r).

Definition set_notification_handler (method : string) (handler : N) (r : Router) : Router :=
  if is_wildcard method then
    mkRouter (request_handlers r) (notification_handlers r) (wildcard_request_handlers r)
      (wildcard_notification_handlers r ++ [(str_take (size method - 1) method, handler)]) (pending r)
  else
    mkRouter (request_handlers r) (<[method := handler]> (notification_handlers r))
      (wildcard_request_handlers r) (wildcard_notification_handlers r) (pending r).

Definition find_request_handler (method : string) (r : Router) : option H :=
  match request_handlers r !! method with
  | Some h => Some h
  | None => match_wildcard None (wildcard_request_handlers r) method
  end.

Definition find_notification_handler (method : string) (r : Router) : option N :=
  match notification_handlers r !! method with
  | Some h => Some h
  | None => match_wildcard None (wildcard_notification_handlers r) method
  end.

Definition has_request_handler (method : string) (r : Router) : bool :=
  bool_decide (is_Some (find_request_handler method r)).

Definition set_pending (p : gmap RequestId K) (r : Router) : Router :=
  mkRouter (request_handlers r) (notification_handlers r) (wildcard_request_handlers r)
    (wildcard_notification_handlers r) p.

Definition register_pending (id : RequestId) (callback : K) (r : Router) : Router :=
  set_pending (<[id := callback]> (pending r)) r.

Definition take_pending (id : RequestId) (r : Router) : option K * Router :=
  match pending r !! id with
  | None => (None, r)
  | Some callback => (Some callback, set_pending (delete id (pending r)) r)
  end.

(** [fail_all_pending] empties the table before calling anything; the order of
    the calls is the iteration order of an unordered map. *)
Definition take_all_pending (r : Router) : list (RequestId * K) * Router :=
  (map_to_list (pending r), set_pending ∅ r).

End tables.
Arguments Router : clear implicits.

(** What the owner of a router provides: where the router is in its state, and
    what running a closure does. *)
Class Owner (W H N K : Type) := {
  router : W -> Router H N K;
  with_router : Router H N K -> W -> W;
  call_request : H -> option json -> st W (Result json);
  call_notification : N -> option json -> st W unit;
  call_back : K -> Result json -> st W unit;
}.

Section dispatch.
Context {W H N K : Type} {O : Owner W H N K}.

Definition on_router {A} (f : Router H N K -> A * Router H N K) : st W A :=
  fun w => let '(a, r) := f (router w) in (with_router r w, Val a).

Definition fail_pending (id : RequestId) (e : Error) : st W bool :=
  callback ← on_router (take_pending id);
  match callback with
  | None => mret false
  | Some k => _ ← call_back k (Err e); mret true
  end.

Definition fail_all_pending (e : Error) : st W unit :=
  pending ← on_router take_all_pending;
  for_each (fun entry => call_back entry.2 (Err e)) pending.

Definition response_of (id : RequestId) (result : Result json) : JsonRpcResponse :=
  match result with
  | Ok j => mkResponse (Some id) (Some j) None
  | Err e => mkResponse (Some id) None (Some e)
  end.

Definition error_of (x : exn) : Error :=
  match x with
  | ExnMcp e => e
  | _ => error InternalError (what x)
  end.

Definition dispatch (message : Message) : st W (option JsonRpcResponse) :=
  match message with
  | MRequest request =>
      handler ← gets (fun w => find_request_handler (req_method request) (router w));
      match handler with
      | None =>
          mret (Some (response_of (req_id request)
                        (Err (error MethodNotFound ("Method not found: " +:+ req_method request)))))
      | Some h =>
          result ← catch (call_request h (req_params request)) (fun x => mret (Err (error_of x)));
          mret (Some (response_of (req_id request) result))
      end
  | MNotification notification =>
      handler ← gets (fun w => find_notification_handler (ntf_method notification) (router w));
      _ ← match handler with
          | Some h => call_notification h (ntf_params notification)
          | None => skip
          end;
      mret None
  | MResponse response =>
      match rsp_id response with
      | None => mret None
      | Some id =>
          callback ← on_router (take_pending id);
          _ ← match callback with
              | Some k =>
                  match rsp_error response with
                  | Some e => call_back k (Err e)
                  | None => call_back k (Ok (default JNull (rsp_result response)))
                  end
              | None => skip
              end;
          mret None
      end
  end.

End dispatch.

(** ** Choosing a handler *)

Section choice.
Context {A : Type}.
Implicit Types (patterns : list (string * A)) (b : option (string * A)).

Definition matches (method : string) (entry : string * A) : Prop := String.prefix entry.1 method = true.

(** [chosen method patterns e]: [e] matches, nothing longer does, and every
    match before it is shorter. *)
Definition chosen (method : string) (patterns : list (string * A)) (e : string * A) : Prop :=
  exists before after, patterns = before ++ e :: after /\ matches method e /\
    (forall x, x ∈ before -> matches method x -> size x.1 < size e.1) /\
    (forall x, x ∈ after -> matches method x -> size x.1 <= size e.1).

Lemma compare_prefix p m : str_compare_at 0 (size p) p m = String.prefix p m.
Proof.
  unfold str_compare_at. rewrite str_drop_0. revert m.
  induction p as [|c p IH]; intros [|d m]; simpl; try done.
  destruct (Ascii.ascii_dec c d) as [->|Hn].
  - rewrite Ascii.eqb_refl. apply IH.
  - by rewrite (proj2 (Ascii.eqb_neq d c)) by congruence.
Qed.

Lemma match_wildcard_Some b patterns method a :
  match_wildcard b patterns method = Some a ->
  (exists e, b = Some e /\ e.2 = a /\
     forall x, x ∈ patterns -> matches method x -> size x.1 <= size e.1) \/
  (exists e, chosen method patterns e /\ e.2 = a /\
     forall e', b = Some e' -> size e'.1 < size e.1).
Proof.
  revert b. induction patterns as [|x l IH]; intros b.
  { destruct b as [e|]; [|done]. intros [= <-]. left. exists e. repeat split; try done.
    by intros ? ?%not_elem_of_nil. }
  cbn [match_wildcard]. rewrite compare_prefix.
  destruct (String.prefix x.1 method) eqn:Em; simpl.
  2:{ intros [(e & -> & <- & Hl)|(e & (l1 & l2 & -> & He & H1 & H2) & <- & Hb)]%IH.
      - left. exists e. repeat split; try done.
        intros y [->|Hy]%elem_of_cons Hm; [unfold matches in Hm; congruence|by apply Hl].
      - right. exists e. repeat split; try done. exists (x :: l1), l2. repeat split; try done.
        intros y [->|Hy]%elem_of_cons Hm; [unfold matches in Hm; congruence|by apply H1]. }
  destruct (match b with None => true | Some b => size b.1 <? size x.1 end) eqn:Eb.
  - assert (forall e', b = Some e' -> size e'.1 < size x.1) as Hx.
    { intros e' ->. by apply Nat.ltb_lt. }
    intros [(e & [= <-] & <- & Hl)|(e & (l1 & l2 & -> & He & H1 & H2) & <- & Hb)]%IH.
    + right. exists x. repeat split; try done. exists [], l. repeat split; try done.
      by intros ? ?%not_elem_of_nil.
    + right. exists e. specialize (Hb x eq_refl). repeat split; try done.
      * exists (x :: l1), l2. repeat split; try done.
        intros y [->|Hy]%elem_of_cons Hm; [done|by apply H1].
      * intros e' He'. specialize (Hx e' He'). lia.
  - destruct b as [b|]; [|done]. apply Nat.ltb_ge in Eb.
    intros [(e & [= <-] & <- & Hl)|(e & (l1 & l2 & -> & He & H1 & H2) & <- & Hb)]%IH.
    + left. exists b. repeat split; try done.
      intros y [->|Hy]%elem_of_cons Hm; [done|by apply Hl].
    + right. exists e. specialize (Hb b eq_refl). repeat split; try done; [|by intros ? [= <-]].
      exists (x :: l1), l2. repeat split; try done.
      intros y [->|Hy]%elem_of_cons Hm; [lia|by apply H1].
Qed.

Lemma match_wildcard_None b patterns method :
  match_wildcard b patterns method = None ->
  b = None /\ forall x, x ∈ patterns -> ~ matches method x.
Proof.
  revert b. induction patterns as [|x l IH]; intros b.
  { destruct b; [done|]. intros _. split; [done|]. by intros ? ?%not_elem_of_nil. }
  cbn [match_wildcard]. rewrite compare_prefix. unfold matches in *.
  destruct (String.prefix x.1 method) eqn:Em; simpl.
  - destruct b as [b|]; simpl; [|by intros [? _]%IH].
    by destruct (size b.1 <? size x.1); intros [? _]%IH.
  - intros [-> Hl]%IH. split; [done|]. intros y [->|Hy]%elem_of_cons; [congruence|by apply Hl].
Qed.
End choice.

(** The handler of a method is the one registered under that exact name;
    failing that, the wildcard whose prefix is the longest that matches, the
    first registered among equally long ones; and none only when neither an
    exact name nor any prefix matches. *)
Theorem find_request_handler_spec {H N K} (r : Router H N K) (method : string) :
  match find_request_handler method r with
  | Some h =>
      request_handlers r !! method = Some h \/
      (request_handlers r !! method = None /\
       exists prefix, chosen method (wildcard_request_handlers r) (prefix, h))
  | None =>
      request_handlers r !! method = None /\
      forall x, x ∈ wildcard_request_handlers r -> ~ matches method x
  end.
Proof.
  unfold find_request_handler. destruct (request_handlers r !! method) as [h|]; [by left|].
  destruct (match_wildcard None _ method) as [h|] eqn:E.
  - right. split; [done|]. apply match_wildcard_Some in E as [(e & ? & _)|(e & He & <- & _)]; [done|].
    exists e.1. by destruct e.
  - split; [done|]. by apply match_wildcard_None in E as [_ ?].
Qed.

(** ** Requests are always answered *)

Section answers.
Context {W H N K : Type} {O : Owner W H N K}.

(** Dispatching a request always produces a response that carries the id
    of the request and exactly one of a result and an error, whatever the
    handler does short of undefined behaviour: a thrown exception becomes an
    error response and never leaves [dispatch]. *)
Theorem dispatch_request (request : JsonRpcRequest) (w : W) :
  (dispatch (MRequest request) w).2 = Undefined \/
  exists response, (dispatch (MRequest request) w).2 = Val (Some response) /\
    rsp_id response = Some (req_id request) /\
    (is_Some (rsp_result response) <-> rsp_error response = None).
Proof.
  unfold dispatch. run. destruct (find_request_handler (req_method request) (router w)) as [h|].
  - destruct (call_request h (req_params request) w) as [w' [[j|e]|x|]];
      [right|right|right|by left]; eexists; (split; [reflexivity|]); (split; [done|]); cbn;
      (split; [by intros [? ?]|by eauto]).
  - right. eexists. split; [reflexivity|]. split; [done|]. by split; [intros [? ?]|].
Qed.
End answers.

(** ** Callbacks run exactly once

    The tables of one router shared by several threads: the steps are the
    critical sections of the mutex and the calls made after them.  The ghost
    lists record which callbacks were registered and which calls were made. *)
Section once.
Context {H N K : Type}.

Record shared := mkShared {
  sh_router : Router H N K;
  registered : list K;
  taken : list (K * Result json);
  called : list (K * Result json);
}.

Inductive step : shared -> shared -> Prop :=
| step_register s id k :
    pending (sh_router s) !! id = None ->
    step s (mkShared (register_pending id k (sh_router s)) (k :: registered s) (taken s) (called s))
| step_take s id k r result :
    take_pending id (sh_router s) = (Some k, r) ->
    step s (mkShared r (registered s) ((k, result) :: taken s) (called s))
| step_take_all s entries r e :
    take_all_pending (sh_router s) = (entries, r) ->
    step s (mkShared r (registered s) (((fun entry => (entry.2, Err e)) <$> entries) ++ taken s) (called s))
| step_call s before call after :
    taken s = before ++ call :: after ->
    step s (mkShared (sh_router s) (registered s) (before ++ after) (call :: called s))
| step_set_request s method h :
    step s (mkShared (set_request_handler method h (sh_router s)) (registered s) (taken s) (called s))
| step_set_notification s method h :
    step s (mkShared (set_notification_handler method h (sh_router s)) (registered s) (taken s) (called s)).

Definition initial : shared := mkShared empty_router [] [] [].

Definition accounted (s : shared) : Prop :=
  registered s ≡ₚ (map_to_list (pending (sh_router s))).*2 ++ (taken s).*1 ++ (called s).*1.

Lemma pending_set_request method h (r : Router H N K) :
  pending (set_request_handler method h r) = pending r.
Proof. by unfold set_request_handler; destruct (is_wildcard method). Qed.

Lemma pending_set_notification method h (r : Router H N K) :
  pending (set_notification_handler method h r) = pending r.
Proof. by unfold set_notification_handler; destruct (is_wildcard method). Qed.

Lemma accounted_step s s' : step s s' -> accounted s -> accounted s'.
Proof.
  unfold accounted. destruct 1 as [s id k Hn|s id k r result Ht|s es r e Ht|s b c a Ht|s m h|s m h];
    simpl; intros Ha.
  - rewrite map_to_list_insert by done. simpl. by rewrite Ha.
  - unfold take_pending in Ht. destruct (pending (sh_router s) !! id) as [k'|] eqn:E; simplify_eq. simpl.
    rewrite Ha. rewrite <- (map_to_list_delete _ _ _ E). simpl. solve_Permutation.
  - unfold take_all_pending in Ht. simplify_eq. simpl. rewrite Ha, map_to_list_empty. simpl.
    rewrite fmap_app, <- list_fmap_compose, <- app_assoc. done.
  - rewrite Ha, Ht, !fmap_app. simpl. solve_Permutation.
  - by rewrite pending_set_request.
  - by rewrite pending_set_notification.
Qed.

Lemma accounted_reachable s : rtc step initial s -> accounted s.
Proof.
  assert (forall s s', rtc step s s' -> accounted s -> accounted s') as Hrtc.
  { induction 1; eauto using accounted_step. }
  intros Hr. by apply (Hrtc _ _ Hr); unfold accounted; simpl; rewrite map_to_list_empty.
Qed.

(** Under any interleaving of registrations, responses, failures and
    callback runs, no callback of a reachable router runs twice, and when
    nothing is pending or on its way every registered callback has run exactly
    once. *)
Theorem callbacks_exactly_once s :
  rtc step initial s -> NoDup (registered s) ->
  NoDup (called s).*1 /\
  (pending (sh_router s) = ∅ -> taken s = [] -> (called s).*1 ≡ₚ registered s).
Proof.
  intros Ha%accounted_reachable Hnd. unfold accounted in Ha. split.
  - rewrite Ha in Hnd. by apply NoDup_app in Hnd as (_ & _ & (_ & _ & ?)%NoDup_app).
  - intros Hp Ht. by rewrite Ha, Hp, Ht, map_to_list_empty.
Qed.
End once.

Lemma callbacks_exactly_once_witness :
  let s := mkShared (H:=nat) (N:=nat) (K:=nat) (register_pending (IdInt 1) 7 empty_router) [7] [] [] in
  NoDup (called s).*1 /\ (pending (sh_router s) = ∅ -> taken s = [] -> (called s).*1 ≡ₚ registered s).
Proof.
  apply callbacks_exactly_once.
  - apply rtc_once. by apply (step_register initial).
  - apply NoDup_singleton.
Defined.
