(* ===== verification/Session.v ===== *)
(** * Sessions

    include/mcp/core/session.hpp and src/core/session.cpp: request/response
    correlation with timeouts, progress and cancellation, the initialize
    handshake of both ends and the gates on incoming requests.

    The mutable members are one record, grouped by the mutex that guards them.
    The closures of the application are the names [U], [V], [K]; the class
    [Application] says what they do to the session.  [trace] is a ghost log of
    the calls made to the transport and to the callbacks.  Clock readings are
    arguments. *)

From S2P Require Import Prelude Json Core Types Message Protocol State Router.

(** ** The transport interface (include/mcp/transport/transport.hpp) *)

Class Transport (T : Type) := {
  t_connect : st T unit;
  t_disconnect : st T unit;
  t_send : Message -> st T unit;
  t_send_batch : list Message -> st T unit;
}.

(** ** Data *)

Inductive SessionState : Set := Uninitialized | Initializing | Operating | Shutdown.

#[export] Instance SessionState_eq_dec : EqDecision SessionState.
Proof. solve_decision. Defined.

Record ServerOptions := mkServerOptions {
  so_server_info : Implementation;
  so_capabilities : ServerCapabilities;
  so_instructions : option string;
  so_supported_versions : list string;
  so_allow_reinitialize : bool;
}.

Record ClientOptions := mkClientOptions {
  co_client_info : Implementation;
  co_capabilities : ClientCapabilities;
  co_supported_versions : list string;
  co_initialize_timeout : Z;
}.

(** The dynamic type of a session. *)
Inductive Kind := BaseSession | ServerSession (o : ServerOptions) | ClientSession (o : ClientOptions).

Inductive request_closure (U : Type) := RPing | RInitialize | RUser (u : U).
Inductive notification_closure (V : Type) := NProgress | NCancelled | NInitialized | NUser (v : V).
(** A response callback of the application, or the lambda of
    [send_request_sync], which fills a one-shot slot. *)
Inductive callback (K : Type) := CUser (k : K) | CSlot (slot : nat).
Arguments RPing {U}.
Arguments RInitialize {U}.
Arguments RUser {U} u.
Arguments NProgress {V}.
Arguments NCancelled {V}.
Arguments NInitialized {V}.
Arguments NUser {V} v.
Arguments CUser {K} k.
Arguments CSlot {K} slot.

Record Deadline := mkDeadline {
  dl_at : Z;
  dl_timeout : Z;
  dl_token : option ProgressToken;
}.

Inductive event (K : Type) :=
| Sent (m : Message)
| Requested (id : RequestId) (c : callback K)
| Called (c : callback K) (r : Result json)
| Reported (k : K) (n : ProgressNotification)
| Closed (k : K)
| Errored (k : K) (e : Error)
| Disconnected.
Arguments Sent {K} m.
Arguments Requested {K} id c.
Arguments Called {K} c r.
Arguments Reported {K} k n.
Arguments Closed {K} k.
Arguments Errored {K} k e.
Arguments Disconnected {K}.

(** Guarded by [timer_mutex_]. *)
Record Timers (K : Type) := mkTimers {
  stop_timer : bool;
  deadlines : gmap RequestId Deadline;
  progress_callbacks : gmap ProgressToken K;
}.
Arguments mkTimers {K}.
Arguments stop_timer {K}.
Arguments deadlines {K}.
Arguments progress_callbacks {K}.

(** Guarded by [cancelled_mutex_]. *)
Record Cancellations := mkCancellations {
  cancelled_incoming : gset RequestId;
  protected_request_id : option RequestId;
}.

(** Guarded by [peer_mutex_] of the derived classes. *)
Record Peer := mkPeer {
  client_info : option Implementation;
  client_capabilities : option ClientCapabilities;
  server_info : option Implementation;
  server_capabilities : option ServerCapabilities;
}.

(** Guarded by [callback_mutex_]. *)
Record Hooks (K : Type) := mkHooks { close_callback : option K; error_callback : option K }.
Arguments mkHooks {K}.
Arguments close_callback {K}.
Arguments error_callback {K}.

Definition kMaxTrackedCancellations : nat := 1024.

Record Session (T U V K : Type) := mkSession {
  kind : Kind;
  transport : T;
  session_router : Router (request_closure U) (notification_closure V) (callback K);
  state : SessionState;
  next_request_id : Z;
  timers : Timers K;
  cancellations : Cancellations;
  peer : Peer;
  hooks : Hooks K;
  slots : list (option (Result json));
  trace : list (event K);
}.
Arguments mkSession {T U V K}.
Arguments kind {T U V K}.
Arguments transport {T U V K}.
Arguments session_router {T U V K}.
Arguments state {T U V K}.
Arguments next_request_id {T U V K}.
Arguments timers {T U V K}.
Arguments cancellations {T U V K}.
Arguments peer {T U V K}.
Arguments hooks {T U V K}.
Arguments slots {T U V K}.
Arguments trace {T U V K}.

Section setters.
Context {T U V K : Type}.
Implicit Type s : Session T U V K.
#[local] Abbreviation upd s t r st n tm c p h sl tr := (mkSession (kind s) t r st n tm c p h sl tr).

Definition set_transport t s : Session T U V K := upd s t (session_router s) (state s) (next_request_id s) (timers s)
  (cancellations s) (peer s) (hooks s) (slots s) (trace s).
Definition set_router r s : Session T U V K := upd s (transport s) r (state s) (next_request_id s) (timers s)
  (cancellations s) (peer s) (hooks s) (slots s) (trace s).
Definition set_state x s : Session T U V K := upd s (transport s) (session_router s) x (next_request_id s) (timers s)
  (cancellations s) (peer s) (hooks s) (slots s) (trace s).
Definition set_next_request_id n s : Session T U V K := upd s (transport s) (session_router s) (state s) n (timers s)
  (cancellations s) (peer s) (hooks s) (slots s) (trace s).
Definition set_timers tm s : Session T U V K := upd s (transport s) (session_router s) (state s) (next_request_id s) tm
  (cancellations s) (peer s) (hooks s) (slots s) (trace s).
Definition set_cancellations c s : Session T U V K := upd s (transport s) (session_router s) (state s) (next_request_id s)
  (timers s) c (peer s) (hooks s) (slots s) (trace s).
Definition set_peer p s : Session T U V K := upd s (transport s) (session_router s) (state s) (next_request_id s)
  (timers s) (cancellations s) p (hooks s) (slots s) (trace s).
Definition set_hooks h s : Session T U V K := upd s (transport s) (session_router s) (state s) (next_request_id s)
  (timers s) (cancellations s) (peer s) h (slots s) (trace s).
Definition set_slots sl s : Session T U V K := upd s (transport s) (session_router s) (state s) (next_request_id s)
  (timers s) (cancellations s) (peer s) (hooks s) sl (trace s).
Definition log e s : Session T U V K := upd s (transport s) (session_router s) (state s) (next_request_id s)
  (timers s) (cancellations s) (peer s) (hooks s) (slots s) (trace s ++ [e]).
End setters.

(** What the application's closures do when they run. *)
Class Application (T U V K : Type) := {
  app_request : U -> option json -> st (Session T U V K) (Result json);
  app_notification : V -> option json -> st (Session T U V K) unit;
  app_response : K -> Result json -> st (Session T U V K) unit;
  app_progress : K -> ProgressNotification -> st (Session T U V K) unit;
  app_close : K -> st (Session T U V K) unit;
  app_error : K -> Error -> st (Session T U V K) unit;
}.

(** ** Operations *)

Section operations.
Context {T U V K : Type} `{!Transport T} `{!Application T U V K}.
#[local] Abbreviation Sess := (Session T U V K).
Implicit Type s : Sess.

Definition emit (e : event K) : st Sess unit := modify (log e).

Definition on_transport {A} (m : st T A) : st Sess A := zoom transport set_transport m.

Definition send_message (message : Message) : st Sess unit :=
  _ ← emit (Sent message); on_transport (t_send message).

Definition send_notification (method : string) (params : option json) : st Sess unit :=
  send_message (MNotification (mkNotification method params)).

Definition connect : st Sess unit := on_transport t_connect.

Definition disconnect : st Sess unit :=
  _ ← modify (set_state Shutdown); _ ← emit Disconnected; on_transport t_disconnect.

(** *** Tracking of outgoing requests *)

Definition erase_token (token : option ProgressToken) (m : gmap ProgressToken K) : gmap ProgressToken K :=
  match token with Some t => delete t m | None => m end.

Definition clear_timers (id : RequestId) (t : Timers K) : Timers K :=
  match deadlines t !! id with
  | Some d => mkTimers (stop_timer t) (delete id (deadlines t)) (erase_token (dl_token d) (progress_callbacks t))
  | None => t
  end.

Definition clear_tracking (id : RequestId) : st Sess unit :=
  modify (fun s => set_timers (clear_timers id (timers s)) s).

(** [p["_meta"]["progressToken"] = token]: the intermediate reference creates a
    null member when there is none. *)
Definition inject_token (token : ProgressToken) (p : json) : outcome json :=
  match p with
  | JNull | JObject _ =>
      let meta := default JNull (jfind "_meta" p) in
      meta ← index_set "progressToken" (request_id_to_json token) meta;
      index_set "_meta" meta p
  | _ => index_set "_meta" JNull p
  end.

Record RequestOptions := mkRequestOptions {
  ro_timeout : option Z;
  ro_progress_token : option ProgressToken;
  ro_on_progress : option K;
}.

Definition no_options : RequestOptions := mkRequestOptions None None None.

Definition timeout_of (options : RequestOptions) : option Z :=
  match ro_timeout options with Some t => if (0 <? t)%Z then Some t else None | None => None end.

Definition track (now : Z) (id : RequestId) (options : RequestOptions) (t : Timers K) : Timers K :=
  mkTimers (stop_timer t)
    (match timeout_of options with
     | Some timeout => <[id := mkDeadline (now + timeout) timeout (ro_progress_token options)]> (deadlines t)
     | None => deadlines t
     end)
    (match ro_progress_token options, ro_on_progress options with
     | Some token, Some k => <[token := k]> (progress_callbacks t)
     | _, _ => progress_callbacks t
     end).

(** [next_request_id_.fetch_add(1)]; the log records the callback it is for. *)
Definition fetch_id (c : callback K) : st Sess RequestId :=
  fun s => let id := IdInt (next_request_id s) in
           (log (Requested id c) (set_next_request_id (wrap_s 64 (next_request_id s + 1)) s), Val id).

Definition send_request (now : Z) (method : string) (params : option json) (c : callback K)
    (options : RequestOptions) : st Sess RequestId :=
  id ← fetch_id c;
  params ← match ro_progress_token options with
           | Some token => p ← lift (inject_token token (default (JObject []) params)); mret (Some p)
           | None => mret params
           end;
  _ ← modify (fun s => set_router (register_pending id c (session_router s)) s);
  _ ← modify (fun s => set_timers (track now id options (timers s)) s);
  _ ← send_message (MRequest (mkRequest id method params));
  mret id.

(** The first half of [send_request_sync]; it then blocks until its slot is
    filled. *)
Definition new_slot : st Sess nat :=
  fun s => (set_slots (slots s ++ [None]) s, Val (length (slots s))).

Definition send_request_sync (now : Z) (method : string) (params : option json)
    (options : RequestOptions) : st Sess nat :=
  slot ← new_slot;
  _ ← send_request now method params (CSlot slot) options;
  mret slot.

Definition slot_get (slot : nat) s : option (Result json) := mjoin (slots s !! slot).

Definition send_progress (token : ProgressToken) (progress : double) (total : option double)
    (message : option string) : st Sess unit :=
  send_notification kNotificationProgress
    (Some (ProgressNotification_to_json (mkProgress token progress total message))).

Definition is_cancelled (id : RequestId) s : bool :=
  bool_decide (id ∈ cancelled_incoming (cancellations s)).

Definition set_close_callback (k : option K) : st Sess unit :=
  modify (fun s => set_hooks (mkHooks k (error_callback (hooks s))) s).
Definition set_error_callback (k : option K) : st Sess unit :=
  modify (fun s => set_hooks (mkHooks (close_callback (hooks s)) k) s).

Definition call_callback (c : callback K) (r : Result json) : st Sess unit :=
  _ ← emit (Called c r);
  match c with
  | CUser k => app_response k r
  | CSlot slot => modify (fun s => set_slots (<[slot := Some r]> (slots s)) s)
  end.

Definition take_callback (id : RequestId) : st Sess (option (callback K)) :=
  fun s => let '(c, r) := take_pending id (session_router s) in (set_router r s, Val c).

Definition cancel_request (id : RequestId) (reason : option string) : st Sess unit :=
  _ ← clear_tracking id;
  c ← take_callback id;
  match c with
  | None => skip
  | Some c =>
      _ ← send_notification kNotificationCancelled
            (Some (CancelledNotification_to_json (mkCancelled id reason)));
      call_callback c (Err (error InternalError "request was cancelled"))
  end.

(** *** Incoming notifications *)

Definition reset_clock (now : Z) (token : ProgressToken) (d : Deadline) : Deadline :=
  if bool_decide (dl_token d = Some token) then mkDeadline (now + dl_timeout d) (dl_timeout d) (dl_token d)
  else d.

Definition handle_progress (now : Z) (params : option json) : st Sess unit :=
  match params with
  | None => skip
  | Some p =>
      parsed ← lift (ProgressNotification_from_json p);
      match parsed with
      | Err _ => skip
      | Ok note =>
          _ ← modify (fun s => set_timers (mkTimers (stop_timer (timers s))
                                 (reset_clock now (pn_token note) <$> deadlines (timers s))
                                 (progress_callbacks (timers s))) s);
          k ← gets (fun s => progress_callbacks (timers s) !! pn_token note);
          match k with
          | Some k => _ ← emit (Reported k note); app_progress k note
          | None => skip
          end
      end
  end.

Definition mark_cancelled (id : RequestId) (c : Cancellations) : Cancellations :=
  if bool_decide (protected_request_id c = Some id) then c
  else
    let marked := if kMaxTrackedCancellations <=? base.size (cancelled_incoming c) then ∅
                  else cancelled_incoming c in
    mkCancellations ({[id]} ∪ marked) (protected_request_id c).

Definition handle_cancelled (params : option json) : st Sess unit :=
  match params with
  | None => skip
  | Some p =>
      parsed ← lift (CancelledNotification_from_json p);
      match parsed with
      | Err _ => skip
      | Ok note => modify (fun s => set_cancellations (mark_cancelled (cn_request_id note) (cancellations s)) s)
      end
  end.

(** *** The server's initialize handler *)

Definition negotiate (supported : list string) (preferred requested : string) : string :=
  match find_if (fun v => String.eqb v requested) supported with
  | Some v => v
  | None => preferred
  end.

Definition set_client_peer (info : option Implementation) (caps : option ClientCapabilities) (p : Peer) : Peer :=
  mkPeer info caps (server_info p) (server_capabilities p).

(** [supported_versions.front()] of an empty vector is undefined behaviour. *)
Definition front (versions : list string) : outcome string :=
  match versions with v :: _ => Val v | [] => Undefined end.

Definition handle_initialize (o : ServerOptions) (params : option json) : st Sess (Result json) :=
  current ← gets state;
  if negb (bool_decide (current = Uninitialized)) && negb (so_allow_reinitialize o)
  then mret (Err (error InvalidRequest "initialize already received"))
  else
    _ ← (if bool_decide (current = Uninitialized) then skip
         else modify (fun s => set_peer (set_client_peer None None (peer s)) s));
    match params with
    | None => mret (Err (error InvalidParams "initialize requires params"))
    | Some p =>
        parsed ← lift (catch_json (Ok <$> InitializeParams_from_json p)
                         (fun w => Err (error InvalidParams ("invalid initialize params: " +:+ w))));
        match parsed with
        | Err e => mret (Err e)
        | Ok parsed =>
            _ ← modify (fun s => set_peer (set_client_peer (Some (ip_client_info parsed))
                                             (Some (ip_capabilities parsed)) (peer s)) s);
            _ ← modify (set_state Initializing);
            preferred ← lift (front (so_supported_versions o));
            let negotiated := negotiate (so_supported_versions o) preferred (ip_protocol_version parsed) in
            mret (Ok (InitializeResult_to_json
                        (mkInitializeResult negotiated (so_capabilities o) (so_server_info o)
                           (so_instructions o))))
        end
    end.

Definition handle_initialized : st Sess unit :=
  current ← gets state;
  if bool_decide (current = Initializing) then modify (set_state Operating) else skip.

(** *** Running a closure *)

Definition run_request (h : request_closure U) (params : option json) : st Sess (Result json) :=
  match h with
  | RPing => mret (Ok (JObject []))
  | RInitialize =>
      k ← gets kind;
      match k with ServerSession o => handle_initialize o params | _ => lift Undefined end
  | RUser u => app_request u params
  end.

Definition run_notification (now : Z) (h : notification_closure V) (params : option json) : st Sess unit :=
  match h with
  | NProgress => handle_progress now params
  | NCancelled => handle_cancelled params
  | NInitialized => handle_initialized
  | NUser v => app_notification v params
  end.

Definition owner (now : Z) : Owner Sess (request_closure U) (notification_closure V) (callback K) :=
  {| router := session_router; with_router := set_router; call_request := run_request;
     call_notification := run_notification now; call_back := call_callback |}.

(** *** Gates *)

Definition starts_with (prefix s : string) : bool := String.prefix prefix s.

Definition gate (gates : list (string * bool)) (method : string) : option Error :=
  match find_if (fun g => starts_with g.1 method && negb g.2) gates with
  | Some _ => Some (error CapabilityNotSupported ("capability not supported: " +:+ method))
  | None => None
  end.

Definition declared {A} (o : option A) : bool := bool_decide (is_Some o).

Definition server_gates (o : ServerOptions) : list (string * bool) :=
  let c := so_capabilities o in
  [("tools/", declared (sc_tools c)); ("resources/", declared (sc_resources c));
   ("prompts/", declared (sc_prompts c)); ("logging/", declared (sc_logging c));
   ("completion/", declared (sc_completions c)); ("tasks/", declared (sc_tasks c))].

Definition client_gates (o : ClientOptions) : list (string * bool) :=
  let c := co_capabilities o in
  [("sampling/", declared (cc_sampling c)); ("roots/", declared (cc_roots c));
   ("elicitation/", declared (cc_elicitation c)); ("tasks/", declared (cc_tasks c))].

Definition not_initialized : Error := error ConnectionNotInitialized "session is not initialized".

Definition check_incoming_request (k : Kind) (current : SessionState) (method : string) : option Error :=
  match k with
  | BaseSession => None
  | ServerSession o =>
      if String.eqb method kInitialize || String.eqb method kPing then None
      else if negb (bool_decide (current = Operating)) then Some not_initialized
      else gate (server_gates o) method
  | ClientSession o =>
      if String.eqb method kPing then None
      else if negb (bool_decide (current = Operating)) then Some not_initialized
      else gate (client_gates o) method
  end.

(** *** Events of the transport *)

Definition handle_message (now : Z) (message : Message) : st Sess unit :=
  match message with
  | MRequest request =>
      _ ← (if String.eqb (req_method request) kInitialize
           then modify (fun s => set_cancellations
                          (mkCancellations (cancelled_incoming (cancellations s)) (Some (req_id request))) s)
           else skip);
      rejected ← gets (fun s => check_incoming_request (kind s) (state s) (req_method request));
      match rejected with
      | Some e => send_message (MResponse (response_of (req_id request) (Err e)))
      | None =>
          response ← dispatch (O := owner now) message;
          match response with
          | Some r => send_message (MResponse r)
          | None => skip
          end
      end
  | MResponse response =>
      _ ← match rsp_id response with Some id => clear_tracking id | None => skip end;
      _ ← dispatch (O := owner now) message;
      skip
  | MNotification _ =>
      _ ← dispatch (O := owner now) message;
      skip
  end.

Definition handle_close : st Sess unit :=
  _ ← modify (set_state Shutdown);
  _ ← modify (fun s => set_timers (mkTimers (stop_timer (timers s)) ∅ ∅) s);
  _ ← fail_all_pending (O := owner 0) (error InternalError "connection closed");
  k ← gets (fun s => close_callback (hooks s));
  match k with
  | Some k => _ ← emit (Closed k); app_close k
  | None => skip
  end.

Definition report_error (e : Error) : st Sess unit :=
  k ← gets (fun s => error_callback (hooks s));
  match k with
  | Some k => _ ← emit (Errored k e); app_error k e
  | None => skip
  end.

Definition on_transport_error (e : Error) : st Sess unit :=
  k ← gets kind;
  _ ← match k with
      | ServerSession _ =>
          if decide (err_code e = error_code ParseError \/ err_code e = error_code InvalidRequest)
          then send_message (MResponse (mkResponse None None (Some e)))
          else skip
      | _ => skip
      end;
  report_error e.

(** *** The timer thread: one pass after a wake-up at [now] *)

Definition expired (now : Z) (t : Timers K) : list (RequestId * Deadline) :=
  filter (fun x => (dl_at x.2 <= now)%Z) (map_to_list (deadlines t)).

Definition expire (now : Z) (t : Timers K) : Timers K :=
  mkTimers (stop_timer t) (filter (fun x => ~ (dl_at x.2 <= now)%Z) (deadlines t))
    (foldr (fun x => erase_token (dl_token x.2)) (progress_callbacks t) (expired now t)).

Definition time_out (id : RequestId) : st Sess unit :=
  _ ← send_notification kNotificationCancelled
        (Some (CancelledNotification_to_json (mkCancelled id (Some "request timed out"))));
  _ ← fail_pending (O := owner 0) id (error InternalError "request timed out");
  skip.

Definition timer_pass (now : Z) : st Sess unit :=
  stopped ← gets (fun s => stop_timer (timers s));
  if (stopped : bool) then skip
  else
    ids ← gets (fun s => fst <$> expired now (timers s));
    _ ← modify (fun s => set_timers (expire now (timers s)) s);
    for_each time_out ids.

(** *** The client's handshake

    [initialize] blocks on its slot between the two halves. *)

Definition initialize_begin (now : Z) (o : ClientOptions) : st Sess (Result nat) :=
  current ← gets state;
  if negb (bool_decide (current = Uninitialized))
  then mret (Err (error InvalidRequest "session already initialized"))
  else
    _ ← modify (set_state Initializing);
    version ← lift (front (co_supported_versions o));
    let params := mkInitializeParams version (co_capabilities o) (co_client_info o) in
    let options := mkRequestOptions (if (0 <? co_initialize_timeout o)%Z then Some (co_initialize_timeout o)
                                     else None) None None in
    slot ← send_request_sync now kInitialize (Some (InitializeParams_to_json params)) options;
    mret (Ok slot).

Definition initialize_end (o : ClientOptions) (response : Result json) : st Sess (Result InitializeResult) :=
  match response with
  | Err e => _ ← modify (set_state Uninitialized); mret (Err e)
  | Ok j =>
      parsed ← lift (catch_json (Ok <$> InitializeResult_from_json j)
                       (fun w => Err (error InternalError ("invalid initialize result: " +:+ w))));
      match parsed with
      | Err e => _ ← modify (set_state Uninitialized); mret (Err e)
      | Ok result =>
          match find_if (String.eqb (ir_protocol_version result)) (co_supported_versions o) with
          | None =>
              _ ← disconnect;
              mret (Err (error InvalidRequest ("unsupported protocol version: " +:+ ir_protocol_version result)))
          | Some _ =>
              _ ← modify (fun s => set_peer (mkPeer (client_info (peer s)) (client_capabilities (peer s))
                                     (Some (ir_server_info result)) (Some (ir_capabilities result))) s);
              _ ← send_notification kNotificationInitialized None;
              _ ← modify (set_state Operating);
              mret (Ok result)
          end
      end
  end.

(** *** Construction *)

Definition base_router : Router (request_closure U) (notification_closure V) (callback K) :=
  set_notification_handler kNotificationCancelled NCancelled
    (set_notification_handler kNotificationProgress NProgress
      (set_request_handler kPing RPing empty_router)).

Definition kind_router (k : Kind) : Router (request_closure U) (notification_closure V) (callback K) :=
  match k with
  | ServerSession _ =>
      set_notification_handler kNotificationInitialized NInitialized
        (set_request_handler kInitialize RInitialize base_router)
  | _ => base_router
  end.

Definition make_session (k : Kind) (t : T) : Sess :=
  mkSession k t (kind_router k) Uninitialized 1 (mkTimers false ∅ ∅) (mkCancellations ∅ None)
    (mkPeer None None None None) (mkHooks None None) [] [].

(** [~Session]: exceptions of [disconnect] are swallowed. *)
Definition destroy : st Sess unit :=
  _ ← catch (on_transport t_disconnect) (fun _ => skip);
  modify (fun s => set_timers (mkTimers true (deadlines (timers s)) (progress_callbacks (timers s))) s).

End operations.

(** ** Accounting for callbacks

    Every call of [send_request] hands in one callback.  [balanced X Y s]: as
    long as the 64-bit id counter has not wrapped, the callbacks handed in are
    those in [Y] (taken, about to run), those still pending and those already
    run; ids are fresh; and only pending requests have deadlines, none of the
    ids in [X] does. *)

Section accounting.
Context {T U V K : Type} `{!Transport T} `{!Application T U V K}.
#[local] Abbreviation Sess := (Session T U V K).
Implicit Type s : Sess.

Definition requested_of (tr : list (event K)) : list (callback K) :=
  omap (fun e => match e with Requested _ c => Some c | _ => None end) tr.
Definition called_of (tr : list (event K)) : list (callback K) :=
  omap (fun e => match e with Called c _ => Some c | _ => None end) tr.

Definition requests s : nat := length (requested_of (trace s)).
Definition waiting s : gmap RequestId (callback K) := pending (session_router s).
Definition timed s : gmap RequestId Deadline := deadlines (timers s).

Definition no_wrap s : Prop := (Z.of_nat (requests s) < modulus 63 - 1)%Z.

Definition old s (id : RequestId) : Prop := exists n, id = IdInt (Z.of_nat n) /\ 1 <= n <= requests s.

Record accounts (X : gset RequestId) (Y : list (callback K)) s : Prop := mkAccounts {
  acc_next : next_request_id s = (1 + Z.of_nat (requests s))%Z;
  acc_pending : forall id, is_Some (waiting s !! id) -> old s id;
  acc_timed : forall id, is_Some (timed s !! id) -> is_Some (waiting s !! id);
  acc_retired : forall id, id ∈ X -> old s id /\ timed s !! id = None;
  acc_callbacks : requested_of (trace s) ≡ₚ Y ++ (map_to_list (waiting s)).*2 ++ called_of (trace s);
}.

Definition balanced X Y s : Prop := no_wrap s -> accounts X Y s.

(** Changes that [balanced] does not see. *)
Definition same s s' : Prop :=
  next_request_id s' = next_request_id s /\ waiting s' = waiting s /\ timed s' = timed s /\
  requested_of (trace s') = requested_of (trace s) /\ called_of (trace s') = called_of (trace s).

Lemma balanced_same X Y s s' : same s s' -> balanced X Y s -> balanced X Y s'.
Proof.
  intros (Hn & Hw & Ht & Hr & Hc) H. unfold balanced, no_wrap, requests. rewrite Hr. intros Hno.
  specialize (H Hno) as [H1 H2 H3 H4 H5].
  split; unfold old, requests in *; rewrite ?Hn, ?Hw, ?Ht, ?Hr, ?Hc; done.
Qed.

Definition quiet (e : event K) : bool :=
  match e with Requested _ _ | Called _ _ => false | _ => true end.

Lemma same_log e s : quiet e = true -> same s (log e s).
Proof.
  intros He. unfold same, waiting, timed, requested_of, called_of. simpl.
  rewrite !omap_app. destruct e; try done; simpl; by rewrite !app_nil_r.
Qed.

Lemma preserves_emit X Y e : quiet e = true -> preserves (balanced X Y) (emit (T:=T) (U:=U) (V:=V) e).
Proof. intros He. apply triple_modify. intros s. by apply balanced_same, same_log. Qed.

Lemma preserves_same X Y f : (forall s, same s (f s)) -> preserves (balanced X Y) (modify f).
Proof. intros Hf. apply triple_modify. intros s. by apply balanced_same. Qed.

Lemma preserves_on_transport {A} X Y (m : st T A) : preserves (balanced X Y) (on_transport m).
Proof.
  intros s s' a Hs H. unfold on_transport, zoom in H. destruct (m (transport s)) as [t r].
  injection H as <- ->. by eapply balanced_same; [|exact Hs].
Qed.

Lemma preserves_send X Y m : preserves (balanced X Y) (send_message (U:=U) (V:=V) (K:=K) m).
Proof.
  eapply triple_bind; [by apply preserves_emit|]. intros ?. apply preserves_on_transport.
Qed.

Lemma old_weaken s s' id : requests s <= requests s' -> old s id -> old s' id.
Proof. intros Hle (n & -> & Hn). exists n. split; [done|lia]. Qed.

(** Removing deadlines is always fine. *)
Lemma balanced_timers X Y s t :
  (forall id, is_Some (deadlines t !! id) -> is_Some (timed s !! id)) ->
  balanced X Y s -> balanced X Y (set_timers t s).
Proof.
  intros Ht H Hno. specialize (H Hno) as [H1 H2 H3 H4 H5]. split; try done.
  - intros id Hid. apply H3. by apply Ht.
  - intros id Hid. destruct (H4 id Hid) as [Ho Hn]. split; [done|].
    destruct (deadlines t !! id) as [d|] eqn:E; [|done].
    destruct (Ht id) as [d' Hd]; [by rewrite E|]. change (timed s !! id = Some d') in Hd. congruence.
Qed.

Lemma clear_timers_sub id (t : Timers K) id' :
  is_Some (deadlines (clear_timers id t) !! id') -> is_Some (deadlines t !! id').
Proof.
  unfold clear_timers. destruct (deadlines t !! id) as [d|] eqn:E; [|done]. simpl.
  intros [d' [_ Hd]%lookup_delete_Some]. by eexists.
Qed.

Lemma clear_timers_self id (t : Timers K) : deadlines (clear_timers id t) !! id = None.
Proof.
  unfold clear_timers. destruct (deadlines t !! id) as [d|] eqn:E; [|done]. simpl. apply lookup_delete_eq.
Qed.

(** After [clear_tracking id], [id] has no deadline. *)
Definition cleared (id : RequestId) X Y s : Prop :=
  balanced X Y s /\ (no_wrap s -> timed s !! id = None).

Lemma triple_clear_tracking X Y id :
  triple (balanced X Y) (clear_tracking (T:=T) (U:=U) (V:=V) id) (fun _ => cleared id X Y).
Proof.
  apply triple_modify. intros s Hs. split.
  - apply balanced_timers; [|done]. intros id'. apply clear_timers_sub.
  - intros _. apply clear_timers_self.
Qed.

(** Taking a callback moves it from the table to the ones about to run. *)
Lemma triple_take X Y id :
  triple (cleared id X Y) (take_callback (T:=T) (U:=U) (V:=V) id)
    (fun c => match c with Some c => balanced X (c :: Y) | None => balanced X Y end).
Proof.
  intros s s' c [Hs Hid] H. unfold take_callback, take_pending in H.
  change (pending (session_router s)) with (waiting s) in H.
  destruct (waiting s !! id) as [k|] eqn:E; simplify_eq; [|by eapply balanced_same; [|exact Hs]].
  intros Hno. specialize (Hs Hno) as [H1 H2 H3 H4 H5]. specialize (Hid Hno).
  split; try done; change (waiting (set_router _ s)) with (delete id (waiting s)).
  - intros id' [k' [_ Hk]%lookup_delete_Some]. apply H2. by eexists.
  - intros id' Hd. rewrite lookup_delete_ne; [by apply H3|]. intros ->.
    change (is_Some (timed s !! id')) in Hd. rewrite Hid in Hd. by destruct Hd.
  - change (trace (set_router _ s)) with (trace s). rewrite H5. rewrite <- (map_to_list_delete _ _ _ E).
    simpl. solve_Permutation.
Qed.

(** ** The application's closures

    They may do anything that keeps the accounts; running the public
    operations does. *)
Class WellBehaved : Prop := {
  wb_request u p X Y : keeps (balanced X Y) (app_request u p);
  wb_notification v p X Y : preserves (balanced X Y) (app_notification v p);
  wb_response k r X Y : preserves (balanced X Y) (app_response k r);
  wb_progress k n X Y : preserves (balanced X Y) (app_progress k n);
  wb_close k X Y : preserves (balanced X Y) (app_close k);
  wb_error k e X Y : preserves (balanced X Y) (app_error k e);
}.

(** The state in which [send_request] hands the request to the transport. *)
Definition registered now c options s : Sess :=
  let id := IdInt (next_request_id s) in
  let s1 := log (Requested id c) (set_next_request_id (wrap_s 64 (next_request_id s + 1)) s) in
  let s2 := set_router (register_pending id c (session_router s1)) s1 in
  set_timers (track now id options (timers s2)) s2.

Lemma requested_registered now c options s :
  requested_of (trace (registered now c options s)) = requested_of (trace s) ++ [c].
Proof. unfold requested_of. simpl. by rewrite omap_app. Qed.

Lemma called_registered now c options s :
  called_of (trace (registered now c options s)) = called_of (trace s).
Proof. unfold called_of. simpl. by rewrite omap_app, app_nil_r. Qed.

Lemma timed_registered now c options s i :
  is_Some (timed (registered now c options s) !! i) ->
  i = IdInt (next_request_id s) \/ is_Some (timed s !! i).
Proof.
  unfold timed. simpl. destruct (timeout_of options) as [to|]; [|by right].
  destruct (decide (i = IdInt (next_request_id s))) as [->|Hne]; [by left|].
  intros Hi. right. by rewrite lookup_insert_ne in Hi.
Qed.

Lemma timed_registered_old now c options s i :
  i <> IdInt (next_request_id s) -> timed (registered now c options s) !! i = timed s !! i.
Proof. intros Hi. unfold timed. simpl. destruct (timeout_of options); [by rewrite lookup_insert_ne|done]. Qed.

Lemma balanced_registered X Y now c options s :
  balanced X Y s -> balanced X Y (registered now c options s).
Proof.
  intros Hs Hno. set (s2 := registered now c options s) in *.
  assert (requests s2 = Datatypes.S (requests s)) as Hreq.
  { unfold requests, s2. rewrite requested_registered, length_app. simpl. lia. }
  assert (no_wrap s) as Hno' by (unfold no_wrap in *; lia).
  specialize (Hs Hno') as [H1 H2 H3 H4 H5].
  assert (waiting s2 = <[IdInt (next_request_id s) := c]> (waiting s)) as Hw by done.
  assert (~ old s (IdInt (next_request_id s))) as Hnew by (intros (n & [= Hn] & Hle); lia).
  assert (forall i, old s i -> old s2 i) as Hold by (intros i; apply old_weaken; lia).
  split.
  - rewrite Hreq. change (next_request_id s2) with (wrap_s 64 (next_request_id s + 1)). rewrite wrap_s_id; [lia|lia|].
    unfold in_s. change (64 - 1)%Z with 63%Z. pose proof (modulus_pos 63 ltac:(lia)).
    unfold no_wrap in Hno. rewrite Hreq in Hno. lia.
  - intros i. rewrite Hw. intros [k [[<- _]|[_ Hk]]%lookup_insert_Some].
    + exists (requests s2). rewrite Hreq. split; [f_equal; lia|lia].
    + apply Hold, H2. by eexists.
  - intros i [->|Hi]%timed_registered; rewrite Hw; [rewrite lookup_insert_eq; by eexists|].
    apply H3 in Hi. apply lookup_insert_is_Some. destruct (decide (IdInt (next_request_id s) = i)); auto.
  - intros i Hi. destruct (H4 i Hi) as [Ho Hn]. split; [by apply Hold|].
    unfold s2. rewrite timed_registered_old; [done|]. by intros ->.
  - unfold s2. rewrite requested_registered, called_registered. fold s2. rewrite Hw, map_to_list_insert.
    + simpl. rewrite H5. solve_Permutation.
    + apply eq_None_not_Some. intros Hi. by apply Hnew, H2.
Qed.

Lemma preserves_send_request X Y now method params c options :
  preserves (balanced X Y) (send_request now method params c options).
Proof.
  intros s s' id Hs H. unfold send_request in H.
  apply st_bind_inv in H as [(s1 & i & H1 & H)|[(? & _ & ?)|[_ ?]]]; [|done|done].
  injection H1 as <- <-.
  apply st_bind_inv in H as [(s2 & ps & H2 & H)|[(? & _ & ?)|[_ ?]]]; [|done|done].
  assert (s2 = log (Requested (IdInt (next_request_id s)) c)
                 (set_next_request_id (wrap_s 64 (next_request_id s + 1)) s)) as ->.
  { destruct (ro_progress_token options) as [token|]; [|by injection H2 as <- _].
    apply st_bind_inv in H2 as [(s3 & p & H3 & H2)|[(? & _ & ?)|[_ ?]]]; [|done|done].
    injection H3 as <- _. by injection H2 as <- _. }
  apply (balanced_registered _ _ now c options) in Hs.
  refine (triple_bind _ _ _ _ (fun _ => balanced X Y) (preserves_send X Y _) _ _ _ _ Hs H).
  intros ?. apply preserves_ret.
Qed.

Lemma triple_call_callback `{!WellBehaved} X Y c r :
  triple (balanced X (c :: Y)) (call_callback c r) (fun _ => balanced X Y).
Proof.
  eapply (triple_bind _ _ (fun _ => balanced X Y)).
  - apply triple_modify. intros s Hs Hno.
    unfold no_wrap, requests, requested_of in Hno. simpl in Hno. rewrite omap_app, app_nil_r in Hno.
    specialize (Hs Hno) as [H1 H2 H3 H4 H5].
    assert (requests (log (Called c r) s) = requests s) as Hreq.
    { unfold requests, requested_of. simpl. by rewrite omap_app, app_nil_r. }
    split; unfold old; rewrite ?Hreq; try done.
    unfold requested_of, called_of in *. simpl. rewrite !omap_app. simpl. rewrite app_nil_r, H5.
    change (waiting (log (Called c r) s)) with (waiting s). solve_Permutation.
  - intros _. destruct c as [k|slot]; [apply wb_response|]. by apply preserves_same.
Qed.

(** ** Every operation keeps the accounts *)

Context {WB : WellBehaved}.

Lemma preserves_lift {A} X Y (m : outcome A) : preserves (balanced X Y) (lift (S := Sess) m).
Proof. eapply triple_post; [apply triple_lift|]. by intros a s []. Qed.

Lemma preserves_gets {A} X Y (f : Sess -> A) : preserves (balanced X Y) (gets f).
Proof. eapply triple_post; [apply triple_gets|]. by intros a s []. Qed.

(** One step of a proof that a computation keeps the accounts. *)
Ltac keep_step :=
  cbv beta;
  match goal with
  | |- triple _ (mbind _ _) _ => eapply triple_bind; [|intros ?]
  | |- triple _ (emit _) _ => by eapply preserves_emit
  | |- triple _ (modify _) _ => by eapply preserves_same
  | |- triple _ (lift _) _ => eapply preserves_lift
  | |- triple _ (gets _) _ => eapply preserves_gets
  | |- triple _ (mret _) _ => eapply preserves_ret
  | |- triple _ skip _ => eapply triple_skip
  | |- triple _ (send_message _) _ => eapply preserves_send
  | |- triple _ (send_notification _ _) _ => eapply preserves_send
  | |- triple _ (on_transport _) _ => eapply preserves_on_transport
  | |- triple _ (send_request _ _ _ _ _) _ => eapply preserves_send_request
  | |- triple _ (match ?x with _ => _ end) _ => destruct x
  end.
Ltac keep_balanced := repeat keep_step; try solve
  [ eapply wb_notification | eapply wb_response | eapply wb_progress | eapply wb_close | eapply wb_error ].

Lemma preserves_cancel_request X Y id reason : preserves (balanced X Y) (cancel_request id reason).
Proof.
  eapply triple_bind; [apply triple_clear_tracking|]. intros ?.
  eapply triple_bind; [apply triple_take|]. intros [c|]; [|apply triple_skip].
  eapply triple_bind; [apply preserves_send|]. intros ?. apply triple_call_callback.
Qed.

Lemma preserves_reset_clock X Y now token :
  preserves (balanced X Y)
    (modify (fun s : Sess => set_timers (mkTimers (stop_timer (timers s))
               (reset_clock now token <$> deadlines (timers s)) (progress_callbacks (timers s))) s)).
Proof.
  apply triple_modify. intros s. apply balanced_timers. intros id. simpl.
  rewrite lookup_fmap. intros [d' Hd]. unfold timed. by destruct (deadlines (timers s) !! id).
Qed.

Lemma preserves_handle_progress X Y now params : preserves (balanced X Y) (handle_progress now params).
Proof.
  destruct params as [p|]; [|apply triple_skip].
  eapply triple_bind; [apply preserves_lift|]. intros [note|e]; [|apply triple_skip].
  eapply triple_bind; [apply preserves_reset_clock|]. intros ?. keep_balanced.
Qed.

Lemma preserves_handle_cancelled X Y params : preserves (balanced X Y) (handle_cancelled params).
Proof. unfold handle_cancelled. keep_balanced. Qed.

Lemma preserves_handle_initialized X Y : preserves (balanced X Y) handle_initialized.
Proof. unfold handle_initialized. keep_balanced. Qed.

Lemma preserves_run_notification X Y now h params :
  preserves (balanced X Y) (run_notification now h params).
Proof.
  destruct h; [apply preserves_handle_progress|apply preserves_handle_cancelled
    |apply preserves_handle_initialized|apply wb_notification].
Qed.

Lemma keeps_same X Y (f : Sess -> Sess) : (forall s, same s (f s)) -> keeps (balanced X Y) (modify f).
Proof. intros Hf. apply keeps_modify. intros s. by apply balanced_same. Qed.

Hint Extern 1 (keeps _ (modify _)) => by apply keeps_same : keeps.

Lemma keeps_handle_initialize X Y o params : keeps (balanced X Y) (handle_initialize o params).
Proof. unfold handle_initialize. by auto 20 with keeps. Qed.

Lemma keeps_run_request X Y h params : keeps (balanced X Y) (run_request h params).
Proof.
  destruct h as [| |u]; [apply keeps_ret| |apply wb_request].
  apply keeps_bind; [apply keeps_gets|]. intros [|o|o]; auto using keeps_lift, keeps_handle_initialize.
Qed.

Lemma preserves_dispatch_take X Y now response :
  triple (fun s => match rsp_id response with Some id => cleared id X Y s | None => balanced X Y s end)
    (dispatch (O := owner now) (MResponse response)) (fun _ => balanced X Y).
Proof.
  unfold dispatch. destruct (rsp_id response) as [id|]; [|apply preserves_ret].
  eapply triple_bind; [apply (triple_take X Y id)|]. intros [c|].
  - eapply triple_bind; [|intros ?; apply preserves_ret].
    destruct (rsp_error response); apply triple_call_callback.
  - eapply triple_bind; [apply triple_skip|intros ?; apply preserves_ret].
Qed.

Lemma preserves_dispatch_request X Y now request :
  preserves (balanced X Y) (dispatch (O := owner now) (MRequest request)).
Proof.
  unfold dispatch. eapply triple_bind; [apply preserves_gets|]. intros [h|]; [|apply preserves_ret].
  eapply triple_bind; [|intros ?; apply preserves_ret].
  apply triple_catch; [apply keeps_run_request|intros ?; apply preserves_ret].
Qed.

Lemma preserves_dispatch_notification X Y now n :
  preserves (balanced X Y) (dispatch (O := owner now) (MNotification n)).
Proof.
  unfold dispatch. eapply triple_bind; [apply preserves_gets|]. intros h.
  eapply triple_bind; [|intros ?; apply preserves_ret].
  destruct h; [apply preserves_run_notification|apply triple_skip].
Qed.

Lemma preserves_handle_message X Y now m : preserves (balanced X Y) (handle_message now m).
Proof.
  destruct m as [request|n|response]; unfold handle_message.
  - eapply triple_bind; [keep_balanced|]. intros ?.
    eapply triple_bind; [apply preserves_gets|]. intros [e|]; [apply preserves_send|].
    eapply triple_bind; [apply preserves_dispatch_request|]. intros ?. keep_balanced.
  - eapply triple_bind; [apply preserves_dispatch_notification|]. intros ?. apply triple_skip.
  - eapply (triple_bind _ _ (fun _ s => match rsp_id response with
                                        | Some id => cleared id X Y s
                                        | None => balanced X Y s
                                        end)).
    + destruct (rsp_id response); [apply triple_clear_tracking|apply triple_skip].
    + intros ?. eapply triple_bind; [apply preserves_dispatch_take|]. intros ?. apply triple_skip.
Qed.

Lemma preserves_call_all X Y (entries : list (RequestId * callback K)) r :
  triple (balanced X (entries.*2 ++ Y)) (for_each (fun entry => call_callback entry.2 r) entries)
    (fun _ => balanced X Y).
Proof.
  induction entries as [|[id c] entries IH]; simpl; [apply triple_skip|].
  eapply triple_bind; [apply triple_call_callback|]. intros ?. apply IH.
Qed.

Lemma preserves_handle_close X Y : preserves (balanced X Y) handle_close.
Proof.
  unfold handle_close. eapply triple_bind; [keep_balanced|]. intros ?.
  eapply (triple_bind _ _ (fun _ s => balanced X Y s /\ timed s = ∅)).
  { apply triple_modify. intros s Hs. split; [|done]. apply balanced_timers; [|done].
    intros id [d Hd]. simpl in Hd. by apply lookup_empty_Some in Hd. }
  intros ?. eapply (triple_bind _ _ (fun _ => balanced X Y)); [|intros ?; keep_balanced].
  unfold fail_all_pending.
  eapply (triple_bind _ _ (fun entries => balanced X (entries.*2 ++ Y))); [|intros es; apply preserves_call_all].
  intros s s' es [Hs Ht] Hrun. unfold on_router in Hrun. cbn in Hrun. injection Hrun as <- <-.
  intros Hno. specialize (Hs Hno) as [H1 H2 H3 H4 H5]. split; try done.
  - intros id [k Hk]. change (waiting (set_router _ s)) with (∅ : gmap RequestId (callback K)) in Hk.
    by rewrite lookup_empty in Hk.
  - intros id [d Hd]. change (timed s !! id = Some d) in Hd. rewrite Ht in Hd. by rewrite lookup_empty in Hd.
  - change (waiting (set_router _ s)) with (∅ : gmap RequestId (callback K)). rewrite map_to_list_empty. simpl.
    change (trace (set_router _ s)) with (trace s). rewrite H5. unfold waiting. solve_Permutation.
Qed.

Lemma expired_spec now (t : Timers K) id d :
  (id, d) ∈ expired now t <-> deadlines t !! id = Some d /\ (dl_at d <= now)%Z.
Proof. unfold expired. rewrite list_elem_of_filter, elem_of_map_to_list. naive_solver. Qed.

Lemma expire_spec now (t : Timers K) id d :
  deadlines (expire now t) !! id = Some d <-> deadlines t !! id = Some d /\ (now < dl_at d)%Z.
Proof. unfold expire. simpl. rewrite map_lookup_filter_Some. simpl. split; intros [? ?]; split; auto; lia. Qed.

Lemma balanced_expire X Y now s :
  balanced X Y s ->
  balanced (list_to_set (expired now (timers s)).*1 ∪ X) Y (set_timers (expire now (timers s)) s).
Proof.
  intros Hs Hno. assert (balanced X Y (set_timers (expire now (timers s)) s)) as Hb.
  { apply balanced_timers; [|done]. intros id [d Hd]. apply expire_spec in Hd as [Hd _]. by eexists. }
  specialize (Hb Hno) as [H1 H2 H3 H4 H5]. specialize (Hs Hno) as [_ G2 G3 _ _]. split; try done.
  intros id [Hid|Hid]%elem_of_union; [|by apply H4].
  apply elem_of_list_to_set, list_elem_of_fmap in Hid as ([id' d] & -> & Hin). simpl.
  apply expired_spec in Hin as [Hd Hle]. split; [apply G2, G3; by eexists|].
  unfold timed. cbn [timers set_timers]. destruct (deadlines (expire now (timers s)) !! id') as [d'|] eqn:E; [|done].
  apply expire_spec in E as [Hd' Hlt]. rewrite Hd in Hd'. injection Hd' as ->. lia.
Qed.

Lemma balanced_weaken X X' Y s : X ⊆ X' -> balanced X' Y s -> balanced X Y s.
Proof. intros HX Hs Hno. specialize (Hs Hno) as [H1 H2 H3 H4 H5]. split; auto. Qed.

Lemma preserves_time_out X Y id : id ∈ X -> preserves (balanced X Y) (time_out id).
Proof.
  intros Hid. unfold time_out. eapply triple_bind; [keep_balanced|]. intros ?.
  eapply triple_bind; [|intros ?; apply triple_skip]. unfold fail_pending.
  eapply triple_bind.
  - eapply triple_pre; [apply (triple_take X Y id)|]. intros s Hs. split; [done|].
    intros Hno. specialize (Hs Hno) as [_ _ _ H4 _]. by apply H4.
  - intros [c|]; [|apply preserves_ret].
    eapply triple_bind; [apply triple_call_callback|intros ?; apply preserves_ret].
Qed.

Lemma preserves_timer_pass X Y now : preserves (balanced X Y) (timer_pass now).
Proof.
  intros s s' a Hs H. unfold timer_pass in H. run_in H.
  destruct (stop_timer (timers s)); [injection H as <-; done|].
  eapply balanced_weaken; [apply union_subseteq_r|].
  eapply triple_for_each; [|by apply balanced_expire|exact H].
  intros id Hid. apply preserves_time_out. apply elem_of_union_l, elem_of_list_to_set. exact Hid.
Qed.

Lemma preserves_report X Y e : preserves (balanced X Y) (report_error e).
Proof. unfold report_error. keep_balanced. Qed.

Lemma preserves_transport_error X Y e : preserves (balanced X Y) (on_transport_error e).
Proof.
  unfold on_transport_error. eapply triple_bind; [keep_balanced|]. intros ?.
  eapply triple_bind; [keep_balanced|]. intros ?. apply preserves_report.
Qed.

Lemma preserves_send_request_sync X Y now method params options :
  preserves (balanced X Y) (send_request_sync now method params options).
Proof.
  unfold send_request_sync. eapply (triple_bind _ _ (fun _ => balanced X Y)); [|intros ?; keep_balanced].
  intros s1 s2 slot Hs1 Hrun. injection Hrun as <- _. by eapply balanced_same; [|exact Hs1].
Qed.

Lemma preserves_initialize_begin X Y now o : preserves (balanced X Y) (initialize_begin now o).
Proof.
  unfold initialize_begin. eapply triple_bind; [keep_balanced|]. intros current.
  destruct (negb (bool_decide (current = Uninitialized))); [keep_balanced|].
  eapply triple_bind; [keep_balanced|]. intros ?. eapply triple_bind; [keep_balanced|]. intros version.
  eapply triple_bind; [apply preserves_send_request_sync|]. intros ?. keep_balanced.
Qed.

Lemma preserves_disconnect X Y : preserves (balanced X Y) disconnect.
Proof. unfold disconnect. keep_balanced. Qed.

Lemma preserves_initialize_end X Y o r : preserves (balanced X Y) (initialize_end o r).
Proof.
  unfold initialize_end. destruct r as [j|e]; [|keep_balanced].
  eapply triple_bind; [keep_balanced|]. intros [result|e]; [|keep_balanced].
  destruct (find_if _ _); [keep_balanced|].
  eapply triple_bind; [apply preserves_disconnect|]. intros ?. keep_balanced.
Qed.

(** ** The operations of a session, as the calls of its users, of its
    transport and of its timer *)

Inductive operation :=
| OConnect
| ODisconnect
| OSendRequest (now : Z) (method : string) (params : option json) (k : K) (options : RequestOptions (K:=K))
| OSendRequestSync (now : Z) (method : string) (params : option json) (options : RequestOptions (K:=K))
| OSendNotification (method : string) (params : option json)
| OSendProgress (token : ProgressToken) (progress : double) (total : option double) (message : option string)
| OCancelRequest (id : RequestId) (reason : option string)
| OSetCloseCallback (k : option K)
| OSetErrorCallback (k : option K)
| OInitializeBegin (now : Z)
| OInitializeEnd (response : Result json)
| OMessage (now : Z) (m : Message)
| OError (e : Error)
| OClose
| OTimer (now : Z).

(** A member function of [ClientSession]. *)
Definition as_client (m : ClientOptions -> st Sess unit) : st Sess unit :=
  k ← gets kind; match k with ClientSession o => m o | _ => lift Undefined end.

Definition perform (op : operation) : st Sess unit :=
  match op with
  | OConnect => connect
  | ODisconnect => disconnect
  | OSendRequest now method params k options => _ ← send_request now method params (CUser k) options; skip
  | OSendRequestSync now method params options => _ ← send_request_sync now method params options; skip
  | OSendNotification method params => send_notification method params
  | OSendProgress token progress total message => send_progress token progress total message
  | OCancelRequest id reason => cancel_request id reason
  | OSetCloseCallback k => set_close_callback k
  | OSetErrorCallback k => set_error_callback k
  | OInitializeBegin now => as_client (fun o => _ ← initialize_begin now o; skip)
  | OInitializeEnd r => as_client (fun o => _ ← initialize_end o r; skip)
  | OMessage now m => handle_message now m
  | OError e => on_transport_error e
  | OClose => handle_close
  | OTimer now => timer_pass now
  end.

Lemma preserves_as_client X Y m :
  (forall o, preserves (balanced X Y) (m o)) -> preserves (balanced X Y) (as_client m).
Proof.
  intros Hm. eapply triple_bind; [keep_balanced|]. intros [|o|o]; [keep_balanced|keep_balanced|apply Hm].
Qed.

Lemma preserves_perform X Y op : preserves (balanced X Y) (perform op).
Proof.
  destruct op; cbn [perform]; try (apply preserves_as_client; intros o);
    try (eapply triple_bind; [|intros ?; apply triple_skip]);
    first [ apply preserves_on_transport | apply preserves_disconnect | apply preserves_send_request
          | apply preserves_send_request_sync | apply preserves_send | apply preserves_cancel_request
          | apply preserves_initialize_begin | apply preserves_initialize_end | apply preserves_handle_message
          | apply preserves_transport_error | apply preserves_handle_close | apply preserves_timer_pass
          | by apply preserves_same ].
Qed.

Lemma balanced_initial k t : balanced ∅ [] (make_session k t).
Proof.
  intros _. split; try done.
  - intros id [c Hc]. unfold waiting in Hc. simpl in Hc.
    assert (pending (kind_router (U:=U) (V:=V) (K:=K) k) = ∅) as E by by destruct k.
    by rewrite E, lookup_empty in Hc.
  - intros id [d Hd]. unfold timed in Hd. simpl in Hd. by rewrite lookup_empty in Hd.
  - unfold waiting. simpl. assert (pending (kind_router (U:=U) (V:=V) (K:=K) k) = ∅) as E by by destruct k.
    by rewrite E, map_to_list_empty.
Qed.
End accounting.
