(* ===== verification/SessionFacts.v ===== *)
(** * What sessions promise

    The properties of the sessions of Session.v: callbacks run exactly once,
    the lifecycle refines an abstract state machine, requests are gated and
    always answered, the two ends of a handshake agree, timeouts fire for
    exactly the requests whose deadline has passed. *)

From S2P Require Import Prelude Json Core Types Message Protocol State Router Session.

(** ** The abstract lifecycle

    What a session may do to its state and to the record of cancelled incoming
    requests, as a state machine. *)

Record core := mkCore { core_state : SessionState; core_cancellations : Cancellations }.

Inductive core_step (k : Kind) : core -> core -> Prop :=
| cs_close st c : core_step k (mkCore st c) (mkCore Shutdown c)
| cs_server_initialize o st c :
    k = ServerSession o -> st = Uninitialized \/ so_allow_reinitialize o = true ->
    core_step k (mkCore st c) (mkCore Initializing c)
| cs_server_initialized c : core_step k (mkCore Initializing c) (mkCore Operating c)
| cs_client_initialize o c :
    k = ClientSession o -> core_step k (mkCore Uninitialized c) (mkCore Initializing c)
| cs_client_failed o st c :
    k = ClientSession o -> core_step k (mkCore st c) (mkCore Uninitialized c)
| cs_client_done o st c :
    k = ClientSession o -> core_step k (mkCore st c) (mkCore Operating c)
| cs_cancelled id st c : core_step k (mkCore st c) (mkCore st (mark_cancelled id c))
| cs_protect id st c : core_step k (mkCore st c) (mkCore st (mkCancellations (cancelled_incoming c) (Some id))).

Section lifecycle.
Context {T U V K : Type} `{!Transport T} `{!Application T U V K}.
#[local] Abbreviation Sess := (Session T U V K).
Implicit Type s : Sess.

Definition core_of s : core := mkCore (state s) (cancellations s).

(** [refines m]: whatever the outcome of [m], its effect on the core is a run
    of the abstract machine, and the dynamic type stays. *)
Definition moves s s' : Prop := kind s' = kind s /\ rtc (core_step (kind s)) (core_of s) (core_of s').
Definition refines {A} (m : st Sess A) : Prop := forall s, moves s (m s).1.

(** The application's closures run public operations only. *)
Class Respectful : Prop := {
  rs_request u p : refines (app_request u p);
  rs_notification v p : refines (app_notification v p);
  rs_response k r : refines (app_response k r);
  rs_progress k n : refines (app_progress k n);
  rs_close k : refines (app_close k);
  rs_error k e : refines (app_error k e);
}.

Lemma moves_refl s : moves s s.
Proof. by split. Qed.

Lemma moves_trans s1 s2 s3 : moves s1 s2 -> moves s2 s3 -> moves s1 s3.
Proof. intros [Hk1 H1] [Hk2 H2]. split; [congruence|]. rewrite Hk1 in H2. by etrans. Qed.

Lemma refines_bind {A B} (m : st Sess A) (k : A -> st Sess B) :
  refines m -> (forall a, refines (k a)) -> refines (mbind k m).
Proof.
  intros Hm Hk s. specialize (Hm s). unfold mbind, st_bind.
  destruct (m s) as [s1 [a|e|]]; simpl in *; [|done|done].
  eapply moves_trans; [exact Hm|apply Hk].
Qed.

Lemma refines_catch {A} (m : st Sess A) h : refines m -> (forall e, refines (h e)) -> refines (catch m h).
Proof.
  intros Hm Hh s. specialize (Hm s). unfold catch. destruct (m s) as [s1 [a|e|]]; simpl in *; [done| |done].
  eapply moves_trans; [exact Hm|apply Hh].
Qed.

Lemma refines_for_each {A} (f : A -> st Sess unit) l : (forall x, refines (f x)) -> refines (for_each f l).
Proof.
  intros Hf. induction l as [|x l IH]; [intros s; apply moves_refl|]. by apply refines_bind.
Qed.

Lemma moves_inert s s' : kind s' = kind s -> core_of s' = core_of s -> moves s s'.
Proof. intros Hk Hc. split; [done|]. by rewrite Hc. Qed.

Lemma refines_inert {A} (m : st Sess A) :
  (forall s, kind (m s).1 = kind s /\ core_of (m s).1 = core_of s) -> refines m.
Proof. intros H s. destruct (H s) as [Hk Hc]. split; [done|]. by rewrite Hc. Qed.

Lemma refines_ret {A} (a : A) : refines (mret a).
Proof. by apply refines_inert. Qed.
Lemma refines_skip : refines skip.
Proof. by apply refines_inert. Qed.
Lemma refines_gets {A} (f : Sess -> A) : refines (gets f).
Proof. by apply refines_inert. Qed.
Lemma refines_lift {A} (m : outcome A) : refines (lift m).
Proof. by apply refines_inert. Qed.

Lemma refines_modify f : (forall s, moves s (f s)) -> refines (modify f).
Proof. intros H s. apply H. Qed.

Lemma moves_once s s' : kind s' = kind s -> core_step (kind s) (core_of s) (core_of s') -> moves s s'.
Proof. intros Hk H. split; [done|]. by apply rtc_once. Qed.

Lemma refines_on_transport {A} (m : st T A) : refines (on_transport m).
Proof. apply refines_inert. intros s. unfold on_transport, zoom. by destruct (m (transport s)). Qed.

Lemma refines_take id : refines (take_callback id).
Proof. apply refines_inert. intros s. unfold take_callback. by destruct (take_pending id (session_router s)). Qed.

Lemma refines_shutdown : refines (modify (set_state Shutdown)).
Proof. apply refines_modify. intros s. apply moves_once; [done|]. apply cs_close. Qed.

Ltac refine_step :=
  match goal with
  | |- refines (mbind _ _) => apply refines_bind; [|intros ?]
  | |- refines (catch _ _) => apply refines_catch; [|intros ?]
  | |- refines (for_each _ _) => apply refines_for_each; intros ?
  | |- refines (mret _) => apply refines_ret
  | |- refines skip => apply refines_skip
  | |- refines (gets _) => apply refines_gets
  | |- refines (lift _) => apply refines_lift
  | |- refines (modify (set_state Shutdown)) => apply refines_shutdown
  | |- refines (modify _) => by apply refines_inert
  | |- refines (emit _) => by apply refines_inert
  | |- refines (on_transport _) => apply refines_on_transport
  | |- refines (take_callback _) => apply refines_take
  | |- refines (on_router (take_pending _)) => apply refines_take
  | |- refines (match ?x with _ => _ end) => destruct x
  end.
Ltac solve_refines := repeat refine_step; auto.

Context {RS : Respectful}.

Lemma refines_send m : refines (send_message m).
Proof. unfold send_message. solve_refines. Qed.
Hint Resolve refines_send : core.

Lemma refines_send_notification method p : refines (send_notification method p).
Proof. apply refines_send. Qed.
Hint Resolve refines_send_notification : core.

Lemma refines_call_callback c r : refines (call_callback c r).
Proof. unfold call_callback. solve_refines. apply rs_response. Qed.
Hint Resolve refines_call_callback : core.

Lemma refines_send_request now method p c o : refines (send_request now method p c o).
Proof. unfold send_request. apply refines_bind; [by apply refines_inert|]. intros ?. solve_refines. Qed.
Hint Resolve refines_send_request : core.

Lemma refines_send_request_sync now method p o : refines (send_request_sync now method p o).
Proof. unfold send_request_sync. apply refines_bind; [by apply refines_inert|]. intros ?. solve_refines. Qed.
Hint Resolve refines_send_request_sync : core.

Lemma refines_disconnect : refines disconnect.
Proof. unfold disconnect. solve_refines. Qed.

Lemma refines_cancel_request id reason : refines (cancel_request id reason).
Proof. unfold cancel_request, clear_tracking. solve_refines. Qed.

Lemma refines_handle_progress now p : refines (handle_progress now p).
Proof. unfold handle_progress. solve_refines. apply rs_progress. Qed.

Lemma refines_handle_cancelled p : refines (handle_cancelled p).
Proof.
  unfold handle_cancelled. destruct p as [p|]; [|apply refines_skip].
  apply refines_bind; [apply refines_lift|]. intros [note|e]; [|apply refines_skip].
  apply refines_modify. intros s. apply moves_once; [done|]. apply cs_cancelled.
Qed.

Lemma refines_handle_initialized : refines handle_initialized.
Proof.
  intros s. unfold handle_initialized. run. case_bool_decide as E; [|apply moves_refl].
  apply moves_once; [done|]. unfold core_of. simpl. rewrite E. apply cs_server_initialized.
Qed.

Lemma moves_initializing o s s' :
  kind s = ServerSession o -> kind s' = kind s -> core_of s' = mkCore Initializing (cancellations s) ->
  state s = Uninitialized \/ so_allow_reinitialize o = true -> moves s s'.
Proof. intros Hk Hk' Hc Hg. apply moves_once; [done|]. rewrite Hc. by apply cs_server_initialize with o. Qed.

Lemma refines_handle_initialize s o p : kind s = ServerSession o -> moves s (handle_initialize o p s).1.
Proof.
  intros Hk. unfold handle_initialize. run.
  case_bool_decide as E; cbn [negb andb].
  - destruct p as [p|]; [|by apply moves_inert].
    destruct (catch_json _ _) as [[parsed|e]|x|]; try by apply moves_inert.
    destruct (front _); apply (moves_initializing o); auto.
  - destruct (so_allow_reinitialize o) eqn:Er; cbn [negb]; [|by apply moves_inert].
    destruct p as [p|]; [|by apply moves_inert].
    destruct (catch_json _ _) as [[parsed|e]|x|]; try by apply moves_inert.
    destruct (front _); apply (moves_initializing o); auto.
Qed.

Lemma refines_run_request h p : refines (run_request h p).
Proof.
  intros s. destruct h as [| |u]; [apply moves_refl| |apply rs_request].
  unfold run_request. run. destruct (kind s) as [|o|o] eqn:Hk; [apply moves_refl| |apply moves_refl].
  by apply refines_handle_initialize.
Qed.

Lemma refines_run_notification now h p : refines (run_notification now h p).
Proof.
  destruct h; [apply refines_handle_progress|apply refines_handle_cancelled
    |apply refines_handle_initialized|apply rs_notification].
Qed.

Lemma refines_dispatch now m : refines (dispatch (O := owner now) m).
Proof.
  unfold dispatch. destruct m; solve_refines; try apply refines_run_request;
    try apply refines_run_notification; apply refines_call_callback.
Qed.

Lemma refines_handle_message now m : refines (handle_message now m).
Proof.
  destruct m as [request|n|response]; unfold handle_message.
  - apply refines_bind.
    + destruct (String.eqb (req_method request) kInitialize); [|apply refines_skip].
      apply refines_modify. intros s. apply moves_once; [done|]. apply cs_protect.
    + intros ?. apply refines_bind; [apply refines_gets|]. intros [e|]; [apply refines_send|].
      apply refines_bind; [apply refines_dispatch|]. intros [r|]; [apply refines_send|apply refines_skip].
  - apply refines_bind; [apply refines_dispatch|]. intros ?. apply refines_skip.
  - unfold clear_tracking. solve_refines. apply refines_dispatch.
Qed.

Lemma refines_handle_close : refines handle_close.
Proof.
  unfold handle_close, fail_all_pending. solve_refines.
  - by apply refines_inert.
  - apply refines_call_callback.
  - apply rs_close.
Qed.

Lemma refines_transport_error e : refines (on_transport_error e).
Proof. unfold on_transport_error, report_error. solve_refines. apply rs_error. Qed.

Lemma refines_timer_pass now : refines (timer_pass now).
Proof.
  unfold timer_pass, time_out, fail_pending. solve_refines. apply refines_call_callback.
Qed.

Lemma refines_as_client m :
  (forall o s, kind s = ClientSession o -> moves s (m o s).1) -> refines (as_client m).
Proof.
  intros Hm s. unfold as_client. run. destruct (kind s) as [|o|o] eqn:Hk; [apply moves_refl..|by apply Hm].
Qed.

Lemma moves_client o s s' st :
  kind s = ClientSession o -> st = Uninitialized \/ st = Operating -> kind s' = kind s ->
  core_of s' = mkCore st (cancellations s) -> moves s s'.
Proof.
  intros Hk Hst Hk' Hc. apply moves_once; [done|]. rewrite Hc.
  destruct Hst as [-> | ->]; [by apply cs_client_failed with o|by apply cs_client_done with o].
Qed.

Lemma moves_initialize_begin now o s :
  kind s = ClientSession o -> moves s (initialize_begin now o s).1.
Proof.
  intros Hk. unfold initialize_begin. rewrite (st_bind_val _ _ _ s (state s)) by done.
  case_bool_decide as E; cbn [negb]; [|apply moves_refl].
  rewrite (st_bind_val _ _ _ (set_state Initializing s) tt) by done.
  apply moves_trans with (set_state Initializing s).
  - apply moves_once; [done|]. unfold core_of. rewrite E. by apply cs_client_initialize with o.
  - revert s Hk E. intros s Hk E. match goal with |- moves ?s1 (?m ?s1).1 => assert (refines m) as Hm end; [|apply Hm].
    solve_refines.
Qed.

Lemma moves_initialize_end o s r : kind s = ClientSession o -> moves s (initialize_end o r s).1.
Proof.
  intros Hk. unfold initialize_end.
  assert (forall e : Error, moves s ((_ ← modify (set_state Uninitialized); mret (Err e)) s : _ * outcome (Result InitializeResult)).1)
    as Hfail by (intros e; eapply moves_client; [exact Hk|by left|done|done]).
  destruct r as [j|e]; [|apply Hfail].
  destruct (catch_json _ _) as [[result|e]|x|]; run; [|apply (Hfail e)|apply moves_refl..].
  destruct (find_if _ _).
  - set (s1 := set_peer _ s). pose proof (refines_send_notification kNotificationInitialized None s1) as Hsend.
    assert (moves s s1) as H1 by by apply moves_inert.
    destruct (send_notification kNotificationInitialized None s1) as [s2 [[]|x|]]; simpl in Hsend;
      [|by eapply moves_trans..].
    eapply moves_trans; [exact H1|]. eapply moves_trans; [exact Hsend|].
    destruct H1 as [Hk1 _], Hsend as [Hk2 _]. eapply moves_client; [|by right|done|done]. by rewrite Hk2, Hk1.
  - pose proof (refines_disconnect s) as H. by destruct (disconnect s) as [s1 [[]|x|]].
Qed.

Lemma refines_perform op : refines (perform op).
Proof.
  destruct op; cbn [perform].
  - apply refines_on_transport.
  - apply refines_disconnect.
  - solve_refines.
  - solve_refines.
  - apply refines_send_notification.
  - apply refines_send_notification.
  - apply refines_cancel_request.
  - by apply refines_inert.
  - by apply refines_inert.
  - apply refines_as_client. intros o s Hk. pose proof (moves_initialize_begin now o s Hk) as H.
    unfold mbind, st_bind. by destruct (initialize_begin now o s) as [s1 [a|x|]].
  - apply refines_as_client. intros o s Hk. pose proof (moves_initialize_end o s response Hk) as H.
    unfold mbind, st_bind. by destruct (initialize_end o response s) as [s1 [a|x|]].
  - apply refines_handle_message.
  - apply refines_transport_error.
  - apply refines_handle_close.
  - apply refines_timer_pass.
Qed.

Lemma refines_perform_all ops : refines (for_each perform ops).
Proof. apply refines_for_each, refines_perform. Qed.

(** ** Consequences of the abstract machine *)

Definition rank (st : SessionState) : nat :=
  match st with Uninitialized => 0 | Initializing => 1 | Operating => 2 | Shutdown => 3 end.

Lemma core_step_rank o c c' :
  so_allow_reinitialize o = false -> core_step (ServerSession o) c c' ->
  rank (core_state c) <= rank (core_state c').
Proof.
  intros Ho. destruct 1 as [st c|o' st c [= <-] Hst|c| | | |id st c|id st c]; simpl; try done; try lia.
  - destruct st; simpl; lia.
  - destruct Hst as [-> | ?]; [simpl; lia|congruence].
Qed.

Lemma mark_cancelled_bound id c :
  base.size (cancelled_incoming c) <= kMaxTrackedCancellations ->
  base.size (cancelled_incoming (mark_cancelled id c)) <= kMaxTrackedCancellations.
Proof.
  intros H. unfold mark_cancelled. case_bool_decide; [done|]. cbn [cancelled_incoming].
  destruct (Nat.leb_spec kMaxTrackedCancellations (base.size (cancelled_incoming c))).
  - rewrite union_empty_r_L, size_singleton. unfold kMaxTrackedCancellations. lia.
  - rewrite size_union_alt, size_singleton.
    assert (base.size (cancelled_incoming c ∖ {[id]}) <= base.size (cancelled_incoming c)).
    { apply subseteq_size. set_solver. }
    lia.
Qed.

Lemma core_step_bound k c c' :
  core_step k c c' -> base.size (cancelled_incoming (core_cancellations c)) <= kMaxTrackedCancellations ->
  base.size (cancelled_incoming (core_cancellations c')) <= kMaxTrackedCancellations.
Proof. destruct 1; simpl; try done. apply mark_cancelled_bound. Qed.


(** The state of a server session that does not allow re-initialization
    never goes back: Uninitialized, Initializing, Operating, Shutdown is the
    only order, and Shutdown is final. *)
Theorem server_state_monotone o ops s :
  kind s = ServerSession o -> so_allow_reinitialize o = false ->
  rank (state s) <= rank (state (for_each perform ops s).1).
Proof.
  intros Hk Ho. destruct (refines_perform_all ops s) as [_ H]. rewrite Hk in H.
  change (state s) with (core_state (core_of s)).
  change (state (for_each perform ops s).1) with (core_state (core_of (for_each perform ops s).1)).
  induction H as [|x y z Hxy _ IH]; [done|]. apply (core_step_rank o) in Hxy; [lia|done].
Qed.

(** A session never remembers more than 1024 cancelled incoming requests,
    whatever its peer sends. *)
Theorem cancelled_requests_bounded k t ops :
  base.size (cancelled_incoming (cancellations (for_each perform ops (make_session k t)).1))
    <= kMaxTrackedCancellations.
Proof.
  destruct (refines_perform_all ops (make_session k t)) as [_ H].
  set (s' := (for_each perform ops (make_session k t)).1) in *.
  change (cancellations s') with (core_cancellations (core_of s')).
  assert (base.size (cancelled_incoming (core_cancellations (core_of (make_session k t))))
            <= kMaxTrackedCancellations) as H0.
  { change (base.size (∅ : gset RequestId) <= kMaxTrackedCancellations). rewrite size_empty. unfold kMaxTrackedCancellations. lia. }
  induction H as [|x y z Hxy _ IH]; [done|]. apply IH. by eapply core_step_bound.
Qed.
End lifecycle.

(** ** A concrete transport and application

    A wire that records what is sent, and an application whose response
    callback 1 sends another request. *)
Module Demo.
Definition wire : Type := list Message.

#[export] Instance wire_transport : Transport wire := {|
  t_connect := skip;
  t_disconnect := skip;
  t_send m := modify (fun w => w ++ [m]);
  t_send_batch ms := modify (fun w => w ++ ms);
|}.

#[export] Instance application : Application wire nat nat nat := {|
  app_request u params := mret (Ok (JInt (Z.of_nat u)));
  app_notification v params := skip;
  app_response k r :=
    match k with
    | 1 => _ ← send_request 0 "ping" None (CUser 2) no_options; skip
    | _ => skip
    end;
  app_progress k n := skip;
  app_close k := skip;
  app_error k e := skip;
|}.

Definition session : Type := Session wire nat nat nat.

#[export] Instance well_behaved : WellBehaved (T := wire) (U := nat) (V := nat) (K := nat).
Proof.
  split; intros; try apply keeps_ret; try apply triple_skip.
  destruct k as [|[|k]]; try apply triple_skip.
  eapply triple_bind; [apply preserves_send_request|intros ?; apply triple_skip].
Qed.

#[export] Instance respectful : Respectful (T := wire) (U := nat) (V := nat) (K := nat).
Proof.
  split; intros; try apply refines_ret; try apply refines_skip.
  destruct k as [|[|k]]; [apply refines_skip| |apply refines_skip].
  apply refines_bind; [apply refines_send_request|intros ?; apply refines_skip].
Qed.

Definition implementation : Implementation := mkImplementation "demo" None "1.0".
Definition server_options : ServerOptions :=
  mkServerOptions implementation (mkServerCaps None None None (Some (mkToolsCap None)) None None None)
    None [kProtocolVersion] false.
Definition client_options : ClientOptions :=
  mkClientOptions implementation (mkClientCaps None None None None None) [kProtocolVersion] 10000.
Definition server : session := make_session (ServerSession server_options) [].
Definition client : session := make_session (ClientSession client_options) [].

Definition request (id : Z) (method : string) : Message := MRequest (mkRequest (IdInt id) method None).
End Demo.

#[export] Existing Instances Demo.wire_transport Demo.application Demo.well_behaved Demo.respectful.

(** ** Callbacks *)

Section callbacks.
Context {T U V K : Type} `{!Transport T} `{!Application T U V K} {WB : WellBehaved}.

Lemma preserves_perform_all X Y ops : preserves (balanced X Y) (for_each perform ops).
Proof. apply triple_for_each. intros op _. apply preserves_perform. Qed.

(** C1: after any sequence of public calls, transport events and timer passes
    that completes (and fewer than 2^63 - 1 requests), every callback handed to
    [send_request] is accounted for exactly once: it has run, or its request is
    still pending, and never both nor twice. *)
Theorem session_callbacks_exactly_once k t ops (s : Session T U V K) :
  for_each perform ops (make_session k t) = (s, Val tt) -> no_wrap s ->
  requested_of (trace s) ≡ₚ (map_to_list (waiting s)).*2 ++ called_of (trace s) /\
  (forall id, is_Some (timed s !! id) -> is_Some (waiting s !! id)).
Proof.
  intros H Hno. pose proof (preserves_perform_all ∅ [] ops _ _ _ (balanced_initial k t) H Hno) as Hs.
  split; [apply (acc_callbacks _ _ _ Hs)|apply (acc_timed _ _ _ Hs)].
Qed.
End callbacks.

Definition demo_operations : list (operation (K := nat)) :=
  [OSendRequest 0 "tools/list" None 1 (mkRequestOptions (Some 50%Z) None None);
   OSendRequest 0 "tools/list" None 5 no_options;
   OTimer 60; OMessage 61 (MResponse (mkResponse (Some (IdInt 2)) (Some JNull) None))].

Lemma session_callbacks_exactly_once_witness :
  let s := (for_each perform demo_operations Demo.client).1 in
  requested_of (trace s) ≡ₚ (map_to_list (waiting s)).*2 ++ called_of (trace s) /\
  (forall id, is_Some (timed s !! id) -> is_Some (waiting s !! id)).
Proof.
  apply (session_callbacks_exactly_once (ClientSession Demo.client_options) [] demo_operations).
  - vm_compute. reflexivity.
  - vm_compute. reflexivity.
Defined.


Lemma server_state_monotone_witness :
  rank (state Demo.server) <= rank (state (for_each perform [OMessage 0 (Demo.request 1 "initialize")] Demo.server).1).
Proof. by apply (server_state_monotone Demo.server_options [OMessage 0 (Demo.request 1 "initialize")] Demo.server). Defined.

Lemma cancelled_requests_bounded_witness :
  base.size (cancelled_incoming (cancellations (for_each perform [OClose] Demo.server).1)) <= kMaxTrackedCancellations.
Proof. apply (cancelled_requests_bounded (ServerSession Demo.server_options) [] [OClose]). Defined.

(** ** Requests *)

Section requests.
Context {T U V K : Type} `{!Transport T} `{!Application T U V K}.
#[local] Abbreviation Sess := (Session T U V K).
Implicit Type s : Sess.


Lemma gate_spec gates method :
  match gate gates method with
  | Some e => e = error CapabilityNotSupported ("capability not supported: " +:+ method) /\
      exists prefix, (prefix, false) ∈ gates /\ starts_with prefix method = true
  | None => forall prefix declared, (prefix, declared) ∈ gates -> starts_with prefix method = true -> declared = true
  end.
Proof.
  unfold gate. destruct (find_if _ gates) as [[prefix b]|] eqn:E.
  - apply find_if_Some in E as [Hin Hg]. simpl in Hg. apply andb_true_iff in Hg as [Hp Hb].
    apply negb_true_iff in Hb as ->. split; [done|]. by exists prefix.
  - rewrite find_if_None in E. intros prefix b Hin Hp. specialize (E _ Hin). simpl in E.
    rewrite Hp in E. simpl in E. by apply negb_false_iff in E.
Qed.

Definition reject (request : JsonRpcRequest) (e : Error) : st Sess unit :=
  send_message (MResponse (response_of (req_id request) (Err e))).


(** ** The handshake *)

Lemma negotiate_spec supported preferred requested :
  (requested ∈ supported -> negotiate supported preferred requested = requested) /\
  (requested ∉ supported -> negotiate supported preferred requested = preferred).
Proof.
  unfold negotiate. destruct (find_if _ supported) as [v|] eqn:E.
  - apply find_if_Some in E as [Hin Hv]. apply String.eqb_eq in Hv as ->. split; [done|]. by intros ?.
  - rewrite find_if_None in E. split; [|done]. intros Hin. specialize (E _ Hin).
    by rewrite String.eqb_refl in E.
Qed.


(** ** Timeouts and progress *)

Lemma expired_NoDup now (t : Timers K) : NoDup (expired now t).*1.
Proof.
  unfold expired. eapply (sublist_NoDup _ ((map_to_list (deadlines t)).*1)).
  - apply NoDup_fst_map_to_list.
  - apply fmap_sublist. apply sublist_filter.
Qed.

(** A pass of the timer at [now] times out exactly the requests whose
    deadline has been reached, each once, and leaves every other deadline as it
    was. *)
Theorem timer_pass_spec now s :
  stop_timer (timers s) = false ->
  exists ids t',
    timer_pass now s = for_each time_out ids (set_timers t' s) /\ NoDup ids /\
    (forall id, id ∈ ids <-> exists d, timed s !! id = Some d /\ (dl_at d <= now)%Z) /\
    (forall id d, deadlines t' !! id = Some d <-> timed s !! id = Some d /\ (now < dl_at d)%Z).
Proof.
  intros Hs. exists (expired now (timers s)).*1, (expire now (timers s)). split_and!.
  - unfold timer_pass. run. by rewrite Hs.
  - apply expired_NoDup.
  - intros id. rewrite list_elem_of_fmap. split.
    + intros ([id' d] & -> & Hd%expired_spec). by exists d.
    + intros (d & Hd). exists (id, d). split; [done|]. by apply expired_spec.
  - intros id d. apply expire_spec.
Qed.

(** A progress notification restarts the clock of exactly the requests that
    carry its token: their new deadline is a full timeout away, so no pass of
    the timer before that can expire them; then the callback of the token runs. *)
Theorem progress_restarts_clock now n s :
  exists t',
    handle_progress now (Some (ProgressNotification_to_json n)) s =
      match progress_callbacks (timers s) !! pn_token n with
      | Some k => _ ← emit (Reported k n); app_progress k n
      | None => skip
      end (set_timers t' s) /\
    progress_callbacks t' = progress_callbacks (timers s) /\
    (forall id d, timed s !! id = Some d ->
       exists d', deadlines t' !! id = Some d' /\ dl_timeout d' = dl_timeout d /\ dl_token d' = dl_token d /\
         (dl_token d <> Some (pn_token n) -> d' = d) /\
         (dl_token d = Some (pn_token n) ->
            forall later, (later < now + dl_timeout d)%Z -> id ∉ (expired later t').*1)).
Proof.
  set (t' := mkTimers (stop_timer (timers s)) (reset_clock now (pn_token n) <$> deadlines (timers s))
               (progress_callbacks (timers s))).
  exists t'. split_and!.
  - unfold handle_progress. rewrite ProgressNotification_read. run. subst t'. cbn [timers set_timers progress_callbacks].
    destruct (progress_callbacks (timers s) !! pn_token n); done.
  - done.
  - intros id d Hd. unfold timed in Hd.
    assert (deadlines t' !! id = Some (reset_clock now (pn_token n) d)) as Hd' by (simpl; by rewrite lookup_fmap, Hd).
    exists (reset_clock now (pn_token n) d). split_and!; [done|by unfold reset_clock; case_bool_decide..| |].
    + intros Hne. unfold reset_clock. by rewrite bool_decide_eq_false_2.
    + intros Heq later Hlater. rewrite list_elem_of_fmap. intros ([id' d'] & -> & [Hin Hle]%expired_spec).
      simpl in *. rewrite Hd' in Hin. injection Hin as <-. unfold reset_clock in Hle.
      rewrite bool_decide_eq_true_2 in Hle by done. simpl in Hle. lia.
Qed.
End requests.



Lemma timer_pass_spec_witness :
  exists ids t',
    timer_pass 5 Demo.client = for_each time_out ids (set_timers t' Demo.client) /\ NoDup ids /\
    (forall id, id ∈ ids <-> exists d, timed Demo.client !! id = Some d /\ (dl_at d <= 5)%Z) /\
    (forall id d, deadlines t' !! id = Some d <-> timed Demo.client !! id = Some d /\ (5 < dl_at d)%Z).
Proof. by apply (timer_pass_spec 5 Demo.client). Defined.

(** ** Behaviours to know about *)

Definition cancelled_note (id : RequestId) : Message :=
  MNotification (mkNotification kNotificationCancelled
                   (Some (CancelledNotification_to_json (mkCancelled id None)))).

(** A cancellation that arrives before the initialize request of the same id
    is remembered, and the request counts as cancelled. *)
Lemma initialize_cancelled_beforehand :
  is_cancelled (IdInt 1)
    (for_each perform [OMessage 0 (cancelled_note (IdInt 1)); OMessage 0 (Demo.request 1 kInitialize)] Demo.server).1
  = true.
Proof. vm_compute. reflexivity. Qed.

(** An ill-typed optional member of a progress notification makes the
    notification handler throw out of [handle_message]. *)
Lemma mistyped_progress_throws now (s : Demo.session) :
  find_notification_handler kNotificationProgress (session_router s) = Some NProgress ->
  exists w,
    (handle_message now
       (MNotification (mkNotification kNotificationProgress
          (Some (JObject [("progress", JInt 1); ("progressToken", JInt 1); ("total", JString "x")])))) s).2
    = Throw (ExnJson w).
Proof.
  intros H. unfold handle_message, dispatch. run. change (router (Owner := owner now) s) with (session_router s).
  cbn [ntf_method ntf_params]. rewrite H. by eexists.
Qed.

(** Params that are an array cannot carry a progress token: the call throws,
    after the request id was taken. *)
Lemma token_in_array_params_throws now method l c token (s : Demo.session) :
  exists w, (send_request now method (Some (JArray l)) c (mkRequestOptions None (Some token) None) s).2
            = Throw (ExnJson w).
Proof. by eexists. Qed.

(** A connection that closes during the handshake leaves the client
    Uninitialized, not Shutdown. *)
Lemma close_during_handshake_forgotten :
  let m := _ ← initialize_begin 0 Demo.client_options; _ ← handle_close;
           initialize_end Demo.client_options (Err (error InternalError "connection closed")) in
  state (m Demo.client).1 = Uninitialized.
Proof. vm_compute. reflexivity. Qed.

(** A progress callback of a request without a timeout has no deadline to be
    found by: it stays, and is still called, after the request is answered. *)
Lemma untimed_progress_callback_stays :
  let m := _ ← send_request 0 kToolsCall None (CUser 0) (mkRequestOptions None (Some (IdInt 7)) (Some 3));
           handle_message 0 (MResponse (response_of (IdInt 1) (Ok JNull))) in
  let s := (m Demo.client).1 in
  pending (session_router s) !! IdInt 1 = None /\ progress_callbacks (timers s) !! IdInt 7 = Some 3.
Proof. by vm_compute. Qed.

(** [disconnect] runs no callback: what is pending stays pending, and so does a
    caller that waits for it. *)
Lemma disconnect_leaves_pending :
  let m := _ ← send_request_sync 0 kToolsCall None (mkRequestOptions None None None); disconnect in
  let s := (m Demo.client).1 in
  state s = Shutdown /\ pending (session_router s) !! IdInt 1 = Some (CSlot 0) /\ slot_get 0 s = None.
Proof. by vm_compute. Qed.
