(* ===== verification/Registry.v ===== *)
(** * Named entries in registration order

    The registries keep a vector of definitions with their handlers.  The
    lemmas here are about such vectors, for any name function; [Named] is what
    a registry promises about its vector. *)

From S2P Require Import Prelude Json Core Message Content Pagination.

Class Named (A : Type) := name_of : A -> string.

Section entries.
Context {A H : Type} `{!Named A}.
Implicit Type l : list (A * H).

Definition named (name : string) (entry : A * H) : bool := String.eqb (name_of entry.1) name.
Definition entry_names l : list string := (fun e => name_of e.1) <$> l.

(** [page_size == 0 ? 1 : page_size]. *)
Definition clamp_page_size (n : Z) : Z := if (n =? 0)%Z then 1%Z else n.

Lemma existsb_named name l : existsb (named name) l = true <-> name ∈ entry_names l.
Proof.
  unfold entry_names. rewrite existsb_exists, list_elem_of_fmap. unfold named. split.
  - intros (x & Hx & He%String.eqb_eq). exists x. split; [done|]. by apply list_elem_of_In.
  - intros (x & -> & Hx). exists x. split; [by apply list_elem_of_In|]. apply String.eqb_refl.
Qed.

Lemma entry_names_app l a h :
  NoDup (entry_names l) -> existsb (named (name_of a)) l = false -> NoDup (entry_names (l ++ [(a, h)])).
Proof.
  intros Hl He. unfold entry_names in *. rewrite fmap_app. apply NoDup_app. split; [done|]. split.
  - intros x Hx ->%list_elem_of_singleton. simpl in Hx.
    assert (existsb (named (name_of a)) l = true) by by apply existsb_named. congruence.
  - apply NoDup_singleton.
Qed.

Lemma entry_names_erase name l : NoDup (entry_names l) -> NoDup (entry_names (erase_first (named name) l)).
Proof. apply erase_first_NoDup. Qed.

Lemma erase_named name l :
  NoDup (entry_names l) -> forall e, e ∈ erase_first (named name) l <-> e ∈ l /\ name_of e.1 <> name.
Proof.
  unfold entry_names. induction l as [|x l IH]; intros Hl e; simpl.
  - split; [by intros ?%not_elem_of_nil|by intros [? _]].
  - rewrite fmap_cons in Hl. apply NoDup_cons in Hl as [Hx Hl]. unfold named at 1.
    destruct (String.eqb_spec (name_of x.1) name) as [E|E].
    + rewrite elem_of_cons. split.
      * intros He. split; [by right|]. intros <-. apply Hx. apply list_elem_of_fmap. exists e. by rewrite E.
      * intros [[->|?] Hne]; [by rewrite E in Hne|done].
    + rewrite !elem_of_cons, IH by done. split.
      * intros [->|[? ?]]; auto.
      * intros [[->|?] ?]; auto.
Qed.

Lemma find_named name l e :
  NoDup (entry_names l) -> find_if (named name) l = Some e <-> e ∈ l /\ name_of e.1 = name.
Proof.
  intros Hl. split.
  - intros [He Hn%String.eqb_eq]%find_if_Some. done.
  - revert Hl. unfold entry_names. induction l as [|x l IH]; intros Hl [He Hn]; simpl.
    + by apply not_elem_of_nil in He.
    + rewrite fmap_cons in Hl. apply NoDup_cons in Hl as [Hx Hl]. unfold named.
      destruct (String.eqb_spec (name_of x.1) name) as [E|E].
      * apply elem_of_cons in He as [->|He]; [done|]. exfalso. apply Hx. apply list_elem_of_fmap.
        exists e. split; [congruence|done].
      * apply elem_of_cons in He as [->|He]; [done|]. by apply IH.
Qed.

(** Following the cursors of a listing yields the definitions in order. *)
Lemma listing_complete l page_size :
  small l.*1 -> (0 < page_size)%Z -> (Z.of_nat (length l) + page_size < modulus 64)%Z ->
  walk (S (length l)) l.*1 None page_size = Some l.*1.
Proof.
  intros Hs Hp Hfit. rewrite <- (Z2Nat.id page_size) by lia.
  rewrite (walk_at _ _ 0); rewrite ?length_fmap; try done; lia.
Qed.
End entries.

(** ** JSON forms of the members the definitions share *)

Definition list_to_json {A} (f : A -> json) (l : list A) : json := JArray (f <$> l).
Definition id_json (j : json) : json := j.

Lemma get_vector_roundtrip {A} (to : A -> json) (from : json -> outcome A) l :
  (forall a, from (to a) = Val a) -> get_vector from (list_to_json to l) = Val l.
Proof. intros H. unfold list_to_json. simpl. by apply mapM_outcome_Val. Qed.

Lemma read_icons (o : option (list Icon)) l :
  o = Some l -> get_vector Icon_from_json (list_to_json Icon_to_json l) = Val l /\
                is_null (list_to_json Icon_to_json l) = false.
Proof. intros _. split; [|done]. apply get_vector_roundtrip, Icon_roundtrip. Qed.

Lemma read_annotations (o : option Annotations) a :
  o = Some a -> Annotations_from_json (Annotations_to_json a) = Val a /\ is_null (Annotations_to_json a) = false.
Proof. intros _. split; [apply Annotations_roundtrip|done]. Qed.

Lemma read_json (o : option json) j :
  o <> Some JNull -> o = Some j -> get_json (id_json j) = Val j /\ is_null (id_json j) = false.
Proof. intros Hn ->. split; [done|]. by destruct j. Qed.

#[export] Hint Resolve read_icons read_annotations read_json : roundtrip.

(** ** Completion (include/mcp/server/completion.hpp) *)

Record CompleteResult := mkCompleteResult {
  cr_values : list string;
  cr_total : option Z;
  cr_has_more : option bool;
}.

(** Callbacks by (prompt or template, argument). *)
Definition completions (K : Type) : Type := gmap (string * string) K.

(** [complete]: the callback's answer, or nothing when there is none. *)
Definition complete_with {K W} (call : K -> string -> W -> W * outcome CompleteResult) (m : completions K)
    (name argument value : string) : W -> W * outcome (option CompleteResult) :=
  fun w => match m !! (name, argument) with
           | None => (w, Val None)
           | Some k => let '(w', r) := call k value w in (w', Some <$> r)
           end.
