(* ===== verification/ToolRegistry.v ===== *)
(** * The tool registry

    include/mcp/server/tool_registry.hpp and src/server/tool_registry.cpp. *)

From S2P Require Import Prelude Json Core Message Content Schema State Pagination Registry.

Record Tool := mkTool {
  tool_name : string;
  tool_title : option string;
  tool_description : option string;
  tool_icons : option (list Icon);
  input_schema : json;
  output_schema : option json;
  tool_annotations : option Annotations;
  tool_execution : option json;
}.

#[export] Instance tool_named : Named Tool := tool_name.

Definition object_schema : json := JObject (make_object [("type", JString "object")]).

Definition Tool_to_json (t : Tool) : json :=
  JObject (set_optional id_json "execution" (tool_execution t)
    (set_optional Annotations_to_json "annotations" (tool_annotations t)
    (set_optional id_json "outputSchema" (output_schema t)
    (set_optional (list_to_json Icon_to_json) "icons" (tool_icons t)
    (set_optional JString "description" (tool_description t)
    (set_optional JString "title" (tool_title t)
      (make_object [("name", JString (tool_name t)); ("inputSchema", input_schema t)]))))))).

Definition Tool_from_json (j : json) : outcome Tool :=
  name_v ← at_key "name" j;
  name ← get_string name_v;
  input ← value_or get_json "inputSchema" object_schema j;
  title ← get_optional get_string j "title";
  description ← get_optional get_string j "description";
  icons ← get_optional (get_vector Icon_from_json) j "icons";
  output ← get_optional get_json j "outputSchema";
  annotations ← get_optional Annotations_from_json j "annotations";
  execution ← get_optional get_json j "execution";
  Val (mkTool name title description icons input output annotations execution).

Record CallToolResult := mkCallToolResult { ctr_content : list Content; ctr_is_error : bool }.

Definition CallToolResult_to_json (r : CallToolResult) : json :=
  JObject (make_object [("content", content_list_to_json (ctr_content r)); ("isError", JBool (ctr_is_error r))]).

Definition tool_name_char (c : Ascii.ascii) : bool :=
  is_upper c || is_lower c || is_digit c || Ascii.eqb c "."%char || Ascii.eqb c "_"%char || Ascii.eqb c "-"%char.

Definition is_valid_tool_name (name : string) : bool :=
  if String.eqb name EmptyString || (128 <? size name) then false else str_forall tool_name_char name.

Definition text_content (text : string) : Content := TextContent text None.

Section registry.
(** Names of the handlers and of the changed callback. *)
Context {H C : Type}.

Record ToolRegistry := mkToolRegistry {
  tools : list (Tool * H);
  tool_page_size : Z;
  tool_changed_callback : option C;
}.

Definition empty_tools : ToolRegistry := mkToolRegistry [] 100 None.

(** Each change returns the callback to invoke once the lock is released. *)
Definition register_tool (tool : Tool) (handler : option H) (r : ToolRegistry)
  : ToolRegistry * Result unit * option C :=
  if negb (is_valid_tool_name (tool_name tool)) then
    (r, Err (error InvalidParams ("invalid tool name: '" +:+ tool_name tool +:+
                                  "' (1-128 chars from [A-Za-z0-9._-])")), None)
  else
    match handler with
    | None => (r, Err (error InvalidParams ("tool '" +:+ tool_name tool +:+ "' requires a handler")), None)
    | Some h =>
        if existsb (named (tool_name tool)) (tools r) then
          (r, Err (error InvalidParams ("tool already registered: " +:+ tool_name tool)), None)
        else
          (mkToolRegistry (tools r ++ [(tool, h)]) (tool_page_size r) (tool_changed_callback r),
           Ok tt, tool_changed_callback r)
    end.

Definition remove_tool (name : string) (r : ToolRegistry) : ToolRegistry * bool * option C :=
  match find_if (named name) (tools r) with
  | None => (r, false, None)
  | Some _ =>
      (mkToolRegistry (erase_first (named name) (tools r)) (tool_page_size r) (tool_changed_callback r),
       true, tool_changed_callback r)
  end.

Definition tool_count (r : ToolRegistry) : nat := length (tools r).

Definition list_tools (cursor : option string) (r : ToolRegistry) : outcome (Result (Page Tool)) :=
  paginate (tools r).*1 cursor (tool_page_size r).

Definition set_tool_page_size (n : Z) (r : ToolRegistry) : ToolRegistry :=
  mkToolRegistry (tools r) (clamp_page_size n) (tool_changed_callback r).

Definition set_tool_changed_callback (c : option C) (r : ToolRegistry) : ToolRegistry :=
  mkToolRegistry (tools r) (tool_page_size r) c.

Section call.
Context `{JsonText} {W : Type} (invoke : H -> json -> st W CallToolResult).

Definition failed (message : string) : CallToolResult := mkCallToolResult [text_content message] true.

Definition call_tool (name : string) (arguments : json) (r : ToolRegistry) : st W (Result CallToolResult) :=
  match find_if (named name) (tools r) with
  | None => mret (Err (error InvalidParams ("unknown tool: " +:+ name)))
  | Some (tool, handler) =>
      valid ← lift (validate_schema arguments (input_schema tool));
      match valid with
      | Err e => mret (Err (error InvalidParams ("invalid arguments for tool '" +:+ name +:+ "': " +:+ err_message e)))
      | Ok _ =>
          result ← catch (invoke handler arguments) (fun x => mret (failed (what x)));
          mret (Ok result)
      end
  end.
End call.

(** ** The invariant of a registry *)

Definition wf_tools (r : ToolRegistry) : Prop :=
  NoDup (entry_names (tools r)) /\ Forall (fun e => is_valid_tool_name (tool_name e.1) = true) (tools r) /\
  (0 < tool_page_size r < modulus 64)%Z.

Lemma wf_empty_tools : wf_tools empty_tools.
Proof. split_and!; [constructor|constructor|done|done]. Qed.

Lemma register_tool_wf tool h r : wf_tools r -> wf_tools (register_tool tool h r).1.1.
Proof.
  intros (H1 & H2 & H3). unfold register_tool. destruct (is_valid_tool_name (tool_name tool)) eqn:Ev; [|done].
  destruct h as [h|]; [|done]. simpl. destruct (existsb _ _) eqn:Ee; [done|]. split_and!; try done; simpl.
  - by apply entry_names_app.
  - apply Forall_app. split; [done|]. by apply Forall_singleton.
  - lia.
  - lia.
Qed.

Lemma remove_tool_wf name r : wf_tools r -> wf_tools (remove_tool name r).1.1.
Proof.
  intros (H1 & H2 & H3). unfold remove_tool. destruct (find_if _ _); [|done]. split_and!; simpl; try lia.
  - by apply entry_names_erase.
  - rewrite Forall_forall in *. intros e He. apply H2. eapply elem_of_sublist; [exact He|].
    apply erase_first_sublist.
Qed.

Lemma set_tool_page_size_wf n r : (0 <= n < modulus 64)%Z -> wf_tools r -> wf_tools (set_tool_page_size n r).
Proof.
  intros Hn (H1 & H2 & H3). split_and!; try done; simpl; unfold clamp_page_size;
    destruct (Z.eqb_spec n 0); lia.
Qed.
End registry.
Arguments ToolRegistry : clear implicits.

(** ** Properties *)

Section facts.
Context {H C : Type}.
Implicit Type r : ToolRegistry H C.

(** Registration succeeds exactly on a valid, new name with a handler; it
    then appends the tool and reports the change, and otherwise it returns
    InvalidParams and changes nothing.  Removal takes out exactly the entry of
    that name. *)
Theorem register_remove_spec tool h name r :
  wf_tools r ->
  (let '(r', result, notify) := register_tool tool h r in
   (exists h', h = Some h' /\ is_valid_tool_name (tool_name tool) = true /\
      (tool_name tool ∉ entry_names (tools r)) /\ result = Ok tt /\
      tools r' = tools r ++ [(tool, h')] /\ notify = tool_changed_callback r) \/
   ((h = None \/ is_valid_tool_name (tool_name tool) = false \/ tool_name tool ∈ entry_names (tools r)) /\
      (exists msg, result = Err (error InvalidParams msg)) /\ r' = r /\ notify = None)) /\
  (let '(r', removed, notify) := remove_tool name r in
   wf_tools r' /\ (removed = true <-> name ∈ entry_names (tools r)) /\
   forall e, e ∈ tools r' <-> e ∈ tools r /\ tool_name e.1 <> name).
Proof.
  intros Hwf. split.
  - unfold register_tool. destruct (is_valid_tool_name (tool_name tool)) eqn:Ev; simpl; [|right; eauto 10].
    destruct h as [h|]; [|right; eauto 10].
    destruct (existsb (named (tool_name tool)) (tools r)) eqn:Ee.
    + right. apply existsb_named in Ee. eauto 10.
    + left. exists h. split_and!; try done. intros Hin%(existsb_named (H := H)). congruence.
  - pose proof (remove_tool_wf name r Hwf) as Hwf'. unfold remove_tool in *.
    destruct Hwf as (Hnd & _). destruct (find_if (named name) (tools r)) as [e|] eqn:E.
    + split; [done|]. split.
      * split; [|done]. intros _. apply (find_named name) in E as [He Hn]; [|done].
        unfold entry_names. apply list_elem_of_fmap. by exists e.
      * intros e'. apply (erase_named name); done.
    + split; [done|]. rewrite find_if_None in E.
      assert (forall e, e ∈ tools r -> tool_name e.1 <> name) as Hne.
      { intros e He Heq. specialize (E _ He). unfold named in E.
        change (name_of e.1) with (tool_name e.1) in E. by rewrite Heq, String.eqb_refl in E. }
      split; [|naive_solver]. split; [done|]. intros (e & -> & He)%list_elem_of_fmap. by destruct (Hne e He).
Qed.

(** A client that follows the cursors of tools/list sees every registered
    tool once, in registration order. *)
Theorem list_tools_complete r :
  wf_tools r -> small (tools r).*1 -> (Z.of_nat (length (tools r)) + tool_page_size r < modulus 64)%Z ->
  walk (S (length (tools r))) (tools r).*1 None (tool_page_size r) = Some (tools r).*1.
Proof. intros (_ & _ & Hp) Hs Hfit. apply listing_complete; [done|lia|done]. Qed.

Context `{JsonText} {W : Type} (invoke : H -> json -> st W CallToolResult).

(** C33: a handler runs only on the arguments that conform to its tool's input
    schema; an unknown name or other arguments are protocol errors that leave
    the program's state alone, and an exception of the handler becomes a result
    marked as an error. *)
Theorem call_tool_spec name arguments r (w : W) :
  NoDup (entry_names (tools r)) ->
  (name ∉ entry_names (tools r) ->
     call_tool invoke name arguments r w = (w, Val (Err (error InvalidParams ("unknown tool: " +:+ name))))) /\
  (forall tool h, (tool, h) ∈ tools r -> tool_name tool = name ->
     (conforms arguments (input_schema tool) ->
        call_tool invoke name arguments r w =
          let '(w', result) := invoke h arguments w in
          (w', match result with
               | Val x => Val (Ok x)
               | Throw x => Val (Ok (failed (what x)))
               | Undefined => Undefined
               end)) /\
     (~ conforms arguments (input_schema tool) ->
        (call_tool invoke name arguments r w).1 = w /\
        forall result, (call_tool invoke name arguments r w).2 <> Val (Ok result))).
Proof.
  intros Hnd. unfold call_tool. split.
  - intros Hn. destruct (find_if (named name) (tools r)) as [e|] eqn:E; [|done].
    apply (find_named name) in E as [He <-]; [|done]. exfalso. apply Hn.
    unfold entry_names. apply list_elem_of_fmap. by exists e.
  - intros tool h Hin Hname.
    assert (find_if (named name) (tools r) = Some (tool, h)) as -> by by apply find_named.
    split.
    + intros Hc. apply (validate_at_conforms _ _ EmptyString) in Hc. unfold validate_schema. run. rewrite Hc.
      by destruct (invoke h arguments w) as [w' [x|x|]].
    + intros Hc. unfold validate_schema. run.
      destruct (validate_at _ _ _) as [[[]|e]|x|] eqn:Ev; [|done..].
      apply validate_at_conforms in Ev. done.
Qed.
End facts.

Definition wf_tool (t : Tool) : Prop :=
  output_schema t <> Some JNull /\ tool_execution t <> Some JNull.

(** A tool definition reads back from its JSON form as itself. *)
Theorem Tool_roundtrip t : wf_tool t -> Tool_from_json (Tool_to_json t) = Val t.
Proof.
  intros [Ho He]. destruct t as [name title description icons input output annotations execution].
  unfold Tool_from_json, Tool_to_json. json_lookup.
  read_optional JString "title" title.
  read_optional JString "description" description.
  read_optional (list_to_json Icon_to_json) "icons" icons.
  read_optional id_json "outputSchema" output.
  read_optional Annotations_to_json "annotations" annotations.
  by read_optional id_json "execution" execution.
Qed.

Module Sample.
Definition echo : Tool :=
  mkTool "echo" None None None
    (JObject (make_object [("type", JString "object"); ("required", JArray [JString "text"])])) None None None.
Definition registry : ToolRegistry nat nat := (register_tool echo (Some 1) empty_tools).1.1.

Lemma wf : wf_tools registry.
Proof. apply register_tool_wf, wf_empty_tools. Qed.

Definition handler (h : nat) (arguments : json) : st nat CallToolResult :=
  _ ← modify S; lift (Throw (ExnStd "no device")).
End Sample.

Lemma register_remove_spec_witness :
  wf_tools (remove_tool "echo" Sample.registry).1.1 /\
  ((remove_tool "echo" Sample.registry).1.2 = true <-> "echo" ∈ entry_names (tools Sample.registry)).
Proof.
  destruct (register_remove_spec Sample.echo (Some 2) "echo" Sample.registry Sample.wf) as [_ H].
  split; [exact (proj1 H)|exact (proj1 (proj2 H))].
Defined.

Lemma list_tools_complete_witness : walk 2 [Sample.echo] None 100 = Some [Sample.echo].
Proof. apply (list_tools_complete Sample.registry Sample.wf); by vm_compute. Defined.

#[local] Existing Instance BitText.text.

Lemma call_tool_spec_witness :
  call_tool Sample.handler "missing" JNull Sample.registry 0 =
    (0, Val (Err (error InvalidParams "unknown tool: missing"))) /\
  call_tool Sample.handler "echo" (JObject [("text", JNull)]) Sample.registry 0 =
    (1, Val (Ok (failed "no device"))).
Proof.
  pose proof (call_tool_spec (C := nat) Sample.handler) as H. split.
  - apply (H "missing" JNull Sample.registry 0 (proj1 Sample.wf)).
    intros Hin%list_elem_of_singleton. discriminate.
  - refine (eq_trans (proj1 (proj2 (H "echo" (JObject [("text", JNull)]) Sample.registry 0 (proj1 Sample.wf))
                             Sample.echo 1 _ eq_refl) _) eq_refl).
    + apply list_elem_of_singleton. reflexivity.
    + apply (validate_at_conforms _ _ EmptyString). vm_compute. reflexivity.
Defined.

Lemma Tool_roundtrip_witness : Tool_from_json (Tool_to_json Sample.echo) = Val Sample.echo.
Proof. apply Tool_roundtrip. split; discriminate. Defined.
