(* ===== verification/PromptProvider.v ===== *)
(** * The prompt provider

    include/mcp/server/prompt_provider.hpp and src/server/prompt_provider.cpp. *)

From S2P Require Import Prelude Json Core Message Content State Pagination Registry.

Record PromptArgument := mkPromptArgument {
  pa_name : string;
  pa_title : option string;
  pa_description : option string;
  pa_required : option bool;
}.

Definition PromptArgument_to_json (a : PromptArgument) : json :=
  JObject (set_optional JBool "required" (pa_required a)
    (set_optional JString "description" (pa_description a)
    (set_optional JString "title" (pa_title a) (make_object [("name", JString (pa_name a))])))).

Definition PromptArgument_from_json (j : json) : outcome PromptArgument :=
  name_v ← at_key "name" j;
  name ← get_string name_v;
  title ← get_optional get_string j "title";
  description ← get_optional get_string j "description";
  required ← get_optional get_bool j "required";
  Val (mkPromptArgument name title description required).

Record Prompt := mkPrompt {
  prompt_name : string;
  prompt_title : option string;
  prompt_description : option string;
  prompt_icons : option (list Icon);
  prompt_arguments : option (list PromptArgument);
}.

#[export] Instance prompt_named : Named Prompt := prompt_name.

Definition Prompt_to_json (p : Prompt) : json :=
  JObject (set_optional (list_to_json PromptArgument_to_json) "arguments" (prompt_arguments p)
    (set_optional (list_to_json Icon_to_json) "icons" (prompt_icons p)
    (set_optional JString "description" (prompt_description p)
    (set_optional JString "title" (prompt_title p) (make_object [("name", JString (prompt_name p))]))))).

Definition Prompt_from_json (j : json) : outcome Prompt :=
  name_v ← at_key "name" j;
  name ← get_string name_v;
  title ← get_optional get_string j "title";
  description ← get_optional get_string j "description";
  icons ← get_optional (get_vector Icon_from_json) j "icons";
  arguments ← get_optional (get_vector PromptArgument_from_json) j "arguments";
  Val (mkPrompt name title description icons arguments).

Record PromptMessage := mkPromptMessage { pm_role : Role; pm_content : Content }.
Record GetPromptResult := mkGetPromptResult {
  gpr_description : option string;
  gpr_messages : list PromptMessage;
}.

Definition PromptMessage_to_json (m : PromptMessage) : json :=
  JObject (make_object [("role", JString (role_to_string (pm_role m))); ("content", content_to_json (pm_content m))]).

Definition GetPromptResult_to_json (r : GetPromptResult) : json :=
  JObject (set_optional JString "description" (gpr_description r)
             (make_object [("messages", list_to_json PromptMessage_to_json (gpr_messages r))])).

Section provider.
(** Names of the handlers, of the changed callback and of the completion
    callbacks. *)
Context {H C K : Type}.

Record PromptProvider := mkPromptProvider {
  prompts : list (Prompt * H);
  prompt_completions : completions K;
  prompt_page_size : Z;
  prompt_changed_callback : option C;
}.

Definition empty_prompts : PromptProvider := mkPromptProvider [] ∅ 100 None.

Definition add_prompt (prompt : Prompt) (handler : option H) (p : PromptProvider)
  : PromptProvider * Result unit * option C :=
  if String.eqb (prompt_name prompt) EmptyString then
    (p, Err (error InvalidParams "prompt name must not be empty"), None)
  else
    match handler with
    | None => (p, Err (error InvalidParams ("prompt '" +:+ prompt_name prompt +:+ "' requires a handler")), None)
    | Some h =>
        if existsb (named (prompt_name prompt)) (prompts p) then
          (p, Err (error InvalidParams ("prompt already registered: " +:+ prompt_name prompt)), None)
        else
          (mkPromptProvider (prompts p ++ [(prompt, h)]) (prompt_completions p) (prompt_page_size p)
             (prompt_changed_callback p), Ok tt, prompt_changed_callback p)
    end.

Definition remove_prompt (name : string) (p : PromptProvider) : PromptProvider * bool * option C :=
  match find_if (named name) (prompts p) with
  | None => (p, false, None)
  | Some _ =>
      (mkPromptProvider (erase_first (named name) (prompts p)) (prompt_completions p) (prompt_page_size p)
         (prompt_changed_callback p), true, prompt_changed_callback p)
  end.

Definition prompt_count (p : PromptProvider) : nat := length (prompts p).

Definition prompt_has_completions (p : PromptProvider) : bool := negb (base.size (prompt_completions p) =? 0).

Definition list_prompts (cursor : option string) (p : PromptProvider) : outcome (Result (Page Prompt)) :=
  paginate (prompts p).*1 cursor (prompt_page_size p).

(** The first required argument that is missing. *)
Definition missing_argument (prompt : Prompt) (arguments : json) : option PromptArgument :=
  match prompt_arguments prompt with
  | Some l => find_if (fun a => default false (pa_required a) && negb (contains (pa_name a) arguments)) l
  | None => None
  end.

Definition set_prompt_completion (name argument : string) (k : K) (p : PromptProvider) : PromptProvider :=
  mkPromptProvider (prompts p) (<[(name, argument) := k]> (prompt_completions p)) (prompt_page_size p)
    (prompt_changed_callback p).

Definition set_prompt_page_size (n : Z) (p : PromptProvider) : PromptProvider :=
  mkPromptProvider (prompts p) (prompt_completions p) (clamp_page_size n) (prompt_changed_callback p).

Definition set_prompt_changed_callback (c : option C) (p : PromptProvider) : PromptProvider :=
  mkPromptProvider (prompts p) (prompt_completions p) (prompt_page_size p) c.

Section calls.
Context {W : Type} (invoke : H -> json -> st W (Result GetPromptResult)) (call : K -> string -> st W CompleteResult).

(** An exception of a handler becomes an error result. *)
Definition handler_error (x : exn) : Error :=
  match x with ExnMcp e => e | _ => error InternalError (what x) end.

Definition get_prompt (name : string) (arguments : json) (p : PromptProvider) : st W (Result GetPromptResult) :=
  match find_if (named name) (prompts p) with
  | None => mret (Err (error InvalidParams ("unknown prompt: " +:+ name)))
  | Some (prompt, handler) =>
      match missing_argument prompt arguments with
      | Some a =>
          mret (Err (error InvalidParams ("prompt '" +:+ name +:+ "' is missing required argument '"
                                          +:+ pa_name a +:+ "'")))
      | None => catch (invoke handler arguments) (fun x => mret (Err (handler_error x)))
      end
  end.

Definition complete_prompt (name argument value : string) (p : PromptProvider) : st W (option CompleteResult) :=
  complete_with call (prompt_completions p) name argument value.
End calls.

Definition wf_prompts (p : PromptProvider) : Prop :=
  NoDup (entry_names (prompts p)) /\ (EmptyString ∉ entry_names (prompts p)) /\ (0 < prompt_page_size p < modulus 64)%Z.

Lemma add_prompt_wf prompt h p : wf_prompts p -> wf_prompts (add_prompt prompt h p).1.1.
Proof.
  intros (H1 & H2 & H3). unfold add_prompt.
  destruct (String.eqb_spec (prompt_name prompt) EmptyString) as [|Hne]; [done|].
  destruct h as [h|]; [|done]. destruct (existsb _ _) eqn:Ee; [done|].
  split_and!; simpl; try lia.
  - by apply entry_names_app.
  - intros Hin. unfold entry_names in *. rewrite fmap_app in Hin.
    apply elem_of_app in Hin as [Hin|Hin%list_elem_of_singleton]; [done|]. by apply Hne.
Qed.

Lemma remove_prompt_wf name p : wf_prompts p -> wf_prompts (remove_prompt name p).1.1.
Proof.
  intros (H1 & H2 & H3). unfold remove_prompt. destruct (find_if _ _); [|done]. split_and!; simpl; try lia.
  - by apply entry_names_erase.
  - intros Hin. apply H2. unfold entry_names in *. eapply elem_of_sublist; [exact Hin|].
    apply fmap_sublist, erase_first_sublist.
Qed.
End provider.
Arguments PromptProvider : clear implicits.

(** ** Properties *)

Section facts.
Context {H C K W : Type}.
Implicit Type p : PromptProvider H C K.
Context (invoke : H -> json -> st W (Result GetPromptResult)).

(** Prompts/get runs a prompt's handler exactly when the prompt exists and
    every required argument is present; otherwise it answers InvalidParams and
    leaves the program's state alone, and no exception of the handler escapes. *)
Theorem get_prompt_spec name arguments p (w : W) :
  NoDup (entry_names (prompts p)) ->
  (name ∉ entry_names (prompts p) ->
     get_prompt invoke name arguments p w = (w, Val (Err (error InvalidParams ("unknown prompt: " +:+ name))))) /\
  (forall prompt h, (prompt, h) ∈ prompts p -> prompt_name prompt = name ->
     let complete := forall l a, prompt_arguments prompt = Some l -> a ∈ l -> pa_required a = Some true ->
                                 contains (pa_name a) arguments = true in
     (complete -> get_prompt invoke name arguments p w =
                  let '(w', result) := invoke h arguments w in
                  (w', match result with Throw x => Val (Err (handler_error x)) | r => r end)) /\
     (~ complete -> exists msg, get_prompt invoke name arguments p w = (w, Val (Err (error InvalidParams msg))))).
Proof.
  intros Hnd. unfold get_prompt. split.
  - intros Hn. destruct (find_if (named name) (prompts p)) as [e|] eqn:E; [|done].
    apply (find_named name) in E as [He <-]; [|done]. exfalso. apply Hn.
    unfold entry_names. apply list_elem_of_fmap. by exists e.
  - intros prompt h Hin Hname.
    assert (find_if (named name) (prompts p) = Some (prompt, h)) as -> by by apply find_named.
    destruct (missing_argument prompt arguments) as [a|] eqn:Em.
    + split; [|intros _; by eexists]. intros Hc. exfalso.
      unfold missing_argument in Em. destruct (prompt_arguments prompt) as [l|] eqn:El; [|done].
      apply find_if_Some in Em as [Ha Hb]. apply andb_true_iff in Hb as [Hr Hb].
      destruct (pa_required a) as [[]|] eqn:Er; try done.
      specialize (Hc l a eq_refl Ha Er). by rewrite Hc in Hb.
    + split.
      * intros _. run. by destruct (invoke h arguments w) as [w' [x|x|]].
      * intros Hc. exfalso. apply Hc. intros l a El Ha Er. unfold missing_argument in Em. rewrite El in Em.
        rewrite find_if_None in Em. specialize (Em a Ha). rewrite Er in Em. simpl in Em.
        by apply negb_false_iff in Em.
Qed.
End facts.

Lemma PromptArgument_roundtrip a : PromptArgument_from_json (PromptArgument_to_json a) = Val a.
Proof. by destruct a as [n [t|] [d|] [r|]]. Qed.

Lemma read_arguments (o : option (list PromptArgument)) l :
  o = Some l -> get_vector PromptArgument_from_json (list_to_json PromptArgument_to_json l) = Val l /\
                is_null (list_to_json PromptArgument_to_json l) = false.
Proof. intros _. split; [|done]. apply get_vector_roundtrip, PromptArgument_roundtrip. Qed.

#[local] Hint Resolve read_arguments : roundtrip.

Lemma Prompt_roundtrip p : Prompt_from_json (Prompt_to_json p) = Val p.
Proof.
  destruct p as [name title description icons arguments].
  unfold Prompt_from_json, Prompt_to_json. json_lookup.
  read_optional JString "title" title.
  read_optional JString "description" description.
  read_optional (list_to_json Icon_to_json) "icons" icons.
  by read_optional (list_to_json PromptArgument_to_json) "arguments" arguments.
Qed.

Module Sample.
Definition greet : Prompt :=
  mkPrompt "greet" None None None (Some [mkPromptArgument "who" None None (Some true)]).
Definition provider : PromptProvider nat nat nat := (add_prompt greet (Some 1) empty_prompts).1.1.
Definition handler (h : nat) (arguments : json) : st nat (Result GetPromptResult) :=
  _ ← modify S; mret (Ok (mkGetPromptResult None [])).
End Sample.

Lemma get_prompt_spec_witness :
  get_prompt Sample.handler "greet" (JObject [("who", JString "x")]) Sample.provider 0 =
    (1, Val (Ok (mkGetPromptResult None []))).
Proof.
  refine (eq_trans (proj1 (proj2 (get_prompt_spec Sample.handler "greet" (JObject [("who", JString "x")])
            Sample.provider 0 (NoDup_singleton _)) Sample.greet 1 _ eq_refl) _) eq_refl).
  - apply list_elem_of_singleton. reflexivity.
  - intros l a [= <-] ->%list_elem_of_singleton _. reflexivity.
Defined.
