(* ===== verification/ResourceProvider.v ===== *)
(** * The resource provider

    include/mcp/server/resource_provider.hpp and src/server/resource_provider.cpp. *)

From S2P Require Import Prelude Json Core Message Content State Pagination UriTemplate Registry.

(** "scheme:..." with an RFC 3986 scheme. *)
Definition scheme_char (c : Ascii.ascii) : bool :=
  is_alnum c || Ascii.eqb c "+"%char || Ascii.eqb c "-"%char || Ascii.eqb c "."%char.

Definition looks_like_uri (uri : string) : bool :=
  match find_char ":"%char uri with
  | None | Some O => false
  | Some colon =>
      match uri with
      | String c rest => is_alpha c && str_forall scheme_char (str_take (colon - 1) rest)
      | EmptyString => false
      end
  end.

Record Resource := mkResource {
  res_uri : string;
  res_name : string;
  res_title : option string;
  res_description : option string;
  res_mime_type : option string;
  res_icons : option (list Icon);
  res_annotations : option Annotations;
}.

Record ResourceTemplate := mkResourceTemplate {
  rt_uri_template : string;
  rt_name : string;
  rt_title : option string;
  rt_description : option string;
  rt_mime_type : option string;
  rt_icons : option (list Icon);
  rt_annotations : option Annotations;
}.

#[export] Instance resource_named : Named Resource := res_uri.

(** The members after the uri and the name. *)
Definition described_to_json (title description mime_type : option string) (icons : option (list Icon))
    (annotations : option Annotations) (o : object) : json :=
  JObject (set_optional Annotations_to_json "annotations" annotations
    (set_optional (list_to_json Icon_to_json) "icons" icons
    (set_optional JString "mimeType" mime_type
    (set_optional JString "description" description
    (set_optional JString "title" title o))))).

Definition Resource_to_json (r : Resource) : json :=
  described_to_json (res_title r) (res_description r) (res_mime_type r) (res_icons r) (res_annotations r)
    (make_object [("uri", JString (res_uri r)); ("name", JString (res_name r))]).

Definition Resource_from_json (j : json) : outcome Resource :=
  uri_v ← at_key "uri" j; uri ← get_string uri_v;
  name_v ← at_key "name" j; name ← get_string name_v;
  title ← get_optional get_string j "title";
  description ← get_optional get_string j "description";
  mime_type ← get_optional get_string j "mimeType";
  icons ← get_optional (get_vector Icon_from_json) j "icons";
  annotations ← get_optional Annotations_from_json j "annotations";
  Val (mkResource uri name title description mime_type icons annotations).

Definition ResourceTemplate_to_json (t : ResourceTemplate) : json :=
  described_to_json (rt_title t) (rt_description t) (rt_mime_type t) (rt_icons t) (rt_annotations t)
    (make_object [("uriTemplate", JString (rt_uri_template t)); ("name", JString (rt_name t))]).

Definition ResourceTemplate_from_json (j : json) : outcome ResourceTemplate :=
  uri_v ← at_key "uriTemplate" j; uri ← get_string uri_v;
  name_v ← at_key "name" j; name ← get_string name_v;
  title ← get_optional get_string j "title";
  description ← get_optional get_string j "description";
  mime_type ← get_optional get_string j "mimeType";
  icons ← get_optional (get_vector Icon_from_json) j "icons";
  annotations ← get_optional Annotations_from_json j "annotations";
  Val (mkResourceTemplate uri name title description mime_type icons annotations).

Record ReadResourceResult := mkReadResourceResult { rrr_contents : list ResourceContents }.

Definition ReadResourceResult_to_json (r : ReadResourceResult) : json :=
  JObject (make_object [("contents", list_to_json ResourceContents_to_json (rrr_contents r))]).

Section provider.
(** Names of the read handlers, of the changed callback and of the completion
    callbacks. *)
Context {H C K : Type}.

Record ResourceProvider := mkResourceProvider {
  resources : list (Resource * option H);
  templates : list ResourceTemplate;
  fallback_read : option H;
  subscriptions : gset string;
  resource_completions : completions K;
  resource_page_size : Z;
  resource_changed_callback : option C;
}.

Definition empty_resources : ResourceProvider := mkResourceProvider [] [] None ∅ ∅ 100 None.

Definition add_resource (resource : Resource) (handler : option H) (p : ResourceProvider)
  : ResourceProvider * Result unit * option C :=
  if negb (looks_like_uri (res_uri resource)) then
    (p, Err (error InvalidUri ("invalid URI: " +:+ res_uri resource)), None)
  else if existsb (named (res_uri resource)) (resources p) then
    (p, Err (error InvalidParams ("resource already registered: " +:+ res_uri resource)), None)
  else
    (mkResourceProvider (resources p ++ [(resource, handler)]) (templates p) (fallback_read p) (subscriptions p)
       (resource_completions p) (resource_page_size p) (resource_changed_callback p),
     Ok tt, resource_changed_callback p).

Definition add_resource_template (tmpl : ResourceTemplate) (p : ResourceProvider)
  : ResourceProvider * Result unit * option C :=
  if existsb (fun t => String.eqb (rt_uri_template t) (rt_uri_template tmpl)) (templates p) then
    (p, Err (error InvalidParams ("template already registered: " +:+ rt_uri_template tmpl)), None)
  else
    (mkResourceProvider (resources p) (templates p ++ [tmpl]) (fallback_read p) (subscriptions p)
       (resource_completions p) (resource_page_size p) (resource_changed_callback p),
     Ok tt, resource_changed_callback p).

Definition remove_resource (uri : string) (p : ResourceProvider) : ResourceProvider * bool * option C :=
  match find_if (named uri) (resources p) with
  | None => (p, false, None)
  | Some _ =>
      (mkResourceProvider (erase_first (named uri) (resources p)) (templates p) (fallback_read p)
         (subscriptions p ∖ {[uri]}) (resource_completions p) (resource_page_size p) (resource_changed_callback p),
       true, resource_changed_callback p)
  end.

Definition resource_count (p : ResourceProvider) : nat := length (resources p).
Definition template_count (p : ResourceProvider) : nat := length (templates p).
Definition resource_has_completions (p : ResourceProvider) : bool :=
  negb (base.size (resource_completions p) =? 0).

Definition set_read_handler (h : option H) (p : ResourceProvider) : ResourceProvider :=
  mkResourceProvider (resources p) (templates p) h (subscriptions p) (resource_completions p)
    (resource_page_size p) (resource_changed_callback p).

Definition list_resources (cursor : option string) (p : ResourceProvider) : outcome (Result (Page Resource)) :=
  paginate (resources p).*1 cursor (resource_page_size p).

Definition list_resource_templates (cursor : option string) (p : ResourceProvider)
  : outcome (Result (Page ResourceTemplate)) :=
  paginate (templates p) cursor (resource_page_size p).

Definition template_matches (uri : string) (t : ResourceTemplate) : bool :=
  match match_uri_template (rt_uri_template t) uri with Some _ => true | None => false end.

Definition uri_known (uri : string) (p : ResourceProvider) : bool :=
  existsb (named uri) (resources p) || existsb (template_matches uri) (templates p).

Definition subscribe (uri : string) (p : ResourceProvider) : ResourceProvider * Result unit :=
  if negb (uri_known uri p) then (p, Err (error ResourceNotFound ("resource not found: " +:+ uri)))
  else
    (mkResourceProvider (resources p) (templates p) (fallback_read p) ({[uri]} ∪ subscriptions p)
       (resource_completions p) (resource_page_size p) (resource_changed_callback p), Ok tt).

Definition unsubscribe (uri : string) (p : ResourceProvider) : ResourceProvider * bool :=
  (mkResourceProvider (resources p) (templates p) (fallback_read p) (subscriptions p ∖ {[uri]})
     (resource_completions p) (resource_page_size p) (resource_changed_callback p),
   bool_decide (uri ∈ subscriptions p)).

Definition is_subscribed (uri : string) (p : ResourceProvider) : bool := bool_decide (uri ∈ subscriptions p).

Definition set_resource_completion (uri_template argument : string) (k : K) (p : ResourceProvider)
  : ResourceProvider :=
  mkResourceProvider (resources p) (templates p) (fallback_read p) (subscriptions p)
    (<[(uri_template, argument) := k]> (resource_completions p)) (resource_page_size p)
    (resource_changed_callback p).

Definition set_resource_page_size (n : Z) (p : ResourceProvider) : ResourceProvider :=
  mkResourceProvider (resources p) (templates p) (fallback_read p) (subscriptions p) (resource_completions p)
    (clamp_page_size n) (resource_changed_callback p).

Definition set_resource_changed_callback (c : option C) (p : ResourceProvider) : ResourceProvider :=
  mkResourceProvider (resources p) (templates p) (fallback_read p) (subscriptions p) (resource_completions p)
    (resource_page_size p) c.

(** The handler that serves a URI: the resource's own, else the fallback; the
    fallback for a URI that only a template matches. *)
Definition resolve (uri : string) (p : ResourceProvider) : Result (option H) :=
  match find_if (named uri) (resources p) with
  | Some (_, Some h) => Ok (Some h)
  | Some (_, None) => Ok (fallback_read p)
  | None =>
      if existsb (template_matches uri) (templates p) then Ok (fallback_read p)
      else Err (error ResourceNotFound ("resource not found: " +:+ uri))
  end.

Section calls.
Context {W : Type} (invoke : H -> string -> st W (Result ReadResourceResult))
  (call : K -> string -> st W CompleteResult).

Definition read_error (x : exn) : Error :=
  match x with ExnMcp e => e | _ => error InternalError (what x) end.

Definition read_resource (uri : string) (p : ResourceProvider) : st W (Result ReadResourceResult) :=
  if negb (looks_like_uri uri) then mret (Err (error InvalidUri ("invalid URI: " +:+ uri)))
  else
    match resolve uri p with
    | Err e => mret (Err e)
    | Ok None => mret (Err (error InternalError ("no read handler for resource: " +:+ uri)))
    | Ok (Some handler) => catch (invoke handler uri) (fun x => mret (Err (read_error x)))
    end.

Definition complete_resource (uri_template argument value : string) (p : ResourceProvider)
  : st W (option CompleteResult) :=
  complete_with call (resource_completions p) uri_template argument value.
End calls.

(** ** The invariant: distinct valid URIs, distinct templates, and every
    subscription names something the provider knows. *)

Definition wf_resources (p : ResourceProvider) : Prop :=
  NoDup (entry_names (resources p)) /\ Forall (fun e => looks_like_uri (res_uri e.1) = true) (resources p) /\
  NoDup (rt_uri_template <$> templates p) /\ (0 < resource_page_size p < modulus 64)%Z /\
  (forall uri, uri ∈ subscriptions p -> uri_known uri p = true).

Lemma existsb_template (t : ResourceTemplate) l :
  existsb (fun x => String.eqb (rt_uri_template x) (rt_uri_template t)) l = false ->
  NoDup (rt_uri_template <$> l) -> NoDup (rt_uri_template <$> l ++ [t]).
Proof.
  intros He Hl. rewrite fmap_app. apply NoDup_app. split; [done|]. split; [|apply NoDup_singleton].
  intros x (y & -> & Hy)%list_elem_of_fmap Hx%list_elem_of_singleton.
  assert (existsb (fun x => String.eqb (rt_uri_template x) (rt_uri_template t)) l = true); [|congruence].
  apply existsb_exists. exists y. split; [by apply list_elem_of_In|]. by apply String.eqb_eq.
Qed.

Lemma uri_known_mono uri (p p' : ResourceProvider) :
  resources p ⊆ resources p' -> templates p ⊆ templates p' -> uri_known uri p = true -> uri_known uri p' = true.
Proof.
  unfold uri_known. intros Hr Ht [H1|H1]%orb_true_iff; apply orb_true_iff; [left|right];
    apply existsb_exists in H1 as (x & Hx & Hm); apply existsb_exists; exists x; split; try done;
    apply list_elem_of_In; [apply Hr|apply Ht]; by apply list_elem_of_In.
Qed.

Lemma add_resource_wf r h p : wf_resources p -> wf_resources (add_resource r h p).1.1.
Proof.
  intros (H1 & H2 & H3 & H4 & H5). unfold add_resource.
  destruct (looks_like_uri (res_uri r)) eqn:Eu; [|done]. simpl. destruct (existsb _ _) eqn:Ee; [done|].
  split_and!; simpl; try done; try lia.
  - by apply entry_names_app.
  - apply Forall_app. split; [done|]. by apply Forall_singleton.
  - intros uri Hin. eapply uri_known_mono; [| |by apply H5]; simpl; [|done].
    intros x Hx. apply elem_of_app. by left.
Qed.

Lemma add_resource_template_wf t p : wf_resources p -> wf_resources (add_resource_template t p).1.1.
Proof.
  intros (H1 & H2 & H3 & H4 & H5). unfold add_resource_template. destruct (existsb _ _) eqn:Ee; [done|].
  split_and!; simpl; try done; try lia.
  - by apply existsb_template.
  - intros uri Hin. eapply uri_known_mono; [| |by apply H5]; simpl; [done|].
    intros x Hx. apply elem_of_app. by left.
Qed.

Lemma remove_resource_wf uri p : wf_resources p -> wf_resources (remove_resource uri p).1.1.
Proof.
  intros (H1 & H2 & H3 & H4 & H5). unfold remove_resource. destruct (find_if _ _); [|done].
  split_and!; simpl; try done; try lia.
  - by apply entry_names_erase.
  - rewrite Forall_forall in *. intros e He. apply H2. eapply elem_of_sublist; [exact He|].
    apply erase_first_sublist.
  - intros u [Hu Hne]%elem_of_difference. rewrite elem_of_singleton in Hne.
    specialize (H5 u Hu). unfold uri_known in *. apply orb_true_iff in H5. apply orb_true_iff.
    destruct H5 as [H5|H5]; [left|by right]. apply existsb_named in H5 as (e & -> & He)%list_elem_of_fmap.
    apply existsb_named. unfold entry_names. apply list_elem_of_fmap. exists e. split; [done|].
    apply (erase_named uri); [done|]. by split.
Qed.

Lemma subscribe_wf uri p : wf_resources p -> wf_resources (subscribe uri p).1.
Proof.
  intros (H1 & H2 & H3 & H4 & H5). unfold subscribe. destruct (uri_known uri p) eqn:Ek; [|done].
  split_and!; simpl; try done; try lia. intros u [->%elem_of_singleton|Hu]%elem_of_union; [done|]. by apply H5.
Qed.

Lemma unsubscribe_wf uri p : wf_resources p -> wf_resources (unsubscribe uri p).1.
Proof.
  intros (H1 & H2 & H3 & H4 & H5). split_and!; simpl; try done; try lia.
  intros u [Hu _]%elem_of_difference. by apply H5.
Qed.

(** The changes a provider goes through. *)
Inductive change :=
| AddResource (r : Resource) (h : option H)
| AddTemplate (t : ResourceTemplate)
| RemoveResource (uri : string)
| SetReadHandler (h : option H)
| Subscribe (uri : string)
| Unsubscribe (uri : string).

Definition apply_change (p : ResourceProvider) (c : change) : ResourceProvider :=
  match c with
  | AddResource r h => (add_resource r h p).1.1
  | AddTemplate t => (add_resource_template t p).1.1
  | RemoveResource uri => (remove_resource uri p).1.1
  | SetReadHandler h => set_read_handler h p
  | Subscribe uri => (subscribe uri p).1
  | Unsubscribe uri => (unsubscribe uri p).1
  end.

(** After any sequence of additions, removals and subscriptions, the URIs
    are valid and distinct, the templates distinct, and every subscription
    names a registered resource or matches a template. *)
Theorem resources_invariant changes : wf_resources (foldl apply_change empty_resources changes).
Proof.
  assert (forall p, wf_resources p -> wf_resources (foldl apply_change p changes)) as Hfold.
  { induction changes as [|c cs IH]; intros p Hp; simpl; [done|]. apply IH.
    destruct c; [by apply add_resource_wf|by apply add_resource_template_wf|by apply remove_resource_wf|done
      |by apply subscribe_wf|by apply unsubscribe_wf]. }
  apply Hfold. split_and!; try done; try constructor.
Qed.

Context {W : Type} (invoke : H -> string -> st W (Result ReadResourceResult)).

(** Reading resolves a URI in the documented order: a malformed URI is
    InvalidUri, an unknown one ResourceNotFound; a registered resource is read
    by its own handler or else the fallback, a URI that only matches a template
    by the fallback, and a missing handler is InternalError. *)
Theorem read_resource_spec uri p (w : W) :
  NoDup (entry_names (resources p)) ->
  (looks_like_uri uri = false ->
     read_resource invoke uri p w = (w, Val (Err (error InvalidUri ("invalid URI: " +:+ uri))))) /\
  (looks_like_uri uri = true ->
     (uri_known uri p = false ->
        read_resource invoke uri p w = (w, Val (Err (error ResourceNotFound ("resource not found: " +:+ uri))))) /\
     (forall r own handler,
        (r, own) ∈ resources p -> res_uri r = uri -> default (fallback_read p) (Some <$> own) = handler ->
        read_resource invoke uri p w =
          match handler with
          | Some h => catch (invoke h uri) (fun x => mret (Err (read_error x))) w
          | None => (w, Val (Err (error InternalError ("no read handler for resource: " +:+ uri))))
          end) /\
     ((uri ∉ entry_names (resources p)) -> (exists t, t ∈ templates p /\ template_matches uri t = true) ->
        read_resource invoke uri p w =
          match fallback_read p with
          | Some h => catch (invoke h uri) (fun x => mret (Err (read_error x))) w
          | None => (w, Val (Err (error InternalError ("no read handler for resource: " +:+ uri))))
          end)).
Proof.
  intros Hnd. unfold read_resource, resolve. split; [by intros ->|]. intros ->. simpl. split_and!.
  - unfold uri_known. intros [Hr Ht]%orb_false_iff. destruct (find_if (named uri) (resources p)) as [e|] eqn:E.
    + apply find_if_Some in E as [He Hn]. assert (existsb (named uri) (resources p) = true); [|congruence].
      apply existsb_exists. exists e. split; [by apply list_elem_of_In|done].
    + by rewrite Ht.
  - intros r own handler Hin Hu <-.
    assert (find_if (named uri) (resources p) = Some (r, own)) as -> by by apply find_named.
    destruct own as [h|]; simpl; [done|]. by destruct (fallback_read p).
  - intros Hn (t & Ht & Hm). destruct (find_if (named uri) (resources p)) as [e|] eqn:E.
    + apply (find_named uri) in E as [He <-]; [|done]. exfalso. apply Hn. unfold entry_names.
      apply list_elem_of_fmap. by exists e.
    + assert (existsb (template_matches uri) (templates p) = true) as ->; [|by destruct (fallback_read p)].
      apply existsb_exists. exists t. split; [by apply list_elem_of_In|done].
Qed.
End provider.
Arguments ResourceProvider : clear implicits.

Lemma Resource_roundtrip r : Resource_from_json (Resource_to_json r) = Val r.
Proof.
  destruct r as [uri name title description mime icons annotations].
  unfold Resource_from_json, Resource_to_json, described_to_json. json_lookup.
  read_optional JString "title" title. read_optional JString "description" description.
  read_optional JString "mimeType" mime. read_optional (list_to_json Icon_to_json) "icons" icons.
  by read_optional Annotations_to_json "annotations" annotations.
Qed.

Lemma ResourceTemplate_roundtrip t : ResourceTemplate_from_json (ResourceTemplate_to_json t) = Val t.
Proof.
  destruct t as [uri name title description mime icons annotations].
  unfold ResourceTemplate_from_json, ResourceTemplate_to_json, described_to_json. json_lookup.
  read_optional JString "title" title. read_optional JString "description" description.
  read_optional JString "mimeType" mime. read_optional (list_to_json Icon_to_json) "icons" icons.
  by read_optional Annotations_to_json "annotations" annotations.
Qed.

Module Sample.
Definition provider : ResourceProvider nat nat nat :=
  foldl apply_change empty_resources
    [AddTemplate (mkResourceTemplate "file:///{path}" "files" None None None None None); SetReadHandler (Some 1)].
Definition handler (h : nat) (uri : string) : st nat (Result ReadResourceResult) :=
  _ ← modify S; mret (Ok (mkReadResourceResult [mkResourceContents uri None None None])).
End Sample.

Lemma read_resource_spec_witness :
  read_resource Sample.handler "file:///a" Sample.provider 0 =
    (1, Val (Ok (mkReadResourceResult [mkResourceContents "file:///a" None None None]))).
Proof.
  destruct (read_resource_spec Sample.handler "file:///a" Sample.provider 0) as [_ H]; [apply NoDup_nil; exact I|].
  destruct (H eq_refl) as (_ & _ & Ht). refine (eq_trans (Ht _ _) eq_refl).
  - apply not_elem_of_nil.
  - eexists. split; [apply list_elem_of_singleton; reflexivity|]. vm_compute. reflexivity.
Defined.
