(* ===== verification/Logging.v ===== *)
(** * Client-visible logging

    include/mcp/server/logging.hpp and src/server/logging.cpp: log messages
    become notifications when they reach the level the client asked for. *)

From S2P Require Import Prelude Json Core Message State.

Inductive LoggingLevel : Set := Debug | Info | Notice | Warning | LError | Critical | Alert | Emergency.

(** The enumerators' values, in increasing severity. *)
Definition severity (l : LoggingLevel) : Z :=
  match l with
  | Debug => 0 | Info => 1 | Notice => 2 | Warning => 3 | LError => 4 | Critical => 5 | Alert => 6 | Emergency => 7
  end.

Definition logging_level_to_string (l : LoggingLevel) : string :=
  match l with
  | Debug => "debug" | Info => "info" | Notice => "notice" | Warning => "warning" | LError => "error"
  | Critical => "critical" | Alert => "alert" | Emergency => "emergency"
  end.

Definition logging_level_from_string (name : string) : option LoggingLevel :=
  if String.eqb name "debug" then Some Debug
  else if String.eqb name "info" then Some Info
  else if String.eqb name "notice" then Some Notice
  else if String.eqb name "warning" then Some Warning
  else if String.eqb name "error" then Some LError
  else if String.eqb name "critical" then Some Critical
  else if String.eqb name "alert" then Some Alert
  else if String.eqb name "emergency" then Some Emergency
  else None.

(** [E] names the emitter. *)
Record Logger (E : Type) := mkLogger { level : LoggingLevel; emitter : option E }.
Arguments mkLogger {E}.
Arguments level {E}.
Arguments emitter {E}.

Definition new_logger {E} : Logger E := mkLogger Info None.
Definition set_emitter {E} (e : option E) (l : Logger E) : Logger E := mkLogger (level l) e.
Definition set_level {E} (x : LoggingLevel) (l : Logger E) : Logger E := mkLogger x (emitter l).

Definition log_params (x : LoggingLevel) (data : json) (logger_name : option string) : json :=
  JObject (set_optional JString "logger" logger_name
    (make_object [("level", JString (logging_level_to_string x)); ("data", data)])).

(** The call of the emitter that [log] makes, if any. *)
Definition log_call {E} (x : LoggingLevel) (data : json) (logger_name : option string) (l : Logger E)
  : option (E * json) :=
  if (severity x <? severity (level l))%Z then None
  else match emitter l with
       | None => None
       | Some e => Some (e, log_params x data logger_name)
       end.

Lemma level_roundtrip x : logging_level_from_string (logging_level_to_string x) = Some x.
Proof. by destruct x. Qed.

Lemma log_call_spec {E} x data name (l : Logger E) e params :
  log_call x data name l = Some (e, params) <->
  (severity (level l) <= severity x)%Z /\ emitter l = Some e /\ params = log_params x data name.
Proof.
  unfold log_call. destruct (Z.ltb_spec (severity x) (severity (level l))) as [Hlt|Hle].
  - split; [done|]. intros [H _]. lia.
  - destruct (emitter l); split; [by intros [= <- <-]|by intros (_ & [= <-] & ->)|done|by intros (_ & ? & _)].
Qed.
