(* ===== verification/Server.v ===== *)
(** * The server

    include/mcp/server/server.hpp and src/server/server.cpp: the registries of
    one server, the request handlers it installs on every attached session and
    the notifications it broadcasts to them.

    The class [Sessions] is what the server needs of the sessions it was
    handed by reference: their state, their router and a way to notify them. *)

From S2P Require Import Prelude Json Core Types Message Content Schema Protocol State Router Session Pagination.
From S2P Require Import Registry ToolRegistry PromptProvider ResourceProvider Logging.

(** ** Parameters of requests *)

Definition parse_cursor (params : option json) : Result (option string) :=
  match params with
  | None => Ok None
  | Some p =>
      match jfind "cursor" p with
      | None => Ok None
      | Some (JString s) => Ok (Some s)
      | Some _ => Err (error PaginationError "cursor must be a string")
      end
  end.

Definition require_string (params : option json) (key : string) : Result string :=
  match params ≫= jfind key with
  | Some (JString s) => Ok s
  | _ => Err (error InvalidParams ("missing required string param '" +:+ key +:+ "'"))
  end.

Definition page_to_json {A} (to_json : A -> json) (page : Page A) (items_key : string) : json :=
  JObject (set_optional JString "nextCursor" (next_cursor page)
             (make_object [(items_key, list_to_json to_json (page_items page))])).

Definition int_json (z : Z) : json := JInt z.

Definition CompleteResult_to_json (r : CompleteResult) : json :=
  JObject (make_object
    [("completion",
      JObject (set_optional JBool "hasMore" (cr_has_more r)
        (set_optional int_json "total" (cr_total r)
          (make_object [("values", JArray (JString <$> take 100 (cr_values r)))]))))]).

(** ** State *)

(** The lambdas [attach] installs on a session's router. *)
Inductive ServerHandler : Set :=
| HToolsList | HToolsCall | HResourcesList | HResourcesTemplatesList | HResourcesRead
| HResourcesSubscribe | HResourcesUnsubscribe | HPromptsList | HPromptsGet | HLoggingSetLevel
| HCompletionComplete.

(** The lambdas it installs on the registries and on the logger. *)
Inductive Changed : Set := ToolsChanged | ResourcesChanged | PromptsChanged.
Inductive Emitter : Set := EmitMessage.

Section server.
(** Names of the application's tool, read, prompt and completion functions,
    and of the session objects. *)
Context {HT HR HP K SId : Type} `{!EqDecision SId}.

Record Server := mkServer {
  srv_info : Implementation;
  srv_instructions : option string;
  srv_allow_reinitialize : bool;
  srv_tools : ToolRegistry HT Changed;
  srv_resources : ResourceProvider HR Changed K;
  srv_prompts : PromptProvider HP Changed K;
  srv_logger : Logger Emitter;
  srv_sessions : list SId;
}.

Definition make_server (name version : string) : Server :=
  mkServer (mkImplementation name None version) None false empty_tools empty_resources empty_prompts new_logger [].

Definition with_tools (t : ToolRegistry HT Changed) (s : Server) : Server :=
  mkServer (srv_info s) (srv_instructions s) (srv_allow_reinitialize s) t (srv_resources s) (srv_prompts s)
    (srv_logger s) (srv_sessions s).
Definition with_resources (r : ResourceProvider HR Changed K) (s : Server) : Server :=
  mkServer (srv_info s) (srv_instructions s) (srv_allow_reinitialize s) (srv_tools s) r (srv_prompts s)
    (srv_logger s) (srv_sessions s).
Definition with_prompts (p : PromptProvider HP Changed K) (s : Server) : Server :=
  mkServer (srv_info s) (srv_instructions s) (srv_allow_reinitialize s) (srv_tools s) (srv_resources s) p
    (srv_logger s) (srv_sessions s).
Definition with_logger (l : Logger Emitter) (s : Server) : Server :=
  mkServer (srv_info s) (srv_instructions s) (srv_allow_reinitialize s) (srv_tools s) (srv_resources s)
    (srv_prompts s) l (srv_sessions s).
Definition with_sessions (l : list SId) (s : Server) : Server :=
  mkServer (srv_info s) (srv_instructions s) (srv_allow_reinitialize s) (srv_tools s) (srv_resources s)
    (srv_prompts s) (srv_logger s) l.

Definition set_instructions (i : string) (s : Server) : Server :=
  mkServer (srv_info s) (Some i) (srv_allow_reinitialize s) (srv_tools s) (srv_resources s) (srv_prompts s)
    (srv_logger s) (srv_sessions s).
Definition set_allow_reinitialize (b : bool) (s : Server) : Server :=
  mkServer (srv_info s) (srv_instructions s) b (srv_tools s) (srv_resources s) (srv_prompts s)
    (srv_logger s) (srv_sessions s).

Record ToolSpec := mkToolSpec {
  ts_title : option string;
  ts_description : option string;
  ts_input_schema : json;
  ts_output_schema : option json;
  ts_handler : option HT;
}.

Definition capabilities (s : Server) : ServerCapabilities :=
  mkServerCaps (Some tt)
    (if 0 <? prompt_count (srv_prompts s) then Some (mkPromptsCap (Some true)) else None)
    (if (0 <? resource_count (srv_resources s)) || (0 <? template_count (srv_resources s))
     then Some (mkResourcesCap (Some true) (Some true)) else None)
    (if 0 <? tool_count (srv_tools s) then Some (mkToolsCap (Some true)) else None)
    (if prompt_has_completions (srv_prompts s) || resource_has_completions (srv_resources s) then Some tt else None)
    None None.

Definition server_options (s : Server) : ServerOptions :=
  mkServerOptions (srv_info s) (capabilities s) (srv_instructions s) [kProtocolVersion] (srv_allow_reinitialize s).

Definition the_session (s : Server) : option SId :=
  match srv_sessions s with [x] => Some x | _ => None end.

Definition detach (sid : SId) (s : Server) : Server :=
  with_sessions (filter (fun x => x <> sid) (srv_sessions s)) s.

(** The handlers [attach] registers, in order. *)
Definition handler_table : list (string * ServerHandler) :=
  [(kToolsList, HToolsList); (kToolsCall, HToolsCall);
   (kResourcesList, HResourcesList); (kResourcesTemplatesList, HResourcesTemplatesList);
   (kResourcesRead, HResourcesRead); (kResourcesSubscribe, HResourcesSubscribe);
   (kResourcesUnsubscribe, HResourcesUnsubscribe);
   (kPromptsList, HPromptsList); (kPromptsGet, HPromptsGet);
   (kLoggingSetLevel, HLoggingSetLevel); (kCompletionComplete, HCompletionComplete)].

Definition install {V C} (r : Router (request_closure ServerHandler) V C) : Router (request_closure ServerHandler) V C :=
  foldl (fun r entry => set_request_handler entry.1 (RUser entry.2) r) r handler_table.

(** ** What the server needs of the rest of the program *)

Class Sessions (W : Type) := {
  server_of : W -> Server;
  set_server : Server -> W -> W;
  session_state : SId -> W -> SessionState;
  session_notify : SId -> string -> option json -> st W unit;
  install_on : SId -> W -> W;
  create_session : ServerOptions -> st W SId;
  connect_session : SId -> st W unit;
  destroy_session : SId -> st W unit;
  invoke_tool : HT -> json -> st W CallToolResult;
  invoke_read : HR -> string -> st W (Result ReadResourceResult);
  invoke_prompt : HP -> json -> st W (Result GetPromptResult);
  invoke_complete : K -> string -> st W CompleteResult;
}.

Context {W : Type} `{!Sessions W} `{!JsonText}.

Definition on_server (f : Server -> Server) : st W unit := modify (fun w => set_server (f (server_of w)) w).

(** ** Notifications *)

Definition send_notification_if_operating (method : string) (params : option json) : st W unit :=
  sids ← gets (fun w => srv_sessions (server_of w));
  for_each (fun sid =>
              current ← gets (session_state sid);
              if bool_decide (current = Operating) then session_notify sid method params else skip) sids.

Definition changed_method (c : Changed) : string :=
  match c with
  | ToolsChanged => kNotificationToolsListChanged
  | ResourcesChanged => kNotificationResourcesListChanged
  | PromptsChanged => kNotificationPromptsListChanged
  end.

Definition run_changed (c : option Changed) : st W unit :=
  match c with Some c => send_notification_if_operating (changed_method c) None | None => skip end.

Definition notify_resource_updated (uri : string) : st W unit :=
  s ← gets server_of;
  if is_subscribed uri (srv_resources s)
  then send_notification_if_operating kNotificationResourcesUpdated
         (Some (JObject (make_object [("uri", JString uri)])))
  else skip.

Definition log_message (x : LoggingLevel) (data : json) (logger_name : option string) : st W unit :=
  s ← gets server_of;
  match log_call x data logger_name (srv_logger s) with
  | Some (EmitMessage, params) => send_notification_if_operating kNotificationMessage (Some params)
  | None => skip
  end.

(** ** Registration *)

(** [ToolRegistry::register_tool] on the server's registry, with its changed
    callback. *)
Definition add_tool (tool : Tool) (handler : option HT) : st W (Result unit) :=
  s ← gets server_of;
  let '(t, r, c) := ToolRegistry.register_tool tool handler (srv_tools s) in
  _ ← on_server (with_tools t);
  _ ← run_changed c;
  mret r.

Definition server_register_tool (name : string) (spec : ToolSpec) : st W (Result unit) :=
  add_tool (mkTool name (ts_title spec) (ts_description spec) None (ts_input_schema spec) (ts_output_schema spec)
              None None) (ts_handler spec).

Definition attach (sid : SId) : st W unit :=
  _ ← on_server (fun s => if bool_decide (sid ∈ srv_sessions s) then s
                          else with_sessions (srv_sessions s ++ [sid]) s);
  _ ← modify (install_on sid);
  on_server (fun s => with_logger (set_emitter (Some EmitMessage) (srv_logger s))
    (with_prompts (set_prompt_changed_callback (Some PromptsChanged) (srv_prompts s))
    (with_resources (set_resource_changed_callback (Some ResourcesChanged) (srv_resources s))
    (with_tools (set_tool_changed_callback (Some ToolsChanged) (srv_tools s)) s)))).

(** [run]: between the two halves the caller waits for the close callback; the
    session is destroyed when [run] returns. *)
Definition run_begin : st W SId :=
  s ← gets server_of;
  sid ← create_session (server_options s);
  _ ← attach sid;
  _ ← connect_session sid;
  mret sid.

Definition run_end (sid : SId) : st W Z :=
  _ ← on_server (detach sid);
  _ ← destroy_session sid;
  mret 0%Z.

(** ** Request handlers *)

(** [auto r = m; if (!r) return r.error();] *)
Definition try {A B} (m : st W (Result A)) (k : A -> st W (Result B)) : st W (Result B) :=
  r ← m; match r with Ok a => k a | Err e => mret (Err e) end.

Definition empty_result : Result json := Ok (JObject []).

Definition arguments_of (params : option json) : json :=
  default (JObject []) (params ≫= jfind "arguments").

Definition list_handler {A} (list : option string -> Server -> outcome (Result (Page A)))
    (to_json : A -> json) (key : string) (params : option json) : st W (Result json) :=
  try (mret (parse_cursor params)) (fun cursor =>
  s ← gets server_of;
  try (lift (list cursor s)) (fun page => mret (Ok (page_to_json to_json page key)))).

Definition malformed_completion : Result json :=
  Err (error InvalidParams "malformed completion reference or argument").

Definition handle_complete (params : option json) : st W (Result json) :=
  match params ≫= jfind "ref", params ≫= jfind "argument" with
  | Some ref, Some argument =>
      match jfind "type" ref, jfind "name" argument, jfind "value" argument with
      | Some type_v, Some name_v, Some value_v =>
          type ← lift (get_string type_v);
          arg_name ← lift (get_string name_v);
          arg_value ← lift (get_string value_v);
          s ← gets server_of;
          let answer r := mret (Ok (CompleteResult_to_json (default (mkCompleteResult [] None None) r))) in
          match (String.eqb type "ref/prompt"), jfind "name" ref,
                (String.eqb type "ref/resource"), jfind "uri" ref with
          | true, Some ref_name, _, _ =>
              name ← lift (get_string ref_name);
              r ← complete_prompt invoke_complete name arg_name arg_value (srv_prompts s);
              answer r
          | _, _, true, Some ref_uri =>
              uri ← lift (get_string ref_uri);
              r ← complete_resource invoke_complete uri arg_name arg_value (srv_resources s);
              answer r
          | _, _, _, _ => mret (Err (error InvalidParams ("unknown completion reference type: " +:+ type)))
          end
      | _, _, _ => mret malformed_completion
      end
  | _, _ => mret (Err (error InvalidParams "completion/complete requires ref and argument"))
  end.

Definition serve (h : ServerHandler) (params : option json) : st W (Result json) :=
  match h with
  | HToolsList => list_handler (fun c s => list_tools c (srv_tools s)) Tool_to_json "tools" params
  | HToolsCall =>
      try (mret (require_string params "name")) (fun name =>
      s ← gets server_of;
      try (call_tool invoke_tool name (arguments_of params) (srv_tools s)) (fun r =>
      mret (Ok (CallToolResult_to_json r))))
  | HResourcesList => list_handler (fun c s => list_resources c (srv_resources s)) Resource_to_json "resources" params
  | HResourcesTemplatesList =>
      list_handler (fun c s => list_resource_templates c (srv_resources s)) ResourceTemplate_to_json
        "resourceTemplates" params
  | HResourcesRead =>
      try (mret (require_string params "uri")) (fun uri =>
      s ← gets server_of;
      try (read_resource invoke_read uri (srv_resources s)) (fun r =>
      mret (Ok (ReadResourceResult_to_json r))))
  | HResourcesSubscribe =>
      try (mret (require_string params "uri")) (fun uri =>
      s ← gets server_of;
      let '(p, r) := subscribe uri (srv_resources s) in
      _ ← on_server (with_resources p);
      try (mret r) (fun _ => mret empty_result))
  | HResourcesUnsubscribe =>
      try (mret (require_string params "uri")) (fun uri =>
      _ ← on_server (fun s => with_resources (unsubscribe uri (srv_resources s)).1 s);
      mret empty_result)
  | HPromptsList => list_handler (fun c s => list_prompts c (srv_prompts s)) Prompt_to_json "prompts" params
  | HPromptsGet =>
      try (mret (require_string params "name")) (fun name =>
      s ← gets server_of;
      try (get_prompt invoke_prompt name (arguments_of params) (srv_prompts s)) (fun r =>
      mret (Ok (GetPromptResult_to_json r))))
  | HLoggingSetLevel =>
      try (mret (require_string params "level")) (fun level_name =>
      match logging_level_from_string level_name with
      | None => mret (Err (error InvalidParams ("unknown logging level: " +:+ level_name)))
      | Some l =>
          _ ← on_server (fun s => with_logger (set_level l (srv_logger s)) s);
          mret empty_result
      end)
  | HCompletionComplete => handle_complete params
  end.

(** Notifying a session touches neither the server nor any session's state. *)
Class SessionsLaws : Prop := {
  notify_state sid method params w sid' :
    session_state sid' (session_notify sid method params w).1 = session_state sid' w;
}.
End server.
Arguments Server : clear implicits.
Arguments Sessions HT HR HP K SId W : clear implicits.

(** ** Properties *)

Section facts.
Context {HT HR HP K SId : Type} `{!EqDecision SId} {W : Type} `{!Sessions HT HR HP K SId W}.

Lemma broadcast_list `{!SessionsLaws} method params sids (w w0 : W) :
  (forall sid, session_state sid w = session_state sid w0) ->
  for_each (fun sid => current ← gets (session_state sid);
                       if bool_decide (current = Operating) then session_notify sid method params else skip)
    sids w =
  for_each (fun sid => session_notify sid method params) (filter (fun sid => session_state sid w0 = Operating) sids) w.
Proof.
  revert w. induction sids as [|sid sids IH]; intros w Hw; [done|].
  cbn [for_each]. rewrite filter_cons. unfold mbind, st_bind, gets. rewrite Hw.
  destruct (decide (session_state sid w0 = Operating)) as [E|E].
  - rewrite bool_decide_eq_true_2 by done. cbn [for_each]. unfold mbind, st_bind.
    pose proof (notify_state sid method params w) as Hn.
    destruct (session_notify sid method params w) as [w1 [a|x|]]; [|done|done].
    apply IH. intros sid'. rewrite <- Hw. apply Hn.
  - rewrite bool_decide_eq_false_2 by done. unfold skip. by apply IH.
Qed.

(** A broadcast notifies exactly the attached sessions that are Operating,
    in the order they were attached. *)
Theorem broadcast_spec `{!SessionsLaws} method params (w : W) :
  send_notification_if_operating method params w =
  for_each (fun sid => session_notify sid method params)
    (filter (fun sid => session_state sid w = Operating) (srv_sessions (server_of w))) w.
Proof. unfold send_notification_if_operating. run. by apply broadcast_list. Qed.

(** At most 100 completion values reach the client, the first ones the
    callback produced. *)
Theorem complete_result_limit r :
  exists c values, jfind "completion" (CompleteResult_to_json r) = Some c /\
    jfind "values" c = Some (JArray (JString <$> values)) /\ length values <= 100 /\
    values = take 100 (cr_values r).
Proof.
  eexists _, (take 100 (cr_values r)). split; [reflexivity|]. split; [|split; [|done]].
  - unfold jfind. cbn [snd]. by autorewrite with json.
  - rewrite length_take. lia.
Qed.

(** The capabilities declared at the time a session is created decide which
    methods its gate lets through. *)
Lemma declared_iff {A} (b : bool) (a : A) : declared (if b then Some a else None) = b.
Proof. by destruct b. Qed.

Lemma prefix_empty s : String.prefix EmptyString s = true.
Proof. by destruct s. Qed.

(** A session created from a server's options answers tools/ requests when
    a tool is registered and rejects them otherwise; the same for resources/
    and prompts/, and logging/ is always open. *)
Theorem capabilities_gate (srv : Server HT HR HP K SId) method :
  method <> kInitialize -> method <> kPing ->
  let check := check_incoming_request (ServerSession (server_options srv)) Operating method in
  (starts_with "tools/" method = true -> (check = None <-> 0 < tool_count (srv_tools srv))) /\
  (starts_with "resources/" method = true ->
     (check = None <-> 0 < resource_count (srv_resources srv) + template_count (srv_resources srv))) /\
  (starts_with "prompts/" method = true -> (check = None <-> 0 < prompt_count (srv_prompts srv))) /\
  (starts_with "logging/" method = true -> check = None).
Proof.
  intros Hi Hp check.
  assert (check = gate (server_gates (server_options srv)) method) as ->.
  { unfold check. simpl. by rewrite (proj2 (String.eqb_neq _ _) Hi), (proj2 (String.eqb_neq _ _) Hp). }
  unfold gate, server_gates. cbn [so_capabilities server_options capabilities sc_tools sc_resources sc_prompts
    sc_logging sc_completions sc_tasks]. rewrite !declared_iff. unfold starts_with.
  split_and!; intros Hm; apply prefix_true in Hm; rewrite Hm; cbn [find_if String.prefix fst snd];
    change (declared (Some ())) with true; simpl;
    rewrite ?prefix_empty; cbn [andb].
  - destruct (Nat.ltb_spec 0 (tool_count (srv_tools srv))); simpl; split; done || lia.
  - destruct (Nat.ltb_spec 0 (resource_count (srv_resources srv))),
      (Nat.ltb_spec 0 (template_count (srv_resources srv))); simpl; split; done || lia.
  - destruct (Nat.ltb_spec 0 (prompt_count (srv_prompts srv))); simpl; split; done || lia.
  - done.
Qed.
End facts.
