(* ===== verification/Program.v ===== *)
(** * A server on one session

    [Server::run] (src/server/server.cpp) as a whole program: one session over
    a base transport [T], whose closures are the server's handlers.  The
    session's outside world is the base transport together with the server;
    [single] discharges the interface [Sessions] with the operations of
    Session.v, and [application] closes the loop by making the session run the
    server's handlers. *)

From S2P Require Import Prelude Json Core Types Message Content Schema Protocol State Router Session SessionFacts.
From S2P Require Import Pagination Registry ToolRegistry PromptProvider ResourceProvider Logging Server.

(** A transport paired with something else. *)
#[export] Instance paired_transport {T A : Type} `{!Transport T} : Transport (T * A) := {|
  t_connect := zoom fst (fun t w => (t, w.2)) t_connect;
  t_disconnect := zoom fst (fun t w => (t, w.2)) t_disconnect;
  t_send m := zoom fst (fun t w => (t, w.2)) (t_send m);
  t_send_batch ms := zoom fst (fun t w => (t, w.2)) (t_send_batch ms);
|}.

Section program.
Context {T HT HR HP K V C : Type} `{!Transport T} `{!JsonText}.
#[local] Abbreviation server := (Server HT HR HP K unit).
#[local] Abbreviation world := (Session (T * server) ServerHandler V C).

(** What the application's functions do to the world. *)
Context (tool_fn : HT -> json -> st world CallToolResult).
Context (read_fn : HR -> string -> st world (Result ReadResourceResult)).
Context (prompt_fn : HP -> json -> st world (Result GetPromptResult)).
Context (complete_fn : K -> string -> st world CompleteResult).
Context (notification_fn : V -> option json -> st world unit).
Context (response_fn : C -> Result json -> st world unit).
Context (progress_fn : C -> ProgressNotification -> st world unit).
Context (close_fn : C -> st world unit).
Context (error_fn : C -> Error -> st world unit).

Definition put_server (srv : server) (w : world) : world := set_transport ((transport w).1, srv) w.

#[local] Instance single : Sessions HT HR HP K unit world := {|
  server_of w := (transport w).2;
  set_server := put_server;
  session_state _ w := state w;
  session_notify _ method params := send_notification method params;
  install_on _ w := set_router (install (session_router w)) w;
  create_session o := modify (fun w => make_session (ServerSession o) (transport w));
  connect_session _ := Session.connect;
  destroy_session _ := Session.destroy;
  invoke_tool := tool_fn;
  invoke_read := read_fn;
  invoke_prompt := prompt_fn;
  invoke_complete := complete_fn;
|}.

#[local] Instance application : Application (T * server) ServerHandler V C := {|
  app_request h params := serve h params;
  app_notification := notification_fn;
  app_response := response_fn;
  app_progress := progress_fn;
  app_close := close_fn;
  app_error := error_fn;
|}.

#[local] Instance single_laws : SessionsLaws (W := world).
Proof.
  split. intros sid method params w sid'. cbn [session_notify session_state single].
  unfold send_notification, send_message, emit. rewrite (st_bind_val _ _ _ (log (Sent _) w) tt) by done.
  unfold on_transport, zoom. by destruct (t_send _ _).
Qed.

(** What the server's handler does, an exception being an error. *)
Definition run_handler (h : ServerHandler) (params : option json) : st world (Result json) :=
  catch (serve h params) (fun x => mret (Err (error_of x))).

(** ** The handler table *)

Lemma find_set_request_handler {R N L} (r : Router R N L) k k' h :
  is_wildcard k' = false ->
  find_request_handler k (set_request_handler k' h r) =
    if bool_decide (k = k') then Some h else find_request_handler k r.
Proof.
  intros Hw. unfold find_request_handler, set_request_handler. rewrite Hw. simpl. case_bool_decide as E.
  - subst. by rewrite lookup_insert_eq.
  - by rewrite lookup_insert_ne.
Qed.

Lemma install_lookup {N L} (r : Router (request_closure ServerHandler) N L) method h :
  (method, h) ∈ handler_table -> find_request_handler method (install r) = Some (RUser h).
Proof.
  intros Hin. unfold install. cbn [foldl handler_table fst snd].
  rewrite !find_set_request_handler by reflexivity.
  unfold handler_table in Hin.
  repeat (apply elem_of_cons in Hin as [[= -> ->]|Hin]; [reflexivity|]). by apply not_elem_of_nil in Hin.
Qed.

(** ** Requests reach the server's handlers *)

Definition accepted (o : ServerOptions) (method : string) : Prop :=
  forall prefix b, (prefix, b) ∈ server_gates o -> starts_with prefix method = true -> b = true.

Lemma handle_request_serve now o r id method h params (w : world) :
  kind w = ServerSession o -> state w = Operating -> accepted o method ->
  method <> kInitialize -> method <> kPing ->
  session_router w = install r -> (method, h) ∈ handler_table ->
  handle_message now (MRequest (mkRequest id method params)) w =
    (result ← run_handler h params; send_message (MResponse (response_of id result))) w.
Proof.
  intros Hk Hs Hg Hi Hp Hr Hh. unfold handle_message. cbn [req_method req_id].
  rewrite (proj2 (String.eqb_neq _ _) Hi). rewrite (st_bind_val _ _ _ w tt) by done.
  assert (check_incoming_request (kind w) (state w) method = None) as Hcheck.
  { rewrite Hk, Hs. simpl. rewrite (proj2 (String.eqb_neq _ _) Hi), (proj2 (String.eqb_neq _ _) Hp). simpl.
    pose proof (gate_spec (server_gates o) method) as Hspec. destruct (gate _ method) as [e|]; [|done].
    destruct Hspec as (_ & prefix & Hin & Hpre). by specialize (Hg prefix false Hin Hpre). }
  rewrite (st_bind_val _ _ _ w None) by (unfold gets; by rewrite Hcheck).
  unfold dispatch. cbn [req_method req_params req_id]. unfold gets.
  run. cbn [Router.router owner]. rewrite Hr, (install_lookup r method h Hh).
  cbn [call_request owner run_request app_request application].
  unfold run_handler, catch. run. destruct (serve h params w) as [w' [x|x|]]; reflexivity.
Qed.

Lemma serve_tools_call name arguments tool h (w : world) :
  NoDup (entry_names (tools (srv_tools (server_of w)))) ->
  (tool, h) ∈ tools (srv_tools (server_of w)) -> tool_name tool = name ->
  conforms arguments (input_schema tool) ->
  serve HToolsCall (Some (JObject [("arguments", arguments); ("name", JString name)])) w =
  let '(w', result) := tool_fn h arguments w in
  (w', match result with
       | Val x => Val (Ok (CallToolResult_to_json x))
       | Throw x => Val (Ok (CallToolResult_to_json (failed (what x))))
       | Undefined => Undefined
       end).
Proof.
  intros Hnd Hin Hname Hc.
  unfold serve, try. run. cbn [require_string mbind option_bind jfind obj_find String.eqb Ascii.eqb Bool.eqb arguments_of default].
  unfold call_tool.
  assert (find_if (named name) (tools (srv_tools (server_of w))) = Some (tool, h)) as -> by by apply find_named.
  unfold validate_schema, Datatypes.id. run. apply (validate_at_conforms _ _ EmptyString) in Hc. rewrite Hc.
  cbn [invoke_tool single]. by destruct (tool_fn h arguments w) as [w' [x|x|]].
Qed.

(** End to end: once the handshake is over, a tools/call request for a
    registered tool with conforming arguments runs that tool's function on
    those arguments, and the session sends one response with the id of the
    request and the result; an exception of the function becomes a result
    marked as an error. *)
Theorem tools_call_end_to_end now o r id name arguments tool h (w : world) :
  kind w = ServerSession o -> state w = Operating -> accepted o kToolsCall ->
  session_router w = install r ->
  NoDup (entry_names (tools (srv_tools (server_of w)))) ->
  (tool, h) ∈ tools (srv_tools (server_of w)) -> tool_name tool = name ->
  conforms arguments (input_schema tool) ->
  handle_message now
    (MRequest (mkRequest id kToolsCall (Some (JObject [("arguments", arguments); ("name", JString name)])))) w =
  let '(w', result) := tool_fn h arguments w in
  let answer x := send_message (MResponse (mkResponse (Some id) (Some (CallToolResult_to_json x)) None)) w' in
  match result with
  | Val x => answer x
  | Throw x => answer (failed (what x))
  | Undefined => (w', Undefined)
  end.
Proof.
  intros Hk Hs Hg Hr Hnd Hin Hname Hc.
  rewrite (handle_request_serve now o r id kToolsCall HToolsCall); try done.
  2:{ right. left. }
  unfold run_handler. run. rewrite (serve_tools_call name arguments tool h w Hnd Hin Hname Hc).
  by destruct (tool_fn h arguments w) as [w' [x|x|]].
Qed.
End program.

(** ** A concrete program

    A server with one tool, over a wire that records what is sent. *)
Module Sample.
Definition server : Type := Server nat nat nat nat unit.
Definition world : Type := Session (Demo.wire * server) ServerHandler nat nat.

Definition echo : Tool := mkTool "echo" None None None object_schema None None None.

Definition initial_server : server :=
  let s := make_server "sample" "1.0" in with_tools (register_tool echo (Some 1) (srv_tools s)).1.1 s.

Definition tool_fn (h : nat) (arguments : json) : st world CallToolResult :=
  mret (mkCallToolResult [text_content "done"] false).

Definition start : world :=
  make_session (ServerSession (server_options initial_server)) ([], initial_server).

(** An operating session with the handlers installed. *)
Definition operating : world := set_state Operating (set_router (install (session_router start)) start).
End Sample.

#[local] Existing Instance BitText.text.

Lemma tools_call_end_to_end_witness :
  let w := Sample.operating in
  let app := application Sample.tool_fn (fun _ _ => lift Undefined) (fun _ _ => lift Undefined)
               (fun _ _ => lift Undefined) (fun _ _ => skip) (fun _ _ => skip) (fun _ _ => skip) (fun _ => skip)
               (fun _ _ => skip) in
  (handle_message (Application0 := app) 0
     (MRequest (mkRequest (IdInt 9) kToolsCall
                  (Some (JObject [("arguments", JObject []); ("name", JString "echo")])))) w).1 =
  (send_message (T := Demo.wire * Sample.server)
     (MResponse (mkResponse (Some (IdInt 9))
                   (Some (CallToolResult_to_json (mkCallToolResult [text_content "done"] false))) None)) w).1.
Proof.
  intros w app. refine (f_equal fst _).
  refine (eq_trans (tools_call_end_to_end Sample.tool_fn _ _ _ _ _ _ _ _ 0 (server_options Sample.initial_server)
            (session_router Sample.start) (IdInt 9) "echo" (JObject []) Sample.echo 1 w
            eq_refl eq_refl _ eq_refl _ _ eq_refl _) eq_refl).
  - intros prefix b Hin Hpre.
    repeat (apply elem_of_cons in Hin as [[= -> ->]|Hin]; [try reflexivity; discriminate|]).
    by apply not_elem_of_nil in Hin.
  - apply NoDup_singleton.
  - apply list_elem_of_singleton. reflexivity.
  - apply (validate_at_conforms _ _ EmptyString). vm_compute. reflexivity.
Defined.

Lemma broadcast_spec_witness :
  let single := single Sample.tool_fn (fun _ _ => lift Undefined) (fun _ _ => lift Undefined)
                  (fun _ _ => lift Undefined) in
  let attached := put_server (with_sessions [tt] Sample.initial_server) Sample.operating in
  send_notification_if_operating (Sessions0 := single) "notifications/tools/list_changed" None attached =
  send_notification "notifications/tools/list_changed" None attached.
Proof.
  intros single attached.
  exact (@broadcast_spec nat nat nat nat unit _ single
           (single_laws Sample.tool_fn (fun _ _ => lift Undefined) (fun _ _ => lift Undefined)
              (fun _ _ => lift Undefined)) "notifications/tools/list_changed" None attached).
Defined.

Lemma capabilities_gate_witness :
  check_incoming_request (ServerSession (server_options Sample.initial_server)) Operating kToolsCall = None.
Proof.
  apply (proj1 (capabilities_gate Sample.initial_server kToolsCall ltac:(discriminate) ltac:(discriminate)) eq_refl).
  apply Nat.lt_0_1.
Defined.
