(* ===== verification/Sampling.v ===== *)
(** * Sampling

    include/mcp/client/sampling.hpp and src/client/sampling.cpp: the messages of
    sampling/createMessage, and the loop by which a server lets the client's
    model use tools. *)

From S2P Require Import Prelude Json Core Message Content State Registry.

(** ** Messages *)

Record SamplingMessage := mkSamplingMessage { sm_role : Role; sm_content : Content }.

Definition SamplingMessage_to_json (m : SamplingMessage) : json :=
  JObject (make_object [("role", JString (role_to_string (sm_role m))); ("content", content_to_json (sm_content m))]).

(** A content that does not parse is thrown as a [JsonRpcError]. *)
Definition SamplingMessage_from_json (j : json) : outcome SamplingMessage :=
  role_v ← at_key "role" j;
  role ← get_string role_v;
  content_v ← at_key "content" j;
  content ← content_from_json content_v;
  match content with
  | Ok c => Val (mkSamplingMessage (default User (role_from_string role)) c)
  | Err e => Throw (ExnMcp e)
  end.

Record ModelHint := mkModelHint { mh_name : string }.

Definition ModelHint_to_json (h : ModelHint) : json := JObject (make_object [("name", JString (mh_name h))]).
Definition ModelHint_from_json (j : json) : outcome ModelHint :=
  name_v ← at_key "name" j; name ← get_string name_v; Val (mkModelHint name).

Record ModelPreferences := mkModelPreferences {
  mp_hints : option (list ModelHint);
  cost_priority : option double;
  speed_priority : option double;
  intelligence_priority : option double;
}.

Definition ModelPreferences_to_json (p : ModelPreferences) : json :=
  JObject (set_optional JFloat "intelligencePriority" (intelligence_priority p)
    (set_optional JFloat "speedPriority" (speed_priority p)
    (set_optional JFloat "costPriority" (cost_priority p)
    (set_optional (list_to_json ModelHint_to_json) "hints" (mp_hints p) [])))).

Definition ModelPreferences_from_json (j : json) : outcome ModelPreferences :=
  hints ← get_optional (get_vector ModelHint_from_json) j "hints";
  cost ← get_optional get_double j "costPriority";
  speed ← get_optional get_double j "speedPriority";
  intelligence ← get_optional get_double j "intelligencePriority";
  Val (mkModelPreferences hints cost speed intelligence).

Record CreateMessageParams := mkCreateMessageParams {
  messages : list SamplingMessage;
  model_preferences : option ModelPreferences;
  system_prompt : option string;
  include_context : option string;
  temperature : option double;
  max_tokens : Z;
  stop_sequences : option (list string);
  metadata : option json;
  sampling_tools : option json;
  tool_choice : option json;
}.

Definition CreateMessageParams_to_json (p : CreateMessageParams) : json :=
  JObject (set_optional id_json "toolChoice" (tool_choice p)
    (set_optional id_json "tools" (sampling_tools p)
    (set_optional id_json "metadata" (metadata p)
    (set_optional strings_to_json "stopSequences" (stop_sequences p)
    (set_optional JFloat "temperature" (temperature p)
    (set_optional JString "includeContext" (include_context p)
    (set_optional JString "systemPrompt" (system_prompt p)
    (set_optional ModelPreferences_to_json "modelPreferences" (model_preferences p)
      (make_object [("messages", list_to_json SamplingMessage_to_json (messages p));
                    ("maxTokens", JInt (max_tokens p))]))))))))).

Definition CreateMessageParams_from_json (j : json) : outcome CreateMessageParams :=
  messages_v ← at_key "messages" j;
  messages ← get_vector SamplingMessage_from_json messages_v;
  max_tokens ← value_or get_int64 "maxTokens" 1024%Z j;
  model_preferences ← get_optional ModelPreferences_from_json j "modelPreferences";
  system_prompt ← get_optional get_string j "systemPrompt";
  include_context ← get_optional get_string j "includeContext";
  temperature ← get_optional get_double j "temperature";
  stop_sequences ← get_optional (get_vector get_string) j "stopSequences";
  metadata ← get_optional get_json j "metadata";
  tools ← get_optional get_json j "tools";
  tool_choice ← get_optional get_json j "toolChoice";
  Val (mkCreateMessageParams messages model_preferences system_prompt include_context temperature max_tokens
         stop_sequences metadata tools tool_choice).

Record CreateMessageResult := mkCreateMessageResult {
  cmr_role : Role;
  cmr_content : list Content;
  cmr_model : string;
  cmr_stop_reason : option string;
}.

(** One block is written as an object, any other number as an array. *)
Definition result_content_to_json (l : list Content) : json :=
  match l with [c] => content_to_json c | _ => content_list_to_json l end.

Definition CreateMessageResult_to_json (r : CreateMessageResult) : json :=
  JObject (set_optional JString "stopReason" (cmr_stop_reason r)
    (obj_set "content" (result_content_to_json (cmr_content r))
      (make_object [("role", JString (role_to_string (cmr_role r))); ("model", JString (cmr_model r))]))).

Definition CreateMessageResult_from_json (j : json) : outcome (Result CreateMessageResult) :=
  if negb (is_object j) || negb (contains "role" j) || negb (contains "content" j) || negb (contains "model" j) then
    Val (Err (error InvalidParams "malformed createMessage result"))
  else
    role_v ← at_key "role" j;
    role ← get_string role_v;
    model_v ← at_key "model" j;
    model ← get_string model_v;
    stop_reason ← get_optional get_string j "stopReason";
    content ← at_key "content" j;
    blocks ←? (if is_array content then content_list_from_json content
               else single ←? content_from_json content; Val (Ok [single]));
    Val (Ok (mkCreateMessageResult (default Assistant (role_from_string role)) blocks model stop_reason)).

(** ** Reading back what was written *)

Lemma role_roundtrip r : role_from_string (role_to_string r) = Some r.
Proof. by destruct r. Qed.

Lemma SamplingMessage_roundtrip m : SamplingMessage_from_json (SamplingMessage_to_json m) = Val m.
Proof.
  destruct m as [r c]. unfold SamplingMessage_from_json, SamplingMessage_to_json. json_lookup.
  by rewrite content_roundtrip_lemma, role_roundtrip.
Qed.

Lemma ModelHint_roundtrip h : ModelHint_from_json (ModelHint_to_json h) = Val h.
Proof. by destruct h. Qed.

Lemma read_hints (o : option (list ModelHint)) l :
  o = Some l -> get_vector ModelHint_from_json (list_to_json ModelHint_to_json l) = Val l /\
                is_null (list_to_json ModelHint_to_json l) = false.
Proof. intros _. split; [|done]. apply get_vector_roundtrip, ModelHint_roundtrip. Qed.

Lemma read_strings (o : option (list string)) l :
  o = Some l -> get_vector get_string (strings_to_json l) = Val l /\ is_null (strings_to_json l) = false.
Proof. intros _. split; [|done]. apply get_vector_strings. Qed.

#[local] Hint Resolve read_hints read_strings : roundtrip.

Lemma ModelPreferences_roundtrip p : ModelPreferences_from_json (ModelPreferences_to_json p) = Val p.
Proof.
  destruct p as [h c s i]. unfold ModelPreferences_from_json, ModelPreferences_to_json. cbn [mp_hints cost_priority speed_priority intelligence_priority].
  read_optional (list_to_json ModelHint_to_json) "hints" h.
  read_optional JFloat "costPriority" c.
  read_optional JFloat "speedPriority" s.
  by read_optional JFloat "intelligencePriority" i.
Qed.

Lemma read_preferences (o : option ModelPreferences) p :
  o = Some p -> ModelPreferences_from_json (ModelPreferences_to_json p) = Val p /\
                is_null (ModelPreferences_to_json p) = false.
Proof. intros _. split; [|done]. apply ModelPreferences_roundtrip. Qed.

#[local] Hint Resolve read_preferences : roundtrip.

(** Optional JSON members that are null are read back as absent. *)
Definition wf_params (p : CreateMessageParams) : Prop :=
  metadata p <> Some JNull /\ sampling_tools p <> Some JNull /\ tool_choice p <> Some JNull.

Lemma CreateMessageParams_read p :
  wf_params p -> CreateMessageParams_from_json (CreateMessageParams_to_json p) = Val p.
Proof.
  intros (Hm & Ht & Hc). destruct p as [ms prefs sys ctx temp max stop meta tools choice].
  unfold CreateMessageParams_from_json, CreateMessageParams_to_json. cbn [messages model_preferences system_prompt
    include_context temperature max_tokens stop_sequences metadata sampling_tools tool_choice] in *.
  json_lookup. rewrite mapM_outcome_Val by (intros y _; apply SamplingMessage_roundtrip). cbn [mbind outcome_bind].
  read_optional ModelPreferences_to_json "modelPreferences" prefs.
  read_optional JString "systemPrompt" sys.
  read_optional JString "includeContext" ctx.
  read_optional JFloat "temperature" temp.
  read_optional strings_to_json "stopSequences" stop.
  read_optional id_json "metadata" meta.
  read_optional id_json "tools" tools.
  by read_optional id_json "toolChoice" choice.
Qed.

Lemma content_object c : is_array (content_to_json c) = false.
Proof. by destruct c. Qed.

Lemma result_content_read l :
  (if is_array (result_content_to_json l) then content_list_from_json (result_content_to_json l)
   else single ←? content_from_json (result_content_to_json l); Val (Ok [single])) = Val (Ok l).
Proof.
  destruct l as [|c [|c' l]]; [done| |apply content_list_roundtrip].
  cbn [result_content_to_json]. unfold try_bind. by rewrite content_object, content_roundtrip_lemma.
Qed.

Lemma CreateMessageResult_read r : CreateMessageResult_from_json (CreateMessageResult_to_json r) = Val (Ok r).
Proof.
  destruct r as [role blocks model stop]. unfold CreateMessageResult_from_json, CreateMessageResult_to_json.
  cbn [cmr_role cmr_content cmr_model cmr_stop_reason is_object]. pose proof (result_content_read blocks) as Hb.
  remember (result_content_to_json blocks) as j eqn:Ej. clear Ej.
  destruct stop as [stop|]; simpl; rewrite role_roundtrip; unfold try_bind at 1; by rewrite Hb.
Qed.

(** ** The tool loop *)

(** [ToolResultContent], as the executor returns it. *)
Record ToolResult := mkToolResult { tr_tool_use_id : string; tr_content : list Content; tr_is_error : bool }.

Definition tool_result_content (r : ToolResult) : Content :=
  ToolResultContent (tr_tool_use_id r) (tr_content r) (tr_is_error r).

Definition tool_uses (l : list Content) : list ToolUse :=
  omap (fun c => match c with ToolUseContent u => Some u | _ => None end) l.

Definition add_messages (l : list SamplingMessage) (p : CreateMessageParams) : CreateMessageParams :=
  mkCreateMessageParams (messages p ++ l) (model_preferences p) (system_prompt p) (include_context p)
    (temperature p) (max_tokens p) (stop_sequences p) (metadata p) (sampling_tools p) (tool_choice p).

Section tool_loop.
(** [request params]: [send_request_sync] of sampling/createMessage with these
    parameters; [execute_tool] is the application's executor. *)
Context {W : Type} (request : json -> st W (Result json)) (execute_tool : ToolUse -> st W ToolResult).

Fixpoint push_results (uses : list ToolUse) (p : CreateMessageParams) : st W CreateMessageParams :=
  match uses with
  | [] => mret p
  | use :: uses' =>
      r ← execute_tool use;
      push_results uses' (add_messages [mkSamplingMessage User (tool_result_content r)] p)
  end.

Fixpoint tool_loop (turns : nat) (p : CreateMessageParams) : st W (Result CreateMessageResult) :=
  match turns with
  | O => mret (Err (error InternalError "sampling tool-use loop exceeded max turns"))
  | S turns' =>
      response ← request (CreateMessageParams_to_json p);
      match response with
      | Err e => mret (Err e)
      | Ok j =>
          result ← lift (CreateMessageResult_from_json j);
          match result with
          | Err e => mret (Err e)
          | Ok r =>
              match tool_uses (cmr_content r) with
              | [] => mret (Ok r)
              | uses =>
                  p ← push_results uses (add_messages (mkSamplingMessage Assistant <$> cmr_content r) p);
                  tool_loop turns' p
              end
          end
      end
  end.

(** [max_turns] is an [int]. *)
Definition run_sampling_tool_loop (max_turns : Z) (p : CreateMessageParams) : st W (Result CreateMessageResult) :=
  tool_loop (Z.to_nat max_turns) p.
End tool_loop.

(** ** What the loop does to the outside

    The same loop over a world that also records what it asks and executes. *)

Inductive loop_event :=
| Asked (params : json) (answer : Result json)
| Executed (use : ToolUse) (result : ToolResult).

Definition recorded {W A} (e : A -> loop_event) (m : st W A) : st (W * list loop_event) A :=
  fun '(w, tr) => match m w with
                  | (w', Val a) => ((w', tr ++ [e a]), Val a)
                  | (w', Throw x) => ((w', tr), Throw x)
                  | (w', Undefined) => ((w', tr), Undefined)
                  end.

Definition asked (tr : list loop_event) : list json :=
  omap (fun e => match e with Asked p _ => Some p | _ => None end) tr.
Definition executed (tr : list loop_event) : list ToolUse :=
  omap (fun e => match e with Executed u _ => Some u | _ => None end) tr.
(** The tool uses an answer asks for. *)
Definition answer_uses (e : loop_event) : list ToolUse :=
  match e with
  | Asked _ (Ok j) =>
      match CreateMessageResult_from_json j with Val (Ok r) => tool_uses (cmr_content r) | _ => [] end
  | _ => []
  end.
Definition requested_uses (tr : list loop_event) : list ToolUse := mjoin (answer_uses <$> tr).

(** Ids of the tool uses of the assistant's messages, and of the results in the
    user's. *)
Definition use_ids (l : list SamplingMessage) : list string :=
  omap (fun m => match m with mkSamplingMessage Assistant (ToolUseContent u) => Some (tu_id u) | _ => None end) l.
Definition result_ids (l : list SamplingMessage) : list string :=
  omap (fun m => match m with mkSamplingMessage User (ToolResultContent i _ _) => Some i | _ => None end) l.

Definition settled (l : list SamplingMessage) : Prop := use_ids l = result_ids l.

Section recorded_loop.
Context {W : Type} (request : json -> st W (Result json)) (execute_tool : ToolUse -> st W ToolResult).
Hypothesis execute_keeps_id :
  forall use w w' r, execute_tool use w = (w', Val r) -> tr_tool_use_id r = tu_id use.

Definition ask (j : json) : st (W * list loop_event) (Result json) := recorded (Asked j) (request j).
Definition execute (use : ToolUse) : st (W * list loop_event) ToolResult :=
  recorded (Executed use) (execute_tool use).

Lemma recorded_inv {A} (e : A -> loop_event) (m : st W A) s s' a :
  recorded e m s = (s', Val a) -> m s.1 = (s'.1, Val a) /\ s'.2 = s.2 ++ [e a].
Proof. destruct s as [w tr]. simpl. destruct (m w) as [w' [b| |]]; by intros [= <- <-]. Qed.

Lemma add_messages_nil p : add_messages [] p = p.
Proof. destruct p. unfold add_messages. simpl. by rewrite app_nil_r. Qed.
Lemma add_messages_app l l' p : add_messages l' (add_messages l p) = add_messages (l ++ l') p.
Proof. unfold add_messages. simpl. by rewrite app_assoc. Qed.

(** Executing a list of uses adds one result per use, in order. *)
Lemma push_results_run uses p s s' p' :
  push_results execute uses p s = (s', Val p') ->
  exists results tr, length results = length uses /\ tr_tool_use_id <$> results = tu_id <$> uses /\
    p' = add_messages ((fun r => mkSamplingMessage User (tool_result_content r)) <$> results) p /\
    s'.2 = s.2 ++ tr /\ executed tr = uses /\ asked tr = [] /\ requested_uses tr = [].
Proof.
  revert p s. induction uses as [|use uses IH]; intros p s; simpl.
  - intros [= <- <-]. exists [], []. by rewrite add_messages_nil, app_nil_r.
  - intros H. apply st_bind_inv in H as [(s1 & r & H1 & H)|[(? & _ & ?)|[_ ?]]]; [|done|done].
    apply recorded_inv in H1 as [H1 Htr]. apply execute_keeps_id in H1.
    apply IH in H as (rs & tr & Hl & Hi & -> & Hs & He & Ha & Hu).
    exists (r :: rs), (Executed use r :: tr). cbn [length]. split_and!.
    + by rewrite Hl.
    + by rewrite !fmap_cons, H1, Hi.
    + by rewrite add_messages_app.
    + rewrite Hs, Htr, <- app_assoc. done.
    + change (use :: executed tr = use :: uses). by rewrite He.
    + done.
    + done.
Qed.

Lemma use_ids_assistant l : use_ids (mkSamplingMessage Assistant <$> l) = tu_id <$> tool_uses l.
Proof.
  induction l as [|c l IH]; [done|]. destruct c; try exact IH.
  change (tu_id use :: use_ids (mkSamplingMessage Assistant <$> l) = tu_id use :: (tu_id <$> tool_uses l)).
  by rewrite IH.
Qed.
Lemma result_ids_assistant l : result_ids (mkSamplingMessage Assistant <$> l) = [].
Proof. by induction l. Qed.
Lemma use_ids_results l : use_ids ((fun r => mkSamplingMessage User (tool_result_content r)) <$> l) = [].
Proof. by induction l. Qed.
Lemma result_ids_results l :
  result_ids ((fun r => mkSamplingMessage User (tool_result_content r)) <$> l) = tr_tool_use_id <$> l.
Proof. induction l as [|r l IH]; [done|]. rewrite !fmap_cons, <- IH. done. Qed.

Lemma settled_round blocks results :
  tr_tool_use_id <$> results = tu_id <$> tool_uses blocks ->
  settled ((mkSamplingMessage Assistant <$> blocks) ++
           ((fun r => mkSamplingMessage User (tool_result_content r)) <$> results)).
Proof.
  intros H. unfold settled, use_ids, result_ids. rewrite !omap_app. fold (use_ids (mkSamplingMessage Assistant <$> blocks)).
  fold (result_ids (mkSamplingMessage Assistant <$> blocks)).
  fold (use_ids ((fun r => mkSamplingMessage User (tool_result_content r)) <$> results)).
  fold (result_ids ((fun r => mkSamplingMessage User (tool_result_content r)) <$> results)).
  by rewrite use_ids_assistant, result_ids_assistant, use_ids_results, result_ids_results, app_nil_r, H.
Qed.

Lemma settled_app l l' : settled l -> settled l' -> settled (l ++ l').
Proof. unfold settled, use_ids, result_ids. rewrite !omap_app. by intros -> ->. Qed.

(** The conversation of a request: that of [p], extended by settled rounds. *)
Definition extends (p : CreateMessageParams) (j : json) : Prop :=
  exists added, settled added /\ j = CreateMessageParams_to_json (add_messages added p).

Lemma extends_refl p : extends p (CreateMessageParams_to_json p).
Proof. exists []. by rewrite add_messages_nil. Qed.

Lemma extends_trans p added j : settled added -> extends (add_messages added p) j -> extends p j.
Proof.
  intros Ha (l & Hl & ->). exists (added ++ l). split; [by apply settled_app|]. by rewrite add_messages_app.
Qed.

Lemma asked_app t1 t2 : asked (t1 ++ t2) = asked t1 ++ asked t2.
Proof. unfold asked. by rewrite omap_app. Qed.
Lemma executed_app t1 t2 : executed (t1 ++ t2) = executed t1 ++ executed t2.
Proof. unfold executed. by rewrite omap_app. Qed.
Lemma requested_uses_app t1 t2 : requested_uses (t1 ++ t2) = requested_uses t1 ++ requested_uses t2.
Proof. unfold requested_uses. by rewrite fmap_app, join_app. Qed.

(** What a run of the loop that returned [out] recorded. *)
Record run_spec (turns : nat) (p : CreateMessageParams) (tr : list loop_event) (out : Result CreateMessageResult)
  : Prop := mkRunSpec {
  rs_bound : length (asked tr) <= turns;
  rs_final : forall r, out = Ok r -> tool_uses (cmr_content r) = [];
  rs_executed : executed tr = requested_uses tr;
  rs_asked : Forall (extends p) (asked tr);
}.

Lemma run_spec_last turns p a out :
  answer_uses (Asked (CreateMessageParams_to_json p) a) = [] ->
  (forall r, out = Ok r -> tool_uses (cmr_content r) = []) ->
  run_spec (S turns) p [Asked (CreateMessageParams_to_json p) a] out.
Proof.
  intros Hu Hf. split; [simpl; lia|done| |].
  - unfold requested_uses. rewrite fmap_cons. cbn [fmap list_fmap mjoin list_join]. by rewrite Hu.
  - repeat constructor. apply extends_refl.
Qed.

Lemma tool_loop_run turns p s s' out :
  tool_loop ask execute turns p s = (s', Val out) -> exists tr, s'.2 = s.2 ++ tr /\ run_spec turns p tr out.
Proof.
  revert p s. induction turns as [|turns IH]; intros p s; cbn [tool_loop].
  { intros [= <- <-]. exists []. rewrite app_nil_r. split; [done|]. by split. }
  intros H. apply st_bind_inv in H as [(s1 & a & H1 & H)|[(? & _ & ?)|[_ ?]]]; [|done|done].
  apply recorded_inv in H1 as [_ Htr]. destruct a as [j|e].
  2:{ injection H as <- <-. eexists. split; [exact Htr|]. by apply run_spec_last. }
  apply st_bind_inv in H as [(s2 & [r|e] & H2 & H)|[(? & _ & ?)|[_ ?]]]; [| |done|done];
    injection H2 as <- Hr.
  2:{ injection H as <- <-. eexists. split; [exact Htr|]. apply run_spec_last; [|done]. simpl. by rewrite Hr. }
  assert (answer_uses (Asked (CreateMessageParams_to_json p) (Ok j)) = tool_uses (cmr_content r)) as Hu
    by (simpl; by rewrite Hr).
  destruct (tool_uses (cmr_content r)) as [|use uses] eqn:Euses.
  { injection H as <- <-. eexists. split; [exact Htr|]. apply run_spec_last; [done|]. by intros r' [= <-]. }
  apply st_bind_inv in H as [(s2 & p' & H2 & H)|[(? & _ & ?)|[_ ?]]]; [|done|done].
  apply push_results_run in H2 as (results & tr1 & _ & Hi & -> & Hs2 & He & Ha1 & Hu1).
  rewrite add_messages_app in H. rewrite <- Euses in *. apply settled_round in Hi.
  apply IH in H as (tr2 & Hs' & [B1 B2 B3 B4]).
  exists ([Asked (CreateMessageParams_to_json p) (Ok j)] ++ tr1 ++ tr2). split.
  { by rewrite Hs', Hs2, Htr, <- !app_assoc. }
  split; [|done| |].
  - rewrite !asked_app, Ha1. simpl. lia.
  - rewrite !executed_app, !requested_uses_app, He, Hu1, B3. unfold requested_uses at 2. cbn [fmap list_fmap mjoin list_join].
    by rewrite Hu, app_nil_r.
  - rewrite !asked_app, Ha1. constructor; [apply extends_refl|]. simpl.
    eapply Forall_impl; [exact B4|]. intros j'. by apply extends_trans.
Qed.

(** The client always answers, readably, and the executor always returns. *)
Definition answers_readable : Prop :=
  forall j w, exists w' a, request j w = (w', Val a) /\
    forall j', a = Ok j' -> exists r, CreateMessageResult_from_json j' = Val r.
Definition executor_returns : Prop := forall use w, exists w' r, execute_tool use w = (w', Val r).

Lemma recorded_val {A} (e : A -> loop_event) (m : st W A) s w' a :
  m s.1 = (w', Val a) -> recorded e m s = ((w', s.2 ++ [e a]), Val a).
Proof. destruct s as [w tr]. simpl. by intros ->. Qed.

Lemma push_results_returns uses p s :
  executor_returns -> exists s' p', push_results execute uses p s = (s', Val p').
Proof.
  intros He. revert p s. induction uses as [|use uses IH]; intros p s; cbn [push_results]; [by do 2 eexists|].
  destruct (He use s.1) as (w' & r & Hr). rewrite (st_bind_val (execute use) _ _ _ _ (recorded_val _ _ _ _ _ Hr)). apply IH.
Qed.

Lemma tool_loop_returns turns p s :
  answers_readable -> executor_returns -> exists s' out, tool_loop ask execute turns p s = (s', Val out).
Proof.
  intros Ha He. revert p s. induction turns as [|turns IH]; intros p s; cbn [tool_loop]; [by do 2 eexists|].
  destruct (Ha (CreateMessageParams_to_json p) s.1) as (w' & a & Hr & Hread).
  rewrite (st_bind_val (ask (CreateMessageParams_to_json p)) _ _ _ _ (recorded_val _ _ _ _ _ Hr)). destruct a as [j|e]; [|by do 2 eexists].
  destruct (Hread j eq_refl) as [r Hj]. unfold lift at 1, mbind at 1, st_bind at 1. rewrite Hj.
  destruct r as [r|e]; [|by do 2 eexists].
  destruct (tool_uses (cmr_content r)) as [|use uses]; [by do 2 eexists|].
  edestruct (push_results_returns (use :: uses)) as (s2 & p2 & H2); [exact He|].
  rewrite (st_bind_val _ _ _ _ _ H2). apply IH.
Qed.

End recorded_loop.

(** A model that asks for one tool and then answers. *)
Module SamplingDemo.
Definition use : ToolUse := mkToolUse "t1" "add" (JObject []).
Definition first : CreateMessageResult := mkCreateMessageResult Assistant [ToolUseContent use] "m" (Some "toolUse").
Definition last : CreateMessageResult := mkCreateMessageResult Assistant [TextContent "3" None] "m" None.

Definition request (j : json) : st nat (Result json) :=
  fun n => (S n, Val (Ok (CreateMessageResult_to_json (if n =? 0 then first else last)))).
Definition execute_tool (u : ToolUse) : st nat ToolResult :=
  mret (mkToolResult (tu_id u) [TextContent "3" None] false).

Definition params : CreateMessageParams :=
  mkCreateMessageParams [mkSamplingMessage User (TextContent "1+2?" None)] None None None None 100 None None None None.

Lemma keeps_id use w w' r : execute_tool use w = (w', Val r) -> tr_tool_use_id r = tu_id use.
Proof. by intros [= <- <-]. Qed.
End SamplingDemo.

