(* ===== verification/Roots.v ===== *)
(** * Roots

    include/mcp/client/roots_provider.hpp and src/client/roots_provider.cpp: the
    file:// roots a client shows to its server. *)

From S2P Require Import Prelude Json Core Registry.

Record Root := mkRoot { root_uri : string; root_name : option string }.

Definition Root_to_json (r : Root) : json :=
  JObject (set_optional JString "name" (root_name r) (make_object [("uri", JString (root_uri r))])).
Definition Root_from_json (j : json) : outcome Root :=
  uri_v ← at_key "uri" j;
  uri ← get_string uri_v;
  name ← get_optional get_string j "name";
  Val (mkRoot uri name).

Definition file_uri (uri : string) : bool := String.prefix "file://" uri.
Definition root_is (uri : string) (r : Root) : bool := String.eqb (root_uri r) uri.

Section provider.
(** The name of the changed callback. *)
Context {C : Type}.

Record RootsProvider := mkRootsProvider { provider_roots : list Root; roots_changed_callback : option C }.

Definition empty_roots : RootsProvider := mkRootsProvider [] None.

(** Each change returns the callback to invoke once the lock is released. *)
Definition add_root (root : Root) (p : RootsProvider) : RootsProvider * Result unit * option C :=
  if negb (file_uri (root_uri root)) then
    (p, Err (error InvalidUri ("root URI must use the file:// scheme: " +:+ root_uri root)), None)
  else if existsb (root_is (root_uri root)) (provider_roots p) then
    (p, Err (error InvalidParams ("root already registered: " +:+ root_uri root)), None)
  else
    (mkRootsProvider (provider_roots p ++ [root]) (roots_changed_callback p), Ok tt, roots_changed_callback p).

Definition remove_root (uri : string) (p : RootsProvider) : RootsProvider * bool * option C :=
  match find_if (root_is uri) (provider_roots p) with
  | None => (p, false, None)
  | Some _ =>
      (mkRootsProvider (erase_first (root_is uri) (provider_roots p)) (roots_changed_callback p), true,
       roots_changed_callback p)
  end.

Definition list_roots (p : RootsProvider) : list Root := provider_roots p.
Definition roots_size (p : RootsProvider) : nat := length (provider_roots p).
Definition set_roots_changed_callback (c : option C) (p : RootsProvider) : RootsProvider :=
  mkRootsProvider (provider_roots p) c.

(** ** The roots are file URIs, each at most once *)

Definition wf_roots (p : RootsProvider) : Prop :=
  NoDup (root_uri <$> provider_roots p) /\ Forall (fun r => file_uri (root_uri r) = true) (provider_roots p).

Lemma existsb_root uri (l : list Root) : existsb (root_is uri) l = true <-> uri ∈ root_uri <$> l.
Proof.
  rewrite existsb_exists, list_elem_of_fmap. unfold root_is. split.
  - intros (x & Hx & He%String.eqb_eq). exists x. split; [done|]. by apply list_elem_of_In.
  - intros (x & -> & Hx). exists x. split; [by apply list_elem_of_In|]. apply String.eqb_refl.
Qed.

Lemma find_root uri (l : list Root) : is_Some (find_if (root_is uri) l) <-> uri ∈ root_uri <$> l.
Proof.
  rewrite list_elem_of_fmap. split.
  - intros [r [Hr Hu%String.eqb_eq]%find_if_Some]. by exists r.
  - intros (r & -> & Hr). apply not_eq_None_Some. rewrite find_if_None. intros Hn. specialize (Hn r Hr).
    unfold root_is in Hn. by rewrite String.eqb_refl in Hn.
Qed.

Lemma add_root_wf root p : wf_roots p -> wf_roots (add_root root p).1.1.
Proof.
  intros [Hn Hf]. unfold add_root. destruct (file_uri (root_uri root)) eqn:Eu; [|done]. simpl.
  destruct (existsb _ _) eqn:Ee; [done|]. split; simpl.
  - rewrite fmap_app. apply NoDup_app. split; [done|]. split; [|apply NoDup_singleton].
    intros x Hx ->%list_elem_of_singleton. apply existsb_root in Hx. congruence.
  - apply Forall_app. split; [done|]. by apply Forall_singleton.
Qed.

Lemma remove_root_wf uri p : wf_roots p -> wf_roots (remove_root uri p).1.1.
Proof.
  intros [Hn Hf]. unfold remove_root. destruct (find_if _ _); [|done]. split; simpl.
  - by apply erase_first_NoDup.
  - rewrite Forall_forall in *. intros r' Hr. apply Hf. eapply elem_of_sublist; [exact Hr|]. apply erase_first_sublist.
Qed.

Lemma erase_root_filter uri (l : list Root) :
  NoDup (root_uri <$> l) -> erase_first (root_is uri) l = filter (fun r => root_uri r <> uri) l.
Proof.
  induction l as [|r l IH]; [done|]. rewrite fmap_cons. intros [Hr Hl]%NoDup_cons. simpl. unfold root_is at 1.
  rewrite filter_cons. destruct (String.eqb_spec (root_uri r) uri) as [E|E].
  - rewrite decide_False by auto. assert (forall r', r' ∈ l -> root_uri r' <> uri) as Hne.
    { intros r' Hr' E'. apply Hr. apply list_elem_of_fmap. exists r'. by rewrite E, E'. }
    clear -Hne. induction l as [|r' l IH]; [done|]. rewrite filter_cons, decide_True by (apply Hne; left).
    f_equal. apply IH. intros x Hx. apply Hne. by right.
  - rewrite decide_True by done. f_equal. by apply IH.
Qed.

(** A change of the roots by the application. *)
Inductive roots_change := AddRoot (r : Root) | RemoveRoot (uri : string) | SetRootsCallback (c : option C).
Definition apply_roots_change (p : RootsProvider) (x : roots_change) : RootsProvider :=
  match x with
  | AddRoot r => (add_root r p).1.1
  | RemoveRoot uri => (remove_root uri p).1.1
  | SetRootsCallback c => set_roots_changed_callback c p
  end.

Lemma roots_change_wf xs p : wf_roots p -> wf_roots (foldl apply_roots_change p xs).
Proof.
  revert p. induction xs as [|x xs IH]; intros p Hp; [done|]. apply IH.
  destruct x; [by apply add_root_wf|by apply remove_root_wf|done].
Qed.

Lemma empty_roots_wf : wf_roots empty_roots.
Proof. split; constructor. Qed.
End provider.
Arguments RootsProvider : clear implicits.

(** After any changes the roots are file:// URIs, each registered once; a
    change is reported exactly when it happens, and removing a root removes
    exactly the root of that URI. *)
Theorem roots_spec {C : Type} (xs : list (roots_change (C := C))) root uri :
  let p := foldl apply_roots_change empty_roots xs in
  wf_roots p /\
  (let '(p', result, notify) := add_root root p in
   (result = Ok tt <-> file_uri (root_uri root) = true /\ (root_uri root ∉ root_uri <$> list_roots p)) /\
   (result = Ok tt -> list_roots p' = list_roots p ++ [root] /\ notify = roots_changed_callback p) /\
   (result <> Ok tt -> p' = p /\ notify = None)) /\
  (let '(p', removed, notify) := remove_root uri p in
   list_roots p' = filter (fun r => root_uri r <> uri) (list_roots p) /\
   (removed = true <-> uri ∈ root_uri <$> list_roots p) /\
   notify = if (removed : bool) then roots_changed_callback p else None).
Proof.
  intros p. assert (wf_roots p) as Hp by apply roots_change_wf, empty_roots_wf. clearbody p.
  split; [done|]. split.
  - unfold add_root. destruct (file_uri (root_uri root)) eqn:Eu; simpl; [|naive_solver].
    pose proof (existsb_root (root_uri root) (provider_roots p)) as He.
    destruct (existsb _ _) eqn:Ee; naive_solver.
  - unfold list_roots. rewrite <- erase_root_filter by apply Hp. unfold remove_root.
    pose proof (find_root uri (provider_roots p)) as Hf.
    destruct (find_if (root_is uri) (provider_roots p)) as [r|] eqn:E; simpl.
    + split; [done|]. split; [|done]. split; [|done]. intros _. apply Hf. by eexists.
    + split; [by rewrite erase_first_none|]. split; [|done]. split; [done|]. intros [? ?]%Hf. done.
Qed.
