(* ===== verification/Client.v ===== *)
(** * The client

    include/mcp/client/client.hpp, include/mcp/client/elicitation.hpp and
    src/client/client.cpp: the client's configuration, the handlers it wires
    into its session, and the typed requests.

    As in Program.v the world is one session; its transport is the base
    transport together with the client.  Where the code blocks on a response,
    [meanwhile] says what the other threads do until it is there. *)

From S2P Require Import Prelude Json Core Types Message Content Schema Protocol State Router Session SessionFacts.
From S2P Require Import Pagination Registry ToolRegistry PromptProvider ResourceProvider Logging Sampling Roots.
From S2P Require Import Server Program.

(** ** Elicitation *)

Record ElicitRequest := mkElicitRequest {
  el_message : string;
  requested_schema : option json;
  el_url : option string;
}.

Definition ElicitRequest_from_json (j : json) : outcome (Result ElicitRequest) :=
  match jfind "message" j with
  | Some (JString message) =>
      schema ← get_optional get_json j "requestedSchema";
      url ← get_optional get_string j "url";
      Val (Ok (mkElicitRequest message schema url))
  | _ => Val (Err (error InvalidParams "elicitation request requires a message"))
  end.

Definition ElicitRequest_to_json (r : ElicitRequest) : json :=
  JObject (set_optional JString "url" (el_url r)
    (set_optional id_json "requestedSchema" (requested_schema r)
      (make_object [("message", JString (el_message r))]))).

Inductive ElicitAction : Set := Accept | Decline | Cancel.

#[export] Instance ElicitAction_eq_dec : EqDecision ElicitAction.
Proof. solve_decision. Defined.

Definition elicit_action_to_string (a : ElicitAction) : string :=
  match a with Accept => "accept" | Decline => "decline" | Cancel => "cancel" end.

Record ElicitResult := mkElicitResult { el_action : ElicitAction; el_content : option json }.

Definition ElicitResult_to_json (r : ElicitResult) : json :=
  JObject (set_optional id_json "content" (el_content r)
             (make_object [("action", JString (elicit_action_to_string (el_action r)))])).

(** ** Answering the server's requests *)

(** [parse_response]: a [json::exception] becomes an error. *)
Definition malformed (w : string) : Error := error InternalError ("malformed server response: " +:+ w).

Definition parse_response {A} (m : outcome (Result A)) : outcome (Result A) :=
  catch_json m (fun w => Err (malformed w)).

Definition parse_response_st {S A} (m : st S (Result A)) : st S (Result A) :=
  fun s => match m s with (s', Throw (ExnJson w)) => (s', Val (Err (malformed w))) | r => r end.

Section answers.
Context {W : Type} `{!JsonText}.

Definition create_message (handler : option (CreateMessageParams -> st W (Result CreateMessageResult)))
    (params : option json) : st W (Result json) :=
  match handler, params with
  | None, _ => mret (Err (error CapabilityNotSupported "no sampling handler configured"))
  | Some _, None => mret (Err (error InvalidParams "createMessage requires params"))
  | Some call, Some p =>
      parse_response_st (
        request ← lift (CreateMessageParams_from_json p);
        try (call request) (fun result => mret (Ok (CreateMessageResult_to_json result))))
  end.

(** Accepted form content must satisfy the requested schema. *)
Definition check_elicited (request : ElicitRequest) (result : ElicitResult) : outcome (Result unit) :=
  match el_action result, requested_schema request, el_content result with
  | Accept, Some schema, Some content =>
      valid ← validate_schema content schema;
      match valid with
      | Ok _ => Val (Ok tt)
      | Err e => Val (Err (error InvalidParams ("elicitation content does not match the requested schema: "
                                                +:+ err_message e)))
      end
  | _, _, _ => Val (Ok tt)
  end.

Definition elicit (handler : option (ElicitRequest -> st W (Result ElicitResult)))
    (params : option json) : st W (Result json) :=
  match handler, params with
  | None, _ => mret (Err (error CapabilityNotSupported "no elicitation handler configured"))
  | Some _, None => mret (Err (error InvalidParams "elicitation requires params"))
  | Some call, Some p =>
      try (lift (ElicitRequest_from_json p)) (fun request =>
      try (call request) (fun result =>
      try (lift (check_elicited request result)) (fun _ =>
      mret (Ok (ElicitResult_to_json result)))))
  end.
End answers.

(** ** Reading the server's answers *)

Record ListResult (A : Type) := mkListResult { lr_items : list A; lr_next_cursor : option string }.
Arguments mkListResult {A}.
Arguments lr_items {A}.
Arguments lr_next_cursor {A}.

Definition cursor_params (cursor : option string) : option json :=
  match cursor with Some c => Some (JObject (make_object [("cursor", JString c)])) | None => None end.

Definition parse_list {A} (get : json -> outcome A) (key : string) (j : json) : outcome (Result (ListResult A)) :=
  parse_response (
    items_v ← at_key key j;
    items ← get_vector get items_v;
    next ← get_optional get_string j "nextCursor";
    Val (Ok (mkListResult items next))).

Definition parse_call_result (j : json) : outcome (Result CallToolResult) :=
  parse_response (
    content_v ← value_or get_json "content" (JArray []) j;
    content ←? content_list_from_json content_v;
    is_error ← value_or get_bool "isError" false j;
    Val (Ok (mkCallToolResult content is_error))).

Definition parse_contents_result (j : json) : outcome (Result ReadResourceResult) :=
  parse_response (
    contents_v ← at_key "contents" j;
    contents ← get_vector ResourceContents_from_json contents_v;
    Val (Ok (mkReadResourceResult contents))).

Definition parse_prompt_message (j : json) : outcome (Result PromptMessage) :=
  content_v ← at_key "content" j;
  content ←? content_from_json content_v;
  role ← value_or get_string "role" "user" j;
  Val (Ok (mkPromptMessage (default User (role_from_string role)) content)).

Fixpoint parse_prompt_messages (l : list json) : outcome (Result (list PromptMessage)) :=
  match l with
  | [] => Val (Ok [])
  | j :: l' => m ←? parse_prompt_message j; ms ←? parse_prompt_messages l'; Val (Ok (m :: ms))
  end.

(** A range-based for over a JSON value: the elements of an array, the values of
    an object, nothing for null and the value itself otherwise. *)
Definition json_elements (j : json) : list json :=
  match j with JArray l => l | JObject o => o.*2 | JNull => [] | _ => [j] end.

Definition parse_prompt_result (j : json) : outcome (Result GetPromptResult) :=
  parse_response (
    description ← get_optional get_string j "description";
    messages_v ← value_or get_json "messages" (JArray []) j;
    messages ←? parse_prompt_messages (json_elements messages_v);
    Val (Ok (mkGetPromptResult description messages))).

Definition parse_completion (j : json) : outcome (Result CompleteResult) :=
  parse_response (
    completion ← at_key "completion" j;
    values_v ← at_key "values" completion;
    values ← get_vector get_string values_v;
    total ← get_optional get_int64 completion "total";
    has_more ← get_optional get_bool completion "hasMore";
    Val (Ok (mkCompleteResult values total has_more))).

(** ** State *)

(** The lambdas [wire_session] installs on the session's router and on the
    roots provider. *)
Inductive ClientHandler : Set := HRootsList | HCreateMessage | HElicit.
Inductive ClientNotice : Set := NToolsChanged | NResourcesChanged | NPromptsChanged | NResourceUpdated | NLogMessage.
Inductive RootsChanged : Set := NotifyRootsChanged.

(** Names of the application's functions. *)
Section client.
Context {SH EH CB UB LB : Type}.

Record Client := mkClient {
  cl_info : Implementation;
  cl_roots : RootsProvider RootsChanged;
  roots_enabled : bool;
  sampling_handler : option SH;
  elicitation_handler : option EH;
  tools_changed : option CB;
  resources_changed : option CB;
  prompts_changed : option CB;
  resource_updated : option UB;
  log_message_callback : option LB;
  request_timeout : Z;
  has_session : bool;    (** [session_] is not null *)
}.

Definition make_client (name version : string) : Client :=
  mkClient (mkImplementation name None version) empty_roots false None None None None None None None 30000 false.

Definition with_roots (p : RootsProvider RootsChanged) (c : Client) : Client :=
  mkClient (cl_info c) p (roots_enabled c) (sampling_handler c) (elicitation_handler c) (tools_changed c)
    (resources_changed c) (prompts_changed c) (resource_updated c) (log_message_callback c) (request_timeout c)
    (has_session c).
Definition enable_roots (c : Client) : Client :=
  mkClient (cl_info c) (cl_roots c) true (sampling_handler c) (elicitation_handler c) (tools_changed c)
    (resources_changed c) (prompts_changed c) (resource_updated c) (log_message_callback c) (request_timeout c)
    (has_session c).
Definition set_sampling_handler (h : option SH) (c : Client) : Client :=
  mkClient (cl_info c) (cl_roots c) (roots_enabled c) h (elicitation_handler c) (tools_changed c)
    (resources_changed c) (prompts_changed c) (resource_updated c) (log_message_callback c) (request_timeout c)
    (has_session c).
Definition set_elicitation_handler (h : option EH) (c : Client) : Client :=
  mkClient (cl_info c) (cl_roots c) (roots_enabled c) (sampling_handler c) h (tools_changed c)
    (resources_changed c) (prompts_changed c) (resource_updated c) (log_message_callback c) (request_timeout c)
    (has_session c).
Definition on_tools_list_changed (f : option CB) (c : Client) : Client :=
  mkClient (cl_info c) (cl_roots c) (roots_enabled c) (sampling_handler c) (elicitation_handler c) f
    (resources_changed c) (prompts_changed c) (resource_updated c) (log_message_callback c) (request_timeout c)
    (has_session c).
Definition on_resources_list_changed (f : option CB) (c : Client) : Client :=
  mkClient (cl_info c) (cl_roots c) (roots_enabled c) (sampling_handler c) (elicitation_handler c) (tools_changed c)
    f (prompts_changed c) (resource_updated c) (log_message_callback c) (request_timeout c) (has_session c).
Definition on_prompts_list_changed (f : option CB) (c : Client) : Client :=
  mkClient (cl_info c) (cl_roots c) (roots_enabled c) (sampling_handler c) (elicitation_handler c) (tools_changed c)
    (resources_changed c) f (resource_updated c) (log_message_callback c) (request_timeout c) (has_session c).
Definition on_resource_updated (f : option UB) (c : Client) : Client :=
  mkClient (cl_info c) (cl_roots c) (roots_enabled c) (sampling_handler c) (elicitation_handler c) (tools_changed c)
    (resources_changed c) (prompts_changed c) f (log_message_callback c) (request_timeout c) (has_session c).
Definition on_log_message (f : option LB) (c : Client) : Client :=
  mkClient (cl_info c) (cl_roots c) (roots_enabled c) (sampling_handler c) (elicitation_handler c) (tools_changed c)
    (resources_changed c) (prompts_changed c) (resource_updated c) f (request_timeout c) (has_session c).
Definition set_request_timeout (t : Z) (c : Client) : Client :=
  mkClient (cl_info c) (cl_roots c) (roots_enabled c) (sampling_handler c) (elicitation_handler c) (tools_changed c)
    (resources_changed c) (prompts_changed c) (resource_updated c) (log_message_callback c) t (has_session c).
Definition with_session (b : bool) (c : Client) : Client :=
  mkClient (cl_info c) (cl_roots c) (roots_enabled c) (sampling_handler c) (elicitation_handler c) (tools_changed c)
    (resources_changed c) (prompts_changed c) (resource_updated c) (log_message_callback c) (request_timeout c) b.

Definition client_caps (c : Client) : ClientCapabilities :=
  mkClientCaps
    (if roots_enabled c || (0 <? roots_size (cl_roots c)) then Some (mkRootsCap (Some true)) else None)
    (if declared (sampling_handler c) then Some (mkSamplingCap (Some true) (Some true)) else None)
    (if declared (elicitation_handler c) then Some (mkElicitationCap (Some true) (Some true)) else None)
    None None.

Definition client_options (c : Client) : ClientOptions :=
  mkClientOptions (cl_info c) (client_caps c) [kProtocolVersion] 10000.
End client.
Arguments Client : clear implicits.

(** ** The client on its session *)

Section program.
Context {T SH EH CB UB LB K : Type} `{!Transport T} `{!JsonText}.
#[local] Abbreviation client := (Client SH EH CB UB LB).
#[local] Abbreviation world := (Session (T * client) ClientHandler ClientNotice K).

(** What the application's functions do to the world. *)
Context (sampling_fn : SH -> CreateMessageParams -> st world (Result CreateMessageResult)).
Context (elicitation_fn : EH -> ElicitRequest -> st world (Result ElicitResult)).
Context (changed_fn : CB -> st world unit).
Context (updated_fn : UB -> string -> st world unit).
Context (log_fn : LB -> json -> st world unit).
Context (response_fn : K -> Result json -> st world unit).
Context (progress_fn : K -> ProgressNotification -> st world unit).
Context (close_fn : K -> st world unit).
Context (error_fn : K -> Error -> st world unit).

Definition client_of (w : world) : client := (transport w).2.
Definition put_client (c : client) (w : world) : world := set_transport ((transport w).1, c) w.
Definition on_client (f : client -> client) : st world unit := modify (fun w => put_client (f (client_of w)) w).

(** *** Handlers *)

Definition serve_client (h : ClientHandler) (params : option json) : st world (Result json) :=
  c ← gets client_of;
  match h with
  | HRootsList => mret (Ok (JObject (make_object [("roots", list_to_json Root_to_json (list_roots (cl_roots c)))])))
  | HCreateMessage => create_message (sampling_fn <$> sampling_handler c) params
  | HElicit => elicit (elicitation_fn <$> elicitation_handler c) params
  end.

(** An empty [std::function] throws [std::bad_function_call]. *)
Definition call_hook {F} (f : option F) (call : F -> st world unit) : st world unit :=
  match f with Some f => call f | None => lift (Throw (ExnStd "bad_function_call")) end.

Definition notice (n : ClientNotice) (params : option json) : st world unit :=
  c ← gets client_of;
  match n with
  | NToolsChanged => call_hook (tools_changed c) changed_fn
  | NResourcesChanged => call_hook (resources_changed c) changed_fn
  | NPromptsChanged => call_hook (prompts_changed c) changed_fn
  | NResourceUpdated =>
      match params ≫= jfind "uri" with
      | Some (JString uri) => call_hook (resource_updated c) (fun f => updated_fn f uri)
      | _ => skip
      end
  | NLogMessage =>
      match params with Some p => call_hook (log_message_callback c) (fun f => log_fn f p) | None => skip end
  end.

#[local] Instance client_application : Application (T * client) ClientHandler ClientNotice K := {|
  app_request := serve_client;
  app_notification := notice;
  app_response := response_fn;
  app_progress := progress_fn;
  app_close := close_fn;
  app_error := error_fn;
|}.

(** *** Roots *)

Definition run_roots_changed (c : option RootsChanged) : st world unit :=
  match c with
  | None => skip
  | Some NotifyRootsChanged =>
      c ← gets client_of;
      current ← gets state;
      if has_session c && bool_decide (current = Operating)
      then send_notification kNotificationRootsListChanged None else skip
  end.

Definition client_add_root (root : Root) : st world (Result unit) :=
  c ← gets client_of;
  let '(p, r, changed) := add_root root (cl_roots c) in
  _ ← on_client (with_roots p);
  _ ← run_roots_changed changed;
  mret r.

Definition client_remove_root (uri : string) : st world bool :=
  c ← gets client_of;
  let '(p, r, changed) := remove_root uri (cl_roots c) in
  _ ← on_client (with_roots p);
  _ ← run_roots_changed changed;
  mret r.

(** *** Connecting *)

Definition wired_requests : list (string * ClientHandler) :=
  [(kRootsList, HRootsList); (kSamplingCreateMessage, HCreateMessage); (kElicitationCreate, HElicit)].

Definition wired_notices (c : client) : list (string * ClientNotice) :=
  (if declared (tools_changed c) then [(kNotificationToolsListChanged, NToolsChanged)] else []) ++
  (if declared (resources_changed c) then [(kNotificationResourcesListChanged, NResourcesChanged)] else []) ++
  (if declared (prompts_changed c) then [(kNotificationPromptsListChanged, NPromptsChanged)] else []) ++
  (if declared (resource_updated c) then [(kNotificationResourcesUpdated, NResourceUpdated)] else []) ++
  (if declared (log_message_callback c) then [(kNotificationMessage, NLogMessage)] else []).

Definition wire_router {C} (c : client) (r : Router (request_closure ClientHandler) (notification_closure ClientNotice) C)
  : Router (request_closure ClientHandler) (notification_closure ClientNotice) C :=
  foldl (fun r entry => set_notification_handler entry.1 (NUser entry.2) r)
    (foldl (fun r entry => set_request_handler entry.1 (RUser entry.2) r) r wired_requests) (wired_notices c).

Definition wire_session : st world unit :=
  _ ← modify (fun w => set_router (wire_router (client_of w) (session_router w)) w);
  on_client (fun c => with_roots (set_roots_changed_callback (Some NotifyRootsChanged) (cl_roots c)) c).

(** Blocking until a slot is filled. *)
Context (meanwhile : nat -> st world unit).

Definition await (slot : nat) : st world (Result json) :=
  _ ← meanwhile slot;
  r ← gets (slot_get slot);
  match r with Some r => mret r | None => lift Undefined end.   (** never resumes *)

Definition client_initialize (now : Z) (o : ClientOptions) : st world (Result InitializeResult) :=
  started ← initialize_begin now o;
  match started with
  | Err e => mret (Err e)
  | Ok slot => response ← await slot; initialize_end o response
  end.

Definition client_disconnect : st world unit :=
  c ← gets client_of; if has_session c then disconnect else skip.

(** [session_.reset()], and what [~Client] does. *)
Definition reset_session : st world unit := _ ← destroy; on_client (with_session false).
Definition client_destroy : st world unit :=
  c ← gets client_of; if has_session c then _ ← disconnect; reset_session else skip.

Definition client_server_capabilities (w : world) : option ServerCapabilities :=
  if has_session (client_of w) then server_capabilities (peer w) else None.

(** [connect(transport)]: the transport is already in its place. *)
Definition client_connect (now : Z) : st world (Result InitializeResult) :=
  c ← gets client_of;
  if has_session c then mret (Err (error InvalidRequest "client is already connected"))
  else
    let o := client_options c in
    _ ← modify (fun w => make_session (ClientSession o) ((transport w).1, with_session true c));
    _ ← wire_session;
    _ ← connect;
    init ← client_initialize now o;
    match init with
    | Ok r => mret (Ok r)
    | Err e =>
        _ ← client_disconnect;
        _ ← reset_session;
        mret (Err e)
    end.

(** *** Requests *)

Definition client_request (now : Z) (method : string) (params : option json) : st world (Result json) :=
  c ← gets client_of;
  if has_session c then
    slot ← send_request_sync now method params (mkRequestOptions (Some (request_timeout c)) None None);
    await slot
  else mret (Err (error ConnectionNotInitialized "client is not connected")).

Definition request_and (now : Z) (method : string) (params : option json) {A}
    (parse : json -> outcome (Result A)) : st world (Result A) :=
  try (client_request now method params) (fun j => lift (parse j)).

Definition object_params (l : list (string * json)) : option json := Some (JObject (make_object l)).

Definition client_ping now : st world (Result json) := client_request now kPing None.
Definition client_list_tools now cursor : st world (Result (ListResult Tool)) :=
  request_and now kToolsList (cursor_params cursor) (parse_list Tool_from_json "tools").
Definition client_call_tool now (name : string) (arguments : json) : st world (Result CallToolResult) :=
  request_and now kToolsCall (object_params [("name", JString name); ("arguments", arguments)]) parse_call_result.
Definition client_list_resources now cursor : st world (Result (ListResult Resource)) :=
  request_and now kResourcesList (cursor_params cursor) (parse_list Resource_from_json "resources").
Definition client_list_resource_templates now cursor : st world (Result (ListResult ResourceTemplate)) :=
  request_and now kResourcesTemplatesList (cursor_params cursor) (parse_list ResourceTemplate_from_json "resourceTemplates").
Definition client_read_resource now (uri : string) : st world (Result ReadResourceResult) :=
  request_and now kResourcesRead (object_params [("uri", JString uri)]) parse_contents_result.
Definition client_subscribe_resource now (uri : string) : st world (Result unit) :=
  request_and now kResourcesSubscribe (object_params [("uri", JString uri)]) (fun _ => Val (Ok tt)).
Definition client_unsubscribe_resource now (uri : string) : st world (Result unit) :=
  request_and now kResourcesUnsubscribe (object_params [("uri", JString uri)]) (fun _ => Val (Ok tt)).
Definition client_list_prompts now cursor : st world (Result (ListResult Prompt)) :=
  request_and now kPromptsList (cursor_params cursor) (parse_list Prompt_from_json "prompts").
Definition client_get_prompt now (name : string) (arguments : json) : st world (Result GetPromptResult) :=
  request_and now kPromptsGet (object_params [("name", JString name); ("arguments", arguments)]) parse_prompt_result.
Definition client_complete now (ref : object) (argument value : string) : st world (Result CompleteResult) :=
  request_and now kCompletionComplete
    (object_params [("ref", JObject ref);
                    ("argument", JObject (make_object [("name", JString argument); ("value", JString value)]))])
    parse_completion.
Definition client_complete_prompt now (name argument value : string) : st world (Result CompleteResult) :=
  client_complete now (make_object [("type", JString "ref/prompt"); ("name", JString name)]) argument value.
Definition client_complete_resource now (uri_template argument value : string) : st world (Result CompleteResult) :=
  client_complete now (make_object [("type", JString "ref/resource"); ("uri", JString uri_template)]) argument value.
Definition client_set_logging_level now (l : LoggingLevel) : st world (Result unit) :=
  request_and now kLoggingSetLevel (object_params [("level", JString (logging_level_to_string l))])
    (fun _ => Val (Ok tt)).
End program.

(** ** What the server writes, the client reads *)

Lemma parse_list_page {A} (to : A -> json) (get : json -> outcome A) (page : Page A) key :
  key <> "nextCursor" -> (forall x, x ∈ page_items page -> get (to x) = Val x) ->
  parse_list get key (page_to_json to page key) = Val (Ok (mkListResult (page_items page) (next_cursor page))).
Proof.
  intros Hk Hx. destruct page as [items next]. cbn [page_items next_cursor] in *. unfold parse_list, page_to_json.
  cbn [page_items next_cursor make_object fold_left obj_emplace obj_find obj_set]. unfold at_key.
  rewrite obj_find_set_optional_ne by done. cbn [obj_find obj_set fst snd]. rewrite String.eqb_refl. cbn [mbind outcome_bind].
  unfold list_to_json. cbn [get_vector]. rewrite mapM_outcome_Val by done. cbn [mbind outcome_bind].
  rewrite (get_optional_set JString _ _ "nextCursor" next); [done| |by intros ? _].
  rewrite obj_find_set_optional_eq. destruct next; [done|]. cbn [obj_find].
  destruct (String.eqb_spec "nextCursor" key); [congruence|done].
Qed.

Lemma parse_prompt_messages_map l :
  parse_prompt_messages (PromptMessage_to_json <$> l) = Val (Ok l).
Proof.
  induction l as [|[r c] l IH]; [done|]. rewrite fmap_cons. cbn [parse_prompt_messages].
  unfold parse_prompt_message at 1, PromptMessage_to_json at 1. unfold try_bind at 1. json_lookup.
  unfold try_bind at 1. rewrite content_roundtrip_lemma. cbn [mbind outcome_bind]. rewrite role_roundtrip. simpl.
  unfold try_bind. by rewrite IH.
Qed.

Lemma call_result_read r : parse_call_result (CallToolResult_to_json r) = Val (Ok r).
Proof.
  destruct r as [content e]. unfold parse_call_result, CallToolResult_to_json. json_lookup. unfold try_bind.
  by rewrite parse_contents_map by apply Forall_true, content_roundtrip_lemma.
Qed.

(** C31: every typed request reads back what the server's handler wrote: pages of
    definitions with their cursor, tool results, resource contents, prompts,
    and completions up to the hundred values the server sends. *)
Theorem client_reads_answers :
  (forall page : Page Tool, Forall wf_tool (page_items page) ->
     parse_list Tool_from_json "tools" (page_to_json Tool_to_json page "tools") =
       Val (Ok (mkListResult (page_items page) (next_cursor page)))) /\
  (forall page : Page Resource,
     parse_list Resource_from_json "resources" (page_to_json Resource_to_json page "resources") =
       Val (Ok (mkListResult (page_items page) (next_cursor page)))) /\
  (forall page : Page ResourceTemplate,
     parse_list ResourceTemplate_from_json "resourceTemplates"
       (page_to_json ResourceTemplate_to_json page "resourceTemplates") =
       Val (Ok (mkListResult (page_items page) (next_cursor page)))) /\
  (forall page : Page Prompt,
     parse_list Prompt_from_json "prompts" (page_to_json Prompt_to_json page "prompts") =
       Val (Ok (mkListResult (page_items page) (next_cursor page)))) /\
  (forall r, parse_call_result (CallToolResult_to_json r) = Val (Ok r)) /\
  (forall r, parse_contents_result (ReadResourceResult_to_json r) = Val (Ok r)) /\
  (forall r, parse_prompt_result (GetPromptResult_to_json r) = Val (Ok r)) /\
  (forall r, parse_completion (CompleteResult_to_json r) =
     Val (Ok (mkCompleteResult (take 100 (cr_values r)) (cr_total r) (cr_has_more r)))).
Proof.
  split_and!.
  - intros page Hp. apply parse_list_page; [done|]. intros x Hx. apply Tool_roundtrip.
    rewrite Forall_forall in Hp. by apply Hp.
  - intros page. apply parse_list_page; [done|]. intros x _. apply Resource_roundtrip.
  - intros page. apply parse_list_page; [done|]. intros x _. apply ResourceTemplate_roundtrip.
  - intros page. apply parse_list_page; [done|]. intros x _. apply Prompt_roundtrip.
  - apply call_result_read.
  - intros [l]. unfold parse_contents_result, ReadResourceResult_to_json. json_lookup.
    rewrite mapM_outcome_Val; [done|]. intros y _. apply ResourceContents_roundtrip.
  - intros [d l]. unfold parse_prompt_result, GetPromptResult_to_json. cbn [gpr_description gpr_messages].
    read_optional JString "description" d. json_lookup. unfold try_bind. by rewrite parse_prompt_messages_map.
  - intros [values total more]. unfold parse_completion, CompleteResult_to_json. cbn [cr_values cr_total cr_has_more].
    json_lookup. autorewrite with json. simpl. rewrite mapM_outcome_Val by done. by destruct total, more.
Qed.

(** ** Elicited content is checked *)

(** What the handler may answer: accepted content conforms to the schema of the
    request. *)
Definition acceptable (request : ElicitRequest) (result : ElicitResult) : Prop :=
  forall schema content, el_action result = Accept -> requested_schema request = Some schema ->
    el_content result = Some content -> conforms content schema.

Lemma check_elicited_spec `{JsonText} request result :
  check_elicited request result = Val (Ok tt) <-> acceptable request result.
Proof.
  unfold check_elicited, acceptable. destruct (el_action result); [|by split..].
  destruct (requested_schema request) as [schema|]; [|by split].
  destruct (el_content result) as [content|]; [|by split].
  unfold validate_schema. pose proof (validate_at_conforms schema content EmptyString) as Hv.
  destruct (validate_at schema content EmptyString) as [[[]|e]|x|]; cbn [mbind outcome_bind];
    (split; [intros Ho; simplify_eq; intros ? ? _ [= <-] [= <-]; by apply Hv|
             intros Hc; specialize (Hc _ _ eq_refl eq_refl eq_refl); apply Hv in Hc; by simplify_eq]).
Qed.

(** C32: the client's handler of elicitation/create passes the request to the
    application's function once, and answers with its result exactly when an
    accepted content conforms to the schema that was requested. *)
Theorem elicitation_checked `{JsonText} {W : Type} (call : ElicitRequest -> st W (Result ElicitResult))
    request result p (w w' : W) :
  ElicitRequest_from_json p = Val (Ok request) -> call request w = (w', Val (Ok result)) ->
  (elicit (Some call) (Some p) w).1 = w' /\
  (acceptable request result <-> elicit (Some call) (Some p) w = (w', Val (Ok (ElicitResult_to_json result)))).
Proof.
  intros Hp Hc. unfold elicit, try. run. rewrite Hp, Hc. rewrite <- check_elicited_spec.
  by destruct (check_elicited request result) as [[[]|e]|x|].
Qed.

Module ClientDemo.
Definition schema : json := JObject (make_object [("type", JString "object")]).
Definition request : ElicitRequest := mkElicitRequest "your name?" (Some schema) None.
Definition ask (r : ElicitRequest) : st nat (Result ElicitResult) :=
  _ ← modify S; mret (Ok (mkElicitResult Accept (Some (JString "Ann")))).
End ClientDemo.

#[local] Existing Instance BitText.text.

(** A string is not the object that was asked for. *)
Lemma elicitation_checked_witness :
  elicit (Some ClientDemo.ask) (Some (ElicitRequest_to_json ClientDemo.request)) 0 <>
  (1, Val (Ok (ElicitResult_to_json (mkElicitResult Accept (Some (JString "Ann")))))).
Proof.
  intros E. apply (proj2 (elicitation_checked ClientDemo.ask ClientDemo.request
    (mkElicitResult Accept (Some (JString "Ann"))) (ElicitRequest_to_json ClientDemo.request) 0 1 eq_refl eq_refl)) in E.
  specialize (E _ _ eq_refl eq_refl eq_refl). apply (validate_at_conforms _ _ EmptyString) in E.
  vm_compute in E. discriminate.
Defined.

(** ** Capabilities and handlers agree *)

Section gates.
Context {SH EH CB UB LB : Type}.
Implicit Type c : Client SH EH CB UB LB.

Lemma find_set_notification_other {R N L} (r : Router R N L) k h method :
  find_request_handler method (set_notification_handler k h r) = find_request_handler method r.
Proof. unfold find_request_handler, set_notification_handler. by destruct (is_wildcard k). Qed.

Lemma wire_notices_other {C} l (r : Router (request_closure ClientHandler) (notification_closure ClientNotice) C) method :
  find_request_handler method (foldl (fun r entry => set_notification_handler entry.1 (NUser entry.2) r) r l) =
  find_request_handler method r.
Proof. revert r. induction l as [|x l IH]; intros r; [done|]. simpl. by rewrite IH, find_set_notification_other. Qed.

Lemma wire_lookup {C} c (r : Router (request_closure ClientHandler) (notification_closure ClientNotice) C) method h :
  (method, h) ∈ wired_requests -> find_request_handler method (wire_router c r) = Some (RUser h).
Proof.
  intros Hin. unfold wire_router. rewrite wire_notices_other. cbn [foldl wired_requests fst snd].
  rewrite !find_set_request_handler by reflexivity. unfold wired_requests in Hin.
  repeat (apply elem_of_cons in Hin as [[= -> ->]|Hin]; [reflexivity|]). by apply not_elem_of_nil in Hin.
Qed.

(** A session the client creates serves sampling/createMessage exactly when
    a sampling handler is set, elicitation/create exactly when an elicitation
    handler is, and roots/list exactly when roots are enabled or present; each
    then reaches its handler. *)
Theorem client_serves_declared {C} c (r : Router (request_closure ClientHandler) (notification_closure ClientNotice) C) :
  let check method := check_incoming_request (ClientSession (client_options c)) Operating method in
  (check kSamplingCreateMessage = None <-> is_Some (sampling_handler c)) /\
  (check kElicitationCreate = None <-> is_Some (elicitation_handler c)) /\
  (check kRootsList = None <-> roots_enabled c = true \/ list_roots (cl_roots c) <> []) /\
  (forall method h, (method, h) ∈ wired_requests ->
     find_request_handler method (wire_router c r) = Some (RUser h)).
Proof.
  intros check. split_and!; [| | |apply wire_lookup]; unfold check; simpl; unfold gate; simpl; rewrite declared_iff.
  - unfold declared. case_bool_decide; simpl; split; done.
  - unfold declared. case_bool_decide; simpl; split; done.
  - unfold roots_size, list_roots. destruct (roots_enabled c); simpl; [naive_solver|].
    destruct (provider_roots (cl_roots c)); simpl; naive_solver.
Qed.
End gates.
