(* ===== verification/Remote.v ===== *)
(** * A client and a server, end to end

    The client of Client.v connected to the server of Program.v: a request
    method of the client is a call of the server's handler.  The two are joined
    by a link that hands each message over at once and keeps the answers until
    the client's reader thread takes them.  The other direction is sampling:
    the server's tool loop against the client's handler. *)

From S2P Require Import Prelude Json Core Types Message Content Schema Protocol State Router Session SessionFacts.
From S2P Require Import Pagination Registry ToolRegistry PromptProvider ResourceProvider Logging Server Program.
From S2P Require Import Sampling Roots Client.

(** ** The link *)

(** What a peer does with a message, and the messages it sends meanwhile. *)
Class Peer (P : Type) := deliver : Message -> P -> P * list Message.

Record Link (P : Type) := mkLink { link_peer : P; link_inbox : list Message }.
Arguments mkLink {P}.
Arguments link_peer {P}.
Arguments link_inbox {P}.

Definition link_send {P} `{!Peer P} (m : Message) : st (Link P) unit :=
  modify (fun l => let '(p, ms) := deliver m (link_peer l) in mkLink p (link_inbox l ++ ms)).

#[export] Instance link_transport {P} `{!Peer P} : Transport (Link P) := {|
  t_connect := skip;
  t_disconnect := skip;
  t_send := link_send;
  t_send_batch ms := for_each link_send ms;
|}.

(** A server's session on a wire is a peer. *)
Section server_peer.
Context {U V K A : Type} {APP : Application (Demo.wire * A) U V K}.

Definition take_wire (s : Session (Demo.wire * A) U V K) : Session (Demo.wire * A) U V K * list Message :=
  (set_transport ([], (transport s).2) s, (transport s).1).

Definition session_peer : Peer (Session (Demo.wire * A) U V K) :=
  fun m s => take_wire (handle_message 0 m s).1.
End server_peer.

(** What JSON text keeps of a result. *)
Definition normalize_result (r : Result json) : Result json :=
  match r with Ok j => Ok (normalize j) | Err e => Err (normalize_error e) end.

Lemma normalize_response id r :
  normalize_message (MResponse (response_of id r)) = MResponse (response_of id (normalize_result r)).
Proof. by destruct r. Qed.

(** ** A request of the client *)

Section remote.
Context {P SH EH CB UB LB K : Type} {PR : Peer P} {JT : JsonText}.
#[local] Abbreviation client := (Client SH EH CB UB LB).
#[local] Abbreviation world := (Session (Link P * client) ClientHandler ClientNotice K).
Context {APP : Application (Link P * client) ClientHandler ClientNotice K}.

Definition peer_of (w : world) : P := link_peer (transport w).1.
Definition inbox (w : world) : list Message := link_inbox (transport w).1.

(** The client's reader thread: it handles what is in the inbox. *)
Definition pump (slot : nat) : st world unit :=
  ms ← gets inbox;
  _ ← modify (fun w => set_transport (mkLink (peer_of w) [], (transport w).2) w);
  for_each (handle_message 0) ms.

(** Handling the response to a request that waits on a slot. *)
Definition replied (id : RequestId) (slot : nat) (r : Result json) (w : world) : world :=
  let w1 := set_timers (clear_timers id (timers w)) w in
  let w2 := set_router (take_pending id (session_router w1)).2 w1 in
  let w3 := log (Called (CSlot slot) r) w2 in
  set_slots (<[slot := Some r]> (slots w3)) w3.

Lemma handle_reply now id slot r (w : world) :
  pending (session_router w) !! id = Some (CSlot slot) ->
  handle_message now (MResponse (response_of id r)) w = (replied id slot r w, Val tt).
Proof.
  intros Hp. unfold handle_message, clear_tracking. destruct r as [j|e]; cbn [response_of rsp_id];
    unfold dispatch, on_router, call_back; cbn [rsp_id rsp_error rsp_result default]; run;
    cbn [router with_router owner set_timers session_router]; unfold replied, take_pending;
    cbn [session_router set_timers]; rewrite Hp; reflexivity.
Qed.

(** Sending a request and blocking until its slot is filled. *)
Definition request_and_wait (now : Z) (method : string) (params : option json) (options : RequestOptions) : st world (Result json) :=
  slot ← send_request_sync now method params options; await pump slot.

(** The response to a request arrives at the caller. *)
Lemma request_and_wait_answered now method params options (w : world) p' r :
  inbox w = [] -> ro_progress_token options = None ->
  let id := IdInt (next_request_id w) in
  deliver (MRequest (mkRequest id method params)) (peer_of w) = (p', [MResponse (response_of id r)]) ->
  exists w', request_and_wait now method params options w = (w', Val r) /\ peer_of w' = p' /\ inbox w' = [] /\
             client_of w' = client_of w /\ state w' = state w /\ kind w' = kind w /\ peer w' = peer w.
Proof.
  intros Hi Ho id Hd. unfold request_and_wait. set (slot := length (slots w)).
  set (w1 := registered now (CSlot slot) options (set_slots (slots w ++ [None]) w)).
  set (w2 := log (Sent (MRequest (mkRequest id method params))) w1).
  set (w3 := set_transport (mkLink p' [MResponse (response_of id r)], client_of w) w2).
  assert (t_send (MRequest (mkRequest id method params)) (transport w) =
            ((mkLink p' [MResponse (response_of id r)], client_of w), Val tt)) as Ht.
  { unfold t_send, paired_transport, zoom, link_transport, link_send, modify. unfold inbox, peer_of in *.
    cbn. rewrite Hd, Hi. done. }
  assert (send_request_sync now method params options w = (w3, Val slot)) as Hsend.
  { unfold send_request_sync, send_request, new_slot, fetch_id. run. rewrite Ho.
    unfold send_message, emit, on_transport, zoom. run.
    match goal with |- context [t_send ?m ?t] => change (t_send m t) with (t_send (MRequest (mkRequest id method params)) (transport w)) end.
    rewrite Ht. reflexivity. }
  rewrite (st_bind_val _ _ _ _ _ Hsend). unfold await, pump. run.
  change (inbox w3) with [MResponse (response_of id r)]. cbn [for_each]. run.
  rewrite handle_reply with (slot := slot).
  2:{ unfold w3, w2, w1. apply lookup_insert_eq. }
  assert (forall x, slot_get slot (replied id slot r x) = Some r \/ length (slots x) <= slot) as Hget.
  { intros x. unfold slot_get, replied. destruct (decide (slot < length (slots x))); [left|right; lia].
    cbn [slots set_slots log set_router set_timers]. by rewrite list_lookup_insert_eq. }
  edestruct Hget as [->|Hle]; [by eexists|]. exfalso. revert Hle. unfold w3, w2, w1, slot.
  cbn [slots set_transport log registered set_timers set_router set_next_request_id set_slots]. rewrite length_app. simpl. lia.
Qed.

Lemma client_request_reply now method params (w : world) p' r :
  has_session (client_of w) = true -> inbox w = [] ->
  let id := IdInt (next_request_id w) in
  deliver (MRequest (mkRequest id method params)) (peer_of w) = (p', [MResponse (response_of id r)]) ->
  exists w', client_request pump now method params w = (w', Val r) /\ peer_of w' = p' /\ inbox w' = [] /\
             client_of w' = client_of w /\ state w' = state w.
Proof.
  intros Hs Hi id Hd. unfold client_request. rewrite (st_bind_val _ _ w w (client_of w)) by done. rewrite Hs.
  edestruct (request_and_wait_answered now method params) as (w' & H1 & H2 & H3 & H4 & H5 & _); [exact Hi| |exact Hd|by exists w'].
  done.
Qed.
End remote.

(** ** Calling a server's handler *)

Section end_to_end.
Context {HT HR HP SK V C SH EH CB UB LB K : Type} {JT : JsonText}.
#[local] Abbreviation server := (Server HT HR HP SK unit).
#[local] Abbreviation server_world := (Session (Demo.wire * server) ServerHandler V C).
#[local] Abbreviation client := (Client SH EH CB UB LB).

(** The server's functions and callbacks. *)
Context (tool_fn : HT -> json -> st server_world CallToolResult).
Context (read_fn : HR -> string -> st server_world (Result ReadResourceResult)).
Context (prompt_fn : HP -> json -> st server_world (Result GetPromptResult)).
Context (complete_fn : SK -> string -> st server_world CompleteResult).
Context (notification_fn : V -> option json -> st server_world unit).
Context (response_fn : C -> Result json -> st server_world unit).
Context (progress_fn : C -> ProgressNotification -> st server_world unit).
Context (close_fn : C -> st server_world unit).
Context (error_fn : C -> Error -> st server_world unit).

#[local] Instance server_app : Application (Demo.wire * server) ServerHandler V C :=
  application tool_fn read_fn prompt_fn complete_fn notification_fn response_fn progress_fn close_fn error_fn.
#[local] Instance sessions : Sessions HT HR HP SK unit server_world := single tool_fn read_fn prompt_fn complete_fn.
#[local] Instance peer : Peer server_world := session_peer.
#[local] Abbreviation world := (Session (Link server_world * client) ClientHandler ClientNotice K).
Context {APP : Application (Link server_world * client) ClientHandler ClientNotice K}.

(** A server session that is ready, with nothing on its wire. *)
Record ready (o : ServerOptions) (sw : server_world) : Prop := mkReady {
  rd_kind : kind sw = ServerSession o;
  rd_state : state sw = Operating;
  rd_router : exists r, session_router sw = install r;
  rd_wire : (transport sw).1 = [];
}.

Definition calm (w : world) : Prop := has_session (client_of w) = true /\ inbox w = [].

#[local] Abbreviation run_handler := (Program.run_handler tool_fn read_fn prompt_fn complete_fn).

Lemma deliver_request o id method h params (sw sw' : server_world) res :
  ready o sw -> accepted o method -> method <> kInitialize -> method <> kPing -> (method, h) ∈ handler_table ->
  run_handler h params sw = (sw', Val res) -> (transport sw').1 = [] ->
  deliver (MRequest (mkRequest id method params)) sw =
    (log (Sent (MResponse (response_of id res))) sw', [MResponse (response_of id res)]).
Proof.
  intros [Hk Hs [r Hr] Hw] Ha Hi Hp Hin Hrun Hw'. unfold deliver, peer, session_peer, server_app.
  rewrite (handle_request_serve _ _ _ _ _ _ _ _ _ 0 o r id method h params sw) by done.
  rewrite (st_bind_val _ _ _ _ _ Hrun). unfold send_message, emit, on_transport, zoom. run.
  change (transport (log _ sw')) with (transport sw'). unfold t_send, paired_transport, zoom, Demo.wire_transport. run.
  destruct sw' as [? [wire srv] ? ? ? ? ? ? ? ? ?]. cbn in Hw'. by subst wire.
Qed.

Lemma handler_methods method (h : ServerHandler) :
  (method, h) ∈ handler_table -> method <> kInitialize /\ method <> kPing.
Proof.
  unfold handler_table. intros Hin.
  repeat (apply elem_of_cons in Hin as [[= -> _]|Hin]; [by split|]). by apply not_elem_of_nil in Hin.
Qed.

Lemma remote_request_run o now method h params (w : world) sw' res :
  calm w -> ready o (peer_of w) -> accepted o method -> (method, h) ∈ handler_table ->
  run_handler h params (peer_of w) = (sw', Val res) -> (transport sw').1 = [] ->
  exists w', client_request pump now method params w = (w', Val res) /\ calm w' /\
    client_of w' = client_of w /\ state w' = state w /\
    peer_of w' = log (Sent (MResponse (response_of (IdInt (next_request_id w)) res))) sw'.
Proof.
  intros [Hs Hb] Hr Ha Hin Hrun Hw. destruct (handler_methods method h Hin) as [Hi Hp].
  destruct (client_request_reply now method params w _ res Hs Hb
              (deliver_request o _ method h params _ sw' res Hr Ha Hi Hp Hin Hrun Hw)) as (w' & H1 & H2 & H3 & H4 & H5).
  exists w'. split_and!; try done. split; [by rewrite H4|done].
Qed.

(** A request of the client is a call of the server's handler: it returns
    exactly what the handler returns, its errors and exceptions included, and
    leaves the server as the handler left it, but for the log of the response
    that was sent. *)
Theorem remote_request o now method h params (w : world) sw' res :
  calm w -> ready o (peer_of w) -> accepted o method -> (method, h) ∈ handler_table ->
  run_handler h params (peer_of w) = (sw', Val res) -> (transport sw').1 = [] ->
  exists w', client_request pump now method params w = (w', Val res) /\ calm w' /\
    client_of w' = client_of w /\ state w' = state w /\
    peer_of w' = log (Sent (MResponse (response_of (IdInt (next_request_id w)) res))) sw'.
Proof. apply remote_request_run. Qed.

(** Calling a tool over the protocol is calling its function: with arguments
    that conform to the tool's schema, the client's [call_tool] returns the
    result the function computed on the server, or the error result that
    carries the message of its exception. *)
Theorem remote_call_tool o now name arguments tool h (w : world) sw' r :
  calm w -> ready o (peer_of w) -> accepted o kToolsCall ->
  NoDup (entry_names (tools (srv_tools (server_of (peer_of w))))) ->
  (tool, h) ∈ tools (srv_tools (server_of (peer_of w))) -> tool_name tool = name ->
  conforms arguments (input_schema tool) ->
  tool_fn h arguments (peer_of w) = (sw', r) -> r <> Undefined -> (transport sw').1 = [] ->
  exists w', calm w' /\
    client_call_tool pump now name arguments w =
      (w', Val (Ok (match r with Throw x => failed (what x) | Val x => x | Undefined => failed EmptyString end))).
Proof.
  intros Hc Hr Ha Hnd Hin Hname Hconf Hfn Hu Hw.
  set (result := match r with Throw x => failed (what x) | Val x => x | Undefined => failed EmptyString end).
  destruct (remote_request_run o now kToolsCall HToolsCall
              (Some (JObject [("arguments", arguments); ("name", JString name)])) w sw'
              (Ok (CallToolResult_to_json result))) as (w' & H1 & H2 & _); try done.
  - right. left.
  - unfold Program.run_handler, catch. change (single tool_fn read_fn prompt_fn complete_fn) with sessions.
    rewrite (serve_tools_call _ _ _ _ name arguments tool h (peer_of w) Hnd Hin Hname Hconf), Hfn.
    unfold result. by destruct r.
  - exists w'. split; [done|]. unfold client_call_tool, request_and, try, object_params.
    change (make_object _) with [("arguments", arguments); ("name", JString name)].
    rewrite (st_bind_val _ _ _ _ _ H1). unfold lift. by rewrite call_result_read.
Qed.
End end_to_end.

(** ** Sampling, end to end

    The tool loop of the server's side against the sampling handler of the
    client's: all that is left of the protocol is a conversation between the
    model and the executor. *)

Section sampling.
Context {W : Type} (model : CreateMessageParams -> st W (Result CreateMessageResult)).
Context (execute_tool : ToolUse -> st W ToolResult).

(** The client's answer to sampling/createMessage, as its session sends it. *)
Definition client_answer (j : json) : st W (Result json) :=
  catch (create_message (Some model) (Some j)) (fun x => mret (Err (error_of x))).

(** The model's answer, its exceptions turned into errors. *)
Definition ask_model (p : CreateMessageParams) : st W (Result CreateMessageResult) :=
  catch (parse_response_st (model p)) (fun x => mret (Err (error_of x))).

Fixpoint converse (turns : nat) (p : CreateMessageParams) : st W (Result CreateMessageResult) :=
  match turns with
  | O => mret (Err (error InternalError "sampling tool-use loop exceeded max turns"))
  | S turns' =>
      answer ← ask_model p;
      match answer with
      | Err e => mret (Err e)
      | Ok r =>
          match tool_uses (cmr_content r) with
          | [] => mret (Ok r)
          | uses =>
              p ← push_results execute_tool uses (add_messages (mkSamplingMessage Assistant <$> cmr_content r) p);
              converse turns' p
          end
      end
  end.

Lemma client_answer_model p w :
  wf_params p ->
  client_answer (CreateMessageParams_to_json p) w =
    let '(w', o) := ask_model p w in
    (w', match o with
         | Val (Ok r) => Val (Ok (CreateMessageResult_to_json r))
         | Val (Err e) => Val (Err e)
         | Throw x => Throw x
         | Undefined => Undefined
         end).
Proof.
  intros Hp. unfold client_answer, ask_model, create_message, parse_response_st, try. run.
  rewrite (CreateMessageParams_read p Hp). by destruct (model p w) as [w' [[r|e]|[]|]].
Qed.

Lemma wf_add_messages l p : wf_params p -> wf_params (add_messages l p).
Proof. by intros (? & ? & ?). Qed.

Lemma push_results_wf uses p s s' p' :
  wf_params p -> push_results execute_tool uses p s = (s', Val p') -> wf_params p'.
Proof.
  revert p s. induction uses as [|u uses IH]; intros p s Hp; cbn [push_results]; [by intros [= _ <-]|].
  intros H. apply st_bind_inv in H as [(s1 & r & _ & H)|[(? & _ & ?)|[_ ?]]]; [|done|done].
  by eapply IH; [|exact H].
Qed.

Lemma tool_loop_converse turns p w :
  wf_params p -> tool_loop client_answer execute_tool turns p w = converse turns p w.
Proof.
  revert p w. induction turns as [|turns IH]; intros p w Hp; [done|]. cbn [tool_loop converse].
  run. rewrite client_answer_model by done.
  destruct (ask_model p w) as [w' [[r|e]|x|]]; try done.
  rewrite CreateMessageResult_read. destruct (tool_uses (cmr_content r)) as [|u uses]; [done|].
  destruct (push_results _ _ _ w') as [w2 [p2|x|]] eqn:E; try done. apply IH.
  eapply push_results_wf; [|exact E]. by apply wf_add_messages.
Qed.

(** C9: the server's tool loop, its requests answered by a client with a
    sampling handler, is the conversation between the handler and the executor:
    nothing of the parameters, the answers, the tool uses or the results is
    lost on the way, whatever the handler and the executor do. *)
Theorem sampling_end_to_end max_turns p (w : W) :
  wf_params p ->
  run_sampling_tool_loop client_answer execute_tool max_turns p w = converse (Z.to_nat max_turns) p w.
Proof. apply tool_loop_converse. Qed.
End sampling.

Lemma sampling_end_to_end_witness :
  let model (p : CreateMessageParams) : st nat (Result CreateMessageResult) :=
    fun n => (S n, Val (Ok (if n =? 0 then SamplingDemo.first else SamplingDemo.last))) in
  run_sampling_tool_loop (client_answer model) SamplingDemo.execute_tool 8 SamplingDemo.params 0 =
  (2, Val (Ok SamplingDemo.last)).
Proof.
  intros model. rewrite (sampling_end_to_end model SamplingDemo.execute_tool 8 SamplingDemo.params 0); [done|].
  by split_and!.
Defined.

(** ** A concrete pair

    The server of [Program.Sample], and a client that is connected to it. *)
Module RemoteDemo.
#[local] Existing Instance BitText.text.

Definition client : Type := Client nat nat nat nat nat.
Definition app : Application (Demo.wire * Sample.server) ServerHandler nat nat :=
  application Sample.tool_fn (fun _ _ => lift Undefined) (fun _ _ => lift Undefined) (fun _ _ => lift Undefined)
    (fun _ _ => skip) (fun _ _ => skip) (fun _ _ => skip) (fun _ => skip) (fun _ _ => skip).

Definition link : Link Sample.world := mkLink Sample.operating [].
Definition the_client : client := with_session true (make_client "demo" "1.0").
Definition world : Type := Session (Link Sample.world * client) ClientHandler ClientNotice nat.

Definition peer : Peer Sample.world := session_peer (APP := app).
Definition client_app : Application (Link Sample.world * client) ClientHandler ClientNotice nat :=
  client_application  (fun _ _ => lift Undefined) (fun _ _ => lift Undefined)
    (fun _ => skip) (fun _ _ => skip) (fun _ _ => skip) (fun _ _ => skip) (fun _ _ => skip) (fun _ => skip)
    (fun _ _ => skip).

Definition start : world :=
  set_state Operating (make_session (ClientSession (client_options the_client)) (link, the_client)).

Lemma start_calm : calm start.
Proof. done. Qed.
Lemma start_ready : ready (server_options Sample.initial_server) (peer_of start).
Proof. split; try done. by exists (session_router Sample.start). Qed.
Lemma tools_accepted : accepted (server_options Sample.initial_server) kToolsCall.
Proof.
  intros prefix b Hin. repeat (apply elem_of_cons in Hin as [[= -> ->]|Hin]; [done|]). by apply not_elem_of_nil in Hin.
Qed.
Lemma tools_list_accepted : accepted (server_options Sample.initial_server) kToolsList.
Proof.
  intros prefix b Hin. repeat (apply elem_of_cons in Hin as [[= -> ->]|Hin]; [done|]). by apply not_elem_of_nil in Hin.
Qed.
End RemoteDemo.

Section demo.
#[local] Existing Instances BitText.text RemoteDemo.peer RemoteDemo.client_app.

Lemma remote_request_witness :
  exists w', client_request pump 0 kToolsList None RemoteDemo.start =
    (w', Val (Ok (page_to_json Tool_to_json (mkPage [Sample.echo] None) "tools"))).
Proof.
  edestruct (remote_request Sample.tool_fn (fun _ _ => lift Undefined) (fun _ _ => lift Undefined)
    (fun _ _ => lift Undefined) (fun _ _ => skip) (fun _ _ => skip) (fun _ _ => skip) (fun _ => skip)
    (fun _ _ => skip) (server_options Sample.initial_server) 0 kToolsList HToolsList None RemoteDemo.start
    (peer_of RemoteDemo.start) (Ok (page_to_json Tool_to_json (mkPage [Sample.echo] None) "tools"))
    RemoteDemo.start_calm RemoteDemo.start_ready RemoteDemo.tools_list_accepted) as (w' & Hw & _).
  - left.
  - vm_compute. reflexivity.
  - reflexivity.
  - exists w'. exact Hw.
Defined.

Lemma remote_call_tool_witness :
  exists w', client_call_tool pump 0 "echo" (JObject []) RemoteDemo.start =
    (w', Val (Ok (mkCallToolResult [text_content "done"] false))).
Proof.
  edestruct (remote_call_tool Sample.tool_fn (fun _ _ => lift Undefined) (fun _ _ => lift Undefined)
    (fun _ _ => lift Undefined) (fun _ _ => skip) (fun _ _ => skip) (fun _ _ => skip) (fun _ => skip)
    (fun _ _ => skip) (server_options Sample.initial_server) 0 "echo" (JObject []) Sample.echo 1 RemoteDemo.start
    (peer_of RemoteDemo.start) (Val (mkCallToolResult [text_content "done"] false))
    RemoteDemo.start_calm RemoteDemo.start_ready RemoteDemo.tools_accepted) as (w' & _ & Hw).
  - apply NoDup_singleton.
  - apply list_elem_of_singleton. reflexivity.
  - reflexivity.
  - apply (validate_at_conforms _ _ EmptyString). vm_compute. reflexivity.
  - reflexivity.
  - discriminate.
  - reflexivity.
  - exists w'. exact Hw.
Defined.
End demo.
