(* ===== verification/Handshake.v ===== *)
(** * Connecting a client to a server

    [Server::run] (src/server/server.cpp) and [Client::connect]
    (src/client/client.cpp), from freshly made objects: what [connect] returns
    and leaves behind for any answer of the peer, and that a client and a
    server of this SDK always reach the ready states that Remote.v starts
    from.  The answer [connect] waits for is taken by the client's reader
    thread, as in Remote.v. *)

From S2P Require Import Prelude Json Core Types Message Content Schema Protocol State Router Session SessionFacts.
From S2P Require Import Pagination Registry ToolRegistry PromptProvider ResourceProvider Logging Server Program.
From S2P Require Import Sampling Roots Client Remote.

(** ** The client's side, for any peer *)

Section connect.
Context {P SH EH CB UB LB K : Type} {PR : Peer P} {JT : JsonText}.
#[local] Abbreviation client := (Client SH EH CB UB LB).
#[local] Abbreviation world := (Session (Link P * client) ClientHandler ClientNotice K).
Context {APP : Application (Link P * client) ClientHandler ClientNotice K}.

(** The request [connect] sends: the first of its session. *)
Definition initialize_params (c : client) : InitializeParams :=
  mkInitializeParams kProtocolVersion (client_caps c) (cl_info c).
Definition initialize_request (c : client) : Message :=
  MRequest (mkRequest (IdInt 1) kInitialize (Some (InitializeParams_to_json (initialize_params c)))).
Definition initialized_notification : Message := MNotification (mkNotification kNotificationInitialized None).

(** The session after [wire_session] and [connect], before [initialize]. *)
Definition wired_session (w : world) : world :=
  let c := with_session true (client_of w) in
  set_transport ((transport w).1, with_roots (set_roots_changed_callback (Some NotifyRootsChanged) (cl_roots c)) c)
    (set_router (wire_router c base_router) (make_session (ClientSession (client_options (client_of w))) ((transport w).1, c))).

Lemma client_initialize_wait now (w : world) o :
  state w = Uninitialized -> co_supported_versions o = [kProtocolVersion] -> (0 < co_initialize_timeout o)%Z ->
  client_initialize pump now o w =
    (response ← request_and_wait now kInitialize
       (Some (InitializeParams_to_json (mkInitializeParams kProtocolVersion (co_capabilities o) (co_client_info o))))
       (mkRequestOptions (Some (co_initialize_timeout o)) None None);
     initialize_end o response) (set_state Initializing w).
Proof.
  intros Hs Hv Ht. unfold client_initialize, initialize_begin, request_and_wait. run. rewrite Hs, Hv, (proj2 (Z.ltb_lt _ _) Ht).
  rewrite bool_decide_eq_true_2 by done. cbn [negb front].
  destruct (send_request_sync _ _ _ _ _) as [w1 [slot|x|]]; [|done|done]. by destruct (await pump slot w1) as [w2 [r|x|]].
Qed.

Lemma client_connect_wait now (w : world) :
  has_session (client_of w) = false ->
  client_connect pump now w =
    (init ← client_initialize pump now (client_options (client_of w));
     match init with
     | Ok r => mret (Ok r)
     | Err e => _ ← client_disconnect; _ ← reset_session; mret (Err e)
     end) (wired_session w).
Proof. intros Hs. unfold client_connect. run. rewrite Hs. reflexivity. Qed.

(** What [initialize] makes of the response, but for its effects. *)
Definition handshake_outcome (response : Result json) : outcome (Result InitializeResult) :=
  match response with
  | Err e => Val (Err e)
  | Ok j =>
      parsed ← catch_json (Ok <$> InitializeResult_from_json j)
                 (fun w => Err (error InternalError ("invalid initialize result: " +:+ w)));
      Val (match parsed with
           | Ok r =>
               if String.eqb (ir_protocol_version r) kProtocolVersion then Ok r
               else Err (error InvalidRequest ("unsupported protocol version: " +:+ ir_protocol_version r))
           | Err e => Err e
           end)
  end.

(** A connected client: ready to send requests, with nothing pending to read. *)
Record connected (w0 w : world) (r : InitializeResult) : Prop := mkConnected {
  cd_kind : kind w = ClientSession (client_options (client_of w0));
  cd_state : state w = Operating;
  cd_calm : has_session (client_of w) = true /\ inbox w = [];
  cd_server : client_server_capabilities w = Some (ir_capabilities r) /\ server_info (Session.peer w) = Some (ir_server_info r);
  cd_client : client_options (client_of w) = client_options (client_of w0);
}.

(** A client without a session, that may connect again. *)
Definition unconnected (w : world) : Prop := has_session (client_of w) = false.

Lemma wired_client (w : world) : client_options (client_of (wired_session w)) = client_options (client_of w).
Proof. by destruct w as [? [l c] ? ? ? ? ? ? ? ? ?]; destruct c. Qed.

Lemma link_sends m (w : world) p ms :
  deliver m (peer_of w) = (p, ms) ->
  send_message m w = (set_transport (mkLink p (inbox w ++ ms), client_of w) (log (Sent m) w), Val tt).
Proof.
  intros Hd. unfold send_message, emit, on_transport, zoom. run. unfold t_send, paired_transport, zoom, link_transport, link_send, modify.
  unfold inbox, peer_of in *. cbn. by rewrite Hd.
Qed.

(** The second half of [initialize]. *)
Lemma initialize_end_answered (w0 w : world) answer result :
  let o := client_options (client_of w0) in
  handshake_outcome answer = Val result ->
  kind w = ClientSession o -> client_options (client_of w) = o -> has_session (client_of w) = true -> inbox w = [] ->
  (forall r, result = Ok r -> (deliver initialized_notification (peer_of w)).2 = []) ->
  exists w', initialize_end o answer w = (w', Val result) /\
    match result with
    | Ok r => connected w0 w' r /\ peer_of w' = (deliver initialized_notification (peer_of w)).1
    | Err _ => has_session (client_of w') = true /\ peer_of w' = peer_of w
    end.
Proof.
  intros o Hout Hk Hc Hs Hi Hnote. destruct answer as [j|e]; cbn [handshake_outcome] in Hout.
  2:{ injection Hout as <-. by eexists. }
  unfold initialize_end. destruct (catch_json _ _) as [[r|e]|x|] eqn:Hp; cbn [mbind outcome_bind] in Hout; try done.
  2:{ injection Hout as <-. by eexists. }
  assert (co_supported_versions o = [kProtocolVersion]) as Hv by done.
  rewrite (st_bind_val _ _ w w (Ok r)) by done. rewrite Hv. cbn [find_if].
  destruct (String.eqb _ _) eqn:E; injection Hout as <-.
  - set (w1 := set_peer (mkPeer (client_info (Session.peer w)) (client_capabilities (Session.peer w))
                          (Some (ir_server_info r)) (Some (ir_capabilities r))) w).
    destruct (deliver initialized_notification (peer_of w)) as [p ms] eqn:Hd.
    specialize (Hnote r eq_refl). cbn [snd] in Hnote. subst ms.
    unfold send_notification. rewrite (st_bind_val _ _ w w1 tt) by done. rewrite (st_bind_val _ _ _ _ _ (link_sends _ w1 p [] Hd)).
    eexists. split; [reflexivity|]. split; [|done]. split; try done.
    + split; [done|]. change (inbox w ++ [] = []). by rewrite Hi.
    + unfold client_server_capabilities. change (client_of _) with (client_of w). by rewrite Hs.
  - by eexists.
Qed.

(** [connect], for any answer of the peer to its request: it returns the
    answer when it names the protocol version of the SDK, after the peer got
    the initialized notification, and otherwise, with an error, leaves the
    client without a session. *)
Lemma client_connect_answered now (w : world) p1 answer result :
  unconnected w -> inbox w = [] ->
  deliver (initialize_request (client_of w)) (peer_of w) = (p1, [MResponse (response_of (IdInt 1) answer)]) ->
  handshake_outcome answer = Val result ->
  (forall r, result = Ok r -> (deliver initialized_notification p1).2 = []) ->
  exists w', client_connect pump now w = (w', Val result) /\
    match result with
    | Ok r => connected w w' r /\ peer_of w' = (deliver initialized_notification p1).1
    | Err _ => unconnected w' /\ peer_of w' = p1
    end.
Proof.
  intros Hs Hi Hd Hout Hnote. unfold unconnected in Hs. set (c := client_of w) in *.
  rewrite client_connect_wait by done. set (o := client_options c).
  assert (client_initialize pump now o (wired_session w) = _) as Hinit by by apply client_initialize_wait.
  set (w1 := set_state Initializing (wired_session w)) in *.
  destruct (request_and_wait_answered now kInitialize (Some (InitializeParams_to_json (initialize_params c)))
              (mkRequestOptions (Some (co_initialize_timeout o)) None None) w1 p1 answer) as
    (w2 & Hw2 & Hpeer & Hinbox & Hclient & Hstate & Hkind & Hinfo); [exact Hi|done|exact Hd|].
  rewrite (st_bind_val _ _ _ _ _ Hw2) in Hinit.
  assert (client_of w1 = client_of (wired_session w)) as Hc1 by done.
  assert (client_options (client_of w2) = o) as Hc2 by by rewrite Hclient, Hc1, wired_client.
  assert (has_session (client_of w2) = true) as Hs2 by by rewrite Hclient; destruct w as [? [l c0] ? ? ? ? ? ? ? ? ?], c0.
  edestruct (initialize_end_answered w w2 answer result) as (w3 & Hw3 & Hres); try done.
  { by rewrite Hpeer. }
  fold c o in Hw3. rewrite Hw3 in Hinit. rewrite (st_bind_val _ _ _ _ _ Hinit). destruct result as [r|e].
  - eexists. split; [reflexivity|]. by rewrite <- Hpeer.
  - destruct Hres as [Hs3 Hp3]. rewrite Hpeer in Hp3. unfold client_disconnect. run. rewrite Hs3. eexists. split; [reflexivity|].
    by destruct w3 as [? [l c0] ? ? ? ? ? ? ? ? ?]; destruct c0.
Qed.
End connect.

(** ** The server's side *)

Section served.
Context {T HT HR HP SK V C : Type} `{!Transport T} {JT : JsonText}.
#[local] Abbreviation server := (Server HT HR HP SK unit).
#[local] Abbreviation server_world := (Session (T * server) ServerHandler V C).
Context {APP : Application (T * server) ServerHandler V C}.

(** A server session that was created and attached, before any message. *)
Record fresh (o : ServerOptions) (s : server_world) : Prop := mkFresh {
  fr_kind : kind s = ServerSession o;
  fr_state : state s = Uninitialized;
  fr_router : session_router s = install (kind_router (ServerSession o));
}.

Lemma install_initialize {N L} (r : Router (request_closure ServerHandler) N L) :
  find_request_handler kInitialize (install r) = find_request_handler kInitialize r.
Proof. unfold install. cbn [foldl handler_table fst snd]. by rewrite !find_set_request_handler by reflexivity. Qed.

Lemma install_notification {N L} (r : Router (request_closure ServerHandler) N L) method :
  find_notification_handler method (install r) = find_notification_handler method r.
Proof. reflexivity. Qed.

(** The session after the client's initialize request, but for its log and
    transport. *)
Definition introduced (id : RequestId) (p : InitializeParams) (s : server_world) : server_world :=
  set_state Initializing
    (set_peer (set_client_peer (Some (ip_client_info p)) (Some (ip_capabilities p)) (Session.peer s))
      (set_cancellations (mkCancellations (cancelled_incoming (cancellations s)) (Some id)) s)).

Definition introduction (o : ServerOptions) : InitializeResult :=
  mkInitializeResult kProtocolVersion (so_capabilities o) (so_server_info o) (so_instructions o).

Lemma handle_initialize_request now o id p (s : server_world) :
  fresh o s -> so_supported_versions o = [kProtocolVersion] -> ip_protocol_version p = kProtocolVersion ->
  wf_experimental (cc_experimental (ip_capabilities p)) ->
  handle_message now (MRequest (mkRequest id kInitialize (Some (InitializeParams_to_json p)))) s =
    send_message (MResponse (response_of id (Ok (InitializeResult_to_json (introduction o))))) (introduced id p s).
Proof.
  intros [Hk Hst Hr] Hv Hp Hx. unfold handle_message. cbn [req_method req_id]. change (String.eqb kInitialize kInitialize) with true.
  set (s1 := set_cancellations (mkCancellations (cancelled_incoming (cancellations s)) (Some id)) s).
  cbv iota. rewrite (st_bind_val _ _ s s1 tt) by done.
  rewrite (st_bind_val _ _ s1 s1 None) by (unfold gets, check_incoming_request; change (kind s1) with (kind s); by rewrite Hk).
  unfold dispatch. cbn [req_method req_params req_id]. unfold gets. run. cbn [router owner].
  change (session_router s1) with (session_router s). rewrite Hr, install_initialize.
  change (find_request_handler kInitialize (kind_router (ServerSession o))) with (Some (RInitialize (U := ServerHandler))).
  cbn [call_request owner run_request]. unfold handle_initialize, gets. run. change (kind s1) with (kind s). rewrite Hk.
  change (state s1) with (state s). rewrite Hst. cbn [negb andb bool_decide].
  rewrite bool_decide_eq_true_2 by done. cbn [negb andb]. rewrite InitializeParams_read by done. cbn [catch_json fmap outcome_fmap].
  rewrite Hv. cbn [front negotiate find_if]. rewrite Hp. unfold negotiate. cbn [find_if]. rewrite String.eqb_refl. reflexivity.
Qed.

Lemma handle_initialized_note now o (s : server_world) :
  state s = Initializing -> session_router s = install (kind_router (ServerSession o)) ->
  handle_message now initialized_notification s = (set_state Operating s, Val tt).
Proof.
  intros Hst Hr. unfold handle_message, initialized_notification, dispatch. cbn [ntf_method ntf_params]. unfold gets. run. cbn [router owner].
  rewrite Hr, install_notification.
  change (find_notification_handler kNotificationInitialized (kind_router (ServerSession o)))
    with (Some (NInitialized (V := V))).
  cbn [call_notification owner run_notification]. unfold handle_initialized, gets. run. by rewrite Hst, bool_decide_eq_true_2.
Qed.
End served.

(** ** The two together *)

Section handshake.
Context {HT HR HP SK V C SH EH CB UB LB K : Type} {JT : JsonText}.
#[local] Abbreviation server := (Server HT HR HP SK unit).
#[local] Abbreviation server_world := (Session (Demo.wire * server) ServerHandler V C).
#[local] Abbreviation client := (Client SH EH CB UB LB).

(** The server's functions and callbacks. *)
Context (tool_fn : HT -> json -> st server_world CallToolResult).
Context (read_fn : HR -> string -> st server_world (Result ReadResourceResult)).
Context (prompt_fn : HP -> json -> st server_world (Result GetPromptResult)).
Context (complete_fn : SK -> string -> st server_world CompleteResult).
Context (notification_fn : V -> option json -> st server_world unit).
Context (response_fn : C -> Result json -> st server_world unit).
Context (progress_fn : C -> ProgressNotification -> st server_world unit).
Context (close_fn : C -> st server_world unit).
Context (error_fn : C -> Error -> st server_world unit).

#[local] Instance connecting_app : Application (Demo.wire * server) ServerHandler V C :=
  application tool_fn read_fn prompt_fn complete_fn notification_fn response_fn progress_fn close_fn error_fn.
#[local] Instance connecting_sessions : Sessions HT HR HP SK unit server_world := single tool_fn read_fn prompt_fn complete_fn.
#[local] Instance connecting_peer : Peer server_world := session_peer.
#[local] Abbreviation world := (Session (Link server_world * client) ClientHandler ClientNotice K).
Context {APP : Application (Link server_world * client) ClientHandler ClientNotice K}.

(** [run] up to where it waits: the server is attached to a fresh session
    whose options were taken before. *)
Lemma run_begin_fresh (s : server_world) :
  (transport s).1 = [] ->
  exists s', run_begin s = (s', Val tt) /\ fresh (server_options (server_of s)) s' /\ (transport s').1 = [] /\
    tools (srv_tools (server_of s')) = tools (srv_tools (server_of s)).
Proof.
  intros Hw. destruct s as [k [wire srv] ? ? ? ? ? ? ? ? ?]. cbn in Hw. subst wire. eexists. split; [reflexivity|].
  destruct srv as [? ? ? ? ? ? ? ss]. cbn. by destruct (bool_decide (tt ∈ ss)).
Qed.

(** Tools are served when there is one. *)
Lemma tool_call_accepted (srv : server) tool h :
  (tool, h) ∈ tools (srv_tools srv) -> accepted (server_options srv) kToolsCall.
Proof.
  intros Hin prefix b Hb Hpre. unfold server_gates in Hb.
  repeat (apply elem_of_cons in Hb as [[= -> ->]|Hb]; [try (vm_compute in Hpre; discriminate)|]); [|by apply not_elem_of_nil in Hb].
  cbn [so_capabilities server_options capabilities sc_tools]. unfold tool_count.
  destruct (tools (srv_tools srv)) as [|x l]; [by apply not_elem_of_nil in Hin|]. done.
Qed.

(** The server's end of the handshake. *)
Lemma deliver_initialize o c (s : server_world) :
  fresh o s -> (transport s).1 = [] -> so_supported_versions o = [kProtocolVersion] ->
  exists s1, s1 = log (Sent (MResponse (response_of (IdInt 1) (Ok (InitializeResult_to_json (introduction o))))))
              (introduced (IdInt 1) (initialize_params (SH := SH) (EH := EH) (CB := CB) (UB := UB) (LB := LB) c) s) /\
  deliver (initialize_request c) s = (s1, [MResponse (response_of (IdInt 1) (Ok (InitializeResult_to_json (introduction o))))]) /\
  deliver initialized_notification s1 = (set_state Operating s1, []).
Proof.
  intros Hf Hw Hv. eexists. split; [reflexivity|]. unfold deliver, connecting_peer, session_peer. split.
  - unfold initialize_request. rewrite (handle_initialize_request 0 o) by done.
    unfold send_message, emit, on_transport, zoom. run. unfold t_send, paired_transport, zoom, Demo.wire_transport. run.
    destruct s as [? [wire srv] ? ? ? ? ? ? ? ? ?]. cbn in Hw. by subst wire.
  - rewrite (handle_initialized_note 0 o) by (done || apply (fr_router _ _ Hf)). unfold take_wire.
    destruct s as [? [wire srv] ? ? ? ? ? ? ? ? ?]. cbn in Hw. by subst wire.
Qed.

(** From construction to a call: whatever is registered with the server
    and configured on the client, [run] and then [connect] succeed; both sessions
    are Operating, each side knows the other's name and capabilities, nothing is
    left unread, and a call of any registered tool with conforming arguments
    returns what the tool's function computes. *)
Theorem run_then_connect now (s0 : server_world) (w : world) :
  (transport s0).1 = [] -> peer_of w = (run_begin s0).1 ->
  unconnected w -> inbox w = [] ->
  let so := server_options (server_of s0) in
  exists w', client_connect pump now w = (w', Val (Ok (introduction so))) /\ connected w w' (introduction so) /\
    ready so (peer_of w') /\
    client_info (Session.peer (peer_of w')) = Some (cl_info (client_of w)) /\
    client_capabilities (Session.peer (peer_of w')) = Some (client_caps (client_of w)) /\
    forall tool h arguments s' r,
      (tool, h) ∈ tools (srv_tools (server_of s0)) -> NoDup (entry_names (tools (srv_tools (server_of s0)))) ->
      conforms arguments (input_schema tool) -> tool_fn h arguments (peer_of w') = (s', r) -> r <> Undefined ->
      (transport s').1 = [] ->
      exists w'', calm w'' /\
        client_call_tool pump now (tool_name tool) arguments w' =
          (w'', Val (Ok (match r with Throw x => failed (what x) | Val x => x | Undefined => failed EmptyString end))).
Proof.
  intros Hw Hp Hu Hi so. destruct (run_begin_fresh s0 Hw) as (s & Hrun & Hf & Hs & Ht). rewrite Hrun in Hp. cbn [fst] in Hp. fold so in Hf.
  destruct (deliver_initialize so (client_of w) s Hf Hs eq_refl) as (s1 & Hs1 & H1 & H2).
  destruct (client_connect_answered now w s1 (Ok (InitializeResult_to_json (introduction so))) (Ok (introduction so)) Hu Hi)
    as (w' & Hw' & Hc & Hpeer).
  - rewrite Hp. exact H1.
  - unfold handshake_outcome. by rewrite InitializeResult_read.
  - intros r _. by rewrite H2.
  - rewrite H2 in Hpeer. cbn [fst] in Hpeer.
    assert (ready so (peer_of w')) as Hr.
    { rewrite Hpeer, Hs1. split; try done; [apply (fr_kind _ _ Hf)|]. eexists. apply (fr_router _ _ Hf). }
    exists w'. split_and!; try done; [by rewrite Hpeer, Hs1..|].
    intros tool h arguments s' r Hin Hnd Hconf Hfn Hr' Hempty.
    apply (remote_call_tool tool_fn read_fn prompt_fn complete_fn notification_fn response_fn progress_fn close_fn error_fn
             so now (tool_name tool) arguments tool h w' s' r); try done.
    + apply (cd_calm _ _ _ Hc).
    + by eapply tool_call_accepted.
    + rewrite Hpeer, Hs1. change (server_of _) with (server_of s). by rewrite Ht.
    + rewrite Hpeer, Hs1. change (server_of _) with (server_of s). by rewrite Ht.
Qed.
End handshake.

(** ** A concrete pair: the sample server and a new client *)
Module HandshakeDemo.
#[local] Existing Instance BitText.text.

Definition app : Sessions nat nat nat nat unit Sample.world :=
  single Sample.tool_fn (fun _ _ => lift Undefined) (fun _ _ => lift Undefined) (fun _ _ => lift Undefined).
Definition serving : Sample.world := (run_begin (Sessions0 := app) Sample.start).1.
Definition new_client : RemoteDemo.client := make_client "demo" "1.0".
Definition start : RemoteDemo.world :=
  make_session (ClientSession (client_options new_client)) (mkLink serving [], new_client).
End HandshakeDemo.

Section handshake_demo.
#[local] Existing Instances BitText.text RemoteDemo.peer RemoteDemo.client_app.

(** Connecting, and calling the tool. *)
Lemma run_then_connect_witness :
  exists w' w'', client_connect pump 0 HandshakeDemo.start = (w', Val (Ok (introduction (server_options Sample.initial_server)))) /\
    client_call_tool pump 0 "echo" (JObject []) w' = (w'', Val (Ok (mkCallToolResult [text_content "done"] false))).
Proof.
  destruct (run_then_connect Sample.tool_fn (fun _ _ => lift Undefined) (fun _ _ => lift Undefined)
    (fun _ _ => lift Undefined) (fun _ _ => skip) (fun _ _ => skip) (fun _ _ => skip) (fun _ => skip)
    (fun _ _ => skip) 0 Sample.start HandshakeDemo.start eq_refl eq_refl eq_refl eq_refl) as (w' & Hw & _ & Hr & _ & _ & Hcall).
  destruct (Hcall Sample.echo 1 (JObject []) (peer_of w') (Val (mkCallToolResult [text_content "done"] false)))
    as (w'' & _ & Hw'').
  - apply list_elem_of_singleton. reflexivity.
  - apply NoDup_singleton.
  - apply (validate_at_conforms _ _ EmptyString). vm_compute. reflexivity.
  - reflexivity.
  - discriminate.
  - exact (rd_wire _ _ Hr).
  - exists w', w''. by split.
Defined.
End handshake_demo.
