(* ===== verification/LineTransport.v ===== *)
(** * Newline-delimited transports

    src/transport/line_transport.cpp (the shared base) and
    src/transport/stdio_transport.cpp (the server's stdio transport). *)

From S2P Require Import Prelude Json Core Message State Lines Platform.

Section base.
Context `{JsonText}.

(** What the installed handlers and the descriptor do to the program; a handler
    that is not installed does nothing. *)
Context {W : Type} (on_message : Message -> st W unit) (on_error : Error -> st W unit) (on_close : st W unit).
Context (write_line : string -> st W unit).

Definition send_line (line : string) : st W unit :=
  match find_char LF line with
  | Some _ => on_error (error InternalError "refusing to send message containing raw newline")
  | None => write_line line
  end.

Definition send (message : Message) : st W unit := line ← lift (serialize_message message); send_line line.
Definition send_batch (messages : list Message) : st W unit :=
  line ← lift (serialize_batch messages); send_line line.

Definition process_line (line : string) : st W unit :=
  if String.eqb line EmptyString then skip
  else
    frame ← lift (parse_frame line);
    match frame with
    | Err e => on_error e
    | Ok f => _ ← for_each on_error (pf_item_errors f); for_each on_message (pf_messages f)
    end.

(** What the read loop observes: the flag [running_] where it tests it, and the
    results of polling and reading. *)
Inductive io :=
| IoStopped                      (** [running_] is false at the head of the loop *)
| IoPollError
| IoWake (running : bool)        (** [poll_readable] returned 0 *)
| IoReadError (running : bool)
| IoEof
| IoChunk (chunk : string).

(** [read_loop]; an exhausted list is a loop still blocked in [poll]. *)
Fixpoint read_loop (events : list io) (buffer : string) : st W unit :=
  match events with
  | [] => skip
  | IoStopped :: _ => on_close
  | IoPollError :: _ => _ ← on_error (error InternalError "stdio poll failed"); on_close
  | IoWake false :: _ => skip
  | IoWake true :: events => read_loop events buffer
  | IoReadError running :: _ =>
      _ ← (if running : bool then on_error (error InternalError "stdio read failed") else skip); on_close
  | IoEof :: _ => on_close
  | IoChunk chunk :: events =>
      let '(lines, left_) := split_lines (buffer +:+ chunk) in
      _ ← for_each (fun line => process_line (strip_cr line)) lines;
      read_loop events left_
  end.

(** ** The reader does not see how the bytes were cut *)

Lemma read_loop_app chunk1 chunk2 events buffer w :
  read_loop (IoChunk (chunk1 +:+ chunk2) :: events) buffer w =
  read_loop (IoChunk chunk1 :: IoChunk chunk2 :: events) buffer w.
Proof.
  cbn [read_loop]. rewrite <- str_app_assoc, split_lines_app.
  destruct (split_lines (buffer +:+ chunk1)) as [l1 r1]. destruct (split_lines (r1 +:+ chunk2)) as [l2 r2].
  unfold mbind, st_bind. rewrite for_each_app. unfold mbind, st_bind.
  by destruct (for_each _ l1 w) as [w1 [a|e|]].
Qed.

Lemma read_loop_chunks chunks events buffer w :
  read_loop (IoChunk (foldr String.append EmptyString chunks) :: events) buffer w =
  read_loop (IoChunk EmptyString :: (IoChunk <$> chunks) ++ events) buffer w.
Proof.
  revert buffer w. induction chunks as [|c chunks IH]; intros buffer w; [done|].
  rewrite fmap_cons. cbn [foldr app]. rewrite read_loop_app.
  change (IoChunk c :: (IoChunk <$> chunks) ++ events) with ([IoChunk c] ++ ((IoChunk <$> chunks) ++ events)).
  assert (forall b w, read_loop (IoChunk c :: IoChunk (foldr String.append EmptyString chunks) :: events) b w =
                      read_loop (IoChunk c :: IoChunk EmptyString :: (IoChunk <$> chunks) ++ events) b w) as E.
  { intros b w'. cbn [read_loop]. destruct (split_lines (b +:+ c)) as [l1 r1]. unfold mbind, st_bind.
    destruct (for_each _ l1 w') as [w1 [a|e|]]; [|done|done]. apply IH. }
  rewrite E. cbn [app]. rewrite <- (read_loop_app c EmptyString), str_app_nil_r.
  rewrite <- (read_loop_app EmptyString c). done.
Qed.

(** ** What is written is what is read *)

Context `{!JsonTextLaws}.

(** The bytes [write_line] puts on the wire for a line. *)
Definition wire (lines : list string) : string := foldr (fun l r => end_line l +:+ r) EmptyString lines.

Lemma process_line_message m line w :
  good_message m -> serialize_message m = Val line ->
  process_line (strip_cr line) w = (_ ← on_message (normalize_message m); skip) w.
Proof.
  intros [Hwf Hd] Hl. destruct (serialize_message_line m Hwf Hd) as (s & Hs & _ & Hne & Hcr & Hp).
  rewrite Hs in Hl. injection Hl as <-. rewrite strip_cr_none by done. unfold process_line.
  rewrite (proj2 (String.eqb_neq _ _) Hne). run. rewrite Hp. done.
Qed.
End base.

(** ** The server's stdio transport

    [StdioTransport] of src/transport/stdio_transport.cpp. *)
Record StdioTransport : Type := mkStdioTransport { in_fd : Z; out_fd : Z; owns_fds : bool; stdio_running : bool }.

Definition process_stdio : StdioTransport := mkStdioTransport 0 1 false false.

Definition set_stdio_running (b : bool) (t : StdioTransport) : StdioTransport :=
  mkStdioTransport (in_fd t) (out_fd t) (owns_fds t) b.

Section stdio.
Context {W : Type} (get : W -> StdioTransport) (put : StdioTransport -> W -> W).
Context (on_error : Error -> st W unit) (write : string -> st W bool).

(** Whether the read thread is started; [wake_ok]: there is a wake event. *)
Definition stdio_connect (wake_ok : bool) : st W bool :=
  t ← gets get;
  if stdio_running t then mret false
  else
    if wake_ok then _ ← modify (fun w => put (set_stdio_running true (get w)) w); mret true
    else _ ← on_error (error InternalError "failed to create wake event"); mret false.

(** [disconnect], but for waking and joining the read thread. *)
Definition stdio_disconnect : st W unit :=
  modify (fun w =>
    let t := get w in
    put (if owns_fds t then mkStdioTransport (close_fd (in_fd t)) (close_fd (out_fd t)) true false else set_stdio_running false t) w).

Definition stdio_write_line (line : string) : st W unit :=
  t ← gets get;
  if (out_fd t <? 0)%Z then skip
  else
    ok ← write (end_line line);
    if (ok : bool) then skip else on_error (error InternalError "stdio write failed").
End stdio.

Section roundtrip.
Context `{JsonTextLaws} {W : Type} (on_message : Message -> st W unit) (on_error : Error -> st W unit)
  (on_close : st W unit).

Lemma process_messages ms lines w :
  Forall good_message ms -> mapM_outcome serialize_message ms = Val lines ->
  for_each (fun line => process_line on_message on_error (strip_cr line)) lines w =
  for_each on_message (normalize_message <$> ms) w.
Proof.
  intros Hms. revert lines w. induction Hms as [|m ms Hm _ IH]; intros lines w Hl; cbn [mapM_outcome] in Hl.
  { injection Hl as <-. done. }
  destruct (serialize_message m) as [line|x|] eqn:El; [|done|done]. cbn [mbind outcome_bind] in Hl.
  destruct (mapM_outcome serialize_message ms) as [lines'|x|] eqn:Els; [|done|done].
  cbn [mbind outcome_bind] in Hl. injection Hl as <-. rewrite fmap_cons. cbn [for_each].
  unfold mbind at 1 2, st_bind. rewrite (process_line_message on_message on_error m line w Hm El).
  unfold mbind, st_bind. destruct (on_message (normalize_message m) w) as [w1 [[]|e|]]; [|done|done].
  unfold skip. by apply IH.
Qed.

Lemma serialized_lines ms :
  Forall good_message ms -> exists lines, mapM_outcome serialize_message ms = Val lines /\
    Forall (fun l => find_char LF l = None) lines.
Proof.
  induction 1 as [|m ms [Hwf Hd] _ (lines & El & Hl)]; [by exists []|].
  destruct (serialize_message_line m Hwf Hd) as (s & Hs & Hlf & _).
  exists (s :: lines). cbn [mapM_outcome]. rewrite Hs. cbn [mbind outcome_bind]. rewrite El.
  split; [done|]. by constructor.
Qed.

(** Messages written as lines by one end are delivered by the other end's
    read loop exactly once and in order, however the bytes are cut into reads,
    and reaching the end of the stream then closes the transport. *)
Theorem stdio_delivery ms chunks w :
  Forall good_message ms ->
  exists lines, mapM_outcome serialize_message ms = Val lines /\
    (foldr String.append EmptyString chunks = wire lines ->
     read_loop on_message on_error on_close ((IoChunk <$> chunks) ++ [IoEof]) EmptyString w =
     (_ ← for_each on_message (normalize_message <$> ms); on_close) w).
Proof.
  intros Hms. destruct (serialized_lines ms Hms) as (lines & El & Hl). exists lines. split; [done|].
  intros Hc.
  assert (read_loop on_message on_error on_close ((IoChunk <$> chunks) ++ [IoEof]) EmptyString w =
          read_loop on_message on_error on_close (IoChunk EmptyString :: (IoChunk <$> chunks) ++ [IoEof]) EmptyString w)
    as -> by done.
  rewrite <- read_loop_chunks, Hc. cbn [read_loop]. change (EmptyString +:+ wire lines) with (wire lines).
  unfold wire. rewrite split_lines_concat by done. cbn [split_lines]. rewrite app_nil_r.
  unfold mbind, st_bind. by rewrite (process_messages ms lines w Hms El).
Qed.
End roundtrip.

#[local] Existing Instances BitText.text BitText.laws.

Lemma stdio_delivery_witness :
  exists lines, mapM_outcome serialize_message [ping_request] = Val lines /\
    (foldr String.append EmptyString ["i"; "o1"] = wire lines ->
     read_loop (fun m => modify (cons m)) (fun _ => skip) skip ((IoChunk <$> ["i"; "o1"]) ++ [IoEof]) EmptyString [] =
     (_ ← for_each (fun m => modify (cons m)) (normalize_message <$> [ping_request]); skip) []).
Proof.
  apply stdio_delivery. apply Forall_cons_2; [|apply Forall_nil_2].
  split; [exact ping_request_wf|reflexivity].
Defined.
