(* ===== verification/StdioClient.v ===== *)
(** * The stdio client transport

    src/transport/stdio_client_transport.cpp: a server as a child process, its
    messages as lines of its stdin and stdout, and the escalation that ends it.
    The class [ChildHost] is the rest of the program: the operating system and
    the installed handlers; waiting for the reader threads is not modelled. *)

From S2P Require Import Prelude Json Core Message State Lines LineTransport Platform.

(** ** State *)

Record StdioServerParameters : Type := mkStdioServerParameters {
  command : string;
  args : list string;
  env : list (string * string);
  cwd : option string;
}.

Record StdioClient : Type := mkStdioClient {
  sc_parameters : StdioServerParameters;
  sc_grace : Z;
  sc_running : bool;
  sc_exit_status : Z;
  sc_exited : bool;
  sc_process : Process;
}.

Definition no_process : Process := mkProcess (-1) (-1) (-1) (-1).

Definition make_stdio_client (p : StdioServerParameters) : StdioClient :=
  mkStdioClient p 2000 false (-1) false no_process.

Definition spec_of (p : StdioServerParameters) : ProcessSpec := mkProcessSpec (command p) (args p) (env p) (cwd p).

Definition set_sc_running (b : bool) (c : StdioClient) : StdioClient :=
  mkStdioClient (sc_parameters c) (sc_grace c) b (sc_exit_status c) (sc_exited c) (sc_process c).
Definition set_sc_process (p : Process) (c : StdioClient) : StdioClient :=
  mkStdioClient (sc_parameters c) (sc_grace c) (sc_running c) (sc_exit_status c) (sc_exited c) p.
Definition set_sc_exit (status : Z) (c : StdioClient) : StdioClient :=
  mkStdioClient (sc_parameters c) (sc_grace c) (sc_running c) status true (sc_process c).

Definition close_stdin (p : Process) : Process := mkProcess (pid p) (close_fd (stdin_fd p)) (stdout_fd p) (stderr_fd p).
Definition close_output (p : Process) : Process := mkProcess (pid p) (stdin_fd p) (close_fd (stdout_fd p)) (close_fd (stderr_fd p)).

Definition exit_status (c : StdioClient) : option Z := if sc_exited c then Some (sc_exit_status c) else None.

Class ChildHost (W : Type) := {
  stdio_of : W -> StdioClient;
  put_stdio : StdioClient -> W -> W;
  spawn_child : ProcessSpec -> st W (Process + string);
  write_child : string -> st W bool;        (** [write_all] to the child's stdin *)
  close_child : bool -> st W unit;          (** stdin, or stdout and stderr *)
  wait_child : Z -> st W (option Z);        (** [wait_exit] with this time-out *)
  terminate_child : bool -> st W unit;      (** forced or not *)
  child_message : Message -> st W unit;
  child_error : Error -> st W unit;
  child_closed : st W unit;
  child_stderr : string -> st W unit;
}.

Section stdio.
Context {W : Type} {JT : JsonText} {CH : ChildHost W}.

Definition on_stdio (f : StdioClient -> StdioClient) : st W unit := modify (fun w => put_stdio (f (stdio_of w)) w).
Definition stdio_internal (message : string) : st W unit := child_error (error InternalError message).

(** ** Operations *)

(** The result says whether the reader threads are started. *)
Definition stdio_client_connect : st W bool :=
  c ← gets stdio_of;
  if sc_running c then mret false
  else
    _ ← on_stdio (set_sc_running true);
    r ← spawn_child (spec_of (sc_parameters c));
    match r with
    | inr e => _ ← on_stdio (set_sc_running false); _ ← stdio_internal ("spawn failed: " +:+ e); mret false
    | inl p => _ ← on_stdio (set_sc_process p); mret true
    end.

Definition write_child_line (line : string) : st W unit :=
  c ← gets stdio_of;
  if (stdin_fd (sc_process c) <? 0)%Z then stdio_internal "transport is not connected"
  else
    ok ← write_child (end_line line);
    if (ok : bool) then skip else stdio_internal "write to server process failed".

Definition stdio_client_send (m : Message) : st W unit := send child_error write_child_line m.
Definition stdio_client_send_batch (ms : list Message) : st W unit := send_batch child_error write_child_line ms.

Definition stdout_line (line : string) : st W unit := process_line child_message child_error line.

(** [stdout_loop] and [stderr_loop], on the reads of the thread, for so many
    lines; a reader that blocks is a loop still running. *)
Fixpoint stdout_loop (fuel : nat) (reads : list read_result) (r : LineReader) : st W unit :=
  match fuel with
  | O => lift Undefined
  | S fuel =>
      match next_line reads r with
      | (None, _) => skip
      | (Some (ReadLine line, r'), reads') => _ ← stdout_line line; stdout_loop fuel reads' r'
      | (Some (AtEof, _), _) =>
          c ← gets stdio_of; if sc_running c then child_closed else skip
      | (Some (AtError, _), _) =>
          c ← gets stdio_of;
          _ ← (if sc_running c then stdio_internal "read from server process failed" else skip);
          c ← gets stdio_of; if sc_running c then child_closed else skip
      end
  end.

Fixpoint stderr_loop (fuel : nat) (reads : list read_result) (r : LineReader) : st W unit :=
  match fuel with
  | O => lift Undefined
  | S fuel =>
      match next_line reads r with
      | (Some (ReadLine line, r'), reads') => _ ← child_stderr line; stderr_loop fuel reads' r'
      | _ => skip
      end
  end.

(** Wait, and go on with [next] if the child has not exited. *)
Definition or_else (exited : option Z) (next : st W (option Z)) : st W (option Z) :=
  match exited with Some status => mret (Some status) | None => next end.

Definition end_child (grace : Z) : st W (option Z) :=
  exited ← wait_child grace;
  exited ← or_else exited (_ ← terminate_child false; wait_child grace);
  or_else exited (_ ← terminate_child true; wait_child grace).

Definition stdio_client_disconnect : st W unit :=
  c ← gets stdio_of;
  if sc_running c then
    _ ← on_stdio (set_sc_running false);
    _ ← close_child true;
    _ ← on_stdio (fun c => set_sc_process (close_stdin (sc_process c)) c);
    _ ← (if (0 <? pid (sc_process c))%Z && negb (sc_exited c) then
           exited ← end_child (sc_grace c);
           match exited with Some status => on_stdio (set_sc_exit status) | None => skip end
         else skip);
    _ ← close_child false;
    on_stdio (fun c => set_sc_process (close_output (sc_process c)) c)
  else skip.

(** ** Reading *)

(** The lines of a stream that ends: what the [LineReader] hands out. *)
Definition stream_lines (bytes : string) : list string :=
  let '(lines, rest) := split_lines bytes in
  (strip_cr <$> lines) ++ (if String.eqb rest EmptyString then [] else [rest]).

Lemma next_line_chunks chunks more b :
  let bytes := b +:+ foldr String.append EmptyString chunks in
  exists r' reads',
    next_line ((ReadData <$> chunks) ++ ReadEof :: more) (mkLineReader b false) =
      (Some (match stream_lines bytes with line :: _ => ReadLine line | [] => AtEof end, r'), reads') /\
    (forall line lines, stream_lines bytes = line :: lines ->
       (exists b' chunks', r' = mkLineReader b' false /\ reads' = (ReadData <$> chunks') ++ ReadEof :: more /\
          stream_lines (b' +:+ foldr String.append EmptyString chunks') = lines) \/
       (r' = mkLineReader EmptyString true /\ lines = [])).
Proof.
  revert b. induction chunks as [|c chunks IH]; intros b; cbv zeta.
  - cbn [foldr fmap list_fmap app]. rewrite str_app_nil_r. unfold stream_lines. rewrite split_lines_find.
    cbn [next_line lr_buffer lr_eof]. destruct (find_char LF b) as [pos|].
    + eexists _, _. split; [destruct (split_lines (str_drop (S pos) b)); reflexivity|].
      intros line lines Hl. left. exists (str_drop (S pos) b), []. cbn [foldr fmap list_fmap app].
      rewrite str_app_nil_r. destruct (split_lines (str_drop (S pos) b)) as [ls rest]. cbn in Hl |- *. by injection Hl as _ <-.
    + cbn [fmap list_fmap app]. destruct (String.eqb b EmptyString) eqn:Eb; (eexists _, _; split; [reflexivity|]).
      * by intros.
      * intros line lines [= _ <-]. by right.
  - cbn [foldr]. rewrite <- str_app_assoc. destruct (find_char LF b) as [pos|] eqn:Ef.
    + rewrite fmap_cons. cbn [app next_line lr_buffer lr_eof]. rewrite Ef.
      assert (split_lines (b +:+ c) = let '(ls, r) := split_lines (str_drop (S pos) b +:+ c) in (str_take pos b :: ls, r)) as Hsp.
      { rewrite split_lines_app, split_lines_find, Ef, (split_lines_app (str_drop (S pos) b) c).
        destruct (split_lines (str_drop (S pos) b)) as [l1 r1]. by destruct (split_lines (r1 +:+ c)). }
      set (tl := foldr String.append EmptyString chunks).
      assert (split_lines ((b +:+ c) +:+ tl) =
                let '(ls, r) := split_lines (str_drop (S pos) b +:+ (c +:+ tl)) in (str_take pos b :: ls, r)) as Hall.
      { rewrite split_lines_app, Hsp, <- (str_app_assoc _ c tl), (split_lines_app (str_drop (S pos) b +:+ c) tl).
        destruct (split_lines (str_drop (S pos) b +:+ c)) as [l1 r1]. by destruct (split_lines (r1 +:+ tl)). }
      unfold stream_lines at 1 2. rewrite Hall. eexists _, _. split.
      { destruct (split_lines (str_drop (S pos) b +:+ (c +:+ tl))). reflexivity. }
      intros line lines Hl. left. exists (str_drop (S pos) b), (c :: chunks). split; [done|]. split; [by rewrite fmap_cons|].
      cbn [foldr]. fold tl. unfold stream_lines. destruct (split_lines (str_drop (S pos) b +:+ (c +:+ tl))).
      cbn in Hl. by injection Hl as _ <-.
    + rewrite fmap_cons. cbn [app next_line lr_buffer lr_eof]. rewrite Ef. apply IH.
Qed.

Definition stdout_ends : st W unit := c ← gets stdio_of; if sc_running c then child_closed else skip.

Lemma next_line_eof reads : next_line reads (mkLineReader EmptyString true) = (Some (AtEof, mkLineReader EmptyString true), reads).
Proof. by destruct reads. Qed.

Lemma stdout_loop_lines fuel chunks more b (w : W) :
  let lines := stream_lines (b +:+ foldr String.append EmptyString chunks) in
  length lines + 2 <= fuel ->
  stdout_loop fuel ((ReadData <$> chunks) ++ ReadEof :: more) (mkLineReader b false) w =
  (_ ← for_each stdout_line lines; stdout_ends) w.
Proof.
  revert chunks b w. induction fuel as [|fuel IH]; intros chunks b w; cbv zeta; [lia|]. cbn [stdout_loop].
  destruct (next_line_chunks chunks more b) as (r' & reads' & -> & Hl).
  destruct (stream_lines _) as [|line lines]; intros Hf; [done|]. cbn [for_each]. unfold mbind, st_bind.
  destruct (stdout_line line w) as [w1 [[]|x|]]; [|done|done]. cbn [length] in Hf.
  destruct (Hl _ _ eq_refl) as [(b' & chunks' & -> & -> & Hlines)|[-> ->]].
  - rewrite IH by (rewrite Hlines; lia). by rewrite Hlines.
  - destruct fuel; [lia|]. cbn [stdout_loop]. by rewrite next_line_eof.
Qed.

Context {JL : JsonTextLaws}.

Lemma for_each_fmap {A B} (f : B -> st W unit) (g : A -> B) l w : for_each f (g <$> l) w = for_each (fun x => f (g x)) l w.
Proof.
  revert w. induction l as [|x l IH]; intros w; [done|]. rewrite fmap_cons. cbn [for_each]. unfold mbind, st_bind in *.
  destruct (f (g x) w) as [w1 [[]|e|]]; [|done|done]. apply IH.
Qed.

(** Reading the child's output: the messages a server writes as lines are
    handed over once each and in order, however the bytes are cut into reads,
    and the end of the stream closes the transport if it is still running; as
    many turns as there are lines, and two, are enough for the loop to end. *)
Theorem child_delivery ms chunks more fuel (w : W) :
  Forall good_message ms ->
  exists lines, mapM_outcome serialize_message ms = Val lines /\
    (foldr String.append EmptyString chunks = wire lines -> length ms + 2 <= fuel ->
     stdout_loop fuel ((ReadData <$> chunks) ++ ReadEof :: more) (mkLineReader EmptyString false) w =
     (_ ← for_each child_message (normalize_message <$> ms); stdout_ends) w).
Proof.
  intros Hms. destruct (serialized_lines ms Hms) as (lines & El & Hl). exists lines. split; [done|]. intros Hc Hf.
  assert (stream_lines (EmptyString +:+ foldr String.append EmptyString chunks) = strip_cr <$> lines) as Hs.
  { change (EmptyString +:+ ?s) with s. rewrite Hc. unfold stream_lines, wire. rewrite split_lines_concat by done.
    cbn. by rewrite app_nil_r, app_nil_r. }
  assert (length lines = length ms) as Hlen.
  { clear -El. revert lines El. induction ms as [|m ms IH]; intros lines; cbn [mapM_outcome]; [by intros [= <-]|].
    destruct (serialize_message m); [|done|done]. cbn. destruct (mapM_outcome serialize_message ms); [|done|done].
    cbn. intros [= <-]. cbn. f_equal. by apply IH. }
  rewrite stdout_loop_lines; rewrite Hs; [|rewrite length_fmap; lia].
  unfold mbind, st_bind. rewrite for_each_fmap. unfold stdout_line. by rewrite (process_messages _ _ ms lines w Hms El).
Qed.
End stdio.

(** ** Ending the child *)

Inductive child_event := ClosedStdin | Waited (exited : option Z) | Terminated (force : bool) | ClosedOutput.

(** A host whose child answers the waits as it is told. *)
Record ChildWorld : Type := mkChildWorld {
  chw_client : StdioClient;
  chw_answers : list (option Z);
  chw_log : list child_event;
  chw_heard : list Message;
}.

Definition child_log (e : child_event) (w : ChildWorld) : ChildWorld :=
  mkChildWorld (chw_client w) (chw_answers w) (chw_log w ++ [e]) (chw_heard w).

Definition answer_wait (grace : Z) : st ChildWorld (option Z) := fun w =>
  let answer := match chw_answers w with a :: _ => a | [] => None end in
  (mkChildWorld (chw_client w) (tail (chw_answers w)) (chw_log w ++ [Waited answer]) (chw_heard w), Val answer).

#[export] Instance child_world : ChildHost ChildWorld := {|
  stdio_of := chw_client;
  put_stdio c w := mkChildWorld c (chw_answers w) (chw_log w) (chw_heard w);
  spawn_child spec := mret (inl (mkProcess 42 5 6 7));
  write_child bytes := mret true;
  close_child stdin := modify (child_log (if stdin : bool then ClosedStdin else ClosedOutput));
  wait_child := answer_wait;
  terminate_child force := modify (child_log (Terminated force));
  child_message m := modify (fun w => mkChildWorld (chw_client w) (chw_answers w) (chw_log w) (chw_heard w ++ [m]));
  child_error e := skip;
  child_closed := skip;
  child_stderr line := skip;
|}.

(** The first answer that is a status. *)
Fixpoint first_exit (answers : list (option Z)) : option Z :=
  match answers with [] => None | Some s :: _ => Some s | None :: answers => first_exit answers end.


Module StdioDemo.
#[local] Existing Instances BitText.text BitText.laws.

Definition parameters : StdioServerParameters := mkStdioServerParameters "server" ["--stdio"] [] None.
Definition client : StdioClient := mkStdioClient parameters 2000 true (-1) false (mkProcess 42 5 6 7).
Definition world (answers : list (option Z)) : ChildWorld := mkChildWorld client answers [] [].


Lemma child_delivery_witness :
  exists lines, mapM_outcome serialize_message [ping_request] = Val lines /\
    (foldr String.append EmptyString ["i"; "o1"] = wire lines -> 1 + 2 <= 3 ->
     stdout_loop 3 ((ReadData <$> ["i"; "o1"]) ++ ReadEof :: []) (mkLineReader EmptyString false) (world []) =
     (_ ← for_each child_message (normalize_message <$> [ping_request]); stdout_ends) (world [])).
Proof.
  apply (child_delivery [ping_request]). apply Forall_cons_2; [|apply Forall_nil_2].
  split; [exact ping_request_wf|reflexivity].
Defined.

(** [connect] does not forget that the previous child has exited, so a second
    child is neither waited for nor ended. *)
Lemma second_child_left_running :
  let w1 := (stdio_client_disconnect (world [Some 0%Z])).1 in
  let w2 := (stdio_client_connect w1).1 in
  sc_running (chw_client w2) = true /\
  chw_log (stdio_client_disconnect w2).1 = chw_log w1 ++ [ClosedStdin; ClosedOutput].
Proof. split; reflexivity. Qed.
End StdioDemo.
