(* ===== verification/Decimal.v ===== *)
(** * Reading decimal numbers

    The C conversions the transports use on text from the wire: [std::atoi]
    (http_codec.cpp) and [std::strtoull] with base 10 (sse_channel.cpp,
    http_endpoint.cpp). *)

From S2P Require Import Prelude Json Core.

(** [std::isspace] in the "C" locale. *)
Definition is_space (c : Ascii.ascii) : bool :=
  in_range "009"%char "013"%char c || Ascii.eqb c " "%char.

Fixpoint skip_space (s : string) : string :=
  match s with
  | String c s' => if is_space c then skip_space s' else s
  | EmptyString => EmptyString
  end.

(** The value of the digits at the front, added to what was read before. *)
Fixpoint read_digits (value : Z) (s : string) : Z :=
  match s with
  | String c s' => if is_digit c then read_digits (10 * value + digit_val c) s' else value
  | EmptyString => value
  end.

Definition read_sign (s : string) : bool * string :=
  match s with
  | String "-" s' => (true, s')
  | String "+" s' => (false, s')
  | _ => (false, s)
  end.

(** A value that does not fit an [int] is undefined behaviour. *)
Definition atoi (s : string) : outcome Z :=
  let '(negative, digits) := read_sign (skip_space s) in
  let v := if negative then (- read_digits 0 digits)%Z else read_digits 0 digits in
  if ((- modulus 31 <=? v) && (v <? modulus 31))%Z then Val v else Undefined.

(** [strtoull] saturates, and negates modulo 2^64. *)
Definition strtoull (s : string) : Z :=
  let '(negative, digits) := read_sign (skip_space s) in
  let v := read_digits 0 digits in
  if (modulus 64 <=? v)%Z then (modulus 64 - 1)%Z
  else if negative then wrap_u 64 (- v) else v.

(** ** The decimal notation of a number reads back *)

Definition not_digit_first (s : string) : bool :=
  match s with String c _ => negb (is_digit c) | EmptyString => true end.

Lemma read_digits_stop v s : not_digit_first s = true -> read_digits v s = v.
Proof. destruct s as [|c s]; [done|]. cbn. by destruct (is_digit c). Qed.

Lemma read_digits_to_string n s :
  (0 <= n)%Z -> not_digit_first s = true -> read_digits 0 (to_string n +:+ s) = n.
Proof.
  intros Hn Hs. assert (forall s', read_digits 0 (to_string n +:+ s') = read_digits n s') as ->.
  { revert n Hn. apply (to_string_ind (fun n t => forall s', read_digits 0 (t +:+ s') = read_digits n s')).
    - intros d Hd s'. apply digit_char_spec in Hd as [H1 H2].
      change (String (digit_char d) EmptyString +:+ s') with (String (digit_char d) s'). cbn [read_digits].
      rewrite H1, H2. f_equal; lia.
    - intros n d t _ Hd IH s'. apply digit_char_spec in Hd as [H1 H2]. rewrite str_app_assoc, IH.
      change (String (digit_char d) EmptyString +:+ s') with (String (digit_char d) s'). cbn [read_digits].
      by rewrite H1, H2. }
  by apply read_digits_stop.
Qed.

(** The text of a number is not taken for blanks or a sign. *)
Lemma digit_not_space_sign c s : is_digit c = true -> read_sign (skip_space (String c s)) = (false, String c s).
Proof. by destruct c as [[] [] [] [] [] [] [] []]. Qed.

Lemma to_string_no_sign n s :
  (0 <= n)%Z -> read_sign (skip_space (to_string n +:+ s)) = (false, to_string n +:+ s).
Proof.
  intros Hn. destruct (to_string_digits n Hn) as [Hd Hne]. destruct (to_string n) as [|c t]; [done|].
  cbn in Hd. apply andb_true_iff in Hd as [Hd _]. by apply digit_not_space_sign.
Qed.

Lemma atoi_to_string n s :
  (0 <= n < modulus 31)%Z -> not_digit_first s = true -> atoi (to_string n +:+ s) = Val n.
Proof.
  intros Hn Hs. unfold atoi. rewrite to_string_no_sign by lia. rewrite read_digits_to_string by (lia || done).
  pose proof (modulus_pos 31 ltac:(lia)).
  rewrite (proj2 (Z.leb_le _ _)), (proj2 (Z.ltb_lt _ _)) by lia. done.
Qed.

Lemma strtoull_to_string n s :
  (0 <= n < modulus 64)%Z -> not_digit_first s = true -> strtoull (to_string n +:+ s) = n.
Proof.
  intros Hn Hs. unfold strtoull. rewrite to_string_no_sign by lia. rewrite read_digits_to_string by (lia || done).
  by rewrite (proj2 (Z.leb_gt _ _)) by lia.
Qed.

Lemma strtoull_range s : in_u 64 (strtoull s).
Proof.
  unfold strtoull, in_u. destruct (read_sign (skip_space s)) as [neg d]. cbn zeta.
  pose proof (modulus_pos 64 ltac:(lia)). pose proof (wrap_u_range 64 (- read_digits 0 d) ltac:(lia)) as Hw.
  assert (forall t v, (0 <= v)%Z -> (0 <= read_digits v t)%Z) as Hpos.
  { induction t as [|c t IH]; intros v Hv; cbn [read_digits]; [done|].
    destruct (is_digit c) eqn:E; [|done]. apply is_digit_val in E. apply IH. lia. }
  specialize (Hpos d 0%Z ltac:(lia)).
  destruct (Z.leb_spec (modulus 64) (read_digits 0 d)); [lia|]. destruct neg; [exact Hw|lia].
Qed.
