(* ===== verification/Sse.v ===== *)
(** * Server-sent events

    The writer and the incremental parser of src/transport/http/http_codec.cpp,
    and the theorem that they are inverse to each other however the stream is
    cut into reads. *)

From S2P Require Import Prelude Json Core Lines Decimal.

Record SseEvent : Type := mkSseEvent {
  sse_id : option string;
  sse_event : option string;
  sse_data : string;
  retry_ms : option Z;
}.

Definition empty_event : SseEvent := mkSseEvent None None EmptyString None.

(** ** Writing *)

(** The pieces of [s] between newlines (the [do ... while] loop over
    [event.data]); there is always at least one. *)
Definition data_lines (s : string) : list string := let '(ls, last) := split_lines s in ls ++ [last].

Definition field_line (name value : string) : string := end_line (name +:+ ": " +:+ value).

Definition optional_line (name : string) (value : option string) : list string :=
  match value with Some v => [name +:+ ": " +:+ v] | None => [] end.

(** The lines of an event; the blank line that ends it is the last one. *)
Definition event_lines (e : SseEvent) : list string :=
  optional_line "retry" (to_string <$> retry_ms e) ++ optional_line "event" (sse_event e) ++
  optional_line "id" (sse_id e) ++ ((fun l => "data: " +:+ l) <$> data_lines (sse_data e)) ++ [EmptyString].

Definition format_sse_event (e : SseEvent) : string :=
  foldr (fun l r => end_line l +:+ r) EmptyString (event_lines e).

(** ** Parsing *)

(** [current_] and [any_field_]. *)
Record partial : Type := mkPartial { current : SseEvent; any_field : bool }.

Definition no_event : partial := mkPartial empty_event false.

(** Name and value of a line: split at the first colon, and one space after it
    is not part of the value. *)
Definition split_field (line : string) : string * string :=
  match find_char ":"%char line with
  | None => (line, EmptyString)
  | Some colon =>
      let value := str_drop (S colon) line in
      (str_take colon line, match value with String " " v => v | _ => value end)
  end.

Definition take_field (field value : string) (p : partial) : outcome partial :=
  let c := current p in
  if String.eqb field "data" then
    let separator := if any_field p && negb (String.eqb (sse_data c) EmptyString) then String LF EmptyString
                     else EmptyString in
    Val (mkPartial (mkSseEvent (sse_id c) (sse_event c) (sse_data c +:+ separator +:+ value) (retry_ms c)) true)
  else if String.eqb field "id" then
    Val (mkPartial (mkSseEvent (Some value) (sse_event c) (sse_data c) (retry_ms c)) true)
  else if String.eqb field "event" then
    Val (mkPartial (mkSseEvent (sse_id c) (Some value) (sse_data c) (retry_ms c)) true)
  else if String.eqb field "retry" then
    if negb (String.eqb value EmptyString) && str_forall is_digit value then
      ms ← atoi value; Val (mkPartial (mkSseEvent (sse_id c) (sse_event c) (sse_data c) (Some ms)) true)
    else Val p
  else Val p.

(** [take_line]: the event the line completes, if any, and what is kept. *)
Definition take_line (line : string) (p : partial) : outcome (list SseEvent * partial) :=
  match line with
  | EmptyString => Val ((if any_field p then [current p] else []), no_event)
  | String ":" _ => Val ([], p)
  | _ => let '(field, value) := split_field line in p' ← take_field field value p; Val ([], p')
  end.

Fixpoint take_lines (lines : list string) (p : partial) : outcome (list SseEvent * partial) :=
  match lines with
  | [] => Val ([], p)
  | line :: lines =>
      r ← take_line (strip_cr line) p;
      r' ← take_lines lines r.2;
      Val (r.1 ++ r'.1, r'.2)
  end.

Record SseParser : Type := mkSseParser { sp_buffer : string; sp_partial : partial }.

Definition new_parser : SseParser := mkSseParser EmptyString no_event.

Definition feed (chunk : string) (s : SseParser) : outcome (list SseEvent * SseParser) :=
  let '(lines, buffer) := split_lines (sp_buffer s +:+ chunk) in
  r ← take_lines lines (sp_partial s); Val (r.1, mkSseParser buffer r.2).

(** A reader that feeds what it receives, chunk after chunk. *)
Fixpoint feed_all (chunks : list string) (s : SseParser) : outcome (list SseEvent * SseParser) :=
  match chunks with
  | [] => Val ([], s)
  | c :: chunks => r ← feed c s; r' ← feed_all chunks r.2; Val (r.1 ++ r'.1, r'.2)
  end.

(** ** The parser does not see how the bytes were cut *)

Lemma take_lines_app l1 l2 p :
  take_lines (l1 ++ l2) p =
    (r ← take_lines l1 p; r' ← take_lines l2 r.2; Val (r.1 ++ r'.1, r'.2)).
Proof.
  revert p. induction l1 as [|l l1 IH]; intros p; cbn [take_lines app].
  { cbn [mbind outcome_bind fst snd app]. by destruct (take_lines l2 p) as [[evs q]| |]. }
  destruct (take_line (strip_cr l) p) as [[evs q]| |]; cbn [mbind outcome_bind]; [|done|done].
  rewrite IH. cbn [fst snd]. destruct (take_lines l1 q) as [[evs1 q1]| |]; cbn [mbind outcome_bind fst snd]; [|done|done].
  destruct (take_lines l2 q1) as [[evs2 q2]| |]; cbn [mbind outcome_bind fst snd]; [|done|done].
  by rewrite app_assoc.
Qed.

Lemma feed_app a b s : feed (a +:+ b) s = (r ← feed a s; r' ← feed b r.2; Val (r.1 ++ r'.1, r'.2)).
Proof.
  unfold feed. rewrite <- str_app_assoc, split_lines_app.
  destruct (split_lines (sp_buffer s +:+ a)) as [l1 r1] eqn:E1.
  destruct (split_lines (r1 +:+ b)) as [l2 r2] eqn:E2. rewrite take_lines_app.
  destruct (take_lines l1 (sp_partial s)) as [[evs q]| |]; cbn [mbind outcome_bind fst snd]; [|done|done].
  cbn [sp_buffer sp_partial]. rewrite E2.
  by destruct (take_lines l2 q) as [[evs2 q2]| |].
Qed.

Lemma feed_all_concat chunks a s :
  feed_all (a :: chunks) s = feed (a +:+ foldr String.append EmptyString chunks) s.
Proof.
  revert a s. induction chunks as [|b chunks IH]; intros a s.
  - cbn [feed_all foldr]. rewrite str_app_nil_r.
    destruct (feed a s) as [[evs q]| |]; cbn [mbind outcome_bind fst snd]; [|done|done]. by rewrite app_nil_r.
  - cbn [foldr]. rewrite feed_app. cbn [feed_all]. fold (feed_all (b :: chunks)). 
    destruct (feed a s) as [[evs q]| |]; cbn [mbind outcome_bind fst snd]; [|done|done].
    rewrite <- IH. cbn [feed_all]. by destruct (feed b q) as [[evs2 q2]| |].
Qed.

(** ** What is written is what is parsed *)

Definition wf_event (e : SseEvent) : Prop :=
  (forall v, sse_id e = Some v -> single_line v) /\
  (forall v, sse_event e = Some v -> single_line v) /\
  find_char CR (sse_data e) = None /\
  (forall ms, retry_ms e = Some ms -> 0 <= ms < modulus 31)%Z.

(** Newlines at the front of the data do not survive. *)
Fixpoint drop_newlines (s : string) : string :=
  match s with
  | String c s' => if Ascii.eqb c LF then drop_newlines s' else s
  | EmptyString => EmptyString
  end.

Definition received (e : SseEvent) : SseEvent :=
  mkSseEvent (sse_id e) (sse_event e) (drop_newlines (sse_data e)) (retry_ms e).

(** What a stream consists of: events, and comments between them. *)
Inductive item := Event (e : SseEvent) | Comment (text : string).

Definition item_text (i : item) : string :=
  match i with Event e => format_sse_event e | Comment text => end_line (String ":"%char text) end.

Definition wf_item (i : item) : Prop :=
  match i with Event e => wf_event e | Comment text => single_line text end.

Definition events_of (items : list item) : list SseEvent :=
  omap (fun i => match i with Event e => Some (received e) | Comment _ => None end) items.

(** *** The data field *)

Definition join (ls : list string) : string := foldr (fun l r => String LF (l +:+ r)) EmptyString ls.

Lemma data_lines_join s :
  exists h t, data_lines s = h :: t /\ s = h +:+ join t /\ find_char LF h = None.
Proof.
  unfold data_lines. induction s as [|c s (h & t & El & Es & Hh)]; [by exists EmptyString, []|].
  cbn [split_lines]. destruct (split_lines s) as [ls last]. destruct (Ascii.eqb_spec c LF) as [->|Hc].
  - exists EmptyString, (h :: t). cbn [app]. rewrite El. split; [done|]. split; [|done].
    change (EmptyString +:+ join (h :: t)) with (String LF (h +:+ join t)). by rewrite <- Es.
  - exists (String c h), t. split; [|split].
    + destruct ls as [|l ls]; cbn [app] in *; injection El as -> ->; done.
    + change (String c h +:+ join t) with (String c (h +:+ join t)). by rewrite <- Es.
    + rewrite find_char_cons, (proj2 (Ascii.eqb_neq LF c)) by congruence. by rewrite Hh.
Qed.

Lemma data_lines_forall (P : string -> Prop) s :
  (forall h t, P (h +:+ t) -> P h) -> (forall c t, P (String c t) -> P t) -> P s -> Forall P (data_lines s).
Proof.
  intros Hpre Htl Hs. destruct (data_lines_join s) as (h & t & -> & -> & _).
  assert (forall t, P (join t) -> Forall P t) as H.
  { induction t0 as [|l t0 IH]; [constructor|]. intros Hj%Htl. constructor; [by eapply Hpre|]. apply IH.
    induction l as [|c l IHl]; [done|]. apply IHl. by apply Htl in Hj. }
  constructor; [by eapply Hpre|]. apply H. induction h as [|c h IHh]; [done|]. apply IHh. by apply Htl in Hs.
Qed.

Lemma data_lines_single s : find_char CR s = None -> Forall single_line (data_lines s).
Proof.
  intros Hs. assert (Forall (fun l => find_char LF l = None) (data_lines s)) as Hlf.
  { clear Hs. induction s as [|c s IH]; [by repeat constructor|]. unfold data_lines in *. cbn [split_lines].
    destruct (split_lines s) as [ls last]. destruct (Ascii.eqb_spec c LF) as [->|Hc]; [by constructor|].
    assert (forall l, find_char LF l = None -> find_char LF (String c l) = None) as Hcons.
    { intros l Hl. rewrite find_char_cons, (proj2 (Ascii.eqb_neq LF c)), Hl by congruence. done. }
    destruct ls as [|l ls]; cbn [app] in *; apply Forall_cons_1 in IH as [H1 H2]; constructor; auto. }
  assert (Forall (fun l => find_char CR l = None) (data_lines s)) as Hcr.
  { apply data_lines_forall; [| |done].
    - intros h t. induction h as [|c h IH]; [done|]. change (String c h +:+ t) with (String c (h +:+ t)).
      rewrite !find_char_cons. destruct (Ascii.eqb CR c); [done|]. intros H. rewrite IH; [done|].
      by destruct (find_char CR (h +:+ t)).
    - intros c t. rewrite find_char_cons. destruct (Ascii.eqb CR c); [done|]. by destruct (find_char CR t). }
  apply Forall_forall. intros l Hl. rewrite Forall_forall in Hlf, Hcr. by split; auto.
Qed.

Definition add_data (data line : string) : string :=
  data +:+ (if String.eqb data EmptyString then EmptyString else String LF EmptyString) +:+ line.

Lemma add_data_more t data :
  data <> EmptyString -> foldl add_data data t = data +:+ join t.
Proof.
  revert data. induction t as [|l t IH]; intros data Hd; cbn [foldl]; [by rewrite str_app_nil_r|].
  unfold add_data at 2. rewrite (proj2 (String.eqb_neq _ _) Hd). rewrite IH.
  - by rewrite !str_app_assoc.
  - by destruct data.
Qed.

Lemma add_data_lines s : foldl add_data EmptyString (data_lines s) = drop_newlines s.
Proof.
  induction s as [|c s IH]; [done|]. unfold data_lines in *. cbn [split_lines drop_newlines].
  destruct (split_lines s) as [ls last] eqn:Es. destruct (Ascii.eqb_spec c LF) as [->|Hc]; [exact IH|].
  destruct (data_lines_join (String c s)) as (h & t & El & Ej & Hh).
  unfold data_lines in El. cbn [split_lines] in El. rewrite Es, (proj2 (Ascii.eqb_neq c LF)) in El by done.
  rewrite El. cbn [foldl]. change (add_data EmptyString h) with h. rewrite add_data_more, <- Ej; [done|].
  intros ->. destruct ls; discriminate El.
Qed.

(** *** One event *)

Lemma take_lines_cons l ls p :
  find_char CR l = None ->
  take_lines (l :: ls) p = (r ← take_line l p; r' ← take_lines ls r.2; Val (r.1 ++ r'.1, r'.2)).
Proof. intros Hl. cbn [take_lines]. by rewrite strip_cr_none. Qed.

Lemma take_lines_step l ls p p' :
  find_char CR l = None -> take_line l p = Val ([], p') -> take_lines (l :: ls) p = take_lines ls p'.
Proof.
  intros Hl E. rewrite take_lines_cons, E by done. cbn [mbind outcome_bind fst snd app].
  by destruct (take_lines ls p') as [[evs q]| |].
Qed.

(** The names of the fields. *)
Definition known_field (name : string) : Prop := name ∈ ["data"; "id"; "event"; "retry"].

Ltac known := unfold known_field; rewrite !elem_of_cons; tauto.

Lemma take_line_field name v p :
  known_field name -> take_line (name +:+ ": " +:+ v) p = (p' ← take_field name v p; Val ([], p')).
Proof. unfold known_field. rewrite !elem_of_cons. by intros [->|[->|[->|[->|?%not_elem_of_nil]]]]. Qed.

Lemma field_no_break name v : known_field name -> single_line v -> single_line (name +:+ ": " +:+ v).
Proof.
  intros Hn Hv. apply single_line_app; [|by apply single_line_app].
  unfold known_field in Hn. rewrite !elem_of_cons in Hn.
  by destruct Hn as [->|[->|[->|[->|?%not_elem_of_nil]]]].
Qed.

Lemma take_field_lines name v ls p p' :
  known_field name -> single_line v -> take_field name v p = Val p' ->
  take_lines ((name +:+ ": " +:+ v) :: ls) p = take_lines ls p'.
Proof.
  intros Hn Hv E. apply take_lines_step; [by apply field_no_break|]. by rewrite take_line_field, E.
Qed.

Definition set_retry (ms : option Z) (p : partial) : partial :=
  match ms with
  | Some _ => mkPartial (mkSseEvent (sse_id (current p)) (sse_event (current p)) (sse_data (current p)) ms) true
  | None => p
  end.

Definition set_event (v : option string) (p : partial) : partial :=
  match v with
  | Some _ => mkPartial (mkSseEvent (sse_id (current p)) v (sse_data (current p)) (retry_ms (current p))) true
  | None => p
  end.

Definition set_id (v : option string) (p : partial) : partial :=
  match v with
  | Some _ => mkPartial (mkSseEvent v (sse_event (current p)) (sse_data (current p)) (retry_ms (current p))) true
  | None => p
  end.

Lemma take_retry ms ls p :
  (forall n, ms = Some n -> 0 <= n < modulus 31)%Z ->
  take_lines (optional_line "retry" (to_string <$> ms) ++ ls) p = take_lines ls (set_retry ms p).
Proof.
  intros Hms. destruct ms as [n|]; [|done]. specialize (Hms n eq_refl).
  destruct (to_string_digits n ltac:(lia)) as [Hd Hne].
  apply take_field_lines; [known|by (apply single_line_to_string; lia)|].
  cbn [take_field String.eqb Ascii.eqb Bool.eqb]. rewrite (proj2 (String.eqb_neq _ _) Hne), Hd. cbn [negb andb].
  rewrite <- (str_app_nil_r (to_string n)), atoi_to_string by done. done.
Qed.

Lemma take_event v ls p :
  (forall s, v = Some s -> single_line s) ->
  take_lines (optional_line "event" v ++ ls) p = take_lines ls (set_event v p).
Proof.
  intros Hv. destruct v as [s|]; [|done]. specialize (Hv s eq_refl).
  apply take_field_lines; [known|done|done].
Qed.

Lemma take_id v ls p :
  (forall s, v = Some s -> single_line s) ->
  take_lines (optional_line "id" v ++ ls) p = take_lines ls (set_id v p).
Proof.
  intros Hv. destruct v as [s|]; [|done]. specialize (Hv s eq_refl).
  apply take_field_lines; [known|done|done].
Qed.

(** A partial event whose data is not empty has seen a field. *)
Definition data_seen (p : partial) : Prop := any_field p = true \/ sse_data (current p) = EmptyString.

Lemma take_data d ds ls p :
  Forall single_line (d :: ds) -> data_seen p ->
  take_lines (((fun l => "data: " +:+ l) <$> (d :: ds)) ++ ls) p =
  take_lines ls (mkPartial (mkSseEvent (sse_id (current p)) (sse_event (current p))
                              (foldl add_data (sse_data (current p)) (d :: ds)) (retry_ms (current p))) true).
Proof.
  intros Hds. revert d p Hds.
  assert (Hone : forall d p, data_seen p -> take_field "data" d p =
    Val (mkPartial (mkSseEvent (sse_id (current p)) (sse_event (current p))
                       (add_data (sse_data (current p)) d) (retry_ms (current p))) true)).
  { intros d p Hp. cbn [take_field String.eqb Ascii.eqb Bool.eqb]. unfold add_data.
    destruct (String.eqb_spec (sse_data (current p)) EmptyString) as [->|Hne]; [by rewrite andb_false_r|].
    destruct Hp as [->|]; [done|by destruct Hne]. }
  induction ds as [|d' ds IH]; intros d p [Hd Hds]%Forall_cons_1 Hp.
  - by apply (take_field_lines "data"); [known|done|apply Hone].
  - rewrite fmap_cons. cbn [app].
    etrans; [apply (take_field_lines "data" d); [known|done|by apply Hone]|]. rewrite IH; [done|done|by left].
Qed.

Lemma event_lines_no_break e : wf_event e -> Forall single_line (event_lines e).
Proof.
  intros (Hid & Hev & Hda & Hre).
  assert (forall name v, known_field name -> (forall s, v = Some s -> single_line s) ->
            Forall single_line (optional_line name v)) as Hopt.
  { intros name [s|] Hn Hv; [|constructor]. constructor; [|constructor]. apply field_no_break; auto. }
  unfold event_lines. repeat apply Forall_app_2.
  - apply Hopt; [known|]. intros s. destruct (retry_ms e) as [n|]; [|done]. intros [= <-].
    apply single_line_to_string. by destruct (Hre n eq_refl).
  - by apply Hopt; [known|].
  - by apply Hopt; [known|].
  - apply Forall_fmap, Forall_impl with single_line; [by apply data_lines_single|].
    intros l Hl. apply (field_no_break "data"); [known|done].
  - by repeat constructor.
Qed.

Lemma take_lines_event e ls :
  wf_event e ->
  take_lines (event_lines e ++ ls) no_event = (r ← take_lines ls no_event; Val (received e :: r.1, r.2)).
Proof.
  intros (Hid & Hev & Hda & Hre). unfold event_lines. rewrite <- !app_assoc.
  rewrite take_retry, take_event, take_id by done.
  pose proof (data_lines_single _ Hda) as Hds. pose proof (add_data_lines (sse_data e)) as Hadd.
  destruct (data_lines_join (sse_data e)) as (h & t & El & _). rewrite El in Hds, Hadd |- *.
  rewrite take_data; [|done|by right; destruct (sse_id e), (sse_event e), (retry_ms e)].
  change ([EmptyString] ++ ls) with (EmptyString :: ls). rewrite take_lines_cons by done. cbn [take_line any_field current mbind outcome_bind fst snd app].
  unfold received. rewrite <- Hadd. by destruct (sse_id e), (sse_event e), (retry_ms e).
Qed.

Definition item_lines (i : item) : list string :=
  match i with Event e => event_lines e | Comment text => [String ":"%char text] end.

Lemma take_lines_items items :
  Forall wf_item items -> take_lines (items ≫= item_lines) no_event = Val (events_of items, no_event).
Proof.
  induction 1 as [|[e|text] items Hi _ IH]; [done| |]; rewrite bind_cons; cbn [item_lines].
  - rewrite take_lines_event, IH by done. done.
  - cbn [app]. destruct Hi as [_ Hcr]. rewrite (take_lines_step _ _ _ no_event); [exact IH| |done].
    rewrite find_char_cons. by rewrite Hcr.
Qed.

Lemma items_no_break items : Forall wf_item items -> Forall single_line (items ≫= item_lines).
Proof.
  induction 1 as [|[e|text] items Hi _ IH]; [constructor| |]; rewrite bind_cons; apply Forall_app_2; try done.
  - by apply event_lines_no_break.
  - constructor; [|constructor]. destruct Hi as [Hl Hc]. by split; rewrite find_char_cons, ?Hl, ?Hc.
Qed.

Lemma items_text items :
  foldr String.append EmptyString (item_text <$> items) =
  foldr (fun l r => end_line l +:+ r) EmptyString (items ≫= item_lines).
Proof.
  assert (forall l r, foldr (fun l r => end_line l +:+ r) EmptyString l +:+ r = foldr (fun l r => end_line l +:+ r) r l)
    as Happ.
  { induction l as [|x l IH]; intros r; cbn [foldr]; [done|]. by rewrite str_app_assoc, IH. }
  induction items as [|i items IH]; [done|]. rewrite fmap_cons, bind_cons, foldr_app. cbn [foldr]. rewrite IH.
  destruct i as [e|text]; cbn [item_text item_lines foldr]; [|done]. by unfold format_sse_event; rewrite Happ.
Qed.

Lemma feed_items items chunks :
  Forall wf_item items ->
  foldr String.append EmptyString chunks = foldr String.append EmptyString (item_text <$> items) ->
  feed_all chunks new_parser = Val (events_of items, new_parser).
Proof.
  intros Hwf Hc. assert (feed_all chunks new_parser = feed_all (EmptyString :: chunks) new_parser) as ->.
  { cbn [feed_all]. change (feed EmptyString new_parser) with (@Val (list SseEvent * SseParser) ([], new_parser)).
    cbn [mbind outcome_bind fst snd app]. by destruct (feed_all chunks new_parser) as [[evs q]| |]. }
  rewrite feed_all_concat, Hc, items_text. unfold feed.
  change (sp_buffer new_parser +:+ ?s) with s.
  change (EmptyString +:+ ?s) with s. rewrite split_lines_concat.
  - cbn [split_lines]. rewrite app_nil_r. cbn [sp_partial new_parser]. by rewrite take_lines_items.
  - eapply Forall_impl; [by apply items_no_break|]. by intros l [].
Qed.

(** C27: a stream of formatted events, with comments between them, is parsed
    back to the same events in order, however the bytes are cut into reads;
    only newlines at the very front of an event's data are lost. *)
Theorem sse_stream_roundtrip items chunks :
  Forall wf_item items ->
  foldr String.append EmptyString chunks = foldr String.append EmptyString (item_text <$> items) ->
  feed_all chunks new_parser = Val (events_of items, new_parser).
Proof. apply feed_items. Qed.

Lemma sse_stream_roundtrip_witness :
  feed_all ["id: 7" +:+ String LF "da"; "ta: a" +:+ String LF ("data: b" +:+ String LF (String LF EmptyString))]
    new_parser = Val ([mkSseEvent (Some "7") None ("a" +:+ String LF "b") None], new_parser).
Proof.
  apply (sse_stream_roundtrip [Event (mkSseEvent (Some "7") None ("a" +:+ String LF "b") None)]); [|reflexivity].
  apply Forall_cons_2; [|apply Forall_nil_2]. split; [by intros v [= <-]|]. split; [done|]. by split.
Defined.
