(* ===== verification/Chunked.v ===== *)
(** * Chunked transfer encoding

    [ChunkedDecoder] of src/transport/http/http_codec.cpp: the incremental
    decoder, that it always comes back, that it does not see how the bytes
    arrive, and that it decodes what a chunking peer sends. *)

From S2P Require Import Prelude Json Core Lines.

Definition CRLF : string := String CR (String LF EmptyString).

Inductive Status := NeedMore | Done | DecodeError.
Inductive ChunkState := ReadSize | ReadData | ReadDataCrlf | ReadTrailers.

Record ChunkedDecoder : Type := mkDecoder { cd_state : ChunkState; remaining : Z }.

Definition new_decoder : ChunkedDecoder := mkDecoder ReadSize 0.

(** ** The size line *)

Definition hex_digit (c : Ascii.ascii) : option Z :=
  if is_digit c then Some (digit_val c)
  else if in_range "a"%char "f"%char c then Some (Z.of_N (code c) - 97 + 10)%Z
  else if in_range "A"%char "F"%char c then Some (Z.of_N (code c) - 65 + 10)%Z
  else None.

(** The loop over the line: [None] is a bad digit; [any] tells whether there
    was a digit before the end or the first semicolon. *)
Fixpoint chunk_size (line : string) (size : Z) (any : bool) : option (Z * bool) :=
  match line with
  | EmptyString => Some (size, any)
  | String c line =>
      if Ascii.eqb c ";"%char then Some (size, any)
      else match hex_digit c with
           | None => None
           | Some digit => chunk_size line (wrap_u 64 (wrap_u 64 (size * 16) + digit)) true
           end
  end.

(** ** One turn of the loop *)

(** Decoder, unread bytes and payload so far. *)
Definition config : Type := ChunkedDecoder * string * string.

Inductive turn := Again (c : config) | Return (s : Status) (c : config).

Definition decode_turn (c : config) : turn :=
  let '(d, buffer, out) := c in
  match cd_state d with
  | ReadSize =>
      match str_find CRLF buffer with
      | None => Return NeedMore c
      | Some nl =>
          let buffer' := str_drop (nl + 2) buffer in
          match chunk_size (str_take nl buffer) 0 false with
          | None | Some (_, false) => Return DecodeError (d, buffer', out)
          | Some (n, true) =>
              if (n =? 0)%Z then Again (mkDecoder ReadTrailers (remaining d), buffer', out)
              else Again (mkDecoder ReadData n, buffer', out)
          end
      end
  | ReadData =>
      let take := Z.to_nat (Z.min (remaining d) (Z.of_nat (size buffer))) in
      let left_ := (remaining d - Z.of_nat take)%Z in
      let buffer' := str_drop take buffer in
      let out' := out +:+ str_take take buffer in
      if (0 <? left_)%Z then Return NeedMore (mkDecoder ReadData left_, buffer', out')
      else Again (mkDecoder ReadDataCrlf left_, buffer', out')
  | ReadDataCrlf =>
      if (size buffer <? 2)%nat then Return NeedMore c
      else if negb (str_compare_at 0 2 CRLF buffer) then Return DecodeError c
      else Again (mkDecoder ReadSize (remaining d), str_drop 2 buffer, out)
  | ReadTrailers =>
      match str_find CRLF buffer with
      | None => Return NeedMore c
      | Some nl =>
          let c' := (d, str_drop (nl + 2) buffer, out) in
          if (nl =? 0)%nat then Return Done c' else Again c'
      end
  end.

Fixpoint run_turns (fuel : nat) (c : config) : option (Status * config) :=
  match fuel with
  | O => None
  | S fuel =>
      match decode_turn c with
      | Again c' => run_turns fuel c'
      | Return s c' => Some (s, c')
      end
  end.

(** Every turn that goes on takes bytes from the buffer, or leaves [ReadData]. *)
Definition turns_left (c : config) : nat :=
  let '(d, buffer, _) := c in
  2 * size buffer + match cd_state d with ReadData => 2 | _ => 1 end.

Definition feed_config (c : config) : option (Status * config) := run_turns (turns_left c) c.

(** [feed]. *)
Definition feed (d : ChunkedDecoder) (buffer out : string) : option (Status * config) :=
  feed_config (d, buffer, out).

(** ** The loop ends *)

Lemma decode_turn_decreases c c' : decode_turn c = Again c' -> turns_left c' < turns_left c.
Proof.
  destruct c as [[d buffer] out]. unfold decode_turn, turns_left.
  destruct (cd_state d) eqn:Ed.
  - destruct (str_find CRLF buffer) as [nl|] eqn:E; [|done]. apply str_find_Some in E as [E _]. cbn in E.
    destruct (chunk_size _ 0 false) as [[n []]|]; [|done|done].
    destruct (n =? 0)%Z; intros [= <-]; cbn [cd_state]; rewrite size_drop; lia.
  - destruct (0 <? _)%Z; intros [= <-]. cbn [cd_state]. rewrite size_drop. lia.
  - destruct (size buffer <? 2)%nat eqn:E; [done|]. apply Nat.ltb_ge in E.
    destruct (negb _); [done|]. pose proof (size_drop 2 buffer) as Hd. revert Hd.
    generalize (str_drop 2 buffer). intros b Hd [= <-]. cbn [cd_state]. lia.
  - destruct (str_find CRLF buffer) as [nl|] eqn:E; [|done]. apply str_find_Some in E as [E _]. cbn in E.
    destruct (nl =? 0)%nat; intros [= <-]. rewrite Ed, size_drop. lia.
Qed.

Lemma run_turns_total fuel c : turns_left c <= fuel -> exists r, run_turns fuel c = Some r.
Proof.
  revert c. induction fuel as [|fuel IH]; intros c Hf.
  { destruct c as [[d buffer] out]. unfold turns_left in Hf. destruct (cd_state d); lia. }
  cbn [run_turns]. destruct (decode_turn c) as [c'|s c'] eqn:E; [|by eexists].
  apply decode_turn_decreases in E. apply IH. lia.
Qed.

Lemma run_turns_more fuel c r : run_turns fuel c = Some r -> forall fuel', fuel <= fuel' -> run_turns fuel' c = Some r.
Proof.
  revert c. induction fuel as [|fuel IH]; intros c Hr fuel' Hle; [done|]. destruct fuel' as [|fuel']; [lia|].
  cbn [run_turns] in *. destruct (decode_turn c); [|done]. apply IH; [done|lia].
Qed.

Lemma feed_config_Again c c' : decode_turn c = Again c' -> feed_config c = feed_config c'.
Proof.
  intros E. unfold feed_config. destruct (run_turns_total (turns_left c') c' ltac:(lia)) as [r Hr]. rewrite Hr.
  apply decode_turn_decreases in E as Hlt. destruct (turns_left c) as [|n]; [lia|]. cbn [run_turns]. rewrite E.
  by apply (run_turns_more _ _ _ Hr); lia.
Qed.

Lemma feed_config_Return c s c' : decode_turn c = Return s c' -> feed_config c = Some (s, c').
Proof.
  intros E. unfold feed_config. assert (turns_left c <> 0) as Hn.
  { destruct c as [[d buffer] out]. unfold turns_left. destruct (cd_state d); lia. }
  destruct (turns_left c) as [|n]; [done|]. cbn [run_turns]. by rewrite E.
Qed.

(** Induction over the turns of a call. *)
Lemma feed_config_ind (P : config -> Prop) :
  (forall c s c', decode_turn c = Return s c' -> P c) ->
  (forall c c', decode_turn c = Again c' -> P c' -> P c) ->
  forall c, P c.
Proof.
  intros Hr Ha c. remember (turns_left c) as n eqn:En. revert c En.
  induction n as [n IH] using lt_wf_ind. intros c ->.
  destruct (decode_turn c) as [c'|s c'] eqn:E; [|by eapply Hr].
  eapply Ha; [done|]. eapply IH; [by apply decode_turn_decreases|done].
Qed.

(** ** The decoder does not see how the bytes were cut *)

Lemma prefix_app_long p s t : size p <= size s -> String.prefix p (s +:+ t) = String.prefix p s.
Proof.
  revert s. induction p as [|c p IH]; intros [|d s] H; cbn in H; [by destruct t|done|lia|].
  change (String d s +:+ t) with (String d (s +:+ t)). cbn [String.prefix].
  destruct (Ascii.ascii_dec c d); [|done]. apply IH. lia.
Qed.

Lemma str_find_app_l pat a b n : str_find pat a = Some n -> str_find pat (a +:+ b) = Some n.
Proof.
  revert n. induction a as [|c a IH]; intros n Hn.
  - apply str_find_Some in Hn as Hs. destruct Hs as [Hs _]. cbn in Hs. destruct pat; [|cbn in Hs; lia].
    cbn in Hn. injection Hn as <-. change (EmptyString +:+ b) with b. by destruct b.
  - apply str_find_Some in Hn as Hs. destruct Hs as [Hs _].
    change (String c a +:+ b) with (String c (a +:+ b)). cbn [str_find] in Hn |- *.
    change (String c (a +:+ b)) with (String c a +:+ b). rewrite prefix_app_long by lia.
    destruct (String.prefix pat (String c a)); [done|].
    destruct (str_find pat a) as [k|]; [|done]. rewrite (IH k eq_refl). done.
Qed.

Lemma find_crlf_app buffer more nl :
  str_find CRLF buffer = Some nl ->
  str_find CRLF (buffer +:+ more) = Some nl /\ str_take nl (buffer +:+ more) = str_take nl buffer /\
  str_drop (nl + 2) (buffer +:+ more) = str_drop (nl + 2) buffer +:+ more.
Proof.
  intros E. apply str_find_Some in E as Hs. destruct Hs as [Hs _]. change (size CRLF) with 2 in Hs.
  split; [by apply str_find_app_l|]. split; [apply str_take_app_le; lia|apply str_drop_app_le; lia].
Qed.

Definition add_bytes (more : string) (c : config) : config := let '(d, buffer, out) := c in (d, buffer +:+ more, out).

Lemma decode_turn_bytes more c :
  match decode_turn c with
  | Again c' => decode_turn (add_bytes more c) = Again (add_bytes more c')
  | Return NeedMore c' => decode_turn (add_bytes more c) = decode_turn (add_bytes more c')
  | Return s c' => decode_turn (add_bytes more c) = Return s (add_bytes more c')
  end.
Proof.
  destruct c as [[d buffer] out]. unfold decode_turn at 1. destruct (cd_state d) eqn:Ed.
  - destruct (str_find CRLF buffer) as [nl|] eqn:E; [|done].
    destruct (find_crlf_app buffer more nl E) as (H1 & H2 & H3).
    cbn [add_bytes]. unfold decode_turn. rewrite Ed, H1, H2, H3.
    by destruct (chunk_size _ 0 false) as [[n []]|]; [destruct (n =? 0)%Z| |].
  - set (take := Z.to_nat (Z.min (remaining d) (Z.of_nat (size buffer)))). cbv zeta.
    destruct (Z.ltb_spec 0 (remaining d - Z.of_nat take)) as [Hl|Hl].
    + assert (take = size buffer) as Ht by (unfold take in *; lia). unfold decode_turn, add_bytes. cbn [cd_state remaining]. rewrite Ed.
      rewrite Ht, (str_drop_all _ buffer), (str_take_all _ buffer) by lia. change (EmptyString +:+ more) with more.
      rewrite size_app. set (t := Z.to_nat (Z.min _ (Z.of_nat (_ + _)))).
      set (u := Z.to_nat (Z.min _ (Z.of_nat (size more)))).
      assert (t = size buffer + u) as -> by (unfold t, u; lia).
      replace (remaining d - Z.of_nat (size buffer + u))%Z with (remaining d - Z.of_nat (size buffer) - Z.of_nat u)%Z by lia.
      rewrite <- str_drop_drop, str_drop_app_size, str_app_assoc.
      replace (str_take (size buffer + u) (buffer +:+ more)) with (buffer +:+ str_take u more); [done|].
      clearbody u. clear. induction buffer as [|c b IH]; [done|]. cbn. by rewrite IH.
    + unfold decode_turn, add_bytes. rewrite Ed. set (t := Z.to_nat (Z.min _ (Z.of_nat (size (_ +:+ _))))).
      assert (t = take) as -> by (unfold t, take in *; rewrite size_app; lia).
      rewrite (proj2 (Z.ltb_ge _ _)) by lia. by rewrite str_drop_app_le, str_take_app_le by lia.
  - destruct (Nat.ltb_spec (size buffer) 2) as [Hs|Hs]; [done|].
    unfold add_bytes, decode_turn. rewrite Ed. rewrite (proj2 (Nat.ltb_ge _ _)) by (rewrite size_app; lia).
    unfold str_compare_at. rewrite !str_drop_0, str_take_app_le, (str_drop_app_le 2) by lia.
    by destruct (negb (String.eqb (str_take 2 buffer) CRLF)).
  - destruct (str_find CRLF buffer) as [nl|] eqn:E; [|done].
    destruct (find_crlf_app buffer more nl E) as (H1 & H2 & H3).
    unfold add_bytes, decode_turn. rewrite Ed, H1, H3. by destruct (nl =? 0)%nat.
Qed.

(** Decoding a part of the bytes and then the rest is decoding all of them. *)
Lemma feed_config_bytes more c :
  feed_config (add_bytes more c) =
    match feed_config c with
    | Some (NeedMore, c') => feed_config (add_bytes more c')
    | Some (s, c') => Some (s, add_bytes more c')
    | None => None
    end.
Proof.
  induction c as [c s c' E|c c' E IH] using feed_config_ind.
  - rewrite (feed_config_Return _ _ _ E). pose proof (decode_turn_bytes more c) as H. rewrite E in H.
    destruct s; [|by apply feed_config_Return..].
    destruct (decode_turn (add_bytes more c')) as [c2|s2 c2] eqn:E2.
    + by rewrite (feed_config_Again _ _ H), (feed_config_Again _ _ E2).
    + by rewrite (feed_config_Return _ _ _ H), (feed_config_Return _ _ _ E2).
  - pose proof (decode_turn_bytes more c) as H. rewrite E in H.
    by rewrite (feed_config_Again _ _ H), (feed_config_Again _ _ E), IH.
Qed.

(** A reader that appends what it receives and decodes, until the decoder is
    done; the pieces it did not need are left. *)
Fixpoint decode_pieces (pieces : list string) (c : config) : option (Status * config * list string) :=
  match pieces with
  | [] => Some (NeedMore, c, [])
  | piece :: pieces =>
      match feed_config (add_bytes piece c) with
      | Some (NeedMore, c') => decode_pieces pieces c'
      | Some (s, c') => Some (s, c', pieces)
      | None => None
      end
  end.

Lemma add_bytes_app a b c : add_bytes (a +:+ b) c = add_bytes b (add_bytes a c).
Proof. destruct c as [[d buffer] out]. cbn. by rewrite str_app_assoc. Qed.

Lemma decode_pieces_spec pieces c s c' :
  feed_config c = Some (NeedMore, c) -> s <> NeedMore ->
  feed_config (add_bytes (foldr String.append EmptyString pieces) c) = Some (s, c') ->
  exists c1 unread, decode_pieces pieces c = Some (s, c1, unread) /\
    c' = add_bytes (foldr String.append EmptyString unread) c1.
Proof.
  assert (forall c, add_bytes EmptyString c = c) as Hnil.
  { intros [[d b] o]. cbn. by rewrite str_app_nil_r. }
  intros Hc Hs. revert c Hc. induction pieces as [|p pieces IH]; intros c Hc.
  { cbn [foldr]. rewrite Hnil, Hc. congruence. }
  cbn [foldr decode_pieces]. rewrite add_bytes_app, feed_config_bytes.
  destruct (feed_config (add_bytes p c)) as [[s1 c1]|] eqn:E1; [|done].
  destruct s1.
  - intros H. apply IH; [|done]. pose proof (feed_config_bytes EmptyString (add_bytes p c)) as H2.
    rewrite !Hnil, E1, Hnil in H2. done.
  - intros [= <- <-]. by exists c1, pieces.
  - intros [= <- <-]. by exists c1, pieces.
Qed.

(** ** What a chunking peer sends *)

Definition hex_char (d : Z) : Ascii.ascii :=
  if (d <? 10)%Z then digit_char d else Ascii.ascii_of_N (Z.to_N (87 + d)).

Fixpoint hex_digits (fuel : nat) (n : Z) : string :=
  match fuel with
  | O => EmptyString
  | S fuel =>
      (if (n <? 16)%Z then EmptyString else hex_digits fuel (n / 16)) +:+ String (hex_char (n mod 16)) EmptyString
  end.

(** Sixteen digits write every 64-bit number. *)
Definition hex (n : Z) : string := hex_digits 16 n.

(** A chunk: its payload and an extension, which is ignored. *)
Record chunk : Type := mkChunk { chunk_data : string; chunk_extension : string }.

Definition line (s : string) : string := s +:+ CRLF.

Definition chunk_text (c : chunk) : string :=
  line (hex (Z.of_nat (size (chunk_data c))) +:+ chunk_extension c) +:+ line (chunk_data c).

Definition body_text (chunks : list chunk) (trailers : list string) : string :=
  foldr String.append
    (line "0" +:+ foldr String.append CRLF (line <$> trailers)) (chunk_text <$> chunks).

Definition payload (chunks : list chunk) : string := foldr String.append EmptyString (chunk_data <$> chunks).

Definition wf_extension (e : string) : Prop :=
  find_char CR e = None /\ (e = EmptyString \/ exists e', e = String ";"%char e').

Definition wf_chunk (c : chunk) : Prop :=
  chunk_data c <> EmptyString /\ (Z.of_nat (size (chunk_data c)) < modulus 64)%Z /\ wf_extension (chunk_extension c).

Definition wf_trailer (t : string) : Prop := t <> EmptyString /\ find_char CR t = None.

Lemma hex_char_spec d :
  (0 <= d < 16)%Z ->
  hex_digit (hex_char d) = Some d /\ Ascii.eqb (hex_char d) ";"%char = false /\ Ascii.eqb CR (hex_char d) = false.
Proof.
  intros H. assert (d = 0 \/ d = 1 \/ d = 2 \/ d = 3 \/ d = 4 \/ d = 5 \/ d = 6 \/ d = 7 \/ d = 8 \/ d = 9 \/
                    d = 10 \/ d = 11 \/ d = 12 \/ d = 13 \/ d = 14 \/ d = 15)%Z as Hd by lia.
  by repeat destruct Hd as [->|Hd]; [..|subst].
Qed.

Lemma chunk_size_digit d v any t :
  (0 <= d < 16)%Z -> (0 <= v)%Z -> (16 * v + d < modulus 64)%Z ->
  chunk_size (String (hex_char d) t) v any = chunk_size t (16 * v + d) true.
Proof.
  intros Hd Hv Hm. destruct (hex_char_spec d Hd) as (H1 & H2 & _). cbn [chunk_size]. rewrite H2, H1.
  rewrite (wrap_u_id 64 (v * 16)) by (split; lia). rewrite wrap_u_id by (split; lia). do 2 f_equal. lia.
Qed.

Lemma chunk_size_hex_digits fuel n any t :
  (0 <= n < 16 ^ Z.of_nat fuel)%Z -> (n < modulus 64)%Z -> fuel <> 0 ->
  chunk_size (hex_digits fuel n +:+ t) 0 any = chunk_size t n true.
Proof.
  revert n any t. induction fuel as [|fuel IH]; intros n any t Hn Hm Hf; [done|]. cbn [hex_digits].
  pose proof (Z.mod_pos_bound n 16 ltac:(lia)) as Hr.
  destruct (Z.ltb_spec n 16) as [Hlt|Hge].
  - change (chunk_size (String (hex_char (n mod 16)) t) 0 any = chunk_size t n true).
    rewrite Z.mod_small by lia. rewrite chunk_size_digit by lia. done.
  - rewrite str_app_assoc. rewrite Nat2Z.inj_succ, Z.pow_succ_r in Hn by lia.
    assert (n / 16 < 16 ^ Z.of_nat fuel)%Z as Hq by (apply Z.div_lt_upper_bound; lia).
    pose proof (Z.div_str_pos n 16 ltac:(lia)) as Hp. pose proof (Z.div_mod n 16 ltac:(lia)) as Hdm.
    rewrite IH; [|lia|lia|by intros ->; cbn in Hq; lia].
    change (String (hex_char (n mod 16)) EmptyString +:+ t) with (String (hex_char (n mod 16)) t).
    rewrite chunk_size_digit by lia. by rewrite <- Hdm.
Qed.

Lemma hex_digits_no_cr fuel n s :
  (0 <= n)%Z -> find_char CR s = None -> find_char CR (hex_digits fuel n +:+ s) = None.
Proof.
  revert n s. induction fuel as [|fuel IH]; intros n s Hn Hs; [done|]. cbn [hex_digits].
  destruct (hex_char_spec (n mod 16) ltac:(by apply Z.mod_pos_bound)) as (_ & _ & Hc). rewrite str_app_assoc.
  assert (find_char CR (String (hex_char (n mod 16)) s) = None) as H by (by rewrite find_char_cons, Hc, Hs).
  destruct (n <? 16)%Z; [exact H|]. apply IH; [|exact H]. apply Z.div_pos; lia.
Qed.

Lemma find_crlf_line l rest : find_char CR l = None -> str_find CRLF (line l +:+ rest) = Some (size l).
Proof.
  unfold line. rewrite str_app_assoc. induction l as [|c l IH]; intros Hl.
  - change (EmptyString +:+ (CRLF +:+ rest)) with (CRLF +:+ rest). cbn. by destruct rest.
  - rewrite find_char_cons in Hl. destruct (Ascii.eqb_spec CR c) as [|Hn]; [done|].
    change (String c l +:+ (CRLF +:+ rest)) with (String c (l +:+ (CRLF +:+ rest))).
    cbn [str_find String.prefix CRLF String.length]. destruct (Ascii.ascii_dec CR c); [done|].
    change (String CR (String LF EmptyString)) with CRLF. rewrite IH; [done|]. by destruct (find_char CR l).
Qed.

Lemma size_line l rest : str_take (size l) (line l +:+ rest) = l /\ str_drop (size l + 2) (line l +:+ rest) = rest.
Proof.
  unfold line. rewrite str_app_assoc. split; [apply str_take_app_size|].
  by rewrite <- str_drop_drop, str_drop_app_size.
Qed.

Lemma chunk_size_extension e n : wf_extension e -> chunk_size e n true = Some (n, true).
Proof. by intros [_ [->|[e' ->]]]. Qed.

Lemma feed_chunk c rest out r :
  wf_chunk c ->
  feed_config (mkDecoder ReadSize r, chunk_text c +:+ rest, out) =
  feed_config (mkDecoder ReadSize 0, rest, out +:+ chunk_data c).
Proof.
  intros (Hne & Hm & He). unfold chunk_text. rewrite str_app_assoc. set (n := Z.of_nat (size (chunk_data c))) in *.
  set (l := hex n +:+ chunk_extension c). set (rest' := line (chunk_data c) +:+ rest).
  assert (0 < n)%Z as Hpos by (subst n; destruct (chunk_data c); cbn [String.length] in *; [done|lia]).
  assert (chunk_size l 0 false = Some (n, true)) as Hsize.
  { unfold l, hex. rewrite chunk_size_hex_digits; [by apply chunk_size_extension| |done|done].
    change (16 ^ Z.of_nat 16)%Z with (modulus 64). lia. }
  assert (find_char CR l = None) as Hl by (unfold l, hex; apply hex_digits_no_cr; [lia|apply He]).
  destruct (size_line l rest') as [Ht Hd].
  rewrite (feed_config_Again _ (mkDecoder ReadData n, rest', out)).
  2: { unfold decode_turn. cbn [cd_state]. rewrite find_crlf_line by done. rewrite Ht, Hd, Hsize.
       by rewrite (proj2 (Z.eqb_neq n 0)) by lia. }
  rewrite (feed_config_Again _ (mkDecoder ReadDataCrlf 0, CRLF +:+ rest, out +:+ chunk_data c)).
  2: { unfold decode_turn, rest', line. cbn [cd_state remaining]. rewrite str_app_assoc, size_app.
       rewrite Z.min_l by lia. unfold n. rewrite Nat2Z.id, Z.sub_diag, str_take_app_size, str_drop_app_size. done. }
  by apply feed_config_Again.
Qed.

Lemma feed_trailers trailers rest out r :
  Forall wf_trailer trailers ->
  feed_config (mkDecoder ReadTrailers r, foldr String.append CRLF (line <$> trailers) +:+ rest, out) =
  Some (Done, (mkDecoder ReadTrailers r, rest, out)).
Proof.
  induction 1 as [|t trailers [Hne Hcr] _ IH].
  { change (foldr String.append CRLF (line <$> [])) with (line EmptyString). apply feed_config_Return.
    unfold decode_turn. cbn [cd_state]. rewrite find_crlf_line by done.
    by destruct (size_line EmptyString rest) as [_ ->]. }
  rewrite fmap_cons. cbn [foldr]. rewrite str_app_assoc. rewrite <- IH. apply feed_config_Again.
  unfold decode_turn. cbn [cd_state]. rewrite find_crlf_line by done.
  match goal with |- context [line t +:+ ?s] => destruct (size_line t s) as [_ ->] end.
  by destruct t.
Qed.

Lemma feed_body chunks trailers rest out r :
  Forall wf_chunk chunks -> Forall wf_trailer trailers ->
  exists d, feed_config (mkDecoder ReadSize r, body_text chunks trailers +:+ rest, out) =
            Some (Done, (d, rest, out +:+ payload chunks)).
Proof.
  intros Hc Ht. revert out r. induction Hc as [|c chunks Hc _ IH]; intros out r.
  - exists (mkDecoder ReadTrailers r). change (payload []) with EmptyString. rewrite str_app_nil_r.
    rewrite <- (feed_trailers trailers rest out r Ht). apply feed_config_Again.
    unfold body_text. rewrite fmap_nil. cbn [foldr]. rewrite str_app_assoc. unfold decode_turn. cbn [cd_state].
    rewrite find_crlf_line by done.
    match goal with |- context [line "0" +:+ ?s] => destruct (size_line "0" s) as [-> ->] end. done.
  - unfold body_text, payload. rewrite !fmap_cons. cbn [foldr]. rewrite str_app_assoc, feed_chunk by done.
    destruct (IH (out +:+ chunk_data c) 0%Z) as [d Hd]. exists d. rewrite <- str_app_assoc. exact Hd.
Qed.

(** C28: the decoder turns what a chunking peer sends (any chunks, with their
    extensions and trailers) back into the payload, however the bytes are cut
    into reads, is done at the end of the body, and leaves the bytes after it. *)
Theorem chunked_roundtrip chunks trailers rest pieces :
  Forall wf_chunk chunks -> Forall wf_trailer trailers ->
  foldr String.append EmptyString pieces = body_text chunks trailers +:+ rest ->
  exists d left_ unread,
    decode_pieces pieces (new_decoder, EmptyString, EmptyString) = Some (Done, (d, left_, payload chunks), unread) /\
    left_ +:+ foldr String.append EmptyString unread = rest.
Proof.
  intros Hc Ht Hp. destruct (feed_body chunks trailers rest EmptyString 0%Z Hc Ht) as [d Hd].
  destruct (decode_pieces_spec pieces (new_decoder, EmptyString, EmptyString) Done
              (d, rest, EmptyString +:+ payload chunks)) as (c1 & unread & E & Hc1); [done|done| |].
  { rewrite Hp. exact Hd. }
  destruct c1 as [[d1 left_] out1]. injection Hc1 as <- -> ->. by exists d, left_, unread.
Qed.

Lemma chunked_roundtrip_witness :
  exists d left_ unread,
    decode_pieces ["6;x=1" +:+ String CR EmptyString; String LF "hello "; CRLF +:+ "2" +:+ CRLF +:+ "ab";
                   CRLF +:+ "0" +:+ CRLF +:+ CRLF +:+ "next"]
      (new_decoder, EmptyString, EmptyString) = Some (Done, (d, left_, "hello ab"), unread) /\
    left_ +:+ foldr String.append EmptyString unread = "next".
Proof.
  apply (chunked_roundtrip [mkChunk "hello " ";x=1"; mkChunk "ab" EmptyString] [] "next").
  - apply Forall_cons_2; [|apply Forall_cons_2; [|apply Forall_nil_2]].
    + split; [done|]. split; [reflexivity|]. split; [done|]. right. by eexists.
    + split; [done|]. split; [reflexivity|]. split; [done|]. by left.
  - apply Forall_nil_2.
  - reflexivity.
Defined.

(** [feed] always comes back, and decoding the bytes in two parts is
    decoding them at once: after the first part, either more is needed and the
    rest continues from there, or the answer stands and the rest is untouched. *)
Lemma feed_incremental d buffer more out :
  exists s d' buffer' out', feed d buffer out = Some (s, (d', buffer', out')) /\
    feed d (buffer +:+ more) out =
      match s with
      | NeedMore => feed d' (buffer' +:+ more) out'
      | _ => Some (s, (d', buffer' +:+ more, out'))
      end.
Proof.
  unfold feed. destruct (run_turns_total _ (d, buffer, out) (le_n _)) as [[s [[d' buffer'] out']] Hr].
  exists s, d', buffer', out'. split; [exact Hr|].
  pose proof (feed_config_bytes more (d, buffer, out)) as H.
  unfold feed_config in H at 2. rewrite Hr in H. by destruct s.
Qed.
