(* ===== verification/Http.v ===== *)
(** * HTTP/1.1 heads

    The first half of src/transport/http/http_codec.cpp: parsing the head of a
    request or a response from the front of a buffer, and writing whole
    requests and responses. *)

From S2P Require Import Prelude Json Core Lines Decimal Chunked.

(** ** Helpers *)

Definition to_lower (s : string) : string := str_map tolower s.

Definition is_blank (c : Ascii.ascii) : bool := Ascii.eqb c " "%char || Ascii.eqb c "009"%char.

Fixpoint trim_front (s : string) : string :=
  match s with
  | String c s' => if is_blank c then trim_front s' else s
  | EmptyString => EmptyString
  end.

Fixpoint trim_back (s : string) : string :=
  match s with
  | EmptyString => EmptyString
  | String c s' =>
      match trim_back s' with
      | EmptyString => if is_blank c || Ascii.eqb c CR then EmptyString else String c EmptyString
      | s'' => String c s''
      end
  end.

(** [trim]: blanks are dropped at both ends, carriage returns at the end. *)
Definition trim (s : string) : string := trim_back (trim_front s).

(** ** Heads *)

Record HttpHead : Type := mkHead {
  method : string;
  target : string;
  status : Z;      (** 0 in a request *)
  reason : string;
  headers : gmap string string;
}.

Definition is_response (h : HttpHead) : bool := negb (status h =? 0)%Z.

(** Header value, empty when absent. *)
Definition header (h : HttpHead) (lowercase_name : string) : string := default EmptyString (headers h !! lowercase_name).

Definition header_contains (h : HttpHead) (lowercase_name token : string) : bool :=
  bool_decide (is_Some (str_find (to_lower token) (to_lower (header h lowercase_name)))).

(** Answers of [parse_head]: [HeadError] is a false result with [error] set. *)
Inductive head_result := HeadIncomplete | HeadError (error : string) | HeadOk (head : HttpHead) (consumed : nat).

(** Where the head ends: after the first empty line. *)
Definition head_end (buffer : string) : option nat :=
  match str_find (CRLF +:+ CRLF) buffer with
  | Some e => Some (e + 4)
  | None => (fun e => e + 2) <$> str_find (String LF (String LF EmptyString)) buffer
  end.

Definition head_lines (buffer : string) (e : nat) : list string := strip_cr <$> (split_lines (str_take e buffer)).1.

Definition request_line (start : string) : head_result + (string * string) :=
  match find_char " "%char start with
  | None => inl (HeadError "malformed request line")
  | Some sp1 =>
      match str_find_from " " (S sp1) start with
      | None => inl (HeadError "malformed request line")
      | Some sp2 =>
          if str_compare_at (S sp2) 7 "HTTP/1." start
          then inr (str_take sp1 start, str_take (sp2 - sp1 - 1) (str_drop (S sp1) start))
          else inl (HeadError "malformed request line")
      end
  end.

(** The status is read with [atoi]; a number beyond [int] is undefined. *)
Definition status_line (start : string) : outcome (head_result + (Z * string)) :=
  if negb (str_compare_at 0 7 "HTTP/1." start) then Val (inl (HeadError "malformed status line"))
  else
    match find_char " "%char start with
    | None => Val (inl (HeadError "malformed status line"))
    | Some sp1 =>
        if (size start <? sp1 + 4)%nat then Val (inl (HeadError "malformed status line"))
        else
          code ← atoi (str_drop (S sp1) start);
          if (code <? 100)%Z || (599 <? code)%Z then Val (inl (HeadError "invalid status code"))
          else Val (inr (code, match str_find_from " " (S sp1) start with
                               | None => EmptyString
                               | Some sp2 => str_drop (S sp2) start
                               end))
    end.

(** The loop over the header lines; a later line of the same name wins. *)
Fixpoint header_lines (lines : list string) (hs : gmap string string) : option (gmap string string) :=
  match lines with
  | [] => Some hs
  | l :: lines =>
      if String.eqb l EmptyString then Some hs
      else match find_char ":"%char l with
           | None => None
           | Some colon =>
               header_lines lines (<[to_lower (trim (str_take colon l)) := trim (str_drop (S colon) l)]> hs)
           end
  end.

Definition parse_head (buffer : string) (request_mode : bool) : outcome head_result :=
  match head_end buffer with
  | None => Val HeadIncomplete
  | Some consumed =>
      match head_lines buffer consumed with
      | [] | EmptyString :: _ => Val (HeadError "empty start line")
      | start :: lines =>
          let finish (h : gmap string string -> HttpHead) :=
            match header_lines lines ∅ with
            | None => HeadError "malformed header line"
            | Some hs => HeadOk (h hs) consumed
            end in
          if request_mode then
            Val (match request_line start with
                 | inl e => e
                 | inr (m, t) => finish (mkHead m t 0 EmptyString)
                 end)
          else
            r ← status_line start;
            Val (match r with
                 | inl e => e
                 | inr (s, reason) => finish (mkHead EmptyString EmptyString s reason)
                 end)
      end
  end.

(** ** Writing *)

Definition HeaderList : Type := list (string * string).

Definition header_text (h : string * string) : string := line (h.1 +:+ ": " +:+ h.2).

Definition content_length (body : string) : string :=
  line ("Content-Length: " +:+ to_string (Z.of_nat (size body))).

Definition header_texts (hs : HeaderList) : string := foldr (fun h r => header_text h +:+ r) EmptyString hs.

Definition serialize_request (method target : string) (hs : HeaderList) (body : string) : string :=
  let has_length := existsb (fun h => String.eqb (to_lower h.1) "content-length") hs in
  line (method +:+ " " +:+ target +:+ " HTTP/1.1") +:+ header_texts hs +:+
  (if negb has_length && (negb (String.eqb body EmptyString) || String.eqb method "POST")
   then content_length body else EmptyString) +:+
  CRLF +:+ body.

Definition serialize_response (status : Z) (reason : string) (hs : HeaderList) (body : string) (streaming : bool)
  : string :=
  line ("HTTP/1.1 " +:+ to_string status +:+ " " +:+ reason) +:+ header_texts hs +:+
  (if streaming then EmptyString else content_length body) +:+ CRLF +:+ body.

(** ** What is written is what is parsed *)

(** *** Searching in a head *)

Definition blank_line : string := CRLF +:+ CRLF.
Definition two_newlines : string := String LF (String LF EmptyString).

Definition starts_with (P : Ascii.ascii -> bool) (s : string) : bool :=
  match s with String c _ => P c | EmptyString => false end.

Lemma prefix_starts c p s : starts_with (Ascii.eqb c) s = false -> String.prefix (String c p) s = false.
Proof.
  destruct s as [|d s]; [done|]. cbn [starts_with String.prefix]. intros H.
  destruct (Ascii.ascii_dec c d) as [->|]; [|done]. by rewrite Ascii.eqb_refl in H.
Qed.

Lemma find_blank_line_step s :
  starts_with (Ascii.eqb CR) s = false -> str_find blank_line (CRLF +:+ s) = Nat.add 2 <$> str_find blank_line s.
Proof.
  intros Hs. change (str_find blank_line (CRLF +:+ s)) with
    (if String.prefix CRLF s then Some 0
     else S <$> str_find blank_line (String LF s)).
  assert (String.prefix CRLF s = false) as ->.
  { by apply prefix_starts. }
  change (str_find blank_line (String LF s)) with (S <$> str_find blank_line s). by destruct (str_find blank_line s).
Qed.

Lemma find_two_newlines_step s :
  starts_with (Ascii.eqb LF) s = false ->
  str_find two_newlines (CRLF +:+ s) = Nat.add 2 <$> str_find two_newlines s.
Proof.
  intros Hs. change (str_find two_newlines (CRLF +:+ s)) with
    (S <$> (if String.prefix (String LF EmptyString) s then Some 0 else S <$> str_find two_newlines s)).
  assert (String.prefix (String LF EmptyString) s = false) as ->.
  { by apply prefix_starts. }
  by destruct (str_find two_newlines s).
Qed.

(** A head: a start line and header lines, none of them empty, none with a
    line break, and the empty line. *)
Definition head_text (ls : list string) : string := foldr (fun l r => line l +:+ r) CRLF ls.

Definition head_line (l : string) : Prop := l <> EmptyString /\ single_line l.

Lemma starts_with_app c l s : l <> EmptyString -> find_char c l = None -> starts_with (Ascii.eqb c) (l +:+ s) = false.
Proof.
  destruct l as [|d l]; [done|]. intros _. rewrite find_char_cons. unfold starts_with.
  change (String d l +:+ s) with (String d (l +:+ s)). by destruct (Ascii.eqb c d).
Qed.

Lemma str_find_here pat s : str_find pat (pat +:+ s) = Some 0.
Proof. pose proof (prefix_app pat s) as H. destruct (pat +:+ s); cbn [str_find]; by rewrite H. Qed.

Lemma find_blank_line ls s :
  ls <> [] -> Forall head_line ls -> str_find blank_line (head_text ls +:+ s) = Some (size (head_text ls) - 4).
Proof.
  intros Hne Hls. assert (str_find blank_line (head_text ls +:+ s) = Some (size (head_text ls) - 4) /\
                          4 <= size (head_text ls)) as [H _]; [|exact H].
  induction Hls as [|l ls [Hl [Hlf Hcr]] Hls IH]; [done|]. cbn [head_text foldr].
  fold (head_text ls). unfold line. rewrite !str_app_assoc, !size_app. change blank_line with (String CR (String LF CRLF)).
  rewrite str_find_skip by done. change (String CR (String LF CRLF)) with blank_line.
  destruct ls as [|l' ls].
  - change (head_text []) with CRLF. rewrite <- str_app_assoc. change (CRLF +:+ CRLF) with blank_line.
    rewrite str_find_here. cbn. split; [f_equal; lia|lia].
  - destruct IH as [IH Hsz]; [done|]. rewrite find_blank_line_step.
    + rewrite IH. cbn [fmap option_fmap option_map]. change (size CRLF) with 2. split; [f_equal; lia|lia].
    + apply Forall_cons_1 in Hls as [[Hl' [_ Hcr']] _]. cbn [head_text foldr]. unfold line.
      rewrite !str_app_assoc. by apply starts_with_app.
Qed.

Lemma find_two_newlines ls : Forall head_line ls -> str_find two_newlines (head_text ls) = None.
Proof.
  induction 1 as [|l ls [Hl [Hlf Hcr]] Hls IH]; [done|]. cbn [head_text foldr]. fold (head_text ls).
  unfold line. rewrite !str_app_assoc. change two_newlines with (String LF (String LF EmptyString)).
  rewrite str_find_skip by done. change (String LF (String LF EmptyString)) with two_newlines.
  rewrite find_two_newlines_step, IH; [done|].
  destruct Hls as [|l' ls [Hl' [Hlf' _]] _]; [done|]. cbn [head_text foldr]. unfold line.
  rewrite !str_app_assoc. by apply starts_with_app.
Qed.

(** The head ends where it ends; a prefix of it is incomplete. *)
Lemma head_end_text ls s : ls <> [] -> Forall head_line ls -> head_end (head_text ls +:+ s) = Some (size (head_text ls)).
Proof.
  intros Hne Hls. unfold head_end. change (CRLF +:+ CRLF) with blank_line. rewrite find_blank_line by done.
  pose proof (find_blank_line ls EmptyString Hne Hls) as H. apply str_find_Some in H as [H _].
  rewrite str_app_nil_r in H. change (size blank_line) with 4 in H. f_equal. lia.
Qed.

Lemma head_end_prefix ls a b :
  ls <> [] -> Forall head_line ls -> head_text ls = a +:+ b -> b <> EmptyString -> head_end a = None.
Proof.
  intros Hne Hls E Hb. assert (size a < size (head_text ls)) as Hlt.
  { rewrite E, size_app. destruct b; [done|]. cbn. lia. }
  unfold head_end. change (CRLF +:+ CRLF) with blank_line. change (String LF (String LF EmptyString)) with two_newlines.
  destruct (str_find blank_line a) as [n|] eqn:E1.
  - pose proof (find_blank_line ls EmptyString Hne Hls) as H. rewrite str_app_nil_r in H.
    apply str_find_Some in E1 as Hs. destruct Hs as [Hs _]. change (size blank_line) with 4 in Hs.
    pose proof (str_find_app_l _ _ b _ E1) as H2. rewrite <- E, H in H2. injection H2 as H2. lia.
  - destruct (str_find two_newlines a) as [n|] eqn:E2; [|done].
    pose proof (str_find_app_l _ _ b _ E2) as H2. rewrite <- E, find_two_newlines in H2 by done. done.
Qed.

Lemma str_back_app s c : str_back (s +:+ String c EmptyString) = Some c.
Proof. induction s as [|d s IH]; [done|]. cbn. destruct s; [done|exact IH]. Qed.

Lemma pop_back_app s c : pop_back (s +:+ String c EmptyString) = s.
Proof.
  induction s as [|d s IH]; [done|]. change (String d s +:+ ?t) with (String d (s +:+ t)). cbn [pop_back].
  rewrite IH. by destruct s.
Qed.

Lemma head_lines_text ls s :
  Forall head_line ls -> head_lines (head_text ls +:+ s) (size (head_text ls)) = ls ++ [EmptyString].
Proof.
  intros Hls. unfold head_lines. rewrite str_take_app_size.
  assert (head_text ls = foldr (fun l r => end_line l +:+ r) EmptyString
            ((fun l => l +:+ String CR EmptyString) <$> (ls ++ [EmptyString]))) as ->.
  { clear Hls. induction ls as [|l ls IH]; [done|]. cbn [head_text foldr app fmap list_fmap]. fold (head_text ls).
    rewrite IH. unfold line, end_line. by rewrite !str_app_assoc. }
  rewrite split_lines_concat.
  - cbn [split_lines]. rewrite app_nil_r. cbn [fst]. rewrite <- list_fmap_compose. clear Hls.
    induction (ls ++ [EmptyString]) as [|l t IH]; [done|]. rewrite fmap_cons, IH. f_equal. unfold compose, strip_cr.
    by rewrite str_back_app, pop_back_app.
  - apply Forall_fmap, Forall_app_2; [|by repeat constructor].
    eapply Forall_impl; [exact Hls|]. intros l [_ [Hlf _]]. by apply find_char_app.
Qed.

(** *** Header lines *)

Definition wf_header (h : string * string) : Prop :=
  find_char ":"%char h.1 = None /\ single_line h.1 /\ trim h.1 = h.1 /\ single_line h.2 /\ trim h.2 = h.2.

Definition header_line (h : string * string) : string := h.1 +:+ ": " +:+ h.2.

(** What the headers of a list come to: names in lower case, the last value of
    a name counts. *)
Definition set_headers (hs : HeaderList) (m : gmap string string) : gmap string string :=
  foldl (fun m h => <[to_lower h.1 := h.2]> m) m hs.

Lemma header_lines_text hs m :
  Forall wf_header hs -> header_lines ((header_line <$> hs) ++ [EmptyString]) m = Some (set_headers hs m).
Proof.
  intros Hhs. revert m. induction Hhs as [|[n v] hs (Hc & _ & Hn & _ & Hv) _ IH]; intros m; [done|].
  rewrite fmap_cons. cbn [app header_lines fst snd] in *. unfold header_line. cbn [fst snd].
  rewrite (proj2 (String.eqb_neq _ _)) by (by destruct n).
  change (": " +:+ v) with (String ":"%char (String " "%char v)). rewrite find_char_at, str_take_app_size, Hn by done.
  change (String ":"%char (String " "%char v)) with (": " +:+ v).
  assert (str_drop (S (size n)) (n +:+ ": " +:+ v) = String " "%char v) as ->.
  { replace (S (size n)) with (size n + 1) by lia. by rewrite <- str_drop_drop, str_drop_app_size. }
  assert (trim (String " "%char v) = v) as -> by exact Hv.
  by rewrite IH.
Qed.

Lemma header_head_line h : wf_header h -> head_line (header_line h).
Proof.
  intros (_ & Hn & _ & Hv & _). split.
  - unfold header_line. by destruct h.1.
  - unfold header_line. apply single_line_app; [done|]. by apply single_line_app.
Qed.

Lemma trim_id s : str_forall (fun c => negb (is_blank c) && negb (Ascii.eqb c CR)) s = true -> trim s = s.
Proof.
  intros Hs. unfold trim. assert (trim_back s = s) as Hb.
  { induction s as [|c s IH]; [done|]. cbn in Hs. apply andb_true_iff in Hs as [[Hc1 Hc2]%andb_true_iff Hs].
    cbn [trim_back]. rewrite (IH Hs). destruct s; [|done].
    apply negb_true_iff in Hc1, Hc2. by rewrite Hc1, Hc2. }
  destruct s as [|c s]; [done|]. cbn [trim_front]. cbn in Hs. destruct (is_blank c); [done|]. exact Hb.
Qed.

Lemma str_forall_impl (P Q : Ascii.ascii -> bool) s :
  (forall c, P c = true -> Q c = true) -> str_forall P s = true -> str_forall Q s = true.
Proof.
  intros H. induction s as [|c s IH]; [done|]. cbn. intros [H1 H2]%andb_true_iff. rewrite H, IH by done. done.
Qed.

Definition length_header (body : string) : string * string :=
  ("Content-Length", to_string (Z.of_nat (size body))).

Lemma length_header_wf body : wf_header (length_header body).
Proof.
  split; [done|]. split; [done|]. split; [done|]. cbn [length_header snd].
  split; [apply single_line_to_string; lia|]. apply trim_id.
  destruct (to_string_digits (Z.of_nat (size body)) ltac:(lia)) as [Hd _].
  eapply str_forall_impl; [|exact Hd]. by intros [[] [] [] [] [] [] [] []].
Qed.

(** *** Start lines *)

Definition no_space (s : string) : Prop := find_char " "%char s = None.

Lemma request_line_text m t :
  no_space m -> no_space t -> request_line (m +:+ " " +:+ t +:+ " HTTP/1.1") = inr (m, t).
Proof.
  intros Hm Ht. unfold request_line.
  change (" " +:+ (t +:+ " HTTP/1.1")) with (String " "%char (t +:+ " HTTP/1.1")). rewrite find_char_at by done.
  change (String " "%char (t +:+ " HTTP/1.1")) with (" " +:+ (t +:+ " HTTP/1.1")).
  assert (str_drop (S (size m)) (m +:+ " " +:+ t +:+ " HTTP/1.1") = t +:+ " HTTP/1.1") as Hd.
  { replace (S (size m)) with (size m + 1) by lia. by rewrite <- str_drop_drop, str_drop_app_size. }
  unfold str_find_from. rewrite decide_True by (rewrite !size_app; cbn; lia). rewrite Hd.
  change (str_find " " (t +:+ " HTTP/1.1")) with (find_char " "%char (t +:+ " HTTP/1.1")).
  rewrite find_char_at by done. cbn [fmap option_fmap option_map].
  unfold str_compare_at. replace (S (S (size m) + size t)) with (S (size m) + (size t + 1)) by lia.
  rewrite <- str_drop_drop, Hd, <- str_drop_drop, str_drop_app_size.
  change (String.eqb (str_take 7 (str_drop 1 " HTTP/1.1")) "HTTP/1.") with true. cbn iota. rewrite str_take_app_size.
  by replace (S (size m) + size t - size m - 1) with (size t) by lia; rewrite str_take_app_size.
Qed.

Lemma status_size n : (100 <= n <= 599)%Z -> size (to_string n) = 3.
Proof.
  intros Hn. assert (forallb (fun n => (size (to_string n) =? 3)%nat) (seqZ 100 500) = true) as H by by vm_compute.
  rewrite forallb_forall in H. apply Nat.eqb_eq, H, list_elem_of_In, elem_of_seqZ. lia.
Qed.

Lemma digits_no_space n : (0 <= n)%Z -> no_space (to_string n).
Proof.
  intros Hn. destruct (to_string_digits n Hn) as [Hd _]. unfold no_space. revert Hd.
  induction (to_string n) as [|c s IH]; [done|]. cbn [str_forall]. intros [Hc Hs]%andb_true_iff.
  rewrite find_char_cons. destruct (Ascii.eqb_spec " "%char c) as [<-|]; [done|]. by rewrite IH.
Qed.

Lemma status_line_text n r :
  (100 <= n <= 599)%Z -> status_line ("HTTP/1.1 " +:+ to_string n +:+ " " +:+ r) = Val (inr (n, r)).
Proof.
  intros Hn. unfold status_line.
  change (str_compare_at 0 7 "HTTP/1." ("HTTP/1.1 " +:+ to_string n +:+ " " +:+ r)) with true.
  change ("HTTP/1.1 " +:+ to_string n +:+ " " +:+ r) with ("HTTP/1.1" +:+ String " "%char (to_string n +:+ " " +:+ r)).
  rewrite find_char_at by done. change (size "HTTP/1.1") with 8.
  change ("HTTP/1.1" +:+ String " "%char (to_string n +:+ " " +:+ r)) with ("HTTP/1.1 " +:+ to_string n +:+ " " +:+ r).
  cbn [negb]. rewrite !size_app, status_size by done. change (size "HTTP/1.1 ") with 9. change (size " ") with 1.
  rewrite (proj2 (Nat.ltb_ge _ _)) by lia.
  change (str_drop 9 ("HTTP/1.1 " +:+ to_string n +:+ " " +:+ r)) with (to_string n +:+ (" " +:+ r)).
  rewrite atoi_to_string; [|split; [lia|change (modulus 31) with 2147483648%Z; lia]|done].
  cbn [mbind outcome_bind]. rewrite (proj2 (Z.ltb_ge n 100)), (proj2 (Z.ltb_ge 599 n)) by lia. cbn [orb].
  do 2 f_equal. unfold str_find_from. rewrite decide_True by (rewrite !size_app; cbn; lia).
  change (str_drop 9 ("HTTP/1.1 " +:+ to_string n +:+ " " +:+ r)) with (to_string n +:+ (" " +:+ r)).
  change (str_find " " ?s) with (find_char " "%char s). change (" " +:+ r) with (String " "%char r).
  rewrite find_char_at, status_size by (done || (apply digits_no_space; lia)). cbn [fmap option_fmap option_map].
  f_equal. replace (S (9 + 3)) with (9 + (size (to_string n) + 1)) by (by rewrite status_size).
  rewrite <- str_drop_drop. change (str_drop 9 ("HTTP/1.1 " +:+ ?s)) with s.
  by rewrite <- str_drop_drop, str_drop_app_size.
Qed.

(** *** Messages *)

Inductive http_message :=
| HttpRequest (method target : string) (hs : HeaderList) (body : string)
| HttpResponse (status : Z) (reason : string) (hs : HeaderList) (body : string) (streaming : bool).

Definition message_text (m : http_message) : string :=
  match m with
  | HttpRequest m t hs body => serialize_request m t hs body
  | HttpResponse s r hs body streaming => serialize_response s r hs body streaming
  end.

Definition is_request (m : http_message) : bool := match m with HttpRequest _ _ _ _ => true | _ => false end.

Definition message_body (m : http_message) : string :=
  match m with HttpRequest _ _ _ body | HttpResponse _ _ _ body _ => body end.

(** The headers on the wire: a [Content-Length] is added unless a request
    carries one or has nothing to measure, or a response is streamed. *)
Definition all_headers (m : http_message) : HeaderList :=
  match m with
  | HttpRequest m _ hs body =>
      if negb (existsb (fun h => String.eqb (to_lower h.1) "content-length") hs) &&
         (negb (String.eqb body EmptyString) || String.eqb m "POST")
      then hs ++ [length_header body] else hs
  | HttpResponse _ _ hs body streaming => if streaming then hs else hs ++ [length_header body]
  end.

Definition message_head (m : http_message) : HttpHead :=
  match m with
  | HttpRequest m' t _ _ => mkHead m' t 0 EmptyString (set_headers (all_headers m) ∅)
  | HttpResponse s r _ _ _ => mkHead EmptyString EmptyString s r (set_headers (all_headers m) ∅)
  end.

Definition wf_http (m : http_message) : Prop :=
  match m with
  | HttpRequest m t hs _ => no_space m /\ single_line m /\ no_space t /\ single_line t /\ Forall wf_header hs
  | HttpResponse s r hs _ _ => (100 <= s <= 599)%Z /\ single_line r /\ Forall wf_header hs
  end.

Definition start_line (m : http_message) : string :=
  match m with
  | HttpRequest m t _ _ => m +:+ " " +:+ t +:+ " HTTP/1.1"
  | HttpResponse s r _ _ _ => "HTTP/1.1 " +:+ to_string s +:+ " " +:+ r
  end.

Definition message_lines (m : http_message) : list string := start_line m :: (header_line <$> all_headers m).

Lemma header_texts_lines hs tail_ :
  header_texts hs +:+ (CRLF +:+ tail_) = head_text (header_line <$> hs) +:+ tail_.
Proof.
  induction hs as [|h hs IH]; [done|]. rewrite fmap_cons. cbn [header_texts head_text foldr].
  fold (header_texts hs) (head_text (header_line <$> hs)). by rewrite !str_app_assoc, IH.
Qed.

Lemma header_texts_app hs h s : header_texts (hs ++ [h]) +:+ s = header_texts hs +:+ (header_text h +:+ s).
Proof.
  induction hs as [|h' hs IH]; [cbn; by rewrite !str_app_assoc|]. cbn [app header_texts foldr].
  fold (header_texts hs) (header_texts (hs ++ [h])). by rewrite !str_app_assoc, IH.
Qed.

Lemma message_text_lines m : message_text m = head_text (message_lines m) +:+ message_body m.
Proof.
  unfold message_lines. cbn [head_text foldr]. fold (head_text (header_line <$> all_headers m)).
  rewrite str_app_assoc, <- header_texts_lines.
  destruct m as [m t hs body|s r hs body streaming]; cbn [message_text start_line all_headers message_body].
  - unfold serialize_request. destruct (negb _ && _); [|done].
    by rewrite header_texts_app.
  - unfold serialize_response. destruct streaming; [done|]. by rewrite header_texts_app.
Qed.

Lemma all_headers_wf m : wf_http m -> Forall wf_header (all_headers m).
Proof.
  pose proof (length_header_wf (message_body m)) as Hl.
  destruct m as [m t hs body|s r hs body streaming]; cbn [all_headers message_body] in *.
  - intros (_ & _ & _ & _ & Hhs). destruct (negb _ && _); [|done]. apply Forall_app_2; [done|by constructor].
  - intros (_ & _ & Hhs). destruct streaming; [done|]. apply Forall_app_2; [done|by constructor].
Qed.

Lemma message_lines_wf m : wf_http m -> Forall head_line (message_lines m).
Proof.
  intros Hm. constructor.
  - destruct m as [m t hs body|s r hs body streaming]; cbn [start_line].
    + destruct Hm as (_ & Hm & _ & Ht & _). split; [by destruct m|].
      by repeat apply single_line_app.
    + destruct Hm as (Hs & Hr & _). split; [done|].
      repeat apply single_line_app; [done| |done|done]. apply single_line_to_string. lia.
  - apply Forall_fmap. eapply Forall_impl; [by apply all_headers_wf|]. apply header_head_line.
Qed.

Lemma parse_head_message m more :
  wf_http m ->
  parse_head (head_text (message_lines m) +:+ more) (is_request m) =
  Val (HeadOk (message_head m) (size (head_text (message_lines m)))).
Proof.
  intros Hm. pose proof (message_lines_wf m Hm) as Hl. unfold parse_head.
  rewrite head_end_text, head_lines_text by done. unfold message_lines. cbn [app].
  set (n := size _). destruct (start_line m) as [|c start] eqn:Es.
  { unfold message_lines in Hl. rewrite Es in Hl. by apply Forall_cons_1 in Hl as [[? _] _]. }
  rewrite <- Es, header_lines_text by (by apply all_headers_wf).
  destruct m as [m t hs body|s r hs body streaming]; cbn [is_request start_line message_head].
  - destruct Hm as (Hm & _ & Ht & _). by rewrite request_line_text.
  - destruct Hm as (Hs & _). by rewrite status_line_text.
Qed.

(** A prefix of the text is enough exactly when it has the whole head. *)
Lemma parse_head_prefix m k :
  wf_http m -> k < size (head_text (message_lines m)) ->
  parse_head (str_take k (message_text m)) (is_request m) = Val HeadIncomplete.
Proof.
  intros Hm Hk. pose proof (message_lines_wf m Hm) as Hl. rewrite message_text_lines.
  unfold parse_head. rewrite str_take_app_le by lia.
  rewrite (head_end_prefix (message_lines m) _ (str_drop k (head_text (message_lines m)))); [done|done|done| |].
  - by rewrite str_take_drop.
  - intros E. apply (f_equal size) in E. rewrite size_drop in E. change (size EmptyString) with 0 in E. lia.
Qed.

(** C29: a request or a response that was serialised is parsed back: the head
    is recognised as soon as its last byte is there and not before, whatever
    follows it, the head has what was written, and what follows it is the
    body. *)
Theorem http_message_roundtrip m more :
  wf_http m ->
  exists n, parse_head (message_text m +:+ more) (is_request m) = Val (HeadOk (message_head m) n) /\
    str_drop n (message_text m +:+ more) = message_body m +:+ more /\
    forall k, k < n -> parse_head (str_take k (message_text m)) (is_request m) = Val HeadIncomplete.
Proof.
  intros Hm. exists (size (head_text (message_lines m))).
  split; [rewrite message_text_lines, str_app_assoc; by apply parse_head_message|].
  split; [rewrite message_text_lines, str_app_assoc; apply str_drop_app_size|].
  intros k. by apply parse_head_prefix.
Qed.

Definition sample_request : http_message :=
  HttpRequest "POST" "/mcp" [("Host", "localhost:8080"); ("Accept", "application/json, text/event-stream")] "{}".

Lemma http_message_roundtrip_witness :
  exists n, parse_head (message_text sample_request +:+ "rest") (is_request sample_request) =
              Val (HeadOk (message_head sample_request) n) /\
    str_drop n (message_text sample_request +:+ "rest") = message_body sample_request +:+ "rest" /\
    forall k, k < n -> parse_head (str_take k (message_text sample_request)) (is_request sample_request) = Val HeadIncomplete.
Proof.
  apply http_message_roundtrip. repeat split. apply Forall_cons_2; [|apply Forall_cons_2; [|apply Forall_nil_2]];
    repeat split.
Defined.
