(* ===== verification/SseChannel.v ===== *)
(** * The server-to-client event channel

    [SseChannel] of src/transport/http/sse_channel.cpp: event ids, the bounded
    replay ring, the watermark of what was handed out and the streams that take
    from it.  Each critical section is an operation; [step] interleaves them
    with the writes of any number of streams. *)

From S2P Require Import Prelude Json Core Lines Decimal Chunked Http Sse.

(** ** State *)

Record Item : Type := mkItem { it_id : Z; it_data : string }.

Record SseChannel : Type := mkChannel {
  replay_buffer_size : nat;
  channel_retry : Z;
  ch_running : bool;
  ring : list Item;
  next_event_id : Z;
  next_undelivered : Z;
  stream_generation : Z;
}.

Definition new_channel (replay : nat) (retry : Z) : SseChannel := mkChannel replay retry true [] 1 1 0.

(** ** Critical sections *)

(** [push_back], then [pop_front] while the ring is too long. *)
Definition push_ring (limit : nat) (it : Item) (r : list Item) : list Item :=
  let r := r ++ [it] in drop (length r - limit) r.

Definition enqueue (payload : string) (c : SseChannel) : SseChannel :=
  if ch_running c then
    mkChannel (replay_buffer_size c) (channel_retry c) true
      (push_ring (replay_buffer_size c) (mkItem (next_event_id c) payload) (ring c))
      (wrap_u 64 (next_event_id c + 1)) (next_undelivered c) (stream_generation c)
  else c.

Definition shutdown (c : SseChannel) : SseChannel :=
  mkChannel (replay_buffer_size c) (channel_retry c) false (ring c) (next_event_id c) (next_undelivered c)
    (stream_generation c).

(** The first section of [attach_stream]: generation, cursor, last id. *)
Definition attach (last_event_id : string) (c : SseChannel) : option (Z * Z * Z) * SseChannel :=
  if ch_running c then
    let generation := wrap_u 64 (stream_generation c + 1) in
    let cursor := if String.eqb last_event_id EmptyString then next_undelivered c
                  else wrap_u 64 (strtoull last_event_id + 1) in
    (Some (generation, cursor, wrap_u 64 (next_event_id c - 1)),
     mkChannel (replay_buffer_size c) (channel_retry c) true (ring c) (next_event_id c) (next_undelivered c) generation)
  else (None, c).

Inductive turn := Blocked | Detached | Batch (pending : list Item) (cursor : Z).

(** The section of the streaming loop: what the wait comes back with. *)
Definition stream_turn (generation cursor : Z) (c : SseChannel) : turn * SseChannel :=
  if negb (ch_running c) || negb (stream_generation c =? generation)%Z then (Detached, c)
  else
    match last (ring c) with
    | Some back =>
        if (cursor <=? it_id back)%Z then
          let pending := filter (fun it => cursor <= it_id it)%Z (ring c) in
          match last pending with
          | Some it =>
              let cursor' := wrap_u 64 (it_id it + 1) in
              (Batch pending cursor',
               mkChannel (replay_buffer_size c) (channel_retry c) (ch_running c) (ring c) (next_event_id c)
                 (if (next_undelivered c <? cursor')%Z then cursor' else next_undelivered c) (stream_generation c))
          | None => (Batch pending cursor, c)
          end
        else (Blocked, c)
    | None => (Blocked, c)
    end.

(** ** What a stream writes *)

Definition stream_head (version : string) : string :=
  serialize_response 200 "OK"
    [("Content-Type", "text/event-stream"); ("Cache-Control", "no-cache"); ("Connection", "keep-alive");
     ("MCP-Protocol-Version", version)] EmptyString true.

Definition initial_event (last_assigned retry : Z) : SseEvent :=
  mkSseEvent (Some (to_string last_assigned)) None EmptyString (Some retry).

Definition item_event (it : Item) : SseEvent := mkSseEvent (Some (to_string (it_id it))) None (it_data it) None.

(** ** Channel and streams together *)

(** A call of [attach_stream]: [st_unsent] is what is left of the last batch.
    [st_start], [st_written] and [st_missed] (the ids it asked for that had
    left the ring when it looked) are recorded for the theorems. *)
Record Stream : Type := mkStream {
  st_open : bool;
  st_fresh : bool;
  st_generation : Z;
  st_initial : Z;
  st_start : Z;
  st_cursor : Z;
  st_unsent : list Item;
  st_written : list Item;
  st_missed : list Z;
}.

Record System : Type := mkSystem {
  sys_channel : SseChannel;
  sys_history : list Item;      (** everything ever queued *)
  sys_streams : list Stream;    (** in the order they were attached *)
}.

Definition start (replay : nat) (retry : Z) : System := mkSystem (new_channel replay retry) [] [].

Inductive op :=
| Enqueue (payload : string)
| Attach (last_event_id : string)
| Turn (stream : nat)
| Write (stream : nat)
| WriteFails (stream : nat)
| ShutDown.

Definition close_stream (s : Stream) : Stream :=
  mkStream false (st_fresh s) (st_generation s) (st_initial s) (st_start s) (st_cursor s) (st_unsent s)
    (st_written s) (st_missed s).

Definition write_one (s : Stream) : Stream :=
  match st_open s, st_unsent s with
  | true, it :: rest =>
      mkStream true (st_fresh s) (st_generation s) (st_initial s) (st_start s) (st_cursor s) rest
        (st_written s ++ [it]) (st_missed s)
  | _, _ => s
  end.

(** A stream looks at the channel when it has written its last batch. *)
Definition turn_stream (history : list Item) (c : SseChannel) (s : Stream) : Stream * SseChannel :=
  match st_open s, st_unsent s with
  | true, [] =>
      match stream_turn (st_generation s) (st_cursor s) c with
      | (Blocked, c') => (s, c')
      | (Detached, c') => (close_stream s, c')
      | (Batch pending cursor, c') =>
          let gone := take (length history - length (ring c)) history in
          (mkStream true (st_fresh s) (st_generation s) (st_initial s) (st_start s) cursor pending (st_written s)
             (st_missed s ++ filter (fun j => st_cursor s <= j)%Z (it_id <$> gone)), c')
      end
  | _, _ => (s, c)
  end.

Definition step (sys : System) (o : op) : System :=
  let c := sys_channel sys in
  match o with
  | Enqueue payload =>
      mkSystem (enqueue payload c)
        (if ch_running c then sys_history sys ++ [mkItem (next_event_id c) payload] else sys_history sys)
        (sys_streams sys)
  | Attach last_event_id =>
      match attach last_event_id c with
      | (Some (generation, cursor, last_assigned), c') =>
          mkSystem c' (sys_history sys)
            (sys_streams sys ++
             [mkStream true (String.eqb last_event_id EmptyString) generation last_assigned cursor cursor [] [] []])
      | (None, c') => mkSystem c' (sys_history sys) (sys_streams sys)
      end
  | Turn i =>
      match sys_streams sys !! i with
      | Some s =>
          let '(s', c') := turn_stream (sys_history sys) c s in
          mkSystem c' (sys_history sys) (<[i := s']> (sys_streams sys))
      | None => sys
      end
  | Write i => mkSystem c (sys_history sys) (alter write_one i (sys_streams sys))
  | WriteFails i => mkSystem c (sys_history sys) (alter close_stream i (sys_streams sys))
  | ShutDown => mkSystem (shutdown c) (sys_history sys) (sys_streams sys)
  end.

Definition run_ops (ops : list op) (sys : System) : System := foldl step sys ops.

(** ** Numbered items *)

Definition numbered (h : list Item) : Prop := forall i it, h !! i = Some it -> it_id it = (1 + Z.of_nat i)%Z.

Lemma numbered_snoc h it :
  numbered h -> it_id it = (1 + Z.of_nat (length h))%Z -> numbered (h ++ [it]).
Proof.
  intros Hh Hit i x Hx. apply lookup_app_Some in Hx as [Hx|[Hi Hx]]; [by apply Hh|].
  apply list_lookup_singleton_Some in Hx as [? <-]. rewrite Hit. lia.
Qed.

Lemma numbered_range h it : numbered h -> it ∈ h -> (1 <= it_id it <= Z.of_nat (length h))%Z.
Proof.
  intros Hh [i Hi]%list_elem_of_lookup. apply lookup_lt_Some in Hi as Hl. rewrite (Hh _ _ Hi). lia.
Qed.

Lemma numbered_drop h k it : numbered h -> it ∈ drop k h -> (Z.of_nat k < it_id it)%Z.
Proof. intros Hh [i Hi]%list_elem_of_lookup. rewrite lookup_drop in Hi. rewrite (Hh _ _ Hi). lia. Qed.

Lemma numbered_take h k it : numbered h -> it ∈ take k h -> (it_id it <= Z.of_nat k)%Z.
Proof.
  intros Hh [i Hi]%list_elem_of_lookup. apply lookup_take_Some in Hi as [Hi Hk]. rewrite (Hh _ _ Hi). lia.
Qed.

Lemma filter_none {A} (P : A -> Prop) `{DP : forall x, Decision (P x)} (l : list A) : (forall x, x ∈ l -> ~ P x) -> filter P l = [].
Proof.
  induction l as [|x l IH]; intros H; [done|]. rewrite filter_cons_False by (apply H; left).
  apply IH. intros y Hy. apply H. by right.
Qed.

Lemma filter_in {A} (P Q : A -> Prop) `{DP : forall x, Decision (P x)} `{DQ : forall x, Decision (Q x)} (l : list A) :
  (forall x, x ∈ l -> P x <-> Q x) -> filter P l = filter Q l.
Proof.
  induction l as [|x l IH]; intros H; [done|]. rewrite !filter_cons.
  assert (filter P l = filter Q l) as -> by (apply IH; intros y Hy; apply H; by right).
  pose proof (H x (list_elem_of_here x l)) as Hx. destruct (decide (P x)), (decide (Q x)); [done|tauto|tauto|done].
Qed.

Lemma last_filter {A} (P : A -> Prop) `{DP : forall x, Decision (P x)} (l : list A) x :
  last l = Some x -> P x -> last (filter P l) = Some x.
Proof.
  intros [l' ->]%last_Some Hx. rewrite filter_app, filter_cons_True, filter_nil by done. apply last_snoc.
Qed.

(** What is below a bound comes before what is above it. *)
Lemma numbered_filter_or h c (A B : Item -> Prop)
    `{DA : forall x, Decision (A x)} `{DB : forall x, Decision (B x)} :
  numbered h -> (forall x, A x -> it_id x < c)%Z -> (forall x, B x -> c <= it_id x)%Z ->
  filter (fun x => A x \/ B x) h = filter A h ++ filter B h.
Proof.
  intros Hh HA HB. assert (Hlt : forall x, A x -> B x -> False) by (intros x H1%HA H2%HB; lia).
  induction h as [|it h IH] using rev_ind; [done|].
  assert (numbered h) as Hh'.
  { intros i x Hx. apply Hh. by apply lookup_app_l_Some. }
  assert (it_id it = 1 + Z.of_nat (length h))%Z as Hit.
  { apply Hh. rewrite lookup_app_r by lia. by rewrite Nat.sub_diag. }
  rewrite !filter_app, IH by done. destruct (decide (A it)) as [HAi|HAi].
  - rewrite (filter_none B h), app_nil_r.
    + rewrite (filter_none B [it]), app_nil_r; [|intros x ->%list_elem_of_singleton; eauto].
      f_equal. apply filter_in. intros x ->%list_elem_of_singleton. tauto.
    + intros x Hx HBx. apply numbered_range in Hx; [|done]. apply HA in HAi. apply HB in HBx. lia.
  - rewrite (filter_none A [it]), app_nil_r, <- app_assoc; [|by intros x ->%list_elem_of_singleton].
    do 2 f_equal. apply filter_in. intros x ->%list_elem_of_singleton. tauto.
Qed.

(** ** The invariant *)

Definition in_window (s : Stream) (it : Item) : Prop :=
  (st_start s <= it_id it < st_cursor s)%Z /\ it_id it ∉ st_missed s.

#[export] Instance in_window_dec s it : Decision (in_window s it).
Proof. unfold in_window. apply _. Defined.

Record channel_ok (c : SseChannel) (h : list Item) : Prop := mkChannelOk {
  co_numbered : numbered h;
  co_next : next_event_id c = (1 + Z.of_nat (length h))%Z;
  co_ring : ring c = drop (length h - replay_buffer_size c) h;
  co_undelivered : (1 <= next_undelivered c)%Z;
}.

Record stream_ok (replay : nat) (h : list Item) (s : Stream) : Prop := mkStreamOk {
  so_items : st_written s ++ st_unsent s = filter (in_window s) h;
  so_cursor : (0 <= st_start s <= st_cursor s)%Z;
  so_reach : st_cursor s = st_start s \/ (st_cursor s <= 1 + Z.of_nat (length h))%Z;
  so_missed : Forall (fun j => j < st_cursor s /\ j + Z.of_nat replay <= Z.of_nat (length h))%Z (st_missed s);
}.

Definition system_ok (sys : System) : Prop :=
  channel_ok (sys_channel sys) (sys_history sys) /\
  Forall (stream_ok (replay_buffer_size (sys_channel sys)) (sys_history sys)) (sys_streams sys).

Lemma push_ring_drop limit h it :
  push_ring limit it (drop (length h - limit) h) = drop (length (h ++ [it]) - limit) (h ++ [it]).
Proof.
  unfold push_ring. rewrite length_app, length_drop, length_app. cbn [length].
  destruct (decide (length h < limit)) as [Hlt|Hge].
  - replace (length h - limit) with 0 by lia. rewrite drop_0. f_equal. lia.
  - rewrite <- (drop_app_le h [it] (length h - limit)) by lia. rewrite drop_drop. f_equal. lia.
Qed.

Lemma enqueue_channel_ok payload c h :
  channel_ok c h -> ch_running c = true -> (Z.of_nat (length h) + 2 < modulus 64)%Z ->
  channel_ok (enqueue payload c) (h ++ [mkItem (next_event_id c) payload]).
Proof.
  intros [Hn Hnext Hr Hu] Hrun Hb. unfold enqueue. rewrite Hrun. split; cbn [next_event_id ring replay_buffer_size next_undelivered].
  - by apply numbered_snoc.
  - rewrite wrap_u_id by (unfold in_u; lia). rewrite length_app. cbn [length]. lia.
  - by rewrite Hr, push_ring_drop.
  - done.
Qed.

Lemma enqueue_stream_ok replay h it s :
  stream_ok replay h s -> it_id it = (1 + Z.of_nat (length h))%Z -> stream_ok replay (h ++ [it]) s.
Proof.
  intros [Hi Hc Hr Hm] Hit. split.
  - rewrite filter_app, Hi. rewrite (filter_none _ [it]); [by rewrite app_nil_r|].
    intros x ->%list_elem_of_singleton [Hw _]. lia.
  - done.
  - rewrite length_app. cbn [length]. lia.
  - eapply Forall_impl; [exact Hm|]. intros j [? ?]. rewrite length_app. cbn [length]. lia.
Qed.

(** A turn that takes a batch. *)
Lemma stream_turn_batch generation cursor c c' h pending cursor' :
  channel_ok c h -> (Z.of_nat (length h) + 2 < modulus 64)%Z -> stream_turn generation cursor c = (Batch pending cursor', c') ->
  (cursor <= Z.of_nat (length h))%Z /\ pending = filter (fun it => cursor <= it_id it)%Z (ring c) /\
  cursor' = (1 + Z.of_nat (length h))%Z /\
  c' = mkChannel (replay_buffer_size c) (channel_retry c) true (ring c) (next_event_id c)
         (Z.max (next_undelivered c) cursor') (stream_generation c) /\
  stream_generation c = generation.
Proof.
  intros [Hn Hnext Hr Hu] Hb. unfold stream_turn. destruct (ch_running c); [|done]. cbn [negb orb].
  destruct (Z.eqb_spec (stream_generation c) generation) as [Hg|]; [|done]. cbn [negb].
  destruct (last (ring c)) as [back|] eqn:El; [|done].
  destruct (Z.leb_spec cursor (it_id back)) as [Hle|]; [|done].
  rewrite (last_filter _ _ back El Hle).
  assert (it_id back = Z.of_nat (length h)) as Hid.
  { rewrite Hr, last_lookup, lookup_drop, length_drop in El. apply lookup_lt_Some in El as Hlt.
    rewrite (Hn _ _ El). lia. }
  rewrite Hid, wrap_u_id by (unfold in_u; lia). intros [= <- <- <-]. rewrite Hid in Hle.
  split; [done|]. split; [done|]. split; [lia|]. split; [|done]. f_equal.
  destruct (Z.ltb_spec (next_undelivered c) (Z.of_nat (length h) + 1)); lia.
Qed.

Lemma turn_stream_ok h c s :
  channel_ok c h -> (Z.of_nat (length h) + 2 < modulus 64)%Z -> stream_ok (replay_buffer_size c) h s ->
  channel_ok (turn_stream h c s).2 h /\ replay_buffer_size (turn_stream h c s).2 = replay_buffer_size c /\
  stream_ok (replay_buffer_size c) h (turn_stream h c s).1.
Proof.
  intros Hc Hb Hs. unfold turn_stream. destruct (st_open s); [|by split_and!].
  destruct (st_unsent s) as [|it rest] eqn:Eu; [|by split_and!].
  destruct (stream_turn (st_generation s) (st_cursor s) c) as [[| |pending cursor'] c'] eqn:E.
  1-2: assert (c' = c) as -> by (unfold stream_turn in E; by repeat case_match; simplify_eq).
  - by split_and!.
  - split; [done|]. split; [done|]. destruct Hs as [Hi Hcu Hre Hm]. by split.
  - destruct (stream_turn_batch _ _ _ _ _ _ _ Hc Hb E) as (Hcur & -> & -> & -> & _).
    destruct Hc as [Hn Hnext Hr Hu]. destruct Hs as [Hi Hcu Hre Hm].
    split; [split; cbn; try done; lia|]. split; [done|].
    set (n := length h) in *. set (k := n - replay_buffer_size c) in *.
    assert (length (ring c) = n - k) as Hlr by (rewrite Hr, length_drop; done).
    assert (n - length (ring c) = k) as Hk by (rewrite Hlr; lia).
    rewrite Hk. split; cbn [fst snd st_written st_unsent st_start st_cursor st_missed].
    + rewrite Eu, app_nil_r in Hi. rewrite Hi.
      transitivity (filter (fun it => in_window s it \/ (st_cursor s <= it_id it /\ Z.of_nat k < it_id it)%Z) h).
      * symmetry. rewrite (numbered_filter_or h (st_cursor s)); [|done|by intros x [[_ ?] _]|by intros x [? _]].
        f_equal. rewrite <- (take_drop k h) at 1. rewrite filter_app, (filter_none _ (take k h)), app_nil_l.
        -- rewrite Hr. apply filter_in. intros x Hx. apply numbered_drop in Hx; [|done]. lia.
        -- intros x Hx [_ Hlt]. apply numbered_take in Hx; [|done]. lia.
      * apply filter_in. intros x Hx. pose proof (numbered_range _ _ Hn Hx) as Hrx. fold n in Hrx. unfold in_window.
        cbn [fst snd st_start st_cursor st_missed]. rewrite Forall_forall in Hm.
        rewrite elem_of_app, list_elem_of_filter, list_elem_of_fmap. split.
        -- intros [[[H1 H2] H3]|[H1 H2]]; (split; [lia|]); intros [Hj|[Hj Hx2]]; try done.
           ++ lia.
           ++ specialize (Hm _ Hj). lia.
           ++ destruct Hx2 as (y & Hy & Hy2). apply numbered_take in Hy2; [|done]. lia.
        -- intros [[H1 H2] H3]. destruct (decide (it_id x < st_cursor s)%Z) as [Hlt|Hge].
           ++ left. split; [lia|]. intros Hj. apply H3. by left.
           ++ right. split; [lia|]. destruct (decide (Z.of_nat k < it_id x)%Z) as [|Hle]; [done|].
              exfalso. apply H3. right. split; [lia|]. exists x. split; [done|].
              apply list_elem_of_lookup in Hx as [i Hix]. apply list_elem_of_lookup. exists i.
              apply lookup_take_Some. split; [done|]. rewrite (Hn _ _ Hix) in Hle. lia.
    + lia.
    + right. lia.
    + apply Forall_app_2.
      * eapply Forall_impl; [exact Hm|]. intros j [? ?]. lia.
      * apply Forall_forall. intros j [Hj (y & -> & Hy)%list_elem_of_fmap]%list_elem_of_filter.
        apply list_elem_of_lookup in Hy as [i Hi2]. apply lookup_take_Some in Hi2 as [Hi2 Hlt].
        rewrite (Hn _ _ Hi2). apply lookup_lt_Some in Hi2. lia.
Qed.

Lemma write_one_ok replay h s : stream_ok replay h s -> stream_ok replay h (write_one s).
Proof.
  intros Hs. unfold write_one. destruct (st_open s); [|done]. destruct (st_unsent s) as [|it rest] eqn:E; [done|].
  destruct Hs as [Hi Hc Hr Hm]. rewrite E in Hi.
  split; cbn [st_written st_unsent st_start st_cursor st_missed]; try done. rewrite <- app_assoc. exact Hi.
Qed.

Lemma close_stream_ok replay h s : stream_ok replay h s -> stream_ok replay h (close_stream s).
Proof. by intros [Hi Hc Hr Hm]. Qed.

Lemma attach_ok last_event_id c h generation cursor l c' :
  channel_ok c h -> attach last_event_id c = (Some (generation, cursor, l), c') ->
  channel_ok c' h /\ replay_buffer_size c' = replay_buffer_size c /\
  stream_ok (replay_buffer_size c) h
    (mkStream true (String.eqb last_event_id EmptyString) generation l cursor cursor [] [] []).
Proof.
  intros [Hn Hnext Hr Hu]. unfold attach. destruct (ch_running c); [|done]. intros [= <- <- <- <-].
  split; [done|]. split; [done|]. split; cbn.
  - symmetry. apply filter_none. intros x _ [Hw _]. cbn in Hw. lia.
  - destruct (String.eqb last_event_id EmptyString); [lia|].
    pose proof (wrap_u_range 64 (strtoull last_event_id + 1) ltac:(lia)) as [? _]. lia.
  - by left.
  - constructor.
Qed.

Lemma step_ok sys o :
  system_ok sys -> (Z.of_nat (length (sys_history sys)) + 2 < modulus 64)%Z -> system_ok (step sys o).
Proof.
  intros [Hc Hs] Hb. destruct o as [payload|h|i|i|i|]; cbn [step].
  - destruct (ch_running (sys_channel sys)) eqn:Er.
    + split; cbn [sys_channel sys_history sys_streams]; [by apply enqueue_channel_ok|].
      assert (replay_buffer_size (enqueue payload (sys_channel sys)) = replay_buffer_size (sys_channel sys)) as ->
        by (unfold enqueue; by rewrite Er).
      eapply Forall_impl; [exact Hs|]. intros s Hss. apply enqueue_stream_ok; [done|]. exact (co_next _ _ Hc).
    + unfold enqueue. rewrite Er. by split.
  - destruct (attach h (sys_channel sys)) as [[[[g cu] l]|] c'] eqn:E.
    + destruct (attach_ok _ _ _ _ _ _ _ Hc E) as (Hc' & Hrep & Hnew). split; [done|].
      cbn [sys_channel sys_history sys_streams]. rewrite Hrep. apply Forall_app_2; [done|by constructor].
    + unfold attach in E. destruct (ch_running _); [done|]. injection E as <-. by split.
  - destruct (sys_streams sys !! i) as [s|] eqn:Ei; [|done].
    assert (stream_ok (replay_buffer_size (sys_channel sys)) (sys_history sys) s) as Hss by by eapply Forall_lookup_1.
    pose proof (turn_stream_ok _ _ _ Hc Hb Hss) as (H1 & H2 & H3).
    destruct (turn_stream (sys_history sys) (sys_channel sys) s) as [s' c'].
    split; [done|]. cbn [sys_channel sys_history sys_streams fst snd] in *. rewrite H2. by apply Forall_insert.
  - split; [done|]. cbn. apply Forall_alter; [done|]. intros s ? ?. by apply write_one_ok.
  - split; [done|]. cbn. apply Forall_alter; [done|]. intros s ? ?. by apply close_stream_ok.
  - split; [|done]. by destruct Hc.
Qed.

Lemma step_history sys o : length (sys_history (step sys o)) <= S (length (sys_history sys)).
Proof.
  destruct o; cbn [step].
  - cbn. destruct (ch_running _); [rewrite length_app; cbn|]; lia.
  - destruct (attach _ _) as [[[[? ?] ?]|] ?]; cbn; lia.
  - destruct (_ !! _); [destruct (turn_stream _ _ _)|]; cbn; lia.
  - cbn; lia.
  - cbn; lia.
  - cbn; lia.
Qed.

(** ** Which stream gets what *)

(** What a stream took from the channel. *)
Definition handed (s : Stream) : list Item := st_written s ++ st_unsent s.

Definition same_stream (s s' : Stream) : Prop :=
  st_generation s' = st_generation s /\ st_fresh s' = st_fresh s /\ st_start s' = st_start s.

(** How a step changes the stream at a position. *)
Inductive stream_change (c c' : SseChannel) (n n' j : nat) (old : option Stream) (s' : Stream) : Prop :=
| Kept s : old = Some s -> same_stream s s' -> handed s' = handed s -> stream_change c c' n n' j old s'
| Took s : old = Some s -> same_stream s s' -> n' = n -> st_generation s = stream_generation c ->
    (forall it, it ∈ handed s' -> it ∈ handed s \/ (it_id it < next_undelivered c')%Z) -> stream_change c c' n n' j old s'
| Added : old = None -> j = n -> handed s' = [] -> st_generation s' = stream_generation c' ->
    (st_fresh s' = true -> st_start s' = next_undelivered c) -> stream_change c c' n n' j old s'.

Lemma handed_write_one s : handed (write_one s) = handed s.
Proof.
  unfold handed, write_one. destruct (st_open s); [|done]. destruct (st_unsent s) as [|it rest] eqn:E; [by rewrite E|].
  cbn. by rewrite <- app_assoc.
Qed.

Lemma same_write_one s : same_stream s (write_one s).
Proof. unfold write_one. destruct (st_open s); [|done]. by destruct (st_unsent s). Qed.

Lemma turn_stream_change h c s n j :
  channel_ok c h -> (Z.of_nat (length h) + 2 < modulus 64)%Z ->
  stream_change c (turn_stream h c s).2 n n j (Some s) (turn_stream h c s).1 /\
  stream_generation (turn_stream h c s).2 = stream_generation c /\
  (next_undelivered c <= next_undelivered (turn_stream h c s).2)%Z.
Proof.
  intros Hc Hb. unfold turn_stream.
  destruct (st_open s); [|split; [by eapply Kept|done]].
  destruct (st_unsent s) as [|it rest] eqn:Eu; [|split; [by eapply Kept|done]].
  destruct (stream_turn (st_generation s) (st_cursor s) c) as [[| |pending cursor'] c'] eqn:E.
  1-2: assert (c' = c) as -> by (unfold stream_turn in E; by repeat case_match; simplify_eq);
    split; [by eapply Kept|done].
  destruct (stream_turn_batch _ _ _ _ _ _ _ Hc Hb E) as (Hcur & -> & -> & -> & Hg). cbn [snd fst].
  split; [|split; [done|cbn; lia]]. eapply Took; [done|done|done|done|]. unfold handed. cbn. intros it.
  rewrite Eu, app_nil_r, elem_of_app, list_elem_of_filter. intros [?|[_ Hit]]; [by left|]. right.
  destruct Hc as [Hn _ Hr _]. rewrite Hr in Hit. apply list_elem_of_lookup in Hit as [i Hi].
  rewrite lookup_drop in Hi. apply lookup_lt_Some in Hi as Hlt. rewrite (Hn _ _ Hi). lia.
Qed.

Lemma step_change sys o j s' :
  system_ok sys -> (Z.of_nat (length (sys_history sys)) + 2 < modulus 64)%Z ->
  sys_streams (step sys o) !! j = Some s' ->
  stream_change (sys_channel sys) (sys_channel (step sys o)) (length (sys_streams sys))
    (length (sys_streams (step sys o))) j (sys_streams sys !! j) s'.
Proof.
  intros [Hc Hs] Hb. destruct o as [payload|h|i|i|i|]; cbn [step].
  - cbn. intros ->. by eapply Kept.
  - destruct (attach h (sys_channel sys)) as [[[[g cu] l]|] c'] eqn:E; cbn [sys_streams sys_channel].
    + intros [Hj|[Hj Hx]]%lookup_app_Some; [rewrite Hj; by eapply Kept|].
      apply list_lookup_singleton_Some in Hx as [Hx <-]. rewrite (lookup_ge_None_2 _ j) by done.
      unfold attach in E. destruct (ch_running _); [|done]. injection E as <- <- <- <-.
      apply Added; [done|lia|done|done|]. cbn. by intros ->.
    + intros ->. by eapply Kept.
  - destruct (sys_streams sys !! i) as [s|] eqn:Ei; [|intros ->; by eapply Kept].
    destruct (turn_stream_change (sys_history sys) (sys_channel sys) s (length (sys_streams sys)) i Hc Hb) as (H1 & H2 & H3).
    destruct (turn_stream (sys_history sys) (sys_channel sys) s) as [s1 c1]. cbn [sys_streams sys_channel fst snd] in *.
    destruct (decide (i = j)) as [<-|Hne].
    + rewrite list_lookup_insert_eq by by eapply lookup_lt_Some. intros [= ->]. by rewrite Ei, length_insert.
    + rewrite list_lookup_insert_ne by done. intros ->. by eapply Kept.
  - cbn. rewrite list_lookup_alter. case_decide as Hij; [|intros ->; by eapply Kept].
    subst i. destruct (sys_streams sys !! j) as [s|]; [|done]. intros [= <-].
    eapply Kept; [done|apply same_write_one|apply handed_write_one].
  - cbn. rewrite list_lookup_alter. case_decide as Hij; [|intros ->; by eapply Kept].
    subst i. destruct (sys_streams sys !! j) as [s|]; [|done]. intros [= <-]. by eapply Kept.
  - cbn. intros ->. by eapply Kept.
Qed.

Record order_ok (sys : System) : Prop := mkOrderOk {
  oo_channel : stream_generation (sys_channel sys) = Z.of_nat (length (sys_streams sys));
  oo_generation : forall j s, sys_streams sys !! j = Some s -> st_generation s = (1 + Z.of_nat j)%Z;
  oo_handed : forall j s it, sys_streams sys !! j = Some s -> it ∈ handed s ->
    (it_id it < next_undelivered (sys_channel sys))%Z;
  oo_fresh : forall i j si sj it, sys_streams sys !! i = Some si -> sys_streams sys !! j = Some sj -> i < j ->
    st_fresh sj = true -> it ∈ handed si -> (it_id it < st_start sj)%Z;
}.

Lemma step_generation sys o :
  system_ok sys -> (Z.of_nat (length (sys_history sys)) + 2 < modulus 64)%Z -> order_ok sys ->
  (Z.of_nat (length (sys_streams sys)) + 1 < modulus 64)%Z ->
  stream_generation (sys_channel (step sys o)) = Z.of_nat (length (sys_streams (step sys o))) /\
  (next_undelivered (sys_channel sys) <= next_undelivered (sys_channel (step sys o)))%Z /\
  length (sys_streams sys) <= length (sys_streams (step sys o)) <= S (length (sys_streams sys)).
Proof.
  intros [Hc _] Hb [Hg _ _ _] Hlen. destruct o as [payload|h|i|i|i|]; cbn [step].
  - unfold enqueue. destruct (ch_running _); cbn; (split; [done|lia]).
  - unfold attach. destruct (ch_running _); cbn; [|split; [done|lia]].
    rewrite Hg, wrap_u_id by (unfold in_u; lia). rewrite length_app. cbn. lia.
  - destruct (sys_streams sys !! i) as [s|]; [|split; [done|lia]].
    destruct (turn_stream_change (sys_history sys) (sys_channel sys) s (length (sys_streams sys)) i Hc Hb) as (H1 & H2 & H3).
    destruct (turn_stream (sys_history sys) (sys_channel sys) s) as [s1 c1]. cbn in *. rewrite length_insert. split; [congruence|lia].
  - cbn. rewrite length_alter. split; [done|lia].
  - cbn. rewrite length_alter. split; [done|lia].
  - cbn. split; [done|lia].
Qed.

Lemma step_order sys o :
  system_ok sys -> (Z.of_nat (length (sys_history sys)) + 2 < modulus 64)%Z -> order_ok sys ->
  (Z.of_nat (length (sys_streams sys)) + 1 < modulus 64)%Z -> order_ok (step sys o).
Proof.
  intros Hok Hb Ho Hlen. destruct (step_generation sys o Hok Hb Ho Hlen) as (Hgen & Hund & Hl).
  pose proof (fun j s' => step_change sys o j s' Hok Hb) as Hch. destruct Ho as [Hc Hg Hh Hf]. split; [done|..].
  - intros j s' Hj. destruct (Hch _ _ Hj) as [s Hs (E & _) _|s Hs (E & _) _ _ _|Hs -> _ E _].
    + rewrite E. by eapply Hg.
    + rewrite E. by eapply Hg.
    + rewrite E, Hgen. apply lookup_lt_Some in Hj. lia.
  - intros j s' it Hj Hit. destruct (Hch _ _ Hj) as [s Hs _ E|s Hs _ _ _ E|Hs _ E _ _].
    + rewrite E in Hit. pose proof (Hh _ _ _ Hs Hit). lia.
    + destruct (E _ Hit) as [Hin|?]; [|done]. pose proof (Hh _ _ _ Hs Hin). lia.
    + rewrite E in Hit. by apply not_elem_of_nil in Hit.
  - intros i j si sj it Hi Hj Hlt Hfr Hit.
    destruct (Hch _ _ Hi) as [s Hs (_ & _ & _) Ei|s Hs _ En Egen Ei|Hs -> Ei _ _].
    + rewrite Ei in Hit. destruct (Hch _ _ Hj) as [t Ht (_ & Ef & Es) _|t Ht (_ & Ef & Es) _ _ _|_ _ _ _ Est].
      * rewrite Es. rewrite Ef in Hfr. exact (Hf i j s t it Hs Ht Hlt Hfr Hit).
      * rewrite Es. rewrite Ef in Hfr. exact (Hf i j s t it Hs Ht Hlt Hfr Hit).
      * rewrite Est by done. by eapply Hh.
    + (* only the newest stream takes a batch *)
      exfalso. rewrite (Hg _ _ Hs), Hc in Egen. apply lookup_lt_Some in Hj. lia.
    + rewrite Ei in Hit. by apply not_elem_of_nil in Hit.
Qed.

(** ** What the client reads *)

Definition stream_text (retry : Z) (s : Stream) : string :=
  foldr String.append EmptyString
    (format_sse_event <$> (initial_event (st_initial s) retry :: (item_event <$> st_written s))).

(** A payload that is one line, as serialised messages are. *)
Definition one_line (it : Item) : Prop := single_line (it_data it).

Lemma drop_newlines_single s : find_char LF s = None -> drop_newlines s = s.
Proof.
  destruct s as [|c s]; [done|]. rewrite find_char_cons. cbn [drop_newlines].
  destruct (Ascii.eqb_spec LF c) as [|Hn]; [done|]. by rewrite (proj2 (Ascii.eqb_neq c LF)) by congruence.
Qed.

(** The bytes of a stream, cut in any way, are parsed to the initial event and
    the items written, under their ids. *)
Lemma stream_received retry s chunks :
  (0 <= retry < modulus 31)%Z -> (0 <= st_initial s)%Z -> Forall one_line (st_written s) ->
  Forall (fun it => 0 <= it_id it)%Z (st_written s) ->
  foldr String.append EmptyString chunks = stream_text retry s ->
  feed_all chunks new_parser =
    Val (initial_event (st_initial s) retry :: (item_event <$> st_written s), new_parser).
Proof.
  intros Hr Hi Hw Hid Hc.
  rewrite (feed_items (Event (initial_event (st_initial s) retry) :: ((fun it => Event (item_event it)) <$> st_written s))).
  - f_equal. f_equal. cbn [events_of omap list_omap]. f_equal.
    clear Hc Hid. induction Hw as [|it l Hit _ IH]; [done|]. rewrite !fmap_cons. cbn [omap list_omap events_of].
    f_equal; [|exact IH]. unfold received, item_event. cbn. by rewrite drop_newlines_single by apply Hit.
  - constructor.
    + split; [intros v [= <-]; by apply single_line_to_string|]. split; [done|]. split; [done|]. by intros ms [= <-].
    + apply Forall_fmap. rewrite Forall_forall in Hw, Hid |- *. intros it Hit. specialize (Hw it Hit) as [? ?].
      split; [intros v [= <-]; by apply single_line_to_string, Hid|]. by split.
  - rewrite Hc. unfold stream_text. rewrite !fmap_cons. cbn [foldr item_text]. do 2 f_equal.
    by rewrite <- !list_fmap_compose.
Qed.

(** ** Any sequence of operations *)

Lemma run_ops_ok replay retry ops :
  (Z.of_nat (length ops) + 2 < modulus 64)%Z ->
  let sys := run_ops ops (start replay retry) in
  system_ok sys /\ order_ok sys /\ length (sys_history sys) <= length ops /\ length (sys_streams sys) <= length ops.
Proof.
  induction ops as [|o ops IH] using rev_ind; intros Hb; cbv zeta.
  - split; [split; [split; [by intros i it|done..]|constructor]|]. split; [|cbn; lia].
    by split; [|intros j s|intros j s|intros i j si].
  - rewrite length_app in Hb. cbn [length] in Hb. destruct IH as (Hs & Ho & Hh & Hl); [lia|].
    unfold run_ops in *. rewrite foldl_app. cbn [foldl]. set (sys := foldl step (start replay retry) ops) in *.
    assert (Z.of_nat (length (sys_history sys)) + 2 < modulus 64)%Z as Hb1 by lia.
    assert (Z.of_nat (length (sys_streams sys)) + 1 < modulus 64)%Z as Hb2 by lia.
    split; [by apply step_ok|]. split; [by apply step_order|]. rewrite length_app. cbn [length].
    pose proof (step_history sys o). pose proof (step_generation sys o Hs Hb1 Ho Hb2). lia.
Qed.

Lemma replay_size_const replay retry ops :
  replay_buffer_size (sys_channel (run_ops ops (start replay retry))) = replay.
Proof.
  induction ops as [|o ops IH] using rev_ind; [done|]. unfold run_ops in *. rewrite foldl_app. cbn [foldl].
  set (sys := foldl step (start replay retry) ops) in *. destruct o as [payload|h|i|i|i|]; cbn [step].
  - unfold enqueue. by destruct (ch_running _).
  - unfold attach. by destruct (ch_running _).
  - destruct (_ !! i) as [s|]; [|done]. unfold turn_stream, stream_turn.
    by repeat case_match; simplify_eq.
  - done.
  - done.
  - done.
Qed.

(** C12: whatever the interleaving of queueing, attaching, streaming, failing
    writes and shutdown, a stream has written or is about to write, in order
    and each once, exactly the items with ids from where it started up to its
    cursor, except those that had left the replay ring when it looked; those
    are at least [replay] events behind the newest. *)
Theorem sse_delivery replay retry ops i s :
  (Z.of_nat (length ops) + 2 < modulus 64)%Z ->
  let sys := run_ops ops (start replay retry) in
  sys_streams sys !! i = Some s ->
  it_id <$> sys_history sys = seqZ 1 (Z.of_nat (length (sys_history sys))) /\
  st_written s ++ st_unsent s =
    filter (fun it => (st_start s <= it_id it < st_cursor s)%Z /\ it_id it ∉ st_missed s) (sys_history sys) /\
  Forall (fun j => j + Z.of_nat replay <= Z.of_nat (length (sys_history sys)))%Z (st_missed s).
Proof.
  intros Hb sys Hs. destruct (run_ops_ok replay retry ops Hb) as ([Hc Hst] & _). fold sys in Hc, Hst.
  pose proof (replay_size_const replay retry ops) as Hr. fold sys in Hr. rewrite Hr in Hst.
  rewrite Forall_lookup in Hst. destruct (Hst _ _ Hs) as [Hi _ _ Hm]. split; [|split].
  - apply list_eq. intros k. rewrite list_lookup_fmap. destruct (sys_history sys !! k) as [it|] eqn:E.
    + cbn. rewrite (co_numbered _ _ Hc _ _ E). symmetry. apply lookup_seqZ. apply lookup_lt_Some in E. lia.
    + symmetry. apply lookup_seqZ_ge. apply lookup_ge_None in E. lia.
  - exact Hi.
  - eapply Forall_impl; [exact Hm|]. by intros j [_ ?].
Qed.

Definition sample_ops : list op :=
  [Enqueue "a"; Enqueue "b"; Attach EmptyString; Enqueue "c"; Turn 0; Write 0; WriteFails 0; Enqueue "d"; Attach "2"; Turn 1;
   Write 1; Write 1].

Lemma sse_delivery_witness :
  let sys := run_ops sample_ops (start 2 3000) in
  let s := mkStream true false 2 4 3 5 [] [mkItem 3 "c"; mkItem 4 "d"] [] in
  it_id <$> sys_history sys = seqZ 1 (Z.of_nat (length (sys_history sys))) /\
  st_written s ++ st_unsent s =
    filter (fun it => (st_start s <= it_id it < st_cursor s)%Z /\ it_id it ∉ st_missed s) (sys_history sys) /\
  Forall (fun j => j + Z.of_nat 2 <= Z.of_nat (length (sys_history sys)))%Z (st_missed s).
Proof.
  intros sys s. apply (sse_delivery 2 3000 sample_ops 1 s); [reflexivity|]. vm_compute. reflexivity.
Defined.

(** A client that opens a stream without asking to resume gets nothing
    that was handed to an earlier stream: of any two streams, the ids of the
    earlier one are below the ids of the later, unless that one asked for a
    position itself. *)
Theorem fresh_streams_disjoint replay retry ops i j si sj it it' :
  (Z.of_nat (length ops) + 2 < modulus 64)%Z ->
  let sys := run_ops ops (start replay retry) in
  sys_streams sys !! i = Some si -> sys_streams sys !! j = Some sj -> i < j -> st_fresh sj = true ->
  it ∈ st_written si ++ st_unsent si -> it' ∈ st_written sj ++ st_unsent sj -> (it_id it < it_id it')%Z.
Proof.
  intros Hb sys Hi Hj Hlt Hf Hit Hit'. destruct (run_ops_ok replay retry ops Hb) as ([Hc Hst] & Ho & _).
  fold sys in Hc, Hst, Ho. pose proof (oo_fresh _ Ho i j si sj it Hi Hj Hlt Hf Hit).
  rewrite Forall_lookup in Hst. destruct (Hst _ _ Hj) as [Hw _ _ _]. rewrite Hw in Hit'.
  apply list_elem_of_filter in Hit' as [[Hw' _] _]. lia.
Qed.

Lemma fresh_streams_disjoint_witness : (1 < 2)%Z.
Proof.
  apply (fresh_streams_disjoint 4 3000
           [Enqueue "a"; Attach EmptyString; Turn 0; Enqueue "b"; Attach EmptyString; Turn 1] 0 1
           (mkStream true true 1 1 1 2 [mkItem 1 "a"] [] []) (mkStream true true 2 2 2 3 [mkItem 2 "b"] [] [])
           (mkItem 1 "a") (mkItem 2 "b")).
  - reflexivity.
  - vm_compute. reflexivity.
  - vm_compute. reflexivity.
  - apply Nat.lt_0_1.
  - reflexivity.
  - apply list_elem_of_singleton. reflexivity.
  - apply list_elem_of_singleton. reflexivity.
Defined.
