(* ===== verification/HttpEndpoint.v ===== *)
(** * The HTTP listener

    src/transport/http/http_endpoint.cpp: what one connection does, from the
    bytes it reads to the request it hands on or the answer it writes itself.
    The accept loop and the table of connections (threads, descriptors) are not
    modelled. *)

From S2P Require Import Prelude Json Core Types Lines Decimal Chunked Http Sse.

(** ** Options and checks *)

Record HttpServerOptions : Type := mkHttpServerOptions {
  host : string;
  port : Z;
  path : string;
  allowed_origins : list string;
  authorize : option (gmap string string -> bool);
  sse_retry_ms : Z;
  hso_replay_buffer_size : nat;
}.

Definition default_http_options : HttpServerOptions := mkHttpServerOptions "127.0.0.1" 0 "/mcp" [] None 3000 256.

Definition is_localhost_origin (origin : string) : bool :=
  String.prefix "http://localhost" origin || String.prefix "http://127.0.0.1" origin ||
  String.prefix "https://localhost" origin || String.prefix "https://127.0.0.1" origin.

Definition origin_allowed (o : HttpServerOptions) (head : HttpHead) : bool :=
  let origin := header head "origin" in
  String.eqb origin EmptyString || is_localhost_origin origin || existsb (String.eqb origin) (allowed_origins o).

(** ** Plain answers *)

Record Reply : Type := mkReply {
  reply_status : Z;
  reply_reason : string;
  reply_body : string;
  reply_content_type : string;
  reply_extra : HeaderList;
}.

Definition plain (status : Z) (reason body : string) : Reply := mkReply status reason body "text/plain" [].

Definition reply_headers (r : Reply) : HeaderList :=
  [("Content-Type", reply_content_type r); ("MCP-Protocol-Version", kProtocolVersion); ("Connection", "close")] ++
  reply_extra r.

(** [write_simple]: the bytes it writes. *)
Definition write_simple (r : Reply) : string :=
  serialize_response (reply_status r) (reply_reason r) (reply_headers r) (reply_body r) false.

(** ** A connection *)

(** What a wait for more bytes comes back with: bytes, or the end (an idle
    timeout, the shutdown of the listener, the end of the stream or an error). *)
Inductive wait_read := Bytes (chunk : string) | Gone.

(** [Waiting]: still blocked; [Dropped]: closed without an answer. *)
Inductive connection := Waiting | Dropped | Rejected (r : Reply) | Received (head : HttpHead) (body : string).

Fixpoint receive_body (reads : list wait_read) (length : Z) (head : HttpHead) (body : string) : connection :=
  if (Z.of_nat (size body) <? length)%Z then
    match reads with
    | [] => Waiting
    | Gone :: _ => Dropped
    | Bytes chunk :: reads => receive_body reads length head (body +:+ chunk)
    end
  else Received head body.

(** Once the head is there: the checks, in order, then the body. *)
Definition accept (o : HttpServerOptions) (reads : list wait_read) (head : HttpHead) (body : string) : connection :=
  if negb (String.eqb (target head) (path o)) then Rejected (plain 404 "Not Found" "unknown path")
  else if negb (origin_allowed o head) then Rejected (plain 403 "Forbidden" "origin not allowed")
  else if match authorize o with Some f => negb (f (headers head)) | None => false end
       then Rejected (plain 401 "Unauthorized" "authorization failed")
  else receive_body reads (strtoull (header head "content-length")) head body.

Fixpoint receive (o : HttpServerOptions) (reads : list wait_read) (buffer : string) : outcome connection :=
  r ← parse_head buffer true;
  match r with
  | HeadOk head consumed => Val (accept o reads head (str_drop consumed buffer))
  | HeadError _ => Val (Rejected (plain 400 "Bad Request" "malformed HTTP request"))
  | HeadIncomplete =>
      match reads with
      | [] => Val Waiting
      | Gone :: _ => Val Dropped
      | Bytes chunk :: reads => receive o reads (buffer +:+ chunk)
      end
  end.

(** [handle_connection]: [Received] is what the handler is called with. *)
Definition handle_connection (o : HttpServerOptions) (reads : list wait_read) : outcome connection :=
  receive o reads EmptyString.

(** ** The checks *)

Definition passes (o : HttpServerOptions) (head : HttpHead) : Prop :=
  target head = path o /\ origin_allowed o head = true /\
  match authorize o with Some f => f (headers head) = true | None => True end.

Lemma receive_body_received reads length head body h b :
  receive_body reads length head body = Received h b -> h = head /\ (length <= Z.of_nat (size b))%Z.
Proof.
  revert body. induction reads as [|[chunk|] reads IH]; intros body; cbn [receive_body];
    destruct (Z.ltb_spec (Z.of_nat (size body)) length); try done; try (intros [= <- <-]; done).
  apply IH.
Qed.

Lemma accept_received o reads head body h b :
  accept o reads head body = Received h b ->
  h = head /\ passes o head /\ (strtoull (header head "content-length") <= Z.of_nat (size b))%Z.
Proof.
  unfold accept, passes. destruct (String.eqb_spec (target head) (path o)); [|done]. cbn [negb].
  destruct (origin_allowed o head); [|done]. cbn [negb].
  destruct (authorize o) as [f|]; [destruct (f (headers head)); [|done]|]; cbn [negb];
    intros [-> ?]%receive_body_received; by split_and!.
Qed.

Lemma receive_received o reads buffer h b :
  receive o reads buffer = Val (Received h b) ->
  passes o h /\ (strtoull (header h "content-length") <= Z.of_nat (size b))%Z.
Proof.
  revert buffer. induction reads as [|[chunk|] reads IH]; intros buffer; cbn [receive];
    destruct (parse_head buffer true) as [[|e|head n]| |]; cbn [mbind outcome_bind]; try done;
    try (by intros [= (-> & ? & ?)%accept_received]).
  apply IH.
Qed.

(** ** A request arrives whole *)

Definition declares_length (m : http_message) : Prop :=
  strtoull (header (message_head m) "content-length") = Z.of_nat (size (message_body m)).

(** Requests that leave [Content-Length] to the writer declare their length. *)
Lemma declares_length_request method target hs body :
  existsb (fun h => String.eqb (to_lower h.1) "content-length") hs = false ->
  body <> EmptyString \/ method = "POST" -> (Z.of_nat (size body) < modulus 64)%Z ->
  declares_length (HttpRequest method target hs body).
Proof.
  intros Hhs Hb Hsz. unfold declares_length, header. cbn [message_head all_headers message_body headers].
  rewrite Hhs. cbn [negb andb].
  assert (negb (String.eqb body EmptyString) || String.eqb method "POST" = true) as ->.
  { destruct Hb as [Hb| ->]; [|by rewrite orb_true_r]. by rewrite (proj2 (String.eqb_neq _ _) Hb). }
  unfold set_headers. rewrite foldl_app. cbn [foldl length_header fst snd].
  change (to_lower "Content-Length") with "content-length". rewrite lookup_insert_eq. cbn [default].
  pose proof (strtoull_to_string (Z.of_nat (size body)) EmptyString ltac:(lia) eq_refl) as H.
  by rewrite str_app_nil_r in H.
Qed.

Lemma accept_pass o reads head body :
  passes o head -> accept o reads head body = receive_body reads (strtoull (header head "content-length")) head body.
Proof.
  intros (Ht & Ho & Ha). unfold accept. rewrite Ht, String.eqb_refl, Ho. cbn [negb].
  destruct (authorize o) as [f|]; [by rewrite Ha|done].
Qed.

Lemma receive_body_chunks chunks reads head body whole :
  body +:+ foldr String.append EmptyString chunks = whole ->
  receive_body ((Bytes <$> chunks) ++ reads) (Z.of_nat (size whole)) head body =
  Received head whole.
Proof.
  revert body. induction chunks as [|c chunks IH]; intros body Hw.
  - cbn [foldr] in Hw. rewrite str_app_nil_r in Hw. subst. cbn [fmap list_fmap app].
    destruct reads as [|[]]; cbn [receive_body]; by rewrite Z.ltb_irrefl.
  - rewrite fmap_cons. cbn [app receive_body]. destruct (Z.ltb_spec (Z.of_nat (size body)) (Z.of_nat (size whole))) as [|Hge].
    + apply IH. rewrite str_app_assoc. exact Hw.
    + f_equal. rewrite <- Hw in Hge |- *. rewrite size_app in Hge.
      destruct (foldr String.append EmptyString (c :: chunks)); [by rewrite str_app_nil_r|cbn in Hge; lia].
Qed.

Lemma receive_message o m chunks reads buffer :
  wf_http m -> is_request m = true -> passes o (message_head m) -> declares_length m ->
  buffer +:+ foldr String.append EmptyString chunks = message_text m ->
  receive o ((Bytes <$> chunks) ++ reads) buffer = Val (Received (message_head m) (message_body m)).
Proof.
  intros Hm Hq Hp Hd. set (n := size (head_text (message_lines m))).
  revert buffer. induction chunks as [|c chunks IH]; intros buffer Hb.
  - cbn [foldr fmap list_fmap app] in *. rewrite str_app_nil_r in Hb. subst buffer.
    assert (parse_head (message_text m) true = Val (HeadOk (message_head m) n)) as E.
    { rewrite message_text_lines, <- Hq. by apply parse_head_message. }
    destruct reads as [|r reads]; cbn [receive]; rewrite E; cbn [mbind outcome_bind]; rewrite accept_pass by done;
      rewrite Hd, message_text_lines; unfold n; rewrite str_drop_app_size.
    + by rewrite (receive_body_chunks [] []) by apply str_app_nil_r.
    + by rewrite (receive_body_chunks [] (r :: reads)) by apply str_app_nil_r.
  - rewrite fmap_cons. cbn [app receive]. destruct (decide (size buffer < n)) as [Hlt|Hge].
    + assert (buffer = str_take (size buffer) (message_text m)) as Eb by (by rewrite <- Hb, str_take_app_size).
      assert (parse_head buffer true = Val HeadIncomplete) as ->.
      { rewrite Eb, <- Hq. by apply parse_head_prefix. }
      cbn [mbind outcome_bind]. apply IH. rewrite str_app_assoc. exact Hb.
    + assert (buffer = head_text (message_lines m) +:+ str_drop n buffer) as Eb.
      { rewrite <- (str_take_drop n buffer) at 1. f_equal.
        rewrite <- (str_take_app_le n buffer (foldr String.append EmptyString (c :: chunks))), Hb by lia.
        rewrite message_text_lines. apply str_take_app_size. }
      assert (parse_head buffer true = Val (HeadOk (message_head m) n)) as ->.
      { rewrite Eb, <- Hq. by apply parse_head_message. }
      cbn [mbind outcome_bind]. rewrite accept_pass by done. rewrite Hd. f_equal.
      apply (receive_body_chunks (c :: chunks)).
      rewrite Eb, message_text_lines, str_app_assoc in Hb.
      apply (f_equal (str_drop n)) in Hb. unfold n in Hb at 1 3. by rewrite !str_drop_app_size in Hb.
Qed.

(** ** A plain answer is read back by the client *)

Definition wf_reply (r : Reply) : Prop :=
  (100 <= reply_status r <= 599)%Z /\ single_line (reply_reason r) /\ Forall wf_header (reply_headers r).

Lemma reply_parses r :
  wf_reply r ->
  exists n h, parse_head (write_simple r) false = Val (HeadOk h n) /\ status h = reply_status r /\
    str_drop n (write_simple r) = reply_body r.
Proof.
  intros (Hs & Hr & Hh).
  set (m := HttpResponse (reply_status r) (reply_reason r) (reply_headers r) (reply_body r) false).
  assert (wf_http m) as Hm by done. change (write_simple r) with (message_text m).
  exists (size (head_text (message_lines m))), (message_head m). rewrite message_text_lines.
  split; [by apply (parse_head_message m)|]. split; [done|]. apply str_drop_app_size.
Qed.
