(* ===== verification/Listener.v ===== *)
(** * The HTTP listener's descriptors and threads

    [start], [stop], [accept_loop] and the end of [handle_connection] of
    src/transport/http/http_endpoint.cpp, as the steps of the accepting thread,
    of the connections' threads and of the thread that stops the listener.
    What a connection does in between is in HttpEndpoint.v. *)

From S2P Require Import Prelude.

(** ** State *)

(** The accepting thread: in its loop, with a connection it has just accepted,
    or done.  The stopping thread: the parts of [stop] between which it waits
    for other threads. *)
Inductive accept_pc := NotStarted | Accepting | Accepted (fd : Z) | AcceptDone.
Inductive stop_pc := Serving | StopAccepting | StopConnections | Stopped.

Record Listener : Type := mkListener {
  ln_running : bool;
  ln_fd : Z;                     (** -1: none *)
  ln_port : Z;
  ln_accept : accept_pc;
  ln_stop : stop_pc;
  conn_fds : list Z;
  handlers : list Z;             (** the connections whose thread still runs *)
  conn_threads : nat;            (** thread objects not joined yet *)
  ln_accepted : list Z;          (** every descriptor accepted, and closed *)
  ln_closed : list Z;
}.

Definition new_listener : Listener := mkListener false (-1) 0 NotStarted Serving [] [] 0 [] [].

(** ** Steps *)

(** [start]: the listening socket (or the reason there is none), whether there
    is a wake event, and the port. *)
Definition listener_start (socket : Z + string) (wake_valid : bool) (port : Z) (l : Listener)
  : (bool * string) * Listener :=
  if ln_running l then ((true, EmptyString), l)
  else
    match socket with
    | inr error => ((false, error), l)
    | inl fd =>
        if wake_valid then
          ((true, EmptyString),
           mkListener true fd port Accepting Serving (conn_fds l) (handlers l) (conn_threads l) (ln_accepted l) (ln_closed l))
        else ((false, "failed to create wake event"), l)
    end.

Definition set_accept (p : accept_pc) (l : Listener) : Listener :=
  mkListener (ln_running l) (ln_fd l) (ln_port l) p (ln_stop l) (conn_fds l) (handlers l) (conn_threads l)
    (ln_accepted l) (ln_closed l).

(** A turn of [accept_loop] up to [tcp_accept]: [ready] is what the poll says,
    [fd] the connection, if there is one. *)
Definition accept_turn (ready : bool) (fd : option Z) (l : Listener) : Listener :=
  if ln_running l && ready then
    match fd with
    | None => l
    | Some fd =>
        mkListener true (ln_fd l) (ln_port l) (Accepted fd) (ln_stop l) (conn_fds l) (handlers l) (conn_threads l)
          (ln_accepted l ++ [fd]) (ln_closed l)
    end
  else set_accept AcceptDone l.

(** The critical section that follows. *)
Definition register_connection (fd : Z) (l : Listener) : Listener :=
  if ln_running l then
    mkListener true (ln_fd l) (ln_port l) Accepting (ln_stop l) (conn_fds l ++ [fd]) (handlers l ++ [fd])
      (S (conn_threads l)) (ln_accepted l) (ln_closed l)
  else
    mkListener false (ln_fd l) (ln_port l) AcceptDone (ln_stop l) (conn_fds l) (handlers l) (conn_threads l)
      (ln_accepted l) (ln_closed l ++ [fd]).

Definition remove_one (fd : Z) (l : list Z) : list Z := erase_first (Z.eqb fd) l.

(** The end of a connection's thread. *)
Definition connection_ends (fd : Z) (l : Listener) : Listener :=
  let found := existsb (Z.eqb fd) (conn_fds l) in
  mkListener (ln_running l) (ln_fd l) (ln_port l) (ln_accept l) (ln_stop l)
    (remove_one fd (conn_fds l)) (remove_one fd (handlers l)) (conn_threads l) (ln_accepted l)
    (if found then ln_closed l ++ [fd] else ln_closed l).

(** [stop], up to the join of the accepting thread. *)
Definition stop_begin (l : Listener) : Listener :=
  if ln_running l then
    mkListener false (ln_fd l) (ln_port l) (ln_accept l) StopAccepting (conn_fds l) (handlers l) (conn_threads l)
      (ln_accepted l) (ln_closed l)
  else l.

(** The connections' threads are taken out, to be joined. *)
Definition stop_swap (l : Listener) : Listener :=
  mkListener (ln_running l) (ln_fd l) (ln_port l) (ln_accept l) StopConnections (conn_fds l) (handlers l) 0
    (ln_accepted l) (ln_closed l).

Definition stop_end (l : Listener) : Listener :=
  mkListener (ln_running l) (-1) (ln_port l) (ln_accept l) Stopped [] (handlers l) (conn_threads l)
    (ln_accepted l) (ln_closed l ++ conn_fds l).

Inductive listener_op :=
| AcceptTurn (ready : bool) (fd : option Z) | Register | ConnectionEnds (fd : Z) | StopBegin | StopSwap | StopEnd.

(** [None]: the step is not that thread's next one, or it waits.  A new
    descriptor is not one that is open. *)
Definition listener_step (l : Listener) (o : listener_op) : option Listener :=
  match o, ln_accept l, ln_stop l with
  | AcceptTurn ready fd, Accepting, _ =>
      match fd with
      | Some fd => if existsb (Z.eqb fd) (conn_fds l) then None else Some (accept_turn ready (Some fd) l)
      | None => Some (accept_turn ready None l)
      end
  | Register, Accepted fd, _ => Some (register_connection fd l)
  | ConnectionEnds fd, _, _ => if existsb (Z.eqb fd) (handlers l) then Some (connection_ends fd l) else None
  | StopBegin, _, Serving => Some (stop_begin l)
  | StopSwap, AcceptDone, StopAccepting => Some (stop_swap l)
  | StopEnd, _, StopConnections => match handlers l with [] => Some (stop_end l) | _ => None end
  | _, _, _ => None
  end.

Fixpoint listener_run (l : Listener) (ops : list listener_op) : option Listener :=
  match ops with
  | [] => Some l
  | o :: ops => l ← listener_step l o; listener_run l ops
  end.

(** ** Every descriptor is closed once *)

Definition pending_fd (p : accept_pc) : list Z := match p with Accepted fd => [fd] | _ => [] end.

Record listener_ok (l : Listener) : Prop := mkListenerOk {
  lo_accounts : ln_accepted l ≡ₚ ln_closed l ++ conn_fds l ++ pending_fd (ln_accept l);
  lo_handlers : conn_fds l = handlers l;
  lo_nodup : NoDup (conn_fds l ++ pending_fd (ln_accept l));
  lo_accept : ln_accept l <> NotStarted;
  lo_running : ln_running l = true <-> ln_stop l = Serving;
  lo_stopping : ln_stop l = StopConnections \/ ln_stop l = Stopped -> ln_accept l = AcceptDone;
  lo_stopped : ln_stop l = Stopped -> conn_fds l = [];
}.

Lemma existsb_eqb fd l : existsb (Z.eqb fd) l = true <-> fd ∈ l.
Proof.
  rewrite existsb_exists. split.
  - intros (x & Hx & ->%Z.eqb_eq). by apply list_elem_of_In.
  - intros Hx. exists fd. split; [by apply list_elem_of_In|apply Z.eqb_refl].
Qed.

Lemma remove_one_perm fd l : fd ∈ l -> l ≡ₚ fd :: remove_one fd l.
Proof.
  unfold remove_one. induction l as [|x l IH]; [by intros ?%not_elem_of_nil|]. cbn [erase_first].
  destruct (Z.eqb_spec fd x) as [<-|Hn]; [done|]. intros [->|Hin]%elem_of_cons; [done|]. rewrite (IH Hin) at 1. constructor.
Qed.

Lemma connection_ends_ok fd l : listener_ok l -> fd ∈ handlers l -> listener_ok (connection_ends fd l).
Proof.
  intros [Ha Hh Hn Hs Hr Hst Hsd] Hin. assert (fd ∈ conn_fds l) as Hc by by rewrite Hh. pose proof (remove_one_perm fd _ Hc) as Hp.
  unfold connection_ends. rewrite (proj2 (existsb_eqb fd (conn_fds l)) Hc). split; cbn; try done.
  - rewrite Ha, Hp at 1. by rewrite <- !app_assoc.
  - by rewrite Hh.
  - rewrite Hp in Hn. cbn in Hn. by apply NoDup_cons in Hn as [_ Hn].
  - intros Hd%Hsd. by rewrite Hd in Hc; apply not_elem_of_nil in Hc.
Qed.

Lemma listener_step_ok l o l' : listener_ok l -> listener_step l o = Some l' -> listener_ok l'.
Proof.
  intros Hok Hs. destruct o as [ready fd| |fd| | |]; cbn [listener_step] in Hs.
  - destruct (ln_accept l) eqn:E; try done. destruct Hok as [Ha Hh Hn Hs' Hr Hst Hsd]. rewrite E in Ha, Hn, Hst.
    assert (listener_ok (set_accept AcceptDone l)) as Hdone by by split; cbn.
    assert (forall o, fd = o -> Some l' = Some (accept_turn ready o l) ->
              match o with Some x => x ∉ conn_fds l | None => True end -> listener_ok l') as Hturn; [|].
    { intros o -> [= ->] Hnot. unfold accept_turn. destruct (ln_running l && ready) eqn:Er; [|exact Hdone].
      destruct o as [x|]; [|by split; rewrite ?E].
      apply andb_true_iff in Er as [Er _]. split; cbn; try done.
      - rewrite Ha. cbn. by rewrite app_nil_r, <- !app_assoc.
      - apply NoDup_app. rewrite app_nil_r in Hn. split; [done|]. split; [|apply NoDup_singleton].
        intros y Hy ->%list_elem_of_singleton. done.
      - by rewrite <- Hr.
      - intros Hd. apply Hst in Hd. done. }
    destruct fd as [fd|]; [|by eapply Hturn].
    destruct (existsb (Z.eqb fd) (conn_fds l)) eqn:Ex; [done|]. eapply Hturn; [done|by symmetry|].
    intros Hin%existsb_eqb. congruence.
  - destruct (ln_accept l) as [| |fd|] eqn:E; try done. injection Hs as <-.
    destruct Hok as [Ha Hh Hn Hs' Hr Hst Hsd]. rewrite E in Ha, Hn, Hst. cbn in Ha, Hn.
    unfold register_connection. destruct (ln_running l) eqn:Er; split; cbn; try done.
    + by rewrite app_nil_r.
    + by rewrite Hh.
    + by rewrite app_nil_r.
    + intros Hd. apply Hst in Hd. done.
    + intros Hd. assert (ln_stop l = StopConnections \/ ln_stop l = Stopped) as Hd' by by right. by apply Hst in Hd'.
    + rewrite Ha, app_nil_r, <- app_assoc. by rewrite (Permutation_app_comm [fd]).
    + rewrite app_nil_r. by apply NoDup_app in Hn as [Hn _].
  - destruct (existsb (Z.eqb fd) (handlers l)) eqn:Ex; [|by destruct (ln_accept l), (ln_stop l)].
    assert (Some (connection_ends fd l) = Some l') as [= <-] by by destruct (ln_accept l), (ln_stop l).
    apply connection_ends_ok; [done|]. by apply existsb_eqb.
  - destruct (ln_stop l) eqn:E; try (by destruct (ln_accept l)).
    assert (Some (stop_begin l) = Some l') as [= <-] by by destruct (ln_accept l).
    destruct Hok as [Ha Hh Hn Hs' Hr Hst Hsd]. unfold stop_begin. destruct (ln_running l) eqn:Er; split; cbn; try done.
    + by intros [].
    + by rewrite Er.
  - destruct (ln_accept l) eqn:Eacc; try done. destruct (ln_stop l) eqn:E; try done. injection Hs as <-.
    destruct Hok as [Ha Hh Hn Hs' Hr Hst Hsd]. rewrite Eacc in *. split; cbn; rewrite ?Eacc; try done.
    rewrite Hr, E. done.
  - destruct (ln_stop l) eqn:E; try (by destruct (ln_accept l)).
    destruct (handlers l) eqn:Eh; [|by destruct (ln_accept l)].
    assert (Some (stop_end l) = Some l') as [= <-] by by destruct (ln_accept l).
    destruct Hok as [Ha Hh Hn Hs' Hr Hst Hsd]. rewrite E in *.
    pose proof (Hst (or_introl eq_refl)) as Eacc. rewrite Eacc in *. rewrite Eh in Hh. rewrite Hh in *.
    split; cbn; rewrite ?Eh, ?Hh, ?Eacc; try done.
    + by rewrite !app_nil_r in *.
    + by rewrite Hr.
Qed.

(** A listener that has just been started. *)
Definition started (socket port : Z) : Listener := (listener_start (inl socket) true port new_listener).2.

Lemma started_ok socket port : listener_ok (started socket port).
Proof. split; cbn; try done; [constructor|by intros [|]]. Qed.

Lemma listener_run_ok ops l l' : listener_ok l -> listener_run l ops = Some l' -> listener_ok l'.
Proof.
  revert l. induction ops as [|o ops IH]; intros l Hl; cbn; [by intros [= <-]|].
  destruct (listener_step l o) as [l1|] eqn:E; [|done]. apply IH. by eapply listener_step_ok.
Qed.

(** C23: whatever the interleaving of accepting, of connections ending and of
    stopping, a descriptor that was accepted is either closed, or in the table
    with its thread running, or about to be put there, and in one of these
    places only; when [stop] has returned, every descriptor that was ever
    accepted has been closed exactly once and no connection's thread runs. *)
Theorem listener_descriptors socket port ops l :
  listener_run (started socket port) ops = Some l ->
  ln_accepted l ≡ₚ ln_closed l ++ conn_fds l ++ pending_fd (ln_accept l) /\
  NoDup (conn_fds l ++ pending_fd (ln_accept l)) /\ conn_fds l = handlers l /\
  (ln_stop l = Stopped -> ln_accepted l ≡ₚ ln_closed l /\ handlers l = [] /\ ln_accept l = AcceptDone).
Proof.
  intros Hr. destruct (listener_run_ok ops _ _ (started_ok socket port) Hr) as [Ha Hh Hn _ _ Hst Hsd].
  split; [done|]. split; [done|]. split; [done|]. intros Hs. rewrite (Hsd Hs), (Hst (or_intror Hs)) in Ha.
  rewrite <- Hh, (Hsd Hs). split; [|by split; [|apply Hst; right]]. cbn in Ha. by rewrite app_nil_r in Ha.
Qed.

(** Two connections; the second is accepted while the listener is stopped. *)
Definition sample_listener_ops : list listener_op :=
  [AcceptTurn true (Some 7%Z); Register; AcceptTurn true (Some 8%Z); StopBegin; Register; StopSwap; ConnectionEnds 7; StopEnd].

Lemma listener_descriptors_witness :
  let l := default new_listener (listener_run (started 3 3001) sample_listener_ops) in
  ln_accepted l ≡ₚ ln_closed l ++ conn_fds l ++ pending_fd (ln_accept l) /\
  NoDup (conn_fds l ++ pending_fd (ln_accept l)) /\ conn_fds l = handlers l /\
  (ln_stop l = Stopped -> ln_accepted l ≡ₚ ln_closed l /\ handlers l = [] /\ ln_accept l = AcceptDone).
Proof. apply (listener_descriptors 3 3001 sample_listener_ops). reflexivity. Defined.

(** The thread objects of connections that have ended are kept until the
    listener is stopped. *)
Lemma threads_pile_up :
  let l := default new_listener (listener_run (started 3 3001)
             [AcceptTurn true (Some 7%Z); Register; ConnectionEnds 7; AcceptTurn true (Some 7%Z); Register; ConnectionEnds 7]) in
  conn_fds l = [] /\ handlers l = [] /\ conn_threads l = 2.
Proof. by split_and!. Qed.
