(* ===== verification/PostCapture.v ===== *)
(** * Answering a POST

    [PostCapture] of src/transport/http/sse_channel.cpp, and the part both HTTP
    servers share (the end of [handle_request] in
    src/transport/http_server_transport.cpp and
    src/transport/http_session_server.cpp): the messages of a POST are delivered
    on the connection's thread, and the responses that are sent meanwhile on
    that thread become the body of the answer. *)

From S2P Require Import Prelude Json Core Types Message State Chunked Http Sse HttpEndpoint.

(** ** The table of captures *)

(** [capture_table], by thread, and the running thread. *)
Record Captures : Type := mkCaptures { cap_table : gmap nat (list json); cap_self : nat }.

Definition captured (c : Captures) : option (list json) := cap_table c !! cap_self c.

Definition set_captured (l : option (list json)) (c : Captures) : Captures :=
  mkCaptures (partial_alter (fun _ => l) (cap_self c) (cap_table c)) (cap_self c).

(** The constructor and the destructor. *)
Definition capture_begin (c : Captures) : Captures := set_captured (Some []) c.
Definition capture_end (c : Captures) : Captures := set_captured None c.

Definition try_capture (m : Message) (c : Captures) : bool * Captures :=
  match m with
  | MResponse _ =>
      match captured c with
      | Some l => (true, set_captured (Some (l ++ [message_to_json m])) c)
      | None => (false, c)
      end
  | _ => (false, c)
  end.

Definition error_response (e : Error) : Message := MResponse (mkResponse None None (Some e)).

Definition add_error_response (e : Error) (c : Captures) : Captures :=
  match captured c with
  | Some l => set_captured (Some (l ++ [message_to_json (error_response e)])) c
  | None => c
  end.

Definition capture_empty (c : Captures) : bool :=
  match captured c with Some (_ :: _) => false | _ => true end.

(** [body]: [at] throws without a capture; [front] of nothing is undefined. *)
Definition capture_body `{JsonText} (as_batch : bool) (c : Captures) : outcome string :=
  match captured c with
  | None => Throw (ExnStd "map::at")
  | Some responses =>
      if as_batch then json_dump (JArray responses)
      else match responses with r :: _ => json_dump r | [] => Undefined end
  end.

Lemma captured_set l c : captured (set_captured l c) = l.
Proof. unfold captured, set_captured. cbn. apply lookup_partial_alter_eq. Qed.

(** ** Who the messages are delivered to *)

Class Host (W : Type) := {
  captures_of : W -> Captures;
  set_captures : Captures -> W -> W;
  deliver : Message -> st W unit;
}.

(** Delivering a request ends in capturing one response to it; delivering
    anything else captures nothing. *)
Class HostLaws (W : Type) `{Host W} : Prop := {
  captures_of_set c w : captures_of (set_captures c w) = c;
  deliver_request r w w' l :
    captured (captures_of w) = Some l -> deliver (MRequest r) w = (w', Val tt) ->
    exists response, rsp_id response = Some (req_id r) /\
      captured (captures_of w') = Some (l ++ [message_to_json (MResponse response)]);
  deliver_other m w w' l :
    (forall r, m <> MRequest r) ->
    captured (captures_of w) = Some l -> deliver m w = (w', Val tt) -> captured (captures_of w') = Some l;
}.

Section post.
Context {W : Type} {HW : Host W} {JT : JsonText}.

Definition on_captures (f : Captures -> Captures) : st W unit := modify (fun w => set_captures (f (captures_of w)) w).

(** Destructors run on every way out of the block. *)
Definition finally {A} (m : st W A) (cleanup : W -> W) : st W A :=
  fun w => let '(w', r) := m w in (cleanup w', r).

Definition accepted (extra : HeaderList) : Reply := mkReply 202 "Accepted" EmptyString "text/plain" extra.
Definition answered (body : string) (extra : HeaderList) : Reply := mkReply 200 "OK" body "application/json" extra.

Definition dispatch_frame (frame : ParsedFrame) (extra : HeaderList) : st W Reply :=
  _ ← for_each (fun e => on_captures (add_error_response e)) (pf_item_errors frame);
  _ ← for_each deliver (pf_messages frame);
  nothing ← gets (fun w => capture_empty (captures_of w));
  if (nothing : bool) then mret (accepted extra)
  else
    c ← gets captures_of;
    body ← lift (capture_body (pf_was_batch frame) c);
    mret (answered body extra).

Definition answer_post (frame : ParsedFrame) (extra : HeaderList) : st W Reply :=
  finally (_ ← on_captures capture_begin; dispatch_frame frame extra)
    (fun w => set_captures (capture_end (captures_of w)) w).

(** The reply to a POST of one message, by what was captured meanwhile. *)
Definition reply_for (c : Captures) (extra : HeaderList) (reply : Reply) : Prop :=
  captured c = Some [] /\ reply = accepted extra \/
  exists response text, captured c = Some [message_to_json (MResponse response)] /\
    serialize_message (MResponse response) = Val text /\ reply = answered text extra.

Lemma answer_post_single m extra reply w w' :
  deliver m (set_captures (capture_begin (captures_of w)) w) = (w', Val tt) -> reply_for (captures_of w') extra reply ->
  answer_post (mkFrame [m] [] false) extra w = (set_captures (capture_end (captures_of w')) w', Val reply).
Proof.
  intros Hd Hc. unfold answer_post, finally. set (w0 := set_captures (capture_begin (captures_of w)) w).
  rewrite (st_bind_val _ _ _ w0 tt) by done. unfold dispatch_frame. cbn [pf_item_errors pf_messages pf_was_batch].
  rewrite (st_bind_val _ _ _ w0 tt) by done.
  assert (for_each deliver [m] w0 = (w', Val tt)) as Hm by by cbn [for_each]; rewrite (st_bind_val _ _ _ _ _ Hd).
  rewrite (st_bind_val _ _ _ _ _ Hm). unfold gets, lift. run. unfold capture_empty, capture_body.
  destruct Hc as [[Hc ->]|(response & text & Hc & Ht & ->)]; rewrite !Hc; [done|].
  unfold serialize_message in Ht. by rewrite Ht.
Qed.

(** ** One response for every request *)

Context {HL : HostLaws W}.

Definition response_json (r : JsonRpcResponse) : json := message_to_json (MResponse r).

Definition requests_of (ms : list Message) : list JsonRpcRequest :=
  omap (fun m => match m with MRequest r => Some r | _ => None end) ms.

Lemma capture_errors es w l :
  captured (captures_of w) = Some l ->
  exists w', for_each (fun e => on_captures (add_error_response e)) es w = (w', Val tt) /\
    captured (captures_of w') = Some (l ++ (response_json <$> ((fun e => mkResponse None None (Some e)) <$> es))).
Proof.
  revert w l. induction es as [|e es IH]; intros w l Hl.
  { exists w. split; [done|]. by rewrite app_nil_r. }
  cbn [for_each]. set (w1 := set_captures (add_error_response e (captures_of w)) w).
  rewrite (st_bind_val _ _ _ w1 tt) by done.
  destruct (IH w1 (l ++ [response_json (mkResponse None None (Some e))])) as (w' & Hw' & Hc).
  { unfold w1. rewrite captures_of_set. unfold add_error_response. rewrite Hl. by rewrite captured_set. }
  exists w'. split; [done|]. rewrite Hc, !fmap_cons. by rewrite <- app_assoc.
Qed.

Lemma capture_messages ms w w' l :
  captured (captures_of w) = Some l -> for_each deliver ms w = (w', Val tt) ->
  exists rs, rsp_id <$> rs = (fun r => Some (req_id r)) <$> requests_of ms /\
    captured (captures_of w') = Some (l ++ (response_json <$> rs)).
Proof.
  revert w l. induction ms as [|m ms IH]; intros w l Hl Hr.
  { injection Hr as <-. exists []. split; [done|]. by rewrite app_nil_r. }
  cbn [for_each] in Hr. apply st_bind_inv in Hr as [(w1 & [] & H1 & H2)|[(? & _ & ?)|[_ ?]]]; [|done|done].
  destruct (match m with MRequest r => Some r | _ => None end) as [r|] eqn:Em.
  - destruct m as [r'| |]; [|done|done]. injection Em as ->.
    destruct (deliver_request r w w1 l Hl H1) as (response & Hid & Hc).
    destruct (IH _ _ Hc H2) as (rs & Hids & Hc'). exists (response :: rs). rewrite fmap_cons, Hid, Hids.
    split; [done|]. rewrite Hc', fmap_cons, <- app_assoc. done.
  - assert (captured (captures_of w1) = Some l) as Hc.
    { eapply deliver_other; [|exact Hl|exact H1]. by intros r ->. }
    destruct (IH _ _ Hc H2) as (rs & Hids & Hc'). exists rs. split; [|done]. rewrite Hids.
    unfold requests_of. cbn [omap list_omap]. by rewrite Em.
Qed.

(** The ids a POST has to answer: a null id for each invalid element, then the
    ids of the requests, in order. *)
Definition ids_to_answer (frame : ParsedFrame) : list (option RequestId) :=
  ((fun _ => None) <$> pf_item_errors frame) ++ ((fun r => Some (req_id r)) <$> requests_of (pf_messages frame)).

Definition body_json (as_batch : bool) (rs : list JsonRpcResponse) : json :=
  if as_batch then JArray (response_json <$> rs) else match rs with r :: _ => response_json r | [] => JNull end.

(** A POST that comes to an end is answered by exactly one HTTP response: 202
    without a body when the frame has nothing to answer, otherwise 200 with the
    JSON-RPC responses, one for each invalid element and one for each request,
    in order. *)
Lemma answer_post_spec frame extra w w' reply :
  answer_post frame extra w = (w', Val reply) ->
  exists rs, rsp_id <$> rs = ids_to_answer frame /\
    (if decide (rs = []) then reply = accepted extra
     else exists body, json_dump (body_json (pf_was_batch frame) rs) = Val body /\ reply = answered body extra) /\
    captured (captures_of w') = None.
Proof.
  unfold answer_post, finally. set (w0 := set_captures (capture_begin (captures_of w)) w).
  rewrite (st_bind_val _ _ _ w0 tt) by done.
  assert (captured (captures_of w0) = Some []) as H0 by (unfold w0; rewrite captures_of_set; apply captured_set).
  unfold dispatch_frame. destruct (capture_errors (pf_item_errors frame) w0 [] H0) as (w1 & H1 & Hc1).
  rewrite (st_bind_val _ _ _ _ _ H1).
  destruct (for_each deliver (pf_messages frame) w1) as [w2 [[]|x|]] eqn:H2.
  2-3: unfold mbind, st_bind; by rewrite H2.
  rewrite (st_bind_val _ _ _ _ _ H2). destruct (capture_messages _ _ _ _ Hc1 H2) as (rs & Hids & Hc2).
  set (all := ((fun e => mkResponse None None (Some e)) <$> pf_item_errors frame) ++ rs) in *.
  assert (captured (captures_of w2) = Some (response_json <$> all)) as Hc by (unfold all; rewrite fmap_app; exact Hc2).
  intros E. exists all. split.
  { unfold all, ids_to_answer. rewrite fmap_app, Hids, <- list_fmap_compose. done. }
  run_in E. unfold capture_empty, capture_body in E. rewrite Hc in E.
  destruct all as [|r0 all']; cbn [fmap list_fmap] in E.
  - injection E as <- <-. rewrite decide_True by done. split; [done|]. rewrite captures_of_set. apply captured_set.
  - rewrite decide_False by done. unfold body_json.
    destruct (pf_was_batch frame); rewrite ?Hc, ?fmap_cons in E; cbn [fmap list_fmap] in E; cbn [fmap list_fmap].
    + destruct (json_dump (JArray _)) as [body|x|]; [|done|done]. injection E as <- <-.
      split; [by exists body|]. rewrite captures_of_set. apply captured_set.
    + destruct (json_dump (response_json r0)) as [body|x|]; [|done|done]. injection E as <- <-.
      split; [by exists body|]. rewrite captures_of_set. apply captured_set.
Qed.
End post.

(** ** The answer is read back by the client *)

Section body.
Context {JT : JsonText}.

Lemma parse_items_batch l f f' : parse_items l f = Val f' -> pf_was_batch f' = pf_was_batch f.
Proof.
  revert f. induction l as [|j l IH]; intros f; cbn [parse_items]; [by intros [= <-]|].
  destruct (parse_message j) as [[m|e]|x|]; cbn [mbind outcome_bind]; [| |done|done]; intros H; by apply IH in H.
Qed.

Lemma parse_frame_single text f :
  parse_frame text = Val (Ok f) -> pf_was_batch f = false -> pf_item_errors f = [] /\ exists m, pf_messages f = [m].
Proof.
  unfold parse_frame. destruct (json_parse text) as [j|]; [|done]. unfold parse_json_frame.
  assert (forall j', (m ←? parse_message j'; Val (Ok (mkFrame [m] [] false))) = Val (Ok f) ->
            pf_item_errors f = [] /\ exists m, pf_messages f = [m]) as Hone.
  { intros j' (m & _ & [= <-])%try_bind_Ok. split; [done|]. by exists m. }
  destruct j as [| | | | | |l|]; try (intros H _; by eapply Hone).
  destruct l as [|j l]; [done|].
  destruct (parse_items (j :: l) (mkFrame [] [] true)) as [f'| |] eqn:E; cbn [mbind outcome_bind]; [|done|done].
  intros [= <-] Hb. apply parse_items_batch in E. cbn in E. congruence.
Qed.

Context {JL : JsonTextLaws}.

Lemma body_parses as_batch rs body :
  rs <> [] -> (as_batch = false -> length rs = 1) -> Forall good_message (MResponse <$> rs) ->
  json_dump (body_json as_batch rs) = Val body ->
  body <> EmptyString /\ parse_frame body = Val (Ok (mkFrame (normalize_message <$> (MResponse <$> rs)) [] as_batch)).
Proof.
  intros Hne Hlen Hg Hd. unfold body_json in Hd. destruct as_batch.
  - assert (Forall wf_message (MResponse <$> rs)) as Hw by (eapply Forall_impl; [exact Hg|by intros m []]).
    assert (dumpable (JArray (message_to_json <$> (MResponse <$> rs))) = true) as Hdump.
    { apply Is_true_true. cbn [dumpable]. apply forallb_True, Forall_fmap. eapply Forall_impl; [exact Hg|].
      intros m [_ H]. by apply Is_true_true. }
    destruct (serialize_batch_frame (MResponse <$> rs)) as (s & Hs & Hn & Hp); [by destruct rs|done|done|].
    unfold serialize_batch in Hs. rewrite <- list_fmap_compose in Hs.
    assert (json_dump (JArray (response_json <$> rs)) = Val s) as Hs' by exact Hs.
    rewrite Hs' in Hd. injection Hd as <-. by split.
  - destruct rs as [|r [|]]; [done| |by specialize (Hlen eq_refl)].
    apply Forall_cons_1 in Hg as [[Hw Hdu] _].
    destruct (serialize_message_line (MResponse r) Hw Hdu) as (s & Hs & _ & Hn & _ & Hp).
    unfold serialize_message in Hs. unfold response_json in Hd. rewrite Hs in Hd. injection Hd as <-. by split.
Qed.
End body.
