(* ===== verification/HttpServer.v ===== *)
(** * The sessionless HTTP server transport

    src/transport/http_server_transport.cpp as the transport of a session, and
    what happens to one HTTP request on the way to the session and back. *)

From S2P Require Import Prelude Json Core Types Message Protocol State Router Session.
From S2P Require Import Lines Decimal Chunked Http Sse SseChannel HttpEndpoint PostCapture.

(** ** What handling a message leaves alone

    [P] is a property of the transport that the application's closures keep. *)
Section frame.
Context {T U V K : Type} {TR : Transport T} {AP : Application T U V K}.
#[local] Abbreviation Sess := (Session T U V K).
Context (P : T -> Prop).

Class Quiet : Prop := {
  quiet_request u p : keeps (fun s : Sess => P (transport s)) (app_request u p);
  quiet_notification v p : keeps (fun s : Sess => P (transport s)) (app_notification v p);
  quiet_response k r : keeps (fun s : Sess => P (transport s)) (app_response k r);
  quiet_progress k n : keeps (fun s : Sess => P (transport s)) (app_progress k n);
}.

Context {HQ : Quiet}.
#[local] Abbreviation I := (fun s : Sess => P (transport s)).

#[local] Hint Extern 1 (keeps _ (modify _)) => by apply keeps_modify : keeps.
#[local] Hint Resolve quiet_request quiet_notification quiet_response quiet_progress : keeps.

Lemma keeps_call_callback c r : keeps I (call_callback c r).
Proof.
  unfold call_callback, emit. destruct c; auto with keeps.
Qed.

Lemma keeps_take (id : RequestId) (now : Z) : keeps I (on_router (O := owner now) (take_pending id)).
Proof. intros s Hs. unfold on_router. by destruct (take_pending id _). Qed.

Lemma quiet_handle_initialize o p : keeps I (handle_initialize o p).
Proof. unfold handle_initialize. by auto 20 with keeps. Qed.

Lemma quiet_run_request h p : keeps I (run_request h p).
Proof.
  destruct h as [| |u]; [apply keeps_ret| |apply quiet_request].
  apply keeps_bind; [apply keeps_gets|]. intros [|o|o]; auto using keeps_lift, quiet_handle_initialize.
Qed.

Lemma quiet_run_notification now h p : keeps I (run_notification now h p).
Proof.
  destruct h as [| | |v]; cbn [run_notification]; [| | |apply quiet_notification];
    unfold handle_progress, handle_cancelled, handle_initialized, emit; by auto 20 with keeps.
Qed.

Lemma keeps_handle_other now m : (forall r, m <> MRequest r) -> keeps I (handle_message now m).
Proof.
  intros Hm. destruct m as [r|n|r]; [by destruct (Hm r)| |]; unfold handle_message.
  - apply keeps_bind; [|intros _; apply keeps_skip]. unfold dispatch. apply keeps_bind; [apply keeps_gets|].
    intros h. apply keeps_bind; [|intros _; apply keeps_ret]. destruct h; [apply quiet_run_notification|apply keeps_skip].
  - apply keeps_bind; [destruct (rsp_id r); [by apply keeps_modify|apply keeps_skip]|]. intros _.
    apply keeps_bind; [|intros _; apply keeps_skip]. unfold dispatch. destruct (rsp_id r) as [id|]; [|apply keeps_ret].
    apply keeps_bind; [apply keeps_take|]. intros c. apply keeps_bind; [|intros _; apply keeps_ret].
    destruct c as [c|]; [|apply keeps_skip]. destruct (rsp_error r); apply keeps_call_callback.
Qed.

(** Handling a request that comes to an end ends in sending its response. *)
Lemma handle_request_sends now request s s' :
  I s -> handle_message now (MRequest request) s = (s', Val tt) ->
  exists s1 response, I s1 /\ rsp_id response = Some (req_id request) /\
    send_message (MResponse response) s1 = (s', Val tt).
Proof.
  intros Hs. unfold handle_message.
  set (s0 := if String.eqb (req_method request) kInitialize
             then set_cancellations (mkCancellations (cancelled_incoming (cancellations s))
                                       (Some (req_id request))) s else s).
  assert (I s0) as Hs0 by (unfold s0; by destruct (String.eqb _ _)).
  rewrite (st_bind_val _ _ _ s0 tt) by (unfold s0; by destruct (String.eqb (req_method request) kInitialize)).
  rewrite (st_bind_val _ _ _ s0 (check_incoming_request (kind s0) (state s0) (req_method request))) by done.
  destruct (check_incoming_request _ _ _) as [e|].
  - intros H. by exists s0, (response_of (req_id request) (Err e)).
  - unfold dispatch. cbn [call_request owner router Router.router]. intros H.
    apply st_bind_inv in H as [(s1 & r & H1 & H2)|[(? & _ & ?)|[_ ?]]]; [|done|done].
    apply st_bind_inv in H1 as [(s2 & h & Hh & H3)|[(? & _ & ?)|[_ ?]]]; [|done|done].
    injection Hh as <- <-. destruct (find_request_handler _ _) as [h|].
    + apply st_bind_inv in H3 as [(s3 & x & H3 & H4)|[(? & _ & ?)|[_ ?]]]; [|done|done].
      injection H4 as <- <-. exists s3, (response_of (req_id request) x). split; [|split; [by destruct x|done]].
      assert (keeps I (catch (run_request h (req_params request)) (fun x => mret (Err (error_of x))))) as Hk.
      { apply keeps_catch; [apply quiet_run_request|intros; apply keeps_ret]. }
      specialize (Hk _ Hs0). cbn [call_request owner] in H3. by rewrite H3 in Hk.
    + injection H3 as <- <-. by exists s0, (response_of (req_id request) (Err (error MethodNotFound ("Method not found: " +:+ req_method request)))).
Qed.
End frame.

(** ** The transport *)

Record HttpTransport : Type := mkHttpTransport {
  ht_options : HttpServerOptions;
  ht_endpoint : bool;                (** [endpoint_] is set; it stays set *)
  ht_channel : option SseChannel;
  ht_captures : Captures;            (** [capture_table()], process-wide *)
  ht_close_emitted : bool;
}.

Definition make_http_transport (o : HttpServerOptions) : HttpTransport :=
  mkHttpTransport o false None (mkCaptures ∅ 0) false.

Definition with_channel (c : option SseChannel) (t : HttpTransport) : HttpTransport :=
  mkHttpTransport (ht_options t) (ht_endpoint t) c (ht_captures t) (ht_close_emitted t).
Definition with_captures (c : Captures) (t : HttpTransport) : HttpTransport :=
  mkHttpTransport (ht_options t) (ht_endpoint t) (ht_channel t) c (ht_close_emitted t).

Section transport.
Context {JT : JsonText}.

(** [connect] when the listener starts; otherwise nothing is kept. *)
Definition http_connect (started : bool) (t : HttpTransport) : HttpTransport :=
  if ht_endpoint t then t
  else if started then
    mkHttpTransport (ht_options t) true
      (Some (new_channel (hso_replay_buffer_size (ht_options t)) (sse_retry_ms (ht_options t))))
      (ht_captures t) (ht_close_emitted t)
  else t.

(** [disconnect]: tells whether the close handler is to be called. *)
Definition http_disconnect (t : HttpTransport) : bool * HttpTransport :=
  if ht_endpoint t then
    (negb (ht_close_emitted t),
     mkHttpTransport (ht_options t) true (shutdown <$> ht_channel t) (ht_captures t) true)
  else (false, t).

Definition http_send (m : Message) : st HttpTransport unit := fun t =>
  let '(taken, c) := try_capture m (ht_captures t) in
  if taken then (with_captures c t, Val tt)
  else match ht_channel t with
       | None => (t, Val tt)
       | Some ch =>
           match serialize_message m with
           | Val text => (with_channel (Some (enqueue text ch)) t, Val tt)
           | Throw x => (t, Throw x)
           | Undefined => (t, Undefined)
           end
       end.

#[export] Instance http_transport : Transport HttpTransport := {|
  t_connect := modify (http_connect true);
  t_disconnect := modify (fun t => (http_disconnect t).2);
  t_send := http_send;
  t_send_batch := for_each http_send;
|}.
End transport.

(** The transport of a session that has this one in it, possibly among other
    state of the program. *)
Class HttpIn (T : Type) `{!Transport T} := {
  http_part : T -> HttpTransport;
  with_http : HttpTransport -> T -> T;
}.

Class HttpInLaws (T : Type) `{!Transport T} `{!HttpIn T} {JT : JsonText} : Prop := {
  http_part_with h t : http_part (with_http h t) = h;
  http_in_send m t : t_send m t = let '(h, r) := http_send m (http_part t) in (with_http h t, r);
}.

#[export] Instance http_in_self {JT : JsonText} : HttpIn HttpTransport := {| http_part t := t; with_http h _ := h |}.

#[export] Instance http_in_self_laws {JT : JsonText} : HttpInLaws HttpTransport.
Proof. split; [done|]. intros m t. cbn. by destruct (http_send m t). Qed.

(** ** One request *)

(** What a connection is left with: an answer, or a stream on the channel
    (generation, cursor and last id; [None] when it has been shut down). *)
Inductive http_answer := Plain (r : Reply) | Streaming (a : option (Z * Z * Z)).

Section requests.
Context {JT : JsonText} {T U V K : Type} {TR : Transport T} {HI : HttpIn T} {AP : Application T U V K}.
#[local] Abbreviation Sess := (Session T U V K).

Definition http_of_session (s : Sess) : HttpTransport := http_part (transport s).
Definition put_http_session (h : HttpTransport) (s : Sess) : Sess := set_transport (with_http h (transport s)) s.

Definition session_captures (s : Sess) : Captures := ht_captures (http_of_session s).
Definition set_session_captures (c : Captures) (s : Sess) : Sess :=
  put_http_session (with_captures c (http_of_session s)) s.

(** The session installed [handle_message] as the message handler. *)
#[export] Instance http_host (now : Z) : Host Sess := {|
  captures_of := session_captures;
  set_captures := set_session_captures;
  deliver := handle_message now;
|}.

Definition attach_channel (last_event_id : string) : st Sess http_answer := fun s =>
  match ht_channel (http_of_session s) with
  | None => (s, Undefined)
  | Some ch =>
      let '(a, ch') := attach last_event_id ch in
      (put_http_session (with_channel (Some ch') (http_of_session s)) s, Val (Streaming a))
  end.

Definition bad_frame (text : string) : Reply := mkReply 400 "Bad Request" text "application/json" [].

Definition handle_request (now : Z) (head : HttpHead) (body : string) : st Sess http_answer :=
  if String.eqb (method head) "GET" then
    if negb (header_contains head "accept" "text/event-stream")
    then mret (Plain (plain 406 "Not Acceptable" "expected text/event-stream"))
    else attach_channel (header head "last-event-id")
  else if negb (String.eqb (method head) "POST")
  then mret (Plain (plain 405 "Method Not Allowed" "use POST or GET"))
  else
    frame ← lift (parse_frame body);
    match frame with
    | Err e =>
        text ← lift (serialize_message (error_response e));
        _ ← on_transport_error e;
        mret (Plain (bad_frame text))
    | Ok frame =>
        reply ← answer_post (HW := http_host now) frame [];
        mret (Plain reply)
    end.
End requests.

(** ** Every request of a POST is answered on the POST *)

Section answers.
Context {JT : JsonText} {T U V K : Type} {TR : Transport T} {HI : HttpIn T} {HIL : HttpInLaws T}.
Context {AP : Application T U V K}.
#[local] Abbreviation Sess := (Session T U V K).

(** A capture in progress holds [l]. *)
Definition capturing (l : list json) (t : T) : Prop := captured (ht_captures (http_part t)) = Some l.

(** The application's closures send no responses of their own. *)
Class SendsNoResponses : Prop := sends_no_responses l : Quiet (T := T) (U := U) (V := V) (K := K) (capturing l).

Context {HS : SendsNoResponses}.

#[export] Instance http_host_laws now : HostLaws Sess (H := http_host now).
Proof.
  split.
  - intros c s. unfold captures_of, set_captures, http_host, session_captures, set_session_captures, put_http_session, http_of_session.
    cbn [transport set_transport]. by rewrite http_part_with.
  - intros r s s' l Hl Hd. pose proof (sends_no_responses l) as HQ.
    destruct (handle_request_sends (capturing l) now r s s' Hl Hd) as (s1 & response & H1 & Hid & Hs).
    exists response. split; [done|]. unfold send_message, emit, on_transport in Hs. run_in Hs.
    change (transport (log (Sent (MResponse response)) s1)) with (transport s1) in Hs.
    rewrite http_in_send in Hs. unfold http_send, try_capture in Hs.
    unfold capturing in H1. rewrite H1 in Hs. injection Hs as <-.
    cbn [captures_of http_host]. unfold session_captures, http_of_session. cbn [transport set_transport].
    rewrite http_part_with. apply captured_set.
  - intros m s s' l Hm Hl Hd. pose proof (sends_no_responses l) as HQ.
    pose proof (keeps_handle_other (capturing l) now m Hm s Hl) as Hk. cbn [deliver http_host] in Hd. by rewrite Hd in Hk.
Qed.

(** ** From bytes to bytes *)

Context {JL : JsonTextLaws}.

Lemma handle_post now head body frame (s s' : Sess) answer :
  method head = "POST" -> parse_frame body = Val (Ok frame) ->
  handle_request now head body s = (s', Val answer) ->
  exists reply, answer = Plain reply /\ answer_post (HW := http_host now) frame [] s = (s', Val reply).
Proof.
  intros Hm Hf. unfold handle_request. rewrite Hm. cbn [String.eqb Ascii.eqb Bool.eqb negb].
  unfold lift at 1. rewrite Hf. intros H.
  apply st_bind_inv in H as [(s1 & f & H1 & H2)|[(? & _ & ?)|[_ ?]]]; [|done|done].
  injection H1 as <- <-.
  apply st_bind_inv in H2 as [(s1 & r & H1 & H2)|[(? & _ & ?)|[_ ?]]]; [|done|done].
  injection H2 as <- <-. by exists r.
Qed.

(** A header of the answers that can be written and read back. *)
Lemma accepted_wf : wf_reply (accepted []).
Proof. split; [done|]. split; [done|]. repeat constructor. Qed.

Lemma answered_wf body : wf_reply (answered body []).
Proof. split; [done|]. split; [done|]. repeat constructor. Qed.

(** A POST to the endpoint, from the bytes read to the bytes written: a
    request written by [serialize_request] that passes the checks reaches the
    handler whole, however it is cut into reads; when the handling of its
    JSON-RPC frame comes to an end, every request in it and every invalid
    element has been answered exactly once, in order, in the one HTTP answer:
    202 without a body if there is nothing to answer, else 200 with a body the
    client parses back to those responses. *)
Theorem http_exchange now o target hs body chunks reads frame (s s' : Sess) answer :
  let m := HttpRequest "POST" target hs body in
  wf_http m -> passes o (message_head m) -> declares_length m ->
  foldr String.append EmptyString chunks = message_text m ->
  parse_frame body = Val (Ok frame) ->
  handle_request now (message_head m) body s = (s', Val answer) ->
  handle_connection o ((Bytes <$> chunks) ++ reads) = Val (Received (message_head m) body) /\
  exists reply rs, answer = Plain reply /\ rsp_id <$> rs = ids_to_answer frame /\
    (rs = [] -> reply_status reply = 202%Z /\ reply_body reply = EmptyString) /\
    (rs <> [] -> Forall good_message (MResponse <$> rs) ->
       exists n h, parse_head (write_simple reply) false = Val (HeadOk h n) /\ status h = 200%Z /\
         parse_frame (str_drop n (write_simple reply)) =
           Val (Ok (mkFrame (normalize_message <$> (MResponse <$> rs)) [] (pf_was_batch frame)))).
Proof.
  intros m Hm Hp Hd Hc Hf Hr. split; [by apply (receive_message o m)|].
  destruct (handle_post now (message_head m) body frame s s' answer eq_refl Hf Hr) as (reply & -> & Ha).
  destruct (answer_post_spec frame [] s s' reply Ha) as (rs & Hids & Hreply & _).
  exists reply, rs. split; [done|]. split; [done|]. split.
  - intros ->. rewrite decide_True in Hreply by done. by subst reply.
  - intros Hne Hg. rewrite decide_False in Hreply by done. destruct Hreply as (text & Hdump & ->).
    destruct (reply_parses (answered text []) (answered_wf text)) as (n & h & Hh & Hst & Hb).
    exists n, h. split; [done|]. split; [done|]. rewrite Hb.
    refine (proj2 (body_parses (pf_was_batch frame) rs text Hne _ Hg Hdump)).
    intros Hnb. destruct (parse_frame_single _ _ Hf Hnb) as [He [m0 Hms]].
    apply (f_equal length) in Hids. unfold ids_to_answer in Hids. rewrite He, Hms in Hids.
    rewrite length_fmap in Hids. destruct rs as [|r [|r' rs]]; [done|done|]. cbn in Hids. by destruct m0.
Qed.
End answers.

(** ** A concrete exchange *)

Module HttpDemo.
#[local] Existing Instances BitText.text BitText.laws.

#[export] Instance application : Application HttpTransport nat nat nat := {|
  app_request u params := mret (Ok (JInt (Z.of_nat u)));
  app_notification v params := skip;
  app_response k r := skip;
  app_progress k n := skip;
  app_close k := skip;
  app_error k e := skip;
|}.

#[export] Instance quiet : SendsNoResponses (T := HttpTransport) (U := nat) (V := nat) (K := nat).
Proof. intros l. split; intros; first [apply keeps_ret|apply keeps_skip]. Qed.

Definition server_options : ServerOptions :=
  mkServerOptions (mkImplementation "demo" None "1.0") (mkServerCaps None None None None None None None)
    None [kProtocolVersion] false.

Definition session : Session HttpTransport nat nat nat :=
  make_session (ServerSession server_options) (http_connect true (make_http_transport default_http_options)).

Definition ping_text : string := match serialize_message ping_request with Val s => s | _ => EmptyString end.

Definition headers : HeaderList := [("Host", "localhost"); ("Origin", "http://localhost:3000")].
Definition ping_post : http_message := HttpRequest "POST" "/mcp" headers ping_text.

Definition ping_frame : ParsedFrame := mkFrame [normalize_message ping_request] [] false.
Definition handled : Session HttpTransport nat nat nat * outcome http_answer :=
  handle_request 0 (message_head ping_post) ping_text session.
Definition answer : http_answer := match handled.2 with Val a => a | _ => Streaming None end.
End HttpDemo.

Section witness.
#[local] Existing Instances HttpDemo.application HttpDemo.quiet.
#[local] Existing Instances BitText.text BitText.laws.

(** A body that is not JSON is answered on the POST, and a second time, as an
    error response with a null id, on the session's event stream. *)
Lemma parse_error_answered_twice :
  let r := handle_request 0 (message_head HttpDemo.ping_post) "x"
             HttpDemo.session in
  exists text it, r.2 = Val (Plain (bad_frame text)) /\
    (ring <$> ht_channel (transport r.1)) = Some [it] /\ it_data it = text.
Proof. eexists _, _. split; [vm_compute; reflexivity|]. split; [vm_compute; reflexivity|reflexivity]. Qed.

Lemma http_exchange_witness :
  handle_connection default_http_options ((Bytes <$> [message_text HttpDemo.ping_post]) ++ []) =
    Val (Received (message_head HttpDemo.ping_post) HttpDemo.ping_text) /\
  exists reply rs, HttpDemo.answer = Plain reply /\ rsp_id <$> rs = [Some (IdInt 7)] /\
    (rs = [] -> reply_status reply = 202%Z /\ reply_body reply = EmptyString) /\
    (rs <> [] -> Forall good_message (MResponse <$> rs) ->
       exists n h, parse_head (write_simple reply) false = Val (HeadOk h n) /\ status h = 200%Z /\
         parse_frame (str_drop n (write_simple reply)) =
           Val (Ok (mkFrame (normalize_message <$> (MResponse <$> rs)) [] false))).
Proof.
  apply (http_exchange 0 default_http_options "/mcp" HttpDemo.headers HttpDemo.ping_text
           [message_text HttpDemo.ping_post] [] HttpDemo.ping_frame HttpDemo.session HttpDemo.handled.1 HttpDemo.answer).
  - split; [reflexivity|]. split; [split; reflexivity|]. split; [reflexivity|]. split; [split; reflexivity|].
    apply Forall_cons_2; [|apply Forall_cons_2; [|apply Forall_nil_2]]; repeat split.
  - split; [reflexivity|]. split; [vm_compute; reflexivity|exact I].
  - vm_compute. reflexivity.
  - apply str_app_nil_r.
  - vm_compute. reflexivity.
  - vm_compute. reflexivity.
Defined.
End witness.
