(* ===== verification/HttpSessions.v ===== *)
(** * The multi-session HTTP server

    src/transport/http_session_server.cpp: one session per Mcp-Session-Id.  The
    class [SessionHost] is what the server needs of the sessions it creates;
    [registry_accounts] is about any such sessions. *)

From stdpp Require Import sorting.
From S2P Require Import Prelude Json Core Types Message Protocol State Router Session.
From S2P Require Import Lines Decimal Chunked Http Sse SseChannel HttpEndpoint PostCapture HttpServer.

(** ** The transport of one session *)

Record SessionTransport : Type := mkSessionTransport {
  stp_channel : SseChannel;
  stp_closed : bool;
  stp_captures : Captures;     (** process-wide *)
}.

Definition make_session_transport (replay : nat) (retry : Z) (c : Captures) : SessionTransport :=
  mkSessionTransport (new_channel replay retry) false c.

(** [disconnect]: tells whether the close handler is to be called. *)
Definition session_disconnect (t : SessionTransport) : bool * SessionTransport :=
  if stp_closed t then (false, t) else (true, mkSessionTransport (shutdown (stp_channel t)) true (stp_captures t)).

Section transport.
Context {JT : JsonText}.

Definition session_send (m : Message) : st SessionTransport unit := fun t =>
  let '(taken, c) := try_capture m (stp_captures t) in
  if taken then (mkSessionTransport (stp_channel t) (stp_closed t) c, Val tt)
  else match serialize_message m with
       | Val text => (mkSessionTransport (enqueue text (stp_channel t)) (stp_closed t) (stp_captures t), Val tt)
       | Throw x => (t, Throw x)
       | Undefined => (t, Undefined)
       end.

#[export] Instance session_transport : Transport SessionTransport := {|
  t_connect := skip;
  t_disconnect := modify (fun t => (session_disconnect t).2);
  t_send := session_send;
  t_send_batch := for_each session_send;
|}.
End transport.

(** ** Session ids *)

Fixpoint hex_pad (digits : nat) (z : Z) : string :=
  match digits with
  | O => EmptyString
  | S digits => hex_pad digits (z / 16) +:+ String (hex_char (z mod 16)) EmptyString
  end.

(** [generate_session_id], from the four words of the random device. *)
Definition generate_session_id (words : list Z) : string :=
  foldr String.append EmptyString (hex_pad 8 <$> words).

Lemma hex_pad_spec n z :
  size (hex_pad n z) = n /\ str_forall (fun c => bool_decide (is_Some (hex_digit c))) (hex_pad n z) = true.
Proof.
  revert z. induction n as [|n IH]; intros z; [done|]. destruct (IH (z / 16)%Z) as [H1 H2]. cbn [hex_pad].
  rewrite size_app, str_forall_app, H1, H2. cbn [str_forall String.length].
  destruct (hex_char_spec (z mod 16)) as (-> & _); [by apply Z.mod_pos_bound|]. split; [lia|done].
Qed.

(** ** The registry *)

Record HttpSessionServerOptions : Type := mkSessionServerOptions {
  hss_http : HttpServerOptions;
  session_idle_timeout : Z;
  allow_client_termination : bool;
}.

Section registry.
(** Names of the session objects. *)
Context {Sid : Type}.

Record Entry : Type := mkEntry { e_session : Sid; e_last_activity : Z }.

(** [reg_created] and [reg_closed] record, for the theorems, the sessions that
    were created and those [on_session_closed] was called with. *)
Record Registry : Type := mkRegistry {
  reg_options : HttpSessionServerOptions;
  entries : gmap string Entry;
  reg_created : list Sid;
  reg_closed : list Sid;
}.

Definition with_entries (m : gmap string Entry) (r : Registry) : Registry :=
  mkRegistry (reg_options r) m (reg_created r) (reg_closed r).

Definition create (id : string) (e : Entry) (r : Registry) : Registry :=
  mkRegistry (reg_options r) (<[id := e]> (entries r)) (reg_created r ++ [e_session e]) (reg_closed r).

Definition find (now : Z) (id : string) (r : Registry) : option Sid * Registry :=
  match entries r !! id with
  | None => (None, r)
  | Some e => (Some (e_session e), with_entries (<[id := mkEntry (e_session e) now]> (entries r)) r)
  end.

Definition remove (id : string) (r : Registry) : option Sid * Registry :=
  match entries r !! id with
  | None => (None, r)
  | Some e => (Some (e_session e), with_entries (delete id (entries r)) r)
  end.

Definition key_le (a b : string * Entry) : Prop := String.leb a.1 b.1 = true.
#[local] Instance key_le_dec a b : Decision (key_le a b).
Proof. unfold key_le. apply _. Defined.

(** The sessions of a table in the order of their ids. *)
Definition sessions_in (m : gmap string Entry) : list Sid :=
  (fun x => e_session x.2) <$> merge_sort key_le (map_to_list m).

Definition remove_idle (now : Z) (r : Registry) : list Sid * Registry :=
  let timeout := session_idle_timeout (reg_options r) in
  if (timeout <=? 0)%Z then ([], r)
  else
    let idle := filter (fun x => e_last_activity x.2 < now - timeout)%Z (entries r) in
    (sessions_in idle, with_entries (filter (fun x => ~ (e_last_activity x.2 < now - timeout)%Z) (entries r)) r).

Definition remove_all (r : Registry) : list Sid * Registry := (sessions_in (entries r), with_entries ∅ r).

Definition session_count (r : Registry) : nat := base.size (entries r).
End registry.
Arguments Entry : clear implicits.
Arguments Registry : clear implicits.

(** ** What the server needs of its sessions *)

Class SessionHost (W Sid : Type) := {
  registry_of : W -> Registry Sid;
  set_registry : Registry Sid -> W -> W;
  host_captures : W -> Captures;
  set_host_captures : Captures -> W -> W;
  factory : st W (option Sid);                       (** [factory_(transport)] *)
  connect_session : Sid -> st W unit;
  deliver_to : Z -> Sid -> Message -> st W unit;     (** [SessionTransport::deliver], at a time *)
  disconnect_session : Sid -> st W unit;             (** [SessionTransport::disconnect] *)
  on_session_closed : Sid -> st W unit;
  attach_to : Sid -> string -> st W (option (Z * Z * Z));
  random_words : st W (list Z);
}.

Section server.
Context {W Sid : Type} {SH : SessionHost W Sid} {JT : JsonText}.

Definition on_registry {A} (f : Registry Sid -> A * Registry Sid) : st W A :=
  fun w => let '(a, r) := f (registry_of w) in (set_registry r w, Val a).

#[export] Instance session_host (now : Z) (sid : Sid) : Host W := {|
  captures_of := host_captures;
  set_captures := set_host_captures;
  deliver := deliver_to now sid;
|}.

Definition close_session (sid : Sid) : st W unit :=
  _ ← on_registry (fun r => (tt, mkRegistry (reg_options r) (entries r) (reg_created r) (reg_closed r ++ [sid])));
  on_session_closed sid.

Definition evict (sid : Sid) : st W unit := _ ← disconnect_session sid; close_session sid.

Definition frame_contains_initialize (f : ParsedFrame) : bool :=
  existsb (fun m => match m with MRequest r => String.eqb (req_method r) kInitialize | _ => false end) (pf_messages f).

Definition jsonrpc_error (status : Z) (reason : string) (e : Error) : outcome Reply :=
  text ← serialize_message (error_response e); Val (mkReply status reason text "application/json" []).

Definition session_header : string := "mcp-session-id".

Definition handle_delete (session_id : string) : st W http_answer :=
  if String.eqb session_id EmptyString then mret (Plain (plain 400 "Bad Request" "Mcp-Session-Id required"))
  else
    allowed ← gets (fun w => allow_client_termination (reg_options (registry_of w)));
    if negb allowed then mret (Plain (plain 405 "Method Not Allowed" "session termination disabled"))
    else
      entry ← on_registry (remove session_id);
      match entry with
      | None => mret (Plain (plain 404 "Not Found" "unknown session"))
      | Some sid => _ ← evict sid; mret (Plain (plain 200 "OK" EmptyString))
      end.

Definition handle_get (now : Z) (head : HttpHead) (session_id : string) : st W http_answer :=
  if negb (header_contains head "accept" "text/event-stream")
  then mret (Plain (plain 406 "Not Acceptable" "expected text/event-stream"))
  else if String.eqb session_id EmptyString then mret (Plain (plain 400 "Bad Request" "Mcp-Session-Id required"))
  else
    entry ← on_registry (find now session_id);
    match entry with
    | None => mret (Plain (plain 404 "Not Found" "unknown session"))
    | Some sid => a ← attach_to sid (header head "last-event-id"); mret (Streaming a)
    end.

(** A frame with an initialize request opens a session under a new id. *)
Definition open_session (now : Z) : st W (option (Sid * HeaderList)) :=
  sid ← factory;
  match sid with
  | None => mret None
  | Some sid =>
      _ ← connect_session sid;
      words ← random_words;
      let id := generate_session_id words in
      _ ← on_registry (fun r => (tt, create id (mkEntry sid now) r));
      mret (Some (sid, [("Mcp-Session-Id", id)]))
  end.

Definition handle_post (now : Z) (session_id body : string) : st W http_answer :=
  frame ← lift (parse_frame body);
  match frame with
  | Err e => r ← lift (jsonrpc_error 400 "Bad Request" e); mret (Plain r)
  | Ok frame =>
      if String.eqb session_id EmptyString then
        if negb (frame_contains_initialize frame) then
          r ← lift (jsonrpc_error 400 "Bad Request"
                      (error InvalidRequest "Mcp-Session-Id header required (initialize first)"));
          mret (Plain r)
        else
          opened ← open_session now;
          match opened with
          | None => mret (Plain (plain 500 "Internal Server Error" "session factory failed"))
          | Some (sid, extra) => r ← answer_post (HW := session_host now sid) frame extra; mret (Plain r)
          end
      else
        entry ← on_registry (find now session_id);
        match entry with
        | None => mret (Plain (plain 404 "Not Found" "unknown or expired session"))
        | Some sid => r ← answer_post (HW := session_host now sid) frame []; mret (Plain r)
        end
  end.

Definition handle_session_request (now : Z) (head : HttpHead) (body : string) : st W http_answer :=
  evicted ← on_registry (remove_idle now);
  _ ← for_each evict evicted;
  let session_id := header head session_header in
  if String.eqb (method head) "DELETE" then handle_delete session_id
  else if String.eqb (method head) "GET" then handle_get now head session_id
  else if negb (String.eqb (method head) "POST")
  then mret (Plain (plain 405 "Method Not Allowed" "use POST, GET, or DELETE"))
  else handle_post now session_id body.

(** [stop]: the transports first, then (the listener being stopped) the
    notifications. *)
Definition stop : st W unit :=
  all ← on_registry remove_all;
  _ ← for_each disconnect_session all;
  for_each close_session all.
End server.

(** ** Every session that is opened is closed once *)

Class SessionHostLaws (W Sid : Type) `{SessionHost W Sid} : Prop := {
  registry_of_set r w : registry_of (set_registry r w) = r;
  registry_of_captures c w : registry_of (set_host_captures c w) = registry_of w;
  factory_registry r : keeps (fun w : W => registry_of w = r) factory;
  connect_registry sid r : keeps (fun w : W => registry_of w = r) (connect_session sid);
  deliver_registry now sid m r : keeps (fun w : W => registry_of w = r) (deliver_to now sid m);
  disconnect_registry sid r : keeps (fun w : W => registry_of w = r) (disconnect_session sid);
  closed_registry sid r : keeps (fun w : W => registry_of w = r) (on_session_closed sid);
  attach_registry sid h r : keeps (fun w : W => registry_of w = r) (attach_to sid h);
  random_registry r : keeps (fun w : W => registry_of w = r) random_words;
  (** 128 random bits do not repeat an id in use. *)
  random_fresh w w' words :
    random_words w = (w', Val words) -> entries (registry_of w') !! generate_session_id words = None;
}.

Section accounts.
Context {W Sid : Type} {SH : SessionHost W Sid} {JT : JsonText} {SL : SessionHostLaws W Sid}.

Definition live (r : Registry Sid) : list Sid := (fun x => e_session x.2) <$> map_to_list (entries r).

(** The sessions in [Y] have left the table and are about to be closed. *)
Definition accounts (Y : list Sid) (w : W) : Prop :=
  reg_created (registry_of w) ≡ₚ Y ++ live (registry_of w) ++ reg_closed (registry_of w).

Lemma sessions_in_live (m : gmap string (Entry Sid)) : sessions_in m ≡ₚ (fun x => e_session x.2) <$> map_to_list m.
Proof. unfold sessions_in. apply fmap_Permutation, merge_sort_Permutation. Qed.

Lemma keeps_registry {A} (m : st W A) Y :
  (forall r, keeps (fun w => registry_of w = r) m) -> preserves (accounts Y) m.
Proof.
  intros Hm w w' a Hw H. specialize (Hm (registry_of w) w eq_refl). rewrite H in Hm. cbn in Hm.
  unfold accounts in *. by rewrite Hm.
Qed.

Lemma triple_on_registry {A} (f : Registry Sid -> A * Registry Sid) Y (Z_ : A -> list Sid) :
  (forall r, reg_created r ≡ₚ Y ++ live r ++ reg_closed r ->
     let '(a, r') := f r in reg_created r' ≡ₚ Z_ a ++ live r' ++ reg_closed r') ->
  triple (accounts Y) (on_registry f) (fun a => accounts (Z_ a)).
Proof.
  intros Hf w w' a Hw. unfold on_registry, accounts in *. specialize (Hf _ Hw).
  destruct (f (registry_of w)) as [b r] eqn:E. intros [= <- <-]. by rewrite registry_of_set.
Qed.

Lemma triple_close_session Y sid : triple (accounts (sid :: Y)) (close_session sid) (fun _ => accounts Y).
Proof.
  unfold close_session. eapply triple_bind; [|intros ?; apply keeps_registry; intros; apply closed_registry].
  apply (triple_on_registry _ _ (fun _ => Y)). intros r Hr. etrans; [exact Hr|]. unfold live. cbn. solve_Permutation.
Qed.

Lemma triple_evict Y sid : triple (accounts (sid :: Y)) (evict sid) (fun _ => accounts Y).
Proof.
  unfold evict. eapply triple_bind; [apply keeps_registry; intros; apply disconnect_registry|].
  intros ?. apply triple_close_session.
Qed.

Lemma triple_each (f : Sid -> st W unit) Y sids :
  (forall Y sid, triple (accounts (sid :: Y)) (f sid) (fun _ => accounts Y)) ->
  triple (accounts (sids ++ Y)) (for_each f sids) (fun _ => accounts Y).
Proof.
  intros Hf. induction sids as [|sid sids IH]; [apply triple_skip|]. cbn [for_each app].
  eapply triple_bind; [apply Hf|]. intros ?. exact IH.
Qed.

Lemma map_to_list_filter_split {A} (P : string * A -> Prop) `{DP : forall x, Decision (P x)} (m : gmap string A) :
  map_to_list m ≡ₚ map_to_list (filter P m) ++ map_to_list (filter (fun x => ~ P x) m).
Proof.
  apply NoDup_Permutation; [apply NoDup_map_to_list| |].
  - apply NoDup_app. split; [apply NoDup_map_to_list|]. split; [|apply NoDup_map_to_list].
    intros [k x]. rewrite !elem_of_map_to_list, !map_lookup_filter_Some. naive_solver.
  - intros [k x]. rewrite elem_of_app, !elem_of_map_to_list, !map_lookup_filter_Some.
    destruct (decide (P (k, x))); naive_solver.
Qed.

Lemma live_delete r id (e : Entry Sid) :
  entries r !! id = Some e -> live r ≡ₚ e_session e :: live (with_entries (delete id (entries r)) r).
Proof.
  intros He. unfold live. cbn [entries with_entries].
  rewrite <- (insert_delete_id (entries r) id e He) at 1.
  rewrite map_to_list_insert by apply lookup_delete_eq. done.
Qed.

Lemma live_touch r id (e : Entry Sid) now :
  entries r !! id = Some e ->
  live (with_entries (<[id := mkEntry (e_session e) now]> (entries r)) r) ≡ₚ live r.
Proof.
  intros He. rewrite (live_delete r id e He). unfold live. cbn [entries with_entries].
  rewrite <- insert_delete_eq. rewrite map_to_list_insert by apply lookup_delete_eq. done.
Qed.

Lemma triple_find Y now id : preserves (accounts Y) (on_registry (find now id)).
Proof.
  apply (triple_on_registry _ _ (fun _ => Y)). intros r Hr. unfold find. destruct (entries r !! id) as [e|] eqn:E; [|done].
  etrans; [exact Hr|]. by rewrite (live_touch r id e now E).
Qed.

Lemma triple_remove Y id :
  triple (accounts Y) (on_registry (remove id)) (fun o => accounts (match o with Some sid => sid :: Y | None => Y end)).
Proof.
  apply (triple_on_registry _ _ (fun o => match o with Some sid => sid :: Y | None => Y end)).
  intros r Hr. unfold remove. destruct (entries r !! id) as [e|] eqn:E; [|done]. cbn [reg_created with_entries reg_closed].
  etrans; [exact Hr|]. rewrite (live_delete r id e E). solve_Permutation.
Qed.

Lemma triple_remove_idle now : triple (accounts []) (on_registry (remove_idle now)) (fun sids => accounts (sids ++ [])).
Proof.
  apply (triple_on_registry _ _ (fun sids => sids ++ [])). intros r Hr. unfold remove_idle.
  destruct (_ <=? 0)%Z; [done|]. cbn [reg_created with_entries reg_closed]. etrans; [exact Hr|]. rewrite app_nil_r, sessions_in_live.
  unfold live at 1. rewrite app_nil_l, app_assoc. f_equiv. unfold live. cbn [entries with_entries].
  rewrite <- fmap_app. apply fmap_Permutation, map_to_list_filter_split.
Qed.

Lemma triple_remove_all : triple (accounts []) (on_registry remove_all)
  (fun sids w => accounts (sids ++ []) w /\ entries (registry_of w) = ∅).
Proof.
  intros w w' a Hw. unfold on_registry, remove_all. intros [= <- <-]. unfold accounts in *. rewrite registry_of_set.
  cbn [reg_created with_entries reg_closed]. split; [|done]. etrans; [exact Hw|]. rewrite app_nil_r, sessions_in_live. unfold live. cbn.
  by rewrite map_to_list_empty.
Qed.

Lemma keeps_on_captures now sid f r : keeps (fun w => registry_of w = r) (on_captures (HW := session_host now sid) f).
Proof. intros w Hw. unfold on_captures. cbn. by rewrite registry_of_captures. Qed.

Lemma keeps_answer_post now sid frame extra r :
  keeps (fun w => registry_of w = r) (answer_post (HW := session_host now sid) frame extra).
Proof.
  assert (keeps (fun w => registry_of w = r)
            (_ ← on_captures (HW := session_host now sid) capture_begin;
             dispatch_frame (HW := session_host now sid) frame extra)) as Hk.
  { apply keeps_bind; [apply keeps_on_captures|]. intros _. unfold dispatch_frame.
    apply keeps_bind; [apply keeps_for_each; intros; apply keeps_on_captures|]. intros _.
    apply keeps_bind; [apply keeps_for_each; intros; apply deliver_registry|]. intros _. auto with keeps. }
  intros w Hw. specialize (Hk w Hw). unfold answer_post, finally.
  destruct ((_ ← on_captures capture_begin; _) w) as [w' a]. cbn in *. by rewrite registry_of_captures.
Qed.

Lemma preserves_answer_post Y now sid frame extra :
  preserves (accounts Y) (answer_post (HW := session_host now sid) frame extra).
Proof. apply keeps_registry. intros r. apply keeps_answer_post. Qed.

Lemma preserves_pure {A} Y (m : outcome A) : preserves (accounts Y) (lift (S := W) m).
Proof. by intros w w' a Hw [= <- ->]. Qed.

Lemma preserves_open_session Y now : preserves (accounts Y) (open_session now).
Proof.
  unfold open_session. eapply triple_bind; [apply keeps_registry; intros; apply factory_registry|].
  intros [sid|]; [|apply preserves_ret].
  eapply triple_bind; [apply keeps_registry; intros; apply connect_registry|]. intros u.
  intros w w' b Hw H. apply st_bind_inv in H as [(w1 & words & H1 & H2)|[(e & He & ?)|[He ?]]]; [|done|done].
  pose proof (random_fresh _ _ _ H1) as Hfresh.
  assert (accounts Y w1) as Hw1.
  { pose proof (random_registry (registry_of w) w eq_refl) as Hk. rewrite H1 in Hk. unfold accounts in *. cbn in Hk. by rewrite Hk. }
  run_in H2. unfold on_registry in H2. injection H2 as <- _. unfold accounts in *. rewrite registry_of_set.
  unfold create, live. cbn. rewrite map_to_list_insert by done. etrans; [apply Permutation_app_tail, Hw1|].
  unfold live. cbn. solve_Permutation.
Qed.

Lemma preserves_handle_request now head body : preserves (accounts []) (handle_session_request now head body).
Proof.
  unfold handle_session_request. eapply triple_bind; [apply triple_remove_idle|]. intros sids.
  eapply triple_bind; [apply triple_each; intros; apply triple_evict|]. intros ?. cbv zeta.
  destruct (String.eqb (method head) "DELETE").
  { unfold handle_delete. destruct (String.eqb _ _); [apply preserves_ret|].
    eapply triple_bind; [by apply (keeps_preserves _ _ (keeps_gets _ _))|]. intros allowed.
    destruct (negb allowed); [apply preserves_ret|]. eapply triple_bind; [apply triple_remove|].
    intros [sid|]; [|apply preserves_ret]. eapply triple_bind; [apply triple_evict|]. intros ?. apply preserves_ret. }
  destruct (String.eqb (method head) "GET").
  { unfold handle_get. destruct (negb _); [apply preserves_ret|]. destruct (String.eqb _ _); [apply preserves_ret|].
    eapply triple_bind; [apply triple_find|]. intros [sid|]; [|apply preserves_ret].
    eapply triple_bind; [apply keeps_registry; intros; apply attach_registry|]. intros b. apply preserves_ret. }
  destruct (negb _); [apply preserves_ret|]. unfold handle_post.
  eapply triple_bind; [apply preserves_pure|]. intros [frame|e].
  2:{ eapply triple_bind; [apply preserves_pure|]. intros r. apply preserves_ret. }
  destruct (String.eqb _ _).
  - destruct (negb _); [eapply triple_bind; [apply preserves_pure|intros r; apply preserves_ret]|].
    eapply triple_bind; [apply preserves_open_session|]. intros [[sid extra]|]; [|apply preserves_ret].
    eapply triple_bind; [apply preserves_answer_post|intros r; apply preserves_ret].
  - eapply triple_bind; [apply triple_find|]. intros [sid|]; [|apply preserves_ret].
    eapply triple_bind; [apply preserves_answer_post|intros r; apply preserves_ret].
Qed.

Lemma keeps_entries_close (m : gmap string (Entry Sid)) sid :
  keeps (fun w => entries (registry_of w) = m) (close_session (SH := SH) sid).
Proof.
  intros w Hw. unfold close_session.
  set (r1 := mkRegistry (reg_options (registry_of w)) (entries (registry_of w)) (reg_created (registry_of w))
              (reg_closed (registry_of w) ++ [sid])).
  rewrite (st_bind_val _ _ _ (set_registry r1 w) tt) by done.
  by rewrite (closed_registry sid r1 (set_registry r1 w) (registry_of_set _ _)).
Qed.

Lemma stop_spec : triple (accounts []) stop (fun _ w => accounts [] w /\ entries (registry_of w) = ∅).
Proof.
  unfold stop. eapply triple_bind; [apply triple_remove_all|]. intros sids w w' [] [Hw He] H.
  apply st_bind_inv in H as [(w1 & [] & H1 & H2)|[(? & _ & ?)|[_ ?]]]; [|done|done].
  assert (registry_of w1 = registry_of w) as Hr.
  { pose proof (keeps_for_each (fun v => registry_of v = registry_of w) disconnect_session sids) as Hk.
    specialize (Hk (fun sid _ => disconnect_registry sid _) w eq_refl). by rewrite H1 in Hk. }
  assert (accounts (sids ++ []) w1) as Hw1 by (unfold accounts in *; by rewrite Hr).
  split; [exact (triple_each close_session [] sids triple_close_session w1 w' tt Hw1 H2)|].
  pose proof (keeps_for_each (fun v => entries (registry_of v) = ∅) close_session sids) as Hk.
  specialize (Hk (fun sid _ => keeps_entries_close ∅ sid) w1). rewrite H2 in Hk. apply Hk. by rewrite Hr.
Qed.

(** ** Any sequence of requests *)

Inductive action := Serve (now : Z) (head : HttpHead) (body : string) | Stop.

Definition perform_action (a : action) : st W unit :=
  match a with Serve now head body => _ ← handle_session_request now head body; skip | Stop => stop end.

(** C13: whatever requests arrive, in whatever order, and whether or not the
    server is stopped, the sessions opened are exactly those still in the
    table and those closed, each once: [on_session_closed] runs once for every
    session that a DELETE, the idle sweep or [stop] ends and for no other, and
    after [stop] no session is left. *)
Theorem registry_accounts actions w w' :
  reg_created (registry_of w) = [] -> reg_closed (registry_of w) = [] -> entries (registry_of w) = ∅ ->
  for_each perform_action actions w = (w', Val tt) ->
  reg_created (registry_of w') ≡ₚ live (registry_of w') ++ reg_closed (registry_of w') /\
  (last actions = Some Stop -> entries (registry_of w') = ∅).
Proof.
  intros Hc Hcl He Hr. assert (accounts [] w) as Hw.
  { unfold accounts, live. by rewrite Hc, Hcl, He, map_to_list_empty. }
  clear Hc Hcl He. revert w Hw Hr. induction actions as [|a actions IH]; intros w Hw Hr.
  { injection Hr as <-. by split. }
  cbn [for_each] in Hr. apply st_bind_inv in Hr as [(w1 & [] & H1 & H2)|[(? & _ & ?)|[_ ?]]]; [|done|done].
  assert (accounts [] w1 /\ (a = Stop -> entries (registry_of w1) = ∅)) as [Hw1 Hs].
  { destruct a as [now head body|]; cbn [perform_action] in H1.
    - split; [|done]. revert H1.
      apply (triple_bind _ _ _ _ _ (preserves_handle_request now head body) (fun _ => triple_skip _) w w1 tt Hw).
    - destruct (stop_spec _ _ _ Hw H1). by split. }
  destruct (IH w1 Hw1 H2) as [H3 H4]. split; [done|]. intros Hl.
  destruct actions as [|b actions]; [|by apply H4]. injection Hl as ->. injection H2 as <-. by apply Hs.
Qed.
End accounts.

(** ** Independent sessions

    The interface implemented: the factory makes server sessions over
    [SessionTransport]s, each its own; only the table of captures is shared. *)

Section independent.
Context {U V K : Type} {AP : Application SessionTransport U V K} {JT : JsonText}.
#[local] Abbreviation Sess := (Session SessionTransport U V K).

Record World : Type := mkWorld {
  w_registry : Registry nat;
  w_captures : Captures;
  w_sessions : list Sess;
  w_random : list (list Z);      (** what the random device yields *)
}.

(** The server every session is made for, and whether the factory succeeds. *)
Context (options : ServerOptions) (closed_fn : nat -> st World unit).

Definition put_captures (c : Captures) (s : Sess) : Sess :=
  set_transport (mkSessionTransport (stp_channel (transport s)) (stp_closed (transport s)) c) s.

(** Run a session of the world. *)
Definition on_session {A} (default_ : A) (sid : nat) (m : st Sess A) : st World A := fun w =>
  match w_sessions w !! sid with
  | None => (w, Val default_)
  | Some s =>
      let '(s', r) := m (put_captures (w_captures w) s) in
      (mkWorld (w_registry w) (stp_captures (transport s')) (<[sid := s']> (w_sessions w)) (w_random w), r)
  end.

Definition new_session : st World (option nat) := fun w =>
  let o := hss_http (reg_options (w_registry w)) in
  let t := make_session_transport (hso_replay_buffer_size o) (sse_retry_ms o) (w_captures w) in
  (mkWorld (w_registry w) (w_captures w) (w_sessions w ++ [make_session (ServerSession options) t]) (w_random w),
   Val (Some (length (w_sessions w)))).

Definition close_transport : st Sess unit :=
  first_ ← on_transport (fun t => let '(b, t') := session_disconnect t in (t', Val b));
  if (first_ : bool) then handle_close else skip.

Definition attach_stream (last_event_id : string) : st Sess (option (Z * Z * Z)) :=
  on_transport (fun t =>
    let '(a, ch) := attach last_event_id (stp_channel t) in
    (mkSessionTransport ch (stp_closed t) (stp_captures t), Val a)).

(** The device may throw; an id in use counts as a failure of the device. *)
Definition random_device : st World (list Z) := fun w =>
  match w_random w with
  | words :: rest =>
      match entries (w_registry w) !! generate_session_id words with
      | None => (mkWorld (w_registry w) (w_captures w) (w_sessions w) rest, Val words)
      | Some _ => (w, Throw (ExnStd "random_device"))
      end
  | [] => (w, Throw (ExnStd "random_device"))
  end.

#[export] Instance independent : SessionHost World nat := {|
  registry_of := w_registry;
  set_registry r w := mkWorld r (w_captures w) (w_sessions w) (w_random w);
  host_captures := w_captures;
  set_host_captures c w := mkWorld (w_registry w) c (w_sessions w) (w_random w);
  factory := new_session;
  connect_session sid := on_session tt sid Session.connect;
  deliver_to now sid m := on_session tt sid (handle_message now m);
  disconnect_session sid := on_session tt sid close_transport;
  on_session_closed := closed_fn;
  attach_to sid last_event_id := on_session None sid (attach_stream last_event_id);
  random_words := random_device;
|}.

(** [closed_fn] is the application's: it leaves the registry and the other
    sessions alone. *)
Class ClosedLaws : Prop := {
  closed_fn_registry sid r : keeps (fun w => w_registry w = r) (closed_fn sid);
  closed_fn_sessions sid j s : j <> sid -> keeps (fun w => w_sessions w !! j = Some s) (closed_fn sid);
}.

Context {CL : ClosedLaws}.

Lemma on_session_registry {A} (d : A) sid m r : keeps (fun w => w_registry w = r) (on_session d sid m).
Proof. intros w Hw. unfold on_session. destruct (w_sessions w !! sid); [|done]. by destruct (m _). Qed.

Lemma on_session_other {A} (d : A) sid m j s :
  j <> sid -> keeps (fun w => w_sessions w !! j = Some s) (on_session d sid m).
Proof.
  intros Hne w Hw. unfold on_session. destruct (w_sessions w !! sid); [|done]. destruct (m _) as [s' r].
  cbn. by rewrite list_lookup_insert_ne.
Qed.

#[export] Instance independent_laws : SessionHostLaws World nat.
Proof.
  split; try (intros; apply on_session_registry); try done.
  - intros r w Hw. exact Hw.
  - intros sid r. apply closed_fn_registry.
  - intros r w Hw. cbn. unfold random_device. destruct (w_random w) as [|words rest]; [done|].
    by destruct (_ !! _).
  - intros w w' words. cbn. unfold random_device. destruct (w_random w) as [|ws rest]; [done|].
    destruct (entries (w_registry w) !! generate_session_id ws) eqn:E; [done|]. by intros [= <- <-].
Qed.

(** ** A request reaches only the session it names *)

Lemma keeps_registry_step {A} j s (f : Registry nat -> A * Registry nat) :
  keeps (fun w => w_sessions w !! j = Some s) (on_registry f).
Proof. intros w Hw. unfold on_registry. by destruct (f _). Qed.

Lemma keeps_evict j s sid : j <> sid -> keeps (fun w => w_sessions w !! j = Some s) (evict sid).
Proof.
  intros Hne. unfold evict, close_session. apply keeps_bind; [by apply on_session_other|]. intros _.
  apply keeps_bind; [apply keeps_registry_step|]. intros _. by apply closed_fn_sessions.
Qed.

Lemma keeps_post_other j s now sid frame extra :
  j <> sid -> keeps (fun w => w_sessions w !! j = Some s) (answer_post (HW := session_host now sid) frame extra).
Proof.
  intros Hne. assert (forall f, keeps (fun w => w_sessions w !! j = Some s)
            (on_captures (HW := session_host now sid) f)) as Hcap by by intros f w Hw.
  assert (keeps (fun w => w_sessions w !! j = Some s)
            (_ ← on_captures (HW := session_host now sid) capture_begin;
             dispatch_frame (HW := session_host now sid) frame extra)) as Hk.
  { apply keeps_bind; [apply Hcap|]. intros _. unfold dispatch_frame.
    apply keeps_bind; [apply keeps_for_each; intros; apply Hcap|]. intros _.
    apply keeps_bind; [apply keeps_for_each; intros; by apply on_session_other|]. intros _. auto with keeps. }
  intros w Hw. specialize (Hk w Hw). unfold answer_post, finally.
  by destruct ((_ ← on_captures capture_begin; _) w) as [w' a].
Qed.

Lemma first_step {A B} (P : World -> Prop) (m : st World A) (k : A -> st World B) w :
  P (m w).1 -> (forall a w', m w = (w', Val a) -> P (k a w').1) -> P ((mbind k m) w).1.
Proof. intros Hm Hk. unfold mbind, st_bind. destruct (m w) as [w' [a|x|]]; [by apply Hk|done|done]. Qed.

Lemma keeps_open_session j s now w :
  w_sessions w !! j = Some s ->
  w_sessions (open_session now w).1 !! j = Some s /\
  forall w' sid extra, open_session now w = (w', Val (Some (sid, extra))) -> j <> sid.
Proof.
  intros Hj. assert (j <> length (w_sessions w)) as Hne by (apply lookup_lt_Some in Hj; lia).
  unfold open_session. cbn [factory independent].
  set (w1 := (new_session w).1). rewrite (st_bind_val _ _ w w1 (Some (length (w_sessions w)))) by done.
  assert (w_sessions w1 !! j = Some s) as Hj1 by (cbn; by apply lookup_app_l_Some).
  assert (keeps (fun w => w_sessions w !! j = Some s) random_device) as Hrand.
  { intros v Hv. unfold random_device. destruct (w_random v) as [|ws rest]; [done|]. by destruct (entries (w_registry v) !! generate_session_id ws). }
  split.
  - apply (keeps_bind (fun w => w_sessions w !! j = Some s)); [by apply on_session_other| |exact Hj1]. intros _.
    apply keeps_bind; [exact Hrand|]. intros words. apply keeps_bind; [apply keeps_registry_step|]. intros _. apply keeps_ret.
  - intros w' sid extra H.
    apply st_bind_inv in H as [(w2 & u & _ & H)|[(e & _ & He)|[_ He]]]; [|done|done].
    apply st_bind_inv in H as [(w3 & words & _ & H)|[(e & _ & He)|[_ He]]]; [|done|done].
    apply st_bind_inv in H as [(w4 & u' & _ & H)|[(e & _ & He)|[_ He]]]; [|done|done].
    by injection H as _ <- _.
Qed.

(** The table after the idle sweep at [now]. *)
Definition swept (now : Z) (w : World) : gmap string (Entry nat) := entries (remove_idle now (w_registry w)).2.
Definition idle_sessions (now : Z) (w : World) : list nat := (remove_idle now (w_registry w)).1.

(** Session [j] is [s], and it is not the one that [id] names. *)
Definition elsewhere (j : nat) (s : Sess) (id : string) (w : World) : Prop :=
  w_sessions w !! j = Some s /\ e_session <$> entries (w_registry w) !! id <> Some j.

Lemma found_elsewhere {A} (f : Registry nat -> option nat * Registry nat) (k : option nat -> st World A) j s id w :
  elsewhere j s id w ->
  (forall r sid, (f r).1 = Some sid -> e_session <$> entries r !! id = Some sid) ->
  (forall w', w_sessions w' !! j = Some s -> w_sessions (k None w').1 !! j = Some s) ->
  (forall sid w', j <> sid -> w_sessions w' !! j = Some s -> w_sessions (k (Some sid) w').1 !! j = Some s) ->
  w_sessions (mbind k (on_registry f) w).1 !! j = Some s.
Proof.
  intros [Hj Hid] Hf Hn Hs. apply (first_step (fun w => w_sessions w !! j = Some s)); [by apply keeps_registry_step|].
  intros o w' H. pose proof (keeps_registry_step j s f w Hj) as Hk. rewrite H in Hk.
  destruct o as [sid|]; [|by apply Hn]. apply Hs; [|done]. intros <-. apply Hid, Hf.
  unfold on_registry in H. cbn [registry_of independent] in H. destruct (f (w_registry w)) as [o r]. by injection H as _ ->.
Qed.

Lemma find_names now id (r : Registry nat) sid : (find now id r).1 = Some sid -> e_session <$> entries r !! id = Some sid.
Proof. unfold find. destruct (entries r !! id); [|done]. by intros [= <-]. Qed.

Lemma remove_names id (r : Registry nat) sid : (remove id r).1 = Some sid -> e_session <$> entries r !! id = Some sid.
Proof. unfold remove. destruct (entries r !! id); [|done]. by intros [= <-]. Qed.

Lemma delete_isolated j s id w :
  elsewhere j s id w -> w_sessions (handle_delete id w).1 !! j = Some s.
Proof.
  intros Hw. unfold handle_delete. destruct (String.eqb _ _); [apply Hw|].
  apply (first_step (fun w => w_sessions w !! j = Some s)); [apply Hw|]. intros allowed w' [= <- <-].
  destruct (negb _); [apply Hw|]. apply (found_elsewhere _ _ j s id); [done|apply remove_names|done|].
  intros sid w' Hne. apply (keeps_bind (fun w => w_sessions w !! j = Some s)); [by apply keeps_evict|].
  intros _. apply keeps_ret.
Qed.

Lemma get_isolated j s now head id w :
  elsewhere j s id w -> w_sessions (handle_get now head id w).1 !! j = Some s.
Proof.
  intros Hw. unfold handle_get. destruct (negb _); [apply Hw|]. destruct (String.eqb _ _); [apply Hw|].
  apply (found_elsewhere _ _ j s id); [done|apply find_names|done|].
  intros sid w' Hne. apply (keeps_bind (fun w => w_sessions w !! j = Some s)); [by apply on_session_other|].
  intros u. apply keeps_ret.
Qed.

Lemma answered_isolated j s now sid frame extra w :
  j <> sid -> w_sessions w !! j = Some s ->
  w_sessions ((r ← answer_post (HW := session_host now sid) frame extra; mret (Plain r)) w).1 !! j = Some s.
Proof.
  intros Hne. apply (keeps_bind (fun w => w_sessions w !! j = Some s)); [by apply keeps_post_other|].
  intros r. apply keeps_ret.
Qed.

Lemma post_isolated j s now id body w :
  elsewhere j s id w -> w_sessions (handle_post now id body w).1 !! j = Some s.
Proof.
  intros Hw. unfold handle_post. apply (first_step (fun w => w_sessions w !! j = Some s)); [apply Hw|]. intros o w3 H3.
  assert (w3 = w) as -> by (unfold lift in H3; by injection H3). clear H3.
  assert (forall m : outcome Reply, w_sessions ((r ← lift m; mret (Plain r)) w).1 !! j = Some s) as Hpure.
  { intros m. apply (first_step (fun w => w_sessions w !! j = Some s)); [apply Hw|]. intros r w4 [= <- _]. apply Hw. }
  destruct o as [frame|e]; [|apply Hpure]. destruct (String.eqb _ _).
  - destruct (negb _); [apply Hpure|]. destruct (keeps_open_session j s now w (proj1 Hw)) as [Hj3 Hne].
    apply (first_step (fun w => w_sessions w !! j = Some s)); [done|]. intros o w3 H3.
    rewrite H3 in Hj3. destruct o as [[sid extra]|]; [|done]. apply answered_isolated; [by eapply Hne|done].
  - apply (found_elsewhere _ _ j s id); [done|apply find_names|done|].
    intros sid w' Hne. by apply answered_isolated.
Qed.

(** The idle sweep leaves the other sessions and the swept table. *)
Lemma sweep_isolated j s now w :
  w_sessions w !! j = Some s -> j ∉ idle_sessions now w ->
  keeps (fun v => w_sessions v !! j = Some s /\ entries (w_registry v) = swept now w)
    (for_each evict (idle_sessions now w)).
Proof.
  intros Hj Hidle. apply keeps_for_each. intros sid Hsid v [Hv1 Hv2].
  split; [apply keeps_evict; [by intros ->|done]|].
  assert (keeps (fun v => entries (w_registry v) = swept now w) (evict sid)) as Hk; [|by apply Hk].
  unfold evict. apply keeps_bind; [|intros _; apply (keeps_entries_close (SH := independent))].
  intros v' Hv'. pose proof (on_session_registry tt sid close_transport (w_registry v') v' eq_refl) as Hk.
  cbv beta in Hk |- *. cbn [disconnect_session independent]. by rewrite Hk.
Qed.

(** C14: an HTTP request changes no session but the one its Mcp-Session-Id names
    and those that the idle sweep ends, however it comes out: whatever it
    carries, it cannot reach another client's session. *)
Theorem session_isolation now head body w j s :
  w_sessions w !! j = Some s -> j ∉ idle_sessions now w ->
  e_session <$> swept now w !! header head session_header <> Some j ->
  w_sessions (handle_session_request now head body w).1 !! j = Some s.
Proof.
  intros Hj Hidle Hname. unfold handle_session_request.
  set (w1 := mkWorld (remove_idle now (w_registry w)).2 (w_captures w) (w_sessions w) (w_random w)).
  assert (on_registry (remove_idle now) w = (w1, Val (idle_sessions now w))) as E1.
  { unfold on_registry, idle_sessions, w1. cbn [registry_of set_registry independent]. by destruct (remove_idle now _). }
  rewrite (st_bind_val _ _ _ _ _ E1).
  pose proof (sweep_isolated j s now w Hj Hidle w1 (conj Hj eq_refl)) as Hsweep.
  apply (first_step (fun w => w_sessions w !! j = Some s)); [apply Hsweep|]. intros u w2 E2.
  rewrite E2 in Hsweep. destruct Hsweep as [Hj2 Hsw].
  assert (elsewhere j s (header head session_header) w2) as Hw2 by (split; [done|]; cbn in Hsw; by rewrite Hsw).
  cbv zeta. destruct (String.eqb (method head) "DELETE"); [by apply delete_isolated|].
  destruct (String.eqb (method head) "GET"); [by apply get_isolated|].
  destruct (negb _); [exact Hj2|by apply post_isolated].
Qed.
End independent.

(** ** Concrete requests *)

Module SessionsDemo.
#[local] Existing Instance BitText.text.

#[export] Instance application : Application SessionTransport nat nat nat := {|
  app_request u params := mret (Ok (JInt (Z.of_nat u)));
  app_notification v params := skip;
  app_response k r := skip;
  app_progress k n := skip;
  app_close k := skip;
  app_error k e := skip;
|}.

Definition world : Type := World (U := nat) (V := nat) (K := nat).
Definition closed_fn (sid : nat) : st world unit := skip.

#[export] Instance closed_laws : ClosedLaws (U := nat) (V := nat) (K := nat) closed_fn.
Proof. split; intros; apply keeps_skip. Qed.

Definition host : SessionHost world nat := independent HttpDemo.server_options closed_fn.
#[export] Instance laws : SessionHostLaws world nat (H := host) := independent_laws HttpDemo.server_options closed_fn.

Definition options : HttpSessionServerOptions := mkSessionServerOptions default_http_options 1800000 true.

Definition start : world :=
  mkWorld (mkRegistry options ∅ [] []) (mkCaptures ∅ 0) [] [[1; 2; 3; 4]; [5; 6; 7; 8]]%Z.

Definition initialize_text : string :=
  match serialize_message (MRequest (mkRequest (IdInt 1) kInitialize None)) with Val s => s | _ => EmptyString end.

Definition head (m session_id : string) : HttpHead := mkHead m "/mcp" 0 EmptyString {[session_header := session_id]}.

Definition opening (now : Z) : action := Serve now (mkHead "POST" "/mcp" 0 EmptyString ∅) initialize_text.
Definition first_id : string := generate_session_id [1; 2; 3; 4]%Z.

(** Two clients open sessions, one deletes its own, the server stops. *)
Definition actions : list action := [opening 0; opening 1; Serve 2 (head "DELETE" first_id) EmptyString; Stop].

Definition two_sessions : world := (for_each (perform_action (SH := host)) [opening 0; opening 1] start).1.
Definition second_session : Session SessionTransport nat nat nat :=
  default (make_session BaseSession (make_session_transport 0 0 (mkCaptures ∅ 0))) (w_sessions two_sessions !! 1).
End SessionsDemo.

Section witnesses.
#[local] Existing Instance BitText.text.

Lemma registry_accounts_witness :
  let w' := (for_each (perform_action (SH := SessionsDemo.host)) SessionsDemo.actions SessionsDemo.start).1 in
  reg_created (w_registry w') ≡ₚ live (w_registry w') ++ reg_closed (w_registry w') /\
  (last SessionsDemo.actions = Some Stop -> entries (w_registry w') = ∅).
Proof.
  intros w'. apply (registry_accounts (SH := SessionsDemo.host) (SL := SessionsDemo.laws)
                      SessionsDemo.actions SessionsDemo.start w').
  - reflexivity.
  - reflexivity.
  - reflexivity.
  - vm_compute. reflexivity.
Defined.

Lemma session_isolation_witness :
  w_sessions (handle_session_request (SH := SessionsDemo.host) 2 (SessionsDemo.head "DELETE" SessionsDemo.first_id)
                EmptyString SessionsDemo.two_sessions).1 !! 1 = Some SessionsDemo.second_session.
Proof.
  apply (session_isolation (AP := SessionsDemo.application) (CL := SessionsDemo.closed_laws)
           HttpDemo.server_options SessionsDemo.closed_fn).
  - vm_compute. reflexivity.
  - vm_compute. apply not_elem_of_nil.
  - vm_compute. discriminate.
Defined.
End witnesses.
