(* ===== verification/ServerHub.v ===== *)
(** * One server, many HTTP sessions

    A [Server] (src/server/server.cpp) behind an [HttpSessionServer]
    (src/transport/http_session_server.cpp): the interfaces [Sessions] of
    Server.v and [SessionHost] of HttpSessions.v, discharged by the same state,
    so that what a handler does to the server it does for every session.

    A session that runs is taken out of the table, with the rest of the program
    beside its transport, and put back when it calls the server's handlers or
    returns. *)

From S2P Require Import Prelude Json Core Types Message Protocol State Router Session.
From S2P Require Import Pagination Registry ToolRegistry PromptProvider ResourceProvider Logging Server Program.
From S2P Require Import Lines Decimal Chunked Http Sse SseChannel HttpEndpoint PostCapture HttpServer HttpSessions.

(** ** Sessions of the HTTP server *)

Section factory.
Context {HT HR HP K SId W : Type} `{!EqDecision SId} `{!Sessions HT HR HP K SId W}.

(** The session factory, and what is done when a session has been closed. *)
Definition http_session_factory : st W SId :=
  s ← gets server_of;
  sid ← create_session (server_options s);
  _ ← Server.attach sid;
  mret sid.

Definition http_session_closed (sid : SId) : st W unit := on_server (detach sid).
End factory.

(** ** The state *)

(** A session over another transport. *)
Definition retype {T T' U V K} (t : T') (s : Session T U V K) : Session T' U V K :=
  mkSession (kind s) t (session_router s) (state s) (next_request_id s) (timers s) (cancellations s)
    (Session.peer s) (hooks s) (slots s) (trace s).

Section hub.
Context {HT HR HP SK V C : Type} {JT : JsonText}.
#[local] Abbreviation server := (Server HT HR HP SK nat).
#[local] Abbreviation Sess := (Session SessionTransport ServerHandler V C).

(** [hub_captures]: the table of captures is the process's; a session's copy
    counts while it runs. *)
Record Hub : Type := mkHub {
  hub_server : server;
  hub_registry : Registry nat;
  hub_captures : Captures;
  hub_sessions : list Sess;
  hub_random : list (list Z);
}.

Definition with_hub_server (s : server) (h : Hub) : Hub := mkHub s (hub_registry h) (hub_captures h) (hub_sessions h) (hub_random h).
Definition with_hub_registry (r : Registry nat) (h : Hub) : Hub := mkHub (hub_server h) r (hub_captures h) (hub_sessions h) (hub_random h).
Definition with_hub_captures (c : Captures) (h : Hub) : Hub := mkHub (hub_server h) (hub_registry h) c (hub_sessions h) (hub_random h).
Definition with_hub_sessions (l : list Sess) (h : Hub) : Hub := mkHub (hub_server h) (hub_registry h) (hub_captures h) l (hub_random h).

(** A session that runs: its number and the rest. *)
#[local] Abbreviation Running := (Session (SessionTransport * (nat * Hub)) ServerHandler V C).

Definition with_own_captures (c : Captures) (t : SessionTransport) : SessionTransport :=
  mkSessionTransport (stp_channel t) (stp_closed t) c.

Definition enter (sid : nat) (h : Hub) : option Running :=
  s ← hub_sessions h !! sid;
  Some (retype (with_own_captures (hub_captures h) (transport s), (sid, h)) s).

Definition leave (r : Running) : Hub :=
  let '(t, (sid, h)) := transport r in
  with_hub_captures (stp_captures t) (with_hub_sessions (<[sid := retype t r]> (hub_sessions h)) h).

(** Calls between the two; the pointer to a session that is not there dangles. *)
Definition on_session {A} (sid : nat) (m : st Running A) : st Hub A := fun h =>
  match enter sid h with
  | Some r => let '(r', x) := m r in (leave r', x)
  | None => (h, Undefined)
  end.

Definition in_hub {A} (m : st Hub A) : st Running A := fun r =>
  let '(h, x) := m (leave r) in
  match enter (transport r).2.1 h with
  | Some r' => (r', x)
  | None => (r, Undefined)
  end.

(** ** The server's sessions *)

(** What the application's functions do. *)
Context (tool_fn : HT -> json -> st Hub CallToolResult).
Context (read_fn : HR -> string -> st Hub (Result ReadResourceResult)).
Context (prompt_fn : HP -> json -> st Hub (Result GetPromptResult)).
Context (complete_fn : SK -> string -> st Hub CompleteResult).
Context (notification_fn : V -> option json -> st Hub unit).
Context (response_fn : C -> Result json -> st Hub unit).
Context (progress_fn : C -> ProgressNotification -> st Hub unit).
Context (close_fn : C -> st Hub unit).
Context (error_fn : C -> Error -> st Hub unit).

(** [make_unique<ServerSession>(transport, options)], over the transport made
    for it. *)
Definition new_hub_session (o : ServerOptions) : st Hub nat := fun h =>
  let http := hss_http (reg_options (hub_registry h)) in
  let t := make_session_transport (hso_replay_buffer_size http) (sse_retry_ms http) (hub_captures h) in
  (with_hub_sessions (hub_sessions h ++ [make_session (ServerSession o) t]) h, Val (length (hub_sessions h))).

Definition install_hub (sid : nat) (h : Hub) : Hub :=
  with_hub_sessions (alter (fun s => set_router (install (session_router s)) s) sid (hub_sessions h)) h.

#[export] Instance hub_sessions_of : Sessions HT HR HP SK nat Hub := {|
  server_of := hub_server;
  set_server := with_hub_server;
  session_state sid h := match hub_sessions h !! sid with Some s => state s | None => Shutdown end;
  session_notify sid method params := on_session sid (send_notification method params);
  install_on := install_hub;
  create_session := new_hub_session;
  Server.connect_session sid := on_session sid Session.connect;
  destroy_session sid := on_session sid Session.destroy;
  invoke_tool := tool_fn;
  invoke_read := read_fn;
  invoke_prompt := prompt_fn;
  invoke_complete := complete_fn;
|}.

#[export] Instance hub_application : Application (SessionTransport * (nat * Hub)) ServerHandler V C := {|
  app_request u params := in_hub (serve u params);
  app_notification v params := in_hub (notification_fn v params);
  app_response k r := in_hub (response_fn k r);
  app_progress k n := in_hub (progress_fn k n);
  app_close k := in_hub (close_fn k);
  app_error k e := in_hub (error_fn k e);
|}.

(** ** The HTTP server's sessions *)

(** [SessionTransport::disconnect], with its close handler. *)
Definition close_hub_transport : st Running unit :=
  first_ ← on_transport (fun t => let '(b, t') := session_disconnect t.1 in ((t', t.2), Val b));
  if (first_ : bool) then handle_close else skip.

Definition attach_hub_stream (last_event_id : string) : st Running (option (Z * Z * Z)) :=
  on_transport (fun t =>
    let '(a, ch) := SseChannel.attach last_event_id (stp_channel t.1) in
    ((mkSessionTransport ch (stp_closed t.1) (stp_captures t.1), t.2), Val a)).

(** The device may throw; an id in use counts as a failure of the device. *)
Definition hub_random_words : st Hub (list Z) := fun h =>
  match hub_random h with
  | words :: rest =>
      match entries (hub_registry h) !! generate_session_id words with
      | None => (mkHub (hub_server h) (hub_registry h) (hub_captures h) (hub_sessions h) rest, Val words)
      | Some _ => (h, Throw (ExnStd "random_device"))
      end
  | [] => (h, Throw (ExnStd "random_device"))
  end.

#[export] Instance hub_host : SessionHost Hub nat := {|
  registry_of := hub_registry;
  set_registry := with_hub_registry;
  host_captures := hub_captures;
  set_host_captures := with_hub_captures;
  factory := sid ← http_session_factory; mret (Some sid);
  HttpSessions.connect_session sid := on_session sid Session.connect;
  deliver_to now sid m := on_session sid (handle_message now m);
  disconnect_session sid := on_session sid close_hub_transport;
  on_session_closed := http_session_closed;
  attach_to sid last_event_id := on_session sid (attach_hub_stream last_event_id);
  random_words := hub_random_words;
|}.

(** ** Notifying sessions *)

Lemma send_in_hub m (r : Running) t' x :
  session_send m (transport r).1 = (t', x) ->
  send_message m r = (set_transport (t', (transport r).2) (log (Sent m) r), x).
Proof.
  intros H. unfold send_message, emit, on_transport. rewrite (st_bind_val _ _ r (log (Sent m) r) tt) by done.
  unfold zoom at 1. cbn [t_send paired_transport session_transport]. unfold zoom. change (transport (log (Sent m) r)) with (transport r).
  by rewrite H.
Qed.

#[export] Instance hub_sessions_laws : SessionsLaws (W := Hub).
Proof.
  split. intros sid method params h sid'. cbn [session_state session_notify hub_sessions_of].
  unfold on_session, enter. destruct (hub_sessions h !! sid) as [s|] eqn:Hs; [|done]. cbn [mbind option_bind]. unfold send_notification.
  set (r := retype _ s). destruct (session_send (MNotification (mkNotification method params)) (transport r).1) as [t' x] eqn:E.
  rewrite (send_in_hub _ r t' x E). unfold leave, r.
  cbn [fst snd transport set_transport log retype hub_sessions with_hub_captures with_hub_sessions].
  destruct (decide (sid' = sid)) as [->|Hne]; [|by rewrite list_lookup_insert_ne].
  rewrite Hs. rewrite list_lookup_insert_eq by (by eapply lookup_lt_Some). done.
Qed.

(** A notification, on the channel of one session. *)
Definition queued (m : Message) (text : string) (c : Captures) (s : Sess) : Sess :=
  let t := transport s in
  set_transport (mkSessionTransport (enqueue text (stp_channel t)) (stp_closed t) c) (log (Sent m) s).

Lemma notify_queues sid method params text (h : Hub) s :
  hub_sessions h !! sid = Some s ->
  let m := MNotification (mkNotification method params) in
  serialize_message m = Val text ->
  session_notify sid method params h =
    (with_hub_sessions (<[sid := queued m text (hub_captures h) s]> (hub_sessions h)) h, Val tt).
Proof.
  intros Hs m Ht. cbn [session_notify hub_sessions_of]. unfold on_session, enter. rewrite Hs. cbn [mbind option_bind]. unfold send_notification.
  set (r := retype _ s). fold m.
  rewrite (send_in_hub m r (mkSessionTransport (enqueue text (stp_channel (transport s))) (stp_closed (transport s)) (hub_captures h)) (Val tt)).
  - unfold leave. cbn. by destruct h.
  - unfold session_send. cbn [try_capture m]. by rewrite Ht.
Qed.

(** A broadcast, on the channels of all sessions. *)
Definition broadcast_to (m : Message) (text : string) (c : Captures) (sids : list nat) (l : list Sess) : list Sess :=
  imap (fun i s => if bool_decide (i ∈ sids /\ state s = Operating) then queued m text c s else s) l.

Lemma notify_all method params text (sids : list nat) (h : Hub) :
  let m := MNotification (mkNotification method params) in
  serialize_message m = Val text -> NoDup sids -> Forall (fun sid => exists s, hub_sessions h !! sid = Some s /\ state s = Operating) sids ->
  for_each (fun sid => session_notify sid method params) sids h =
    (with_hub_sessions (broadcast_to m text (hub_captures h) sids (hub_sessions h)) h, Val tt).
Proof.
  intros m Ht. revert h. induction sids as [|sid sids IH]; intros h Hnd Hall.
  - cbn [for_each]. unfold skip, broadcast_to. assert (imap _ (hub_sessions h) = hub_sessions h) as ->; [|by destruct h].
    apply list_eq. intros i. rewrite list_lookup_imap. destruct (hub_sessions h !! i); [|done]. cbn.
    by rewrite bool_decide_eq_false_2 by by intros [?%not_elem_of_nil _].
  - apply NoDup_cons in Hnd as [Hni Hnd]. apply Forall_cons in Hall as [(s & Hs & Hop) Hall]. cbn [for_each].
    rewrite (st_bind_val _ _ _ _ _ (notify_queues sid method params text h s Hs Ht)).
    set (h1 := with_hub_sessions _ h). rewrite (IH h1 Hnd).
    + change (hub_captures h1) with (hub_captures h). change (hub_sessions h1) with (<[sid := queued m text (hub_captures h) s]> (hub_sessions h)).
      assert (forall l, with_hub_sessions l h1 = with_hub_sessions l h) as -> by done. do 2 f_equal.
      apply list_eq. intros i. unfold broadcast_to. rewrite !list_lookup_imap.
      destruct (decide (i = sid)) as [->|Hne].
      * rewrite list_lookup_insert_eq by (by eapply lookup_lt_Some). rewrite Hs. cbn.
        rewrite bool_decide_eq_false_2 by (by intros [? _]). rewrite bool_decide_eq_true_2; [done|]. split; [left|done].
      * rewrite list_lookup_insert_ne by done. destruct (hub_sessions h !! i) as [s'|]; [|done]. cbn. f_equal.
        by rewrite (bool_decide_ext _ (i ∈ sid :: sids /\ state s' = Operating)) by (rewrite elem_of_cons; tauto).
    + apply Forall_forall. intros i Hi. rewrite Forall_forall in Hall. destruct (Hall i Hi) as (s' & ? & ?). exists s'.
      split; [|done]. unfold h1. cbn. rewrite list_lookup_insert_ne; [done|]. by intros ->.
Qed.

(** C16: what the server announces goes to every attached session that is Operating,
    once, onto its own event stream; the other sessions, the registry and the
    server are left as they are. *)
Theorem hub_broadcast method params text (h : Hub) :
  let m := MNotification (mkNotification method params) in
  serialize_message m = Val text -> NoDup (srv_sessions (hub_server h)) ->
  send_notification_if_operating method params h =
    (with_hub_sessions (broadcast_to m text (hub_captures h) (srv_sessions (hub_server h)) (hub_sessions h)) h, Val tt).
Proof.
  intros m Ht Hnd. rewrite broadcast_spec. cbn [server_of session_state hub_sessions_of].
  set (sids := srv_sessions (hub_server h)) in *. rewrite (notify_all method params text _ h Ht).
  - f_equal. f_equal. apply list_eq. intros i. unfold broadcast_to. rewrite !list_lookup_imap.
    destruct (hub_sessions h !! i) as [s|] eqn:Hs; [|done]. cbn. f_equal.
    erewrite bool_decide_ext; [reflexivity|]. rewrite list_elem_of_filter, Hs. tauto.
  - by apply NoDup_filter.
  - apply Forall_forall. intros i [Hi _]%list_elem_of_filter. destruct (hub_sessions h !! i) as [s|]; [by exists s|done].
Qed.

(** ** The registry is the HTTP server's *)

(** The application's functions do not reach into it. *)
Class HubQuiet : Prop := {
  hq_tool u a r : keeps (fun h => hub_registry h = r) (tool_fn u a);
  hq_read u a r : keeps (fun h => hub_registry h = r) (read_fn u a);
  hq_prompt u a r : keeps (fun h => hub_registry h = r) (prompt_fn u a);
  hq_complete u a r : keeps (fun h => hub_registry h = r) (complete_fn u a);
  hq_notification u a r : keeps (fun h => hub_registry h = r) (notification_fn u a);
  hq_response u a r : keeps (fun h => hub_registry h = r) (response_fn u a);
  hq_progress u a r : keeps (fun h => hub_registry h = r) (progress_fn u a);
  hq_close u r : keeps (fun h => hub_registry h = r) (close_fn u);
}.

Context {HQ : HubQuiet}.
#[local] Abbreviation same_registry r := (fun h : Hub => hub_registry h = r).
#[local] Abbreviation registry_beside r := (fun t : SessionTransport * (nat * Hub) => hub_registry t.2.2 = r).
#[local] Abbreviation running_registry r := (fun s : Running => hub_registry (transport s).2.2 = r).

#[local] Hint Extern 1 (keeps _ (modify _)) => by apply keeps_modify : keeps.
#[local] Hint Resolve hq_tool hq_read hq_prompt hq_complete hq_notification hq_response hq_progress hq_close : keeps.

Lemma leave_registry (s : Running) : hub_registry (leave s) = hub_registry (transport s).2.2.
Proof. unfold leave. by destruct (transport s) as [t [sid h]]. Qed.

Lemma on_session_keeps {A} sid (m : st Running A) r : keeps (running_registry r) m -> keeps (same_registry r) (on_session sid m).
Proof.
  intros Hm h Hh. unfold on_session, enter. destruct (hub_sessions h !! sid) as [s|]; [|exact Hh]. cbn [mbind option_bind].
  specialize (Hm (retype (with_own_captures (hub_captures h) (transport s), (sid, h)) s) Hh). destruct (m _) as [s' x]. cbn [fst] in *.
  by rewrite leave_registry.
Qed.

Lemma in_hub_keeps {A} (m : st Hub A) r : keeps (same_registry r) m -> keeps (running_registry r) (in_hub m).
Proof.
  intros Hm s Hs. unfold in_hub. specialize (Hm (leave s)). cbv beta in Hm. rewrite leave_registry in Hm. specialize (Hm Hs).
  destruct (m (leave s)) as [h x]. unfold enter. destruct (hub_sessions h !! _) as [s'|]; [exact Hm|exact Hs].
Qed.

Lemma try_keeps {A B} (m : st Hub (Result A)) (k : A -> st Hub (Result B)) r :
  keeps (same_registry r) m -> (forall a, keeps (same_registry r) (k a)) -> keeps (same_registry r) (try m k).
Proof. intros Hm Hk. unfold try. auto with keeps. Qed.
#[local] Hint Resolve try_keeps : keeps.

Lemma complete_keeps table name argument value r :
  keeps (same_registry r) (complete_with complete_fn table name argument value).
Proof.
  intros h Hh. unfold complete_with. destruct (table !! _) as [k|]; [|exact Hh]. pose proof (hq_complete k value r h Hh) as Hk.
  by destruct (complete_fn k value h).
Qed.
#[local] Hint Resolve complete_keeps : keeps.

Lemma serve_keeps u params r : keeps (same_registry r) (serve u params).
Proof.
  destruct u; cbn [serve]; unfold list_handler, on_server, handle_complete, call_tool, read_resource, get_prompt, complete_prompt,
    complete_resource, empty_result; auto 60 with keeps.
Qed.

#[local] Instance registry_quiet r : Quiet (registry_beside r).
Proof. split; intros; cbn [app_request app_notification app_response app_progress hub_application]; apply in_hub_keeps; auto using serve_keeps with keeps. Qed.

Lemma send_keeps m r : keeps (running_registry r) (send_message m).
Proof.
  intros s Hs. destruct (session_send m (transport s).1) as [t' x] eqn:E. by rewrite (send_in_hub m s t' x E).
Qed.

Lemma message_keeps now m r : keeps (running_registry r) (handle_message now m).
Proof.
  destruct m as [request| |]; [|by apply (keeps_handle_other (registry_beside r))..]. unfold handle_message.
  apply keeps_bind; [destruct (String.eqb _ _); auto with keeps|]. intros _. apply keeps_bind; [apply keeps_gets|].
  intros [e|]; [apply send_keeps|]. unfold dispatch. cbn [call_request owner]. apply keeps_bind; [|intros [x|]; [apply send_keeps|apply keeps_skip]].
  apply keeps_bind; [apply keeps_gets|]. intros [h|]; [|apply keeps_ret].
  apply keeps_bind; [|intros; apply keeps_ret]. apply keeps_catch; [apply (quiet_run_request (registry_beside r))|intros; apply keeps_ret].
Qed.

Lemma close_keeps r : keeps (running_registry r) close_hub_transport.
Proof.
  unfold close_hub_transport. apply keeps_bind.
  - intros s Hs. unfold on_transport, zoom. destruct (session_disconnect _) as [b t']. exact Hs.
  - intros [|]; [|apply keeps_skip]. unfold handle_close, fail_all_pending, emit. apply keeps_bind; [auto with keeps|]. intros _.
    apply keeps_bind; [auto with keeps|]. intros _. apply keeps_bind.
    + apply keeps_bind; [|intros l; apply keeps_for_each; intros x _; apply (keeps_call_callback (registry_beside r))].
      intros s Hs. unfold on_router. by destruct (take_all_pending _).
    + intros _. apply keeps_bind; [apply keeps_gets|]. intros [k|]; [|apply keeps_skip]. apply keeps_bind; [auto with keeps|]. intros _.
      apply in_hub_keeps. apply hq_close.
Qed.

#[export] Instance hub_host_laws : SessionHostLaws Hub nat.
Proof.
  split; try done.
  - intros r. cbn [factory hub_host]. unfold http_session_factory, Server.attach, on_server. cbn [create_session hub_sessions_of].
    apply keeps_bind; [|intros; apply keeps_ret]. apply keeps_bind; [apply keeps_gets|]. intros s.
    apply keeps_bind; [intros h Hh; exact Hh|]. intros sid. apply keeps_bind; [|intros; apply keeps_ret]. auto 20 with keeps.
  - intros sid r. apply on_session_keeps. intros s Hs. exact Hs.
  - intros now sid m r. apply on_session_keeps, message_keeps.
  - intros sid r. apply on_session_keeps, close_keeps.
  - intros sid r. cbn [on_session_closed hub_host]. unfold http_session_closed, on_server. auto with keeps.
  - intros sid l r. apply on_session_keeps. intros s Hs. unfold attach_hub_stream, on_transport, zoom.
    destruct (SseChannel.attach _ _) as [x ch]. exact Hs.
  - intros r h Hh. cbn. unfold hub_random_words. destruct (hub_random h) as [|words rest]; [exact Hh|]. by destruct (_ !! _).
  - intros h h' words. cbn. unfold hub_random_words. destruct (hub_random h) as [|ws rest]; [done|].
    destruct (entries (hub_registry h) !! generate_session_id ws) eqn:E; [done|]. by intros [= <- <-].
Qed.
End hub.
Arguments Hub : clear implicits.

(** ** A concrete hub

    Three sessions are attached, two of them Operating. *)
Module ServerHubDemo.
#[local] Existing Instance BitText.text.

Definition hub : Type := Hub nat nat nat nat nat nat.
Definition tool_fn (u : nat) (arguments : json) : st hub CallToolResult := mret (mkCallToolResult [text_content "done"] false).

Definition sessions : Sessions nat nat nat nat nat hub :=
  hub_sessions_of tool_fn (fun _ _ => lift Undefined) (fun _ _ => lift Undefined) (fun _ _ => lift Undefined).

Definition start : hub :=
  mkHub (make_server "sample" "1.0") (mkRegistry (mkSessionServerOptions default_http_options 0 true) ∅ [] []) (mkCaptures ∅ 0) [] [].

Definition attached : hub := (for_each (fun _ : nat => _ ← http_session_factory (Sessions0 := sessions); skip) [0; 1; 2] start).1.
Definition operating : hub :=
  with_hub_sessions (alter (set_state Operating) 0 (alter (set_state Operating) 2 (hub_sessions attached))) attached.

Definition note : Message := MNotification (mkNotification kNotificationToolsListChanged None).
Definition text : string := match serialize_message note with Val s => s | _ => EmptyString end.

(** How many events the session's stream has. *)
Definition waiting (s : Session SessionTransport ServerHandler nat nat) : nat := length (ring (stp_channel (transport s))).
End ServerHubDemo.

Section server_hub_demo.
#[local] Existing Instances BitText.text ServerHubDemo.sessions.

Lemma hub_broadcast_witness :
  exists h, send_notification_if_operating kNotificationToolsListChanged None ServerHubDemo.operating = (h, Val tt) /\
    ServerHubDemo.waiting <$> hub_sessions h = [1; 0; 1].
Proof.
  eexists. split.
  - apply (hub_broadcast ServerHubDemo.tool_fn (fun _ _ => lift Undefined) (fun _ _ => lift Undefined) (fun _ _ => lift Undefined)
             kNotificationToolsListChanged None ServerHubDemo.text).
    + vm_compute. reflexivity.
    + vm_compute. repeat constructor; set_solver.
  - vm_compute. reflexivity.
Defined.
End server_hub_demo.
