(* ===== verification/HttpClient.v ===== *)
(** * The HTTP client transport

    src/transport/http_client_transport.cpp: a POST for every message sent, and
    the background stream of server events with its reconnection.

    A connection is what the client sees of it: refused, not written to, or a
    list of the waits for bytes that follow.  The class [HttpClientHost] is the
    rest of the program: the network and the installed handlers. *)

From S2P Require Import Prelude Json Core Types Message State Lines Decimal Chunked Http Sse.

(** ** State *)

Record HttpClientOptions : Type := mkHttpClientOptions {
  hco_host : string;
  hco_port : Z;
  hco_path : string;
  hco_headers : HeaderList;        (** a [std::map]: sorted by name *)
  hco_origin : option string;
  reconnect_delay_ms : Z;
  max_reconnect_attempts : Z;
  open_sse_stream : bool;
}.

Record HttpClient : Type := mkHttpClient {
  hc_options : HttpClientOptions;
  hc_running : bool;
  close_emitted : bool;
  hc_session_id : string;
  last_event_id : string;
  hc_retry_ms : Z;
}.

Definition make_http_client (o : HttpClientOptions) : HttpClient :=
  mkHttpClient o false false EmptyString EmptyString (reconnect_delay_ms o).

Definition set_running (b : bool) (c : HttpClient) : HttpClient :=
  mkHttpClient (hc_options c) b (close_emitted c) (hc_session_id c) (last_event_id c) (hc_retry_ms c).
Definition set_close_emitted (c : HttpClient) : HttpClient :=
  mkHttpClient (hc_options c) (hc_running c) true (hc_session_id c) (last_event_id c) (hc_retry_ms c).
Definition set_session_id (sid : string) (c : HttpClient) : HttpClient :=
  mkHttpClient (hc_options c) (hc_running c) (close_emitted c) sid (last_event_id c) (hc_retry_ms c).
Definition set_last_event_id (id : string) (c : HttpClient) : HttpClient :=
  mkHttpClient (hc_options c) (hc_running c) (close_emitted c) (hc_session_id c) id (hc_retry_ms c).
Definition set_retry_ms (ms : Z) (c : HttpClient) : HttpClient :=
  mkHttpClient (hc_options c) (hc_running c) (close_emitted c) (hc_session_id c) (last_event_id c) ms.

(** ** Connections *)

(** A wait for bytes: some arrive; the wait times out, fails or the transport is
    being stopped; the stream has ended or failed. *)
Inductive client_read := Ready (chunk : string) | Quit | Closed.

Inductive Connection := Refused (reason : string) | WriteFailed | Open (reads : list client_read).

Class HttpClientHost (W : Type) := {
  http_of : W -> HttpClient;
  put_http : HttpClient -> W -> W;
  (** open a connection, write a request, and what can be read then *)
  exchange : string -> st W Connection;
  http_message : Message -> st W unit;
  http_error : Error -> st W unit;
  http_close : st W unit;
}.

(** ** Requests *)

Definition host_header (o : HttpClientOptions) : string := hco_host o +:+ ":" +:+ to_string (hco_port o).

Definition opt_header (name : string) (value : option string) : HeaderList :=
  match value with Some v => [(name, v)] | None => [] end.
Definition set_header (name value : string) : HeaderList :=
  if String.eqb value EmptyString then [] else [(name, value)].

Definition post_headers (c : HttpClient) : HeaderList :=
  let o := hc_options c in
  [("Host", host_header o); ("Content-Type", "application/json"); ("Accept", "application/json, text/event-stream");
   ("MCP-Protocol-Version", kProtocolVersion); ("Connection", "close")] ++
  opt_header "Origin" (hco_origin o) ++ set_header "Mcp-Session-Id" (hc_session_id c) ++ hco_headers o.

Definition post_request (c : HttpClient) (body : string) : string :=
  serialize_request "POST" (hco_path (hc_options c)) (post_headers c) body.

Definition post_message (c : HttpClient) (body : string) : Http.http_message :=
  HttpRequest "POST" (hco_path (hc_options c)) (post_headers c) body.

Definition get_headers (c : HttpClient) : HeaderList :=
  let o := hc_options c in
  [("Host", host_header o); ("Accept", "text/event-stream"); ("MCP-Protocol-Version", kProtocolVersion);
   ("Cache-Control", "no-cache")] ++
  opt_header "Origin" (hco_origin o) ++ set_header "Last-Event-ID" (last_event_id c) ++
  set_header "Mcp-Session-Id" (hc_session_id c) ++ hco_headers o.

Definition get_request (c : HttpClient) : string :=
  serialize_request "GET" (hco_path (hc_options c)) (get_headers c) EmptyString.

Definition delete_request (c : HttpClient) : string :=
  let o := hc_options c in
  serialize_request "DELETE" (hco_path o)
    [("Host", host_header o); ("Mcp-Session-Id", hc_session_id c); ("MCP-Protocol-Version", kProtocolVersion);
     ("Connection", "close")] EmptyString.

(** ** Reading a response *)

(** [HeadWaiting]: still blocked; [HeadQuit]: given up without a word. *)
Inductive head_read :=
| HeadWaiting | HeadQuit | HeadClosed | HeadBad (error : string)
| HeadRead (head : HttpHead) (rest : string) (reads : list client_read).

Fixpoint read_head (reads : list client_read) (buffer : string) : outcome head_read :=
  match reads with
  | [] => Val HeadWaiting
  | Quit :: _ => Val HeadQuit
  | Closed :: _ => Val HeadClosed
  | Ready chunk :: reads =>
      let buffer := buffer +:+ chunk in
      r ← parse_head buffer false;
      match r with
      | HeadOk head consumed => Val (HeadRead head (str_drop consumed buffer) reads)
      | HeadError e => Val (HeadBad e)
      | HeadIncomplete => read_head reads buffer
      end
  end.

Inductive body_read := BodyWaiting | BodyQuit | BodyBad (error : string) | BodyRead (body : string).

(** A body of known length, then one that ends with the stream. *)
Fixpoint read_length (reads : list client_read) (expected : Z) (buffer : string) : body_read :=
  if (expected <=? Z.of_nat (size buffer))%Z then BodyRead (str_take (Z.to_nat expected) buffer)
  else
    match reads with
    | [] => BodyWaiting
    | Quit :: _ => BodyQuit
    | Closed :: _ => BodyBad "truncated HTTP response body"
    | Ready chunk :: reads => read_length reads expected (buffer +:+ chunk)
    end.

Fixpoint read_to_end (reads : list client_read) (buffer : string) : body_read :=
  match reads with
  | [] => BodyWaiting
  | Quit :: _ => BodyQuit
  | Closed :: _ => BodyRead buffer
  | Ready chunk :: reads => read_to_end reads (buffer +:+ chunk)
  end.

(** A chunked body: the decoder, its buffer and what it decoded so far.
    [feed_config] always answers (Chunked.v). *)
Fixpoint read_chunked (reads : list client_read) (c : config) : body_read :=
  match feed_config c with
  | Some (Done, (_, _, out)) => BodyRead out
  | Some (DecodeError, _) => BodyBad "malformed chunked encoding"
  | Some (NeedMore, (d, buffer, out)) =>
      match reads with
      | [] => BodyWaiting
      | Quit :: _ => BodyQuit
      | Closed :: _ => BodyBad "truncated HTTP response body"
      | Ready chunk :: reads => read_chunked reads (d, buffer +:+ chunk, out)
      end
  | None => BodyWaiting
  end.

Definition read_body (head : HttpHead) (reads : list client_read) (rest : string) : body_read :=
  if header_contains head "transfer-encoding" "chunked" then read_chunked reads (new_decoder, rest, EmptyString)
  else
    let length := header head "content-length" in
    if String.eqb length EmptyString then read_to_end reads rest
    else read_length reads (strtoull length) rest.

(** ** Operations *)

Section operations.
Context {W : Type} {JT : JsonText} {HW : HttpClientHost W}.

Definition on_http (f : HttpClient -> HttpClient) : st W unit := modify (fun w => put_http (f (http_of w)) w).
Definition http_internal (message : string) : st W unit := http_error (error InternalError message).

Definition emit_close : st W unit :=
  c ← gets http_of;
  if close_emitted c then skip else _ ← on_http set_close_emitted; http_close.

Definition deliver_frame (payload : string) : st W unit :=
  if String.eqb payload EmptyString then skip
  else
    frame ← lift (parse_frame payload);
    match frame with
    | Err e => http_error e
    | Ok f => _ ← for_each http_error (pf_item_errors f); for_each http_message (pf_messages f)
    end.

(** The event stream of a POST response, after what came with the head. *)
Fixpoint post_events (reads : list client_read) (chunk : string) (parser : SseParser) : st W unit :=
  r ← lift (Sse.feed chunk parser);
  _ ← for_each (fun event => deliver_frame (sse_data event)) r.1;
  match reads with
  | Ready chunk :: reads => post_events reads chunk r.2
  | _ => skip
  end.

Definition bad_status (head : HttpHead) : st W unit :=
  c ← gets http_of;
  let expired := (status head =? 404)%Z && negb (String.eqb (hc_session_id c) EmptyString) in
  _ ← (if expired then on_http (set_session_id EmptyString) else skip);
  http_internal ("HTTP " +:+ to_string (status head) +:+ " " +:+ reason head +:+
                 (if expired then " (session expired - reinitialize)" else EmptyString)).

Definition take_session_id (head : HttpHead) : st W unit :=
  let sid := header head "mcp-session-id" in
  if String.eqb sid EmptyString then skip else on_http (set_session_id sid).

Definition is_event_stream (head : HttpHead) : bool := header_contains head "content-type" "text/event-stream".

(** The response to a POST, once its head is there. *)
Definition post_response (head : HttpHead) (rest : string) (reads : list client_read) : st W unit :=
  _ ← take_session_id head;
  if (status head =? 202)%Z then skip
  else if negb (status head =? 200)%Z then bad_status head
  else if is_event_stream head then post_events reads rest new_parser
  else
    match read_body head reads rest with
    | BodyWaiting | BodyQuit => skip
    | BodyBad e => http_internal e
    | BodyRead body => deliver_frame body
    end.

Definition post_read (reads : list client_read) : st W unit :=
  h ← lift (read_head reads EmptyString);
  match h with
  | HeadWaiting | HeadQuit => skip
  | HeadClosed => http_internal "connection closed before HTTP response"
  | HeadBad e => http_internal ("malformed HTTP response: " +:+ e)
  | HeadRead head rest reads => post_response head rest reads
  end.

Definition post_payload (body : string) : st W unit :=
  c ← gets http_of;
  connection ← exchange (post_request c body);
  match connection with
  | Refused reason => http_internal ("http connect failed: " +:+ reason)
  | WriteFailed => http_internal "http write failed"
  | Open reads => post_read reads
  end.

Definition http_client_send (m : Message) : st W unit := body ← lift (serialize_message m); post_payload body.
Definition http_client_send_batch (ms : list Message) : st W unit := body ← lift (serialize_batch ms); post_payload body.

(** *** The background stream *)

Definition stream_event (event : SseEvent) : st W unit :=
  _ ← match retry_ms event with Some ms => on_http (set_retry_ms ms) | None => skip end;
  _ ← match sse_id event with Some id => on_http (set_last_event_id id) | None => skip end;
  deliver_frame (sse_data event).

(** Returns whether any event was delivered; an exhausted list is a stream
    still open. *)
Fixpoint stream_events (reads : list client_read) (chunk : string) (parser : SseParser) (delivered : bool) : st W bool :=
  r ← lift (Sse.feed chunk parser);
  _ ← for_each stream_event r.1;
  let delivered := delivered || negb (bool_decide (r.1 = [])) in
  match reads with
  | Ready chunk :: reads => stream_events reads chunk r.2 delivered
  | _ => mret delivered
  end.

Definition run_sse_once : st W bool :=
  c ← gets http_of;
  connection ← exchange (get_request c);
  match connection with
  | Refused _ | WriteFailed => mret false
  | Open reads =>
      h ← lift (read_head reads EmptyString);
      match h with
      | HeadRead head rest reads =>
          if negb (status head =? 200)%Z || negb (is_event_stream head) then mret false
          else stream_events reads rest new_parser false
      | _ => mret false
      end
  end.

(** [sse_loop], for so many rounds: between two of them the thread sleeps until
    the delay is over or the transport is stopped.  [++failures] is an [int]. *)
Fixpoint sse_loop (rounds : nat) (failures : Z) : st W unit :=
  match rounds with
  | O => skip
  | S rounds =>
      c ← gets http_of;
      if negb (hc_running c) then skip
      else
        delivered ← run_sse_once;
        c ← gets http_of;
        let again failures := if hc_running c then sse_loop rounds failures else skip in
        if (delivered : bool) then again 0%Z
        else if String.eqb (hc_session_id c) EmptyString then sse_loop rounds failures
        else if (failures + 1 =? modulus 31)%Z then lift Undefined
        else
          let failures := (failures + 1)%Z in
          let limit := max_reconnect_attempts (hc_options c) in
          if (0 <? limit)%Z && (limit <=? failures)%Z then
            _ ← http_internal ("SSE stream: giving up after " +:+ to_string failures +:+ " failures");
            emit_close
          else again failures
  end.

(** *** Starting and stopping

    [wake_ok]: the wake event could be created.  The result says whether the
    thread that runs [sse_loop] is started. *)
Definition http_client_connect (wake_ok : bool) : st W bool :=
  c ← gets http_of;
  if hc_running c then mret false
  else
    _ ← on_http (set_running true);
    if wake_ok then mret (open_sse_stream (hc_options c))
    else _ ← on_http (set_running false); _ ← http_internal "failed to create wake event"; mret false.

Definition send_session_delete : st W unit :=
  c ← gets http_of;
  if String.eqb (hc_session_id c) EmptyString then skip else _ ← exchange (delete_request c); skip.

Definition http_client_disconnect : st W unit :=
  c ← gets http_of;
  if hc_running c then _ ← on_http (set_running false); send_session_delete else skip.
End operations.

(** ** Heads and bodies arrive whole *)

Lemma read_head_message m chunks reads buffer :
  wf_http m -> is_request m = false ->
  buffer +:+ foldr String.append EmptyString chunks = message_text m ->
  size buffer < size (head_text (message_lines m)) ->
  exists rest chunks',
    read_head ((Ready <$> chunks) ++ reads) buffer =
      Val (HeadRead (message_head m) rest ((Ready <$> chunks') ++ reads)) /\
    rest +:+ foldr String.append EmptyString chunks' = message_body m.
Proof.
  intros Hm Hq. set (n := size (head_text (message_lines m))). revert buffer.
  induction chunks as [|c chunks IH]; intros buffer Hb Hlt.
  { cbn [foldr] in Hb. rewrite str_app_nil_r, message_text_lines in Hb. subst buffer. rewrite size_app in Hlt. lia. }
  cbn [foldr] in Hb. rewrite <- str_app_assoc in Hb. rewrite fmap_cons. cbn [app read_head].
  destruct (decide (size (buffer +:+ c) < n)) as [Hlt'|Hge].
  - assert (buffer +:+ c = str_take (size (buffer +:+ c)) (message_text m)) as Eb by (by rewrite <- Hb, str_take_app_size).
    assert (parse_head (buffer +:+ c) false = Val HeadIncomplete) as ->.
    { rewrite Eb, <- Hq. by apply parse_head_prefix. }
    cbn [mbind outcome_bind]. by apply IH.
  - assert (buffer +:+ c = head_text (message_lines m) +:+ str_drop n (buffer +:+ c)) as Eb.
    { rewrite <- (str_take_drop n (buffer +:+ c)) at 1. f_equal.
      rewrite <- (str_take_app_le n _ (foldr String.append EmptyString chunks)), Hb by lia.
      rewrite message_text_lines. apply str_take_app_size. }
    assert (parse_head (buffer +:+ c) false = Val (HeadOk (message_head m) n)) as ->.
    { rewrite Eb, <- Hq. by apply parse_head_message. }
    cbn [mbind outcome_bind]. exists (str_drop n (buffer +:+ c)), chunks. split; [done|].
    rewrite Eb, message_text_lines, str_app_assoc in Hb. apply (f_equal (str_drop n)) in Hb.
    unfold n in Hb at 1 3. by rewrite !str_drop_app_size in Hb.
Qed.

Lemma read_length_chunks chunks reads buffer body :
  buffer +:+ foldr String.append EmptyString chunks = body ->
  read_length ((Ready <$> chunks) ++ reads) (Z.of_nat (size body)) buffer = BodyRead body.
Proof.
  revert buffer. induction chunks as [|c chunks IH]; intros buffer Hb.
  - cbn [foldr] in Hb. rewrite str_app_nil_r in Hb. subst body. cbn [fmap list_fmap app].
    assert (str_take (Z.to_nat (Z.of_nat (size buffer))) buffer = buffer) as E.
    { rewrite Nat2Z.id. rewrite <- (str_app_nil_r buffer) at 2. apply str_take_app_size. }
    destruct reads as [|[]]; cbn [read_length]; by rewrite Z.leb_refl, E.
  - rewrite fmap_cons. cbn [app read_length]. destruct (Z.leb_spec (Z.of_nat (size body)) (Z.of_nat (size buffer))) as [Hle|Hgt].
    + f_equal. rewrite <- Hb in Hle |- *. rewrite size_app in Hle.
      destruct (foldr String.append EmptyString (c :: chunks)) eqn:E; [|cbn in Hle; lia].
      rewrite str_app_nil_r, Nat2Z.id. rewrite <- (str_app_nil_r buffer) at 2. apply str_take_app_size.
    + apply IH. by rewrite str_app_assoc.
Qed.

(** Once the head is there, whatever the cut, [post_read] goes on with it and
    the rest. *)
Section post_read.
Context {W : Type} {JT : JsonText} {HW : HttpClientHost W}.

Lemma head_nonempty m : 0 < size (head_text (message_lines m)).
Proof. unfold message_lines, head_text. cbn [foldr]. unfold line. rewrite !size_app. change (size CRLF) with 2. lia. Qed.

Lemma post_read_message m chunks reads (w : W) :
  wf_http m -> is_request m = false -> foldr String.append EmptyString chunks = message_text m ->
  exists rest chunks', post_read ((Ready <$> chunks) ++ reads) w =
      post_response (message_head m) rest ((Ready <$> chunks') ++ reads) w /\
    rest +:+ foldr String.append EmptyString chunks' = message_body m.
Proof.
  intros Hm Hq Hc.
  destruct (read_head_message m chunks reads EmptyString Hm Hq Hc (head_nonempty m)) as (rest & chunks' & Hr & Hb).
  exists rest, chunks'. split; [|done]. unfold post_read. rewrite Hr. done.
Qed.

(** What a plain answer comes to: its body is delivered, or it says nothing, or
    it is an error. *)
Lemma post_read_plain status reason hs body chunks reads (w : W) :
  let m := HttpResponse status reason hs body false in
  wf_http m -> is_event_stream (message_head m) = false ->
  header_contains (message_head m) "transfer-encoding" "chunked" = false ->
  (Z.of_nat (size body) < modulus 64)%Z ->
  foldr String.append EmptyString chunks = message_text m ->
  post_read ((Ready <$> chunks) ++ reads) w =
    (_ ← take_session_id (message_head m);
     if (status =? 202)%Z then skip else if (status =? 200)%Z then deliver_frame body else bad_status (message_head m)) w.
Proof.
  intros m Hm Hes Hte Hsz Hc. destruct (post_read_message m chunks reads w Hm eq_refl Hc) as (rest & chunks' & -> & Hb).
  unfold post_response. rewrite Hes. change (Http.status (message_head m)) with status.
  destruct (Z.eqb_spec status 202) as [->|_]; [done|]. destruct (Z.eqb_spec status 200) as [->|_]; [|done]. cbn [negb].
  unfold read_body. rewrite Hte.
  assert (header (message_head m) "content-length" = to_string (Z.of_nat (size body))) as ->.
  { unfold header. cbn [message_head all_headers headers m]. unfold set_headers. rewrite foldl_app. cbn [foldl length_header fst snd].
    change (to_lower "Content-Length") with "content-length". by rewrite lookup_insert_eq. }
  destruct (to_string_digits (Z.of_nat (size body)) ltac:(lia)) as [_ Hne].
  rewrite (proj2 (String.eqb_neq _ _) Hne).
  pose proof (strtoull_to_string (Z.of_nat (size body)) EmptyString ltac:(lia) eq_refl) as Hl.
  rewrite str_app_nil_r in Hl. rewrite Hl, (read_length_chunks _ _ _ body) by exact Hb. done.
Qed.

(** Without a session id, an answer of status 200 or 202 is delivered. *)
Lemma post_read_reply status reason hs body chunks reads (w : W) :
  let m := HttpResponse status reason hs body false in
  wf_http m -> header (message_head m) "mcp-session-id" = EmptyString ->
  is_event_stream (message_head m) = false ->
  header_contains (message_head m) "transfer-encoding" "chunked" = false ->
  (Z.of_nat (size body) < modulus 64)%Z ->
  foldr String.append EmptyString chunks = message_text m ->
  (status = 202%Z -> post_read ((Ready <$> chunks) ++ reads) w = (w, Val tt)) /\
  (status = 200%Z -> post_read ((Ready <$> chunks) ++ reads) w = deliver_frame body w).
Proof.
  intros m Hm Hsid Hes Hte Hsz Hc. rewrite (post_read_plain status reason hs body chunks reads w) by done. fold m.
  unfold take_session_id. rewrite Hsid. by split; intros ->.
Qed.
End post_read.

(** ** A concrete client

    The connections it will get, the requests it wrote and what it heard. *)
Record ClientWorld : Type := mkClientWorld {
  cw_http : HttpClient;
  cw_connections : list Connection;
  cw_requests : list string;
  cw_heard : list (Message + Error);
}.

Definition next_connection (request : string) : st ClientWorld Connection := fun w =>
  match cw_connections w with
  | [] => (mkClientWorld (cw_http w) [] (cw_requests w ++ [request]) (cw_heard w), Val (Refused "no server"))
  | c :: cs => (mkClientWorld (cw_http w) cs (cw_requests w ++ [request]) (cw_heard w), Val c)
  end.

Definition hear (x : Message + Error) : st ClientWorld unit :=
  modify (fun w => mkClientWorld (cw_http w) (cw_connections w) (cw_requests w) (cw_heard w ++ [x])).

#[export] Instance client_world : HttpClientHost ClientWorld := {|
  http_of := cw_http;
  put_http c w := mkClientWorld c (cw_connections w) (cw_requests w) (cw_heard w);
  exchange := next_connection;
  http_message m := hear (inl m);
  http_error e := hear (inr e);
  http_close := skip;
|}.
