(* ===== verification/HttpLink.v ===== *)
(** * HTTP, end to end

    The client transport of HttpClient.v against the server transport of
    HttpServer.v: a message sent is handled on the server, and the answers to
    it are handled on the client. *)

From S2P Require Import Prelude Json Core Types Message Protocol State Router Session.
From S2P Require Import Lines Decimal Chunked Http Sse SseChannel HttpEndpoint PostCapture HttpServer HttpClient.

(** ** The client's requests are well formed *)

(** Options a request line and header lines can carry. *)
Record wf_client (c : HttpClient) : Prop := mkWfClient {
  wc_path : no_space (hco_path (hc_options c)) /\ single_line (hco_path (hc_options c));
  wc_headers : Forall wf_header (post_headers c);
  wc_length : existsb (fun h => String.eqb (to_lower h.1) "content-length") (hco_headers (hc_options c)) = false;
}.

Lemma post_message_wf c body : wf_client c -> wf_http (post_message c body).
Proof. by intros [[? ?] ? _]. Qed.

Lemma post_message_length c body :
  wf_client c -> (Z.of_nat (size body) < modulus 64)%Z -> declares_length (post_message c body).
Proof.
  intros [_ _ Hl] Hs. apply declares_length_request; [|by right|done].
  unfold post_headers. rewrite !existsb_app, Hl, orb_false_r. unfold opt_header, set_header.
  by destruct (hco_origin _), (String.eqb _ EmptyString).
Qed.

Section http_call.
Context {JT : JsonText} {T U V K : Type} {TR : Transport T} {HI : HttpIn T} {HIL : HttpInLaws T} {AP : Application T U V K}.
#[local] Abbreviation Sess := (Session T U V K).
Context {HS : SendsNoResponses (T := T) (U := U) (V := V) (K := K)} {JL : JsonTextLaws}.
Context {W : Type} {HW : HttpClientHost W}.

Lemma deliver_frame_messages body ms as_batch (w : W) :
  body <> EmptyString -> parse_frame body = Val (Ok (mkFrame ms [] as_batch)) ->
  deliver_frame body w = for_each http_message ms w.
Proof.
  intros Hne Hp. unfold deliver_frame. rewrite (proj2 (String.eqb_neq _ _) Hne). unfold lift. by rewrite Hp.
Qed.

(** An answer of the server to a POST is read back, however it is cut. *)
Lemma post_read_answer frame chunks reads (s s' : Sess) now reply (w : W) :
  answer_post (HW := http_host now) frame [] s = (s', Val reply) ->
  (pf_was_batch frame = false -> length (ids_to_answer frame) <= 1) ->
  (Z.of_nat (size (reply_body reply)) < modulus 64)%Z ->
  foldr String.append EmptyString chunks = write_simple reply ->
  exists rs, rsp_id <$> rs = ids_to_answer frame /\
    (Forall good_message (MResponse <$> rs) ->
     post_read ((Ready <$> chunks) ++ reads) w = for_each http_message (normalize_message <$> (MResponse <$> rs)) w).
Proof.
  intros Ha Hone Hsz Hc. destruct (answer_post_spec frame [] s s' reply Ha) as (rs & Hids & Hreply & _).
  exists rs. split; [done|]. intros Hg. case_decide as Hrs.
  - subst rs reply.
    destruct (post_read_reply 202 "Accepted" (reply_headers (accepted [])) EmptyString chunks reads w) as [H _];
      [exact accepted_wf|reflexivity|reflexivity|reflexivity|done|exact Hc|by apply H].
  - destruct Hreply as (text & Hd & ->).
    destruct (body_parses (pf_was_batch frame) rs text Hrs) as [Hne Hp]; [|done|done|].
    { intros Hb%Hone. rewrite <- Hids, length_fmap in Hb. destruct rs as [|? [|]]; [done|done|]. cbn in Hb. lia. }
    rewrite <- (deliver_frame_messages text _ _ w Hne Hp).
    destruct (post_read_reply 200 "OK" (reply_headers (answered text [])) text chunks reads w) as [_ H];
      [exact (answered_wf text)|reflexivity|reflexivity|reflexivity|exact Hsz|exact Hc|by apply H].
Qed.

(** Sending a message over HTTP, end to end: the client's POST, however it
    is cut into reads, reaches the server's handler whole; when the server has
    answered, the answer, however it is cut, hands the client's message handler
    exactly the response the server's session sent to the request, and nothing
    at all if the message was not a request. *)
Theorem http_call now o m body chunks reads chunks' reads' (w w1 : W) (s s' : Sess) reply :
  let post := post_message (http_of w) body in
  good_message m -> serialize_message m = Val body -> wf_client (http_of w) -> passes o (message_head post) ->
  (Z.of_nat (size body) < modulus 64)%Z ->
  foldr String.append EmptyString chunks = post_request (http_of w) body ->
  handle_request now (message_head post) body s = (s', Val (Plain reply)) ->
  (Z.of_nat (size (reply_body reply)) < modulus 64)%Z ->
  foldr String.append EmptyString chunks' = write_simple reply ->
  exchange (post_request (http_of w) body) w = (w1, Val (Open ((Ready <$> chunks') ++ reads'))) ->
  handle_connection o ((Bytes <$> chunks) ++ reads) = Val (Received (message_head post) body) /\
  exists rs, rsp_id <$> rs = match m with MRequest r => [Some (req_id r)] | _ => [] end /\
    (Forall good_message (MResponse <$> rs) ->
     http_client_send m w = for_each http_message (normalize_message <$> (MResponse <$> rs)) w1).
Proof.
  intros post [Hwf Hdump] Hser Hc Hp Hsz Hchunks Hh Hrsz Hchunks' Hx. split.
  { apply (receive_message o post); [by apply post_message_wf|done|done|by apply post_message_length|done]. }
  destruct (serialize_message_line m Hwf Hdump) as (body' & Hs' & _ & _ & _ & Hf).
  rewrite Hser in Hs'. injection Hs' as <-.
  destruct (handle_post now (message_head post) body _ s s' (Plain reply) eq_refl Hf Hh) as (r & [= <-] & Ha).
  destruct (post_read_answer _ chunks' reads' s s' now reply w1 Ha) as (rs & Hids & Hread); [intros _; destruct m; cbn; lia|done|done|].
  exists rs. split; [rewrite Hids; by destruct m|]. intros Hg. rewrite <- Hread by done.
  unfold http_client_send, post_payload, lift. rewrite Hser. run. fold post.
  match goal with |- context [exchange ?r w] => change (exchange r w) with (exchange (post_request (http_of w) body) w) end.
  by rewrite Hx.
Qed.
End http_call.

(** ** A concrete exchange *)

Module HttpLinkDemo.
#[local] Existing Instances BitText.text BitText.laws HttpDemo.application HttpDemo.quiet.

Definition options : HttpClientOptions := mkHttpClientOptions "127.0.0.1" 3001 "/mcp" [] None 1000 5 true.
Definition http : HttpClient := make_http_client options.
Definition post : Http.http_message := post_message http HttpDemo.ping_text.

Definition handled := handle_request 0 (message_head post) HttpDemo.ping_text HttpDemo.session.
Definition reply : Reply := match handled.2 with Val (Plain r) => r | _ => accepted [] end.

(** The answer arrives in two reads. *)
Definition reads : list string := [str_take 20 (write_simple reply); str_drop 20 (write_simple reply)].
Definition world : ClientWorld := mkClientWorld http [Open ((Ready <$> reads) ++ [])] [] [].

Lemma http_wf : wf_client http.
Proof.
  split; [by split| |done].
  repeat (apply Forall_cons_2; [by repeat split|]). apply Forall_nil_2.
Qed.

Lemma http_call_witness :
  handle_connection default_http_options ((Bytes <$> [post_request http HttpDemo.ping_text]) ++ []) =
    Val (Received (message_head post) HttpDemo.ping_text) /\
  exists rs, rsp_id <$> rs = [Some (IdInt 7)] /\
    (Forall good_message (MResponse <$> rs) ->
     http_client_send ping_request world =
       for_each http_message (normalize_message <$> (MResponse <$> rs))
         (mkClientWorld http [] [post_request http HttpDemo.ping_text] [])).
Proof.
  refine (http_call 0 default_http_options ping_request HttpDemo.ping_text [post_request http HttpDemo.ping_text] []
           reads [] world (mkClientWorld http [] [post_request http HttpDemo.ping_text] [])
           HttpDemo.session handled.1 reply _ _ _ _ _ _ _ _ _ _).
  - split; [exact ping_request_wf|reflexivity].
  - reflexivity.
  - exact http_wf.
  - split; [reflexivity|]. split; [vm_compute; reflexivity|exact I].
  - vm_compute. reflexivity.
  - apply str_app_nil_r.
  - vm_compute. reflexivity.
  - vm_compute. reflexivity.
  - vm_compute. reflexivity.
  - vm_compute. reflexivity.
Defined.
End HttpLinkDemo.
