(* ===== verification/HttpPair.v ===== *)
(** * Both ends of the client's connections

    The client transport of HttpClient.v against a server that answers each
    request with a handler of its own: what HttpRemote.v and SessionClient.v
    share.  The requests a server reads are those the client wrote, in any
    division into reads, and so are the replies. *)

From S2P Require Import Prelude Json Core Types Message Protocol State Router Session.
From S2P Require Import Lines Decimal Chunked Http Sse SseChannel HttpEndpoint PostCapture HttpServer HttpClient HttpLink.

Section pair.
Context {JT : JsonText} {S_ : Type}.

(** What the client has been handed is kept until its reader takes it. *)
Record HttpPair : Type := mkHttpPair {
  hp_http : HttpClient;
  hp_server : S_;
  hp_heard : list Message;
  hp_errors : list Error;
}.

Definition put_client (c : HttpClient) (p : HttpPair) : HttpPair := mkHttpPair c (hp_server p) (hp_heard p) (hp_errors p).
Definition put_server (s : S_) (p : HttpPair) : HttpPair := mkHttpPair (hp_http p) s (hp_heard p) (hp_errors p).
Definition add_heard (ms : list Message) (p : HttpPair) : HttpPair := mkHttpPair (hp_http p) (hp_server p) (hp_heard p ++ ms) (hp_errors p).
Definition add_error (e : Error) (p : HttpPair) : HttpPair := mkHttpPair (hp_http p) (hp_server p) (hp_heard p) (hp_errors p ++ [e]).

(** The server's options and handler, and how bytes are cut into reads. *)
Context (o : HttpServerOptions) (handle : HttpHead -> string -> st S_ http_answer) (cut : string -> list string).

(** What the client reads of the connection; the first wait of one that is not
    running ends at once. *)
Definition client_reads (p : HttpPair) (reads : list client_read) : Connection :=
  Open (if hc_running (hp_http p) then reads else [Quit]).

Definition reply_reads (reply : Reply) : list client_read := (Ready <$> cut (write_simple reply)) ++ [Closed].

(** A connection of the client, served.  A stream is not followed. *)
Definition serve_connection (request : string) : st HttpPair Connection := fun p =>
  match handle_connection o (Bytes <$> cut request) with
  | Val (Received head body) =>
      let '(s, r) := handle head body (hp_server p) in
      let p := put_server s p in
      match r with
      | Val (Plain reply) => (p, Val (client_reads p (reply_reads reply)))
      | Val (Streaming _) => (p, Val (client_reads p []))
      | Throw x => (p, Throw x)
      | Undefined => (p, Undefined)
      end
  | Val (Rejected reply) => (p, Val (client_reads p (reply_reads reply)))
  | Val Waiting => (p, Val (client_reads p []))
  | Val Dropped => (p, Val (client_reads p [Closed]))
  | Throw x => (p, Throw x)
  | Undefined => (p, Undefined)
  end.

#[local] Instance pair_host : HttpClientHost HttpPair := {|
  http_of := hp_http;
  put_http := put_client;
  exchange := serve_connection;
  http_message m := modify (add_heard [m]);
  http_error e := modify (add_error e);
  http_close := skip;
|}.

(** The client's end as the transport of a session, and its reader. *)
Definition pair_transport : Transport HttpPair := {|
  t_connect := _ ← http_client_connect true; skip;
  t_disconnect := http_client_disconnect;
  t_send := http_client_send;
  t_send_batch := http_client_send_batch;
|}.

Definition take_heard : st HttpPair (list Message) := fun p => (mkHttpPair (hp_http p) (hp_server p) [] (hp_errors p), Val (hp_heard p)).

Context {JL : JsonTextLaws} (Hcut : forall s, foldr String.append EmptyString (cut s) = s).

(** A request reaches the handler whole. *)
Lemma serve_message m reply (p : HttpPair) s' :
  wf_http m -> is_request m = true -> passes o (message_head m) -> declares_length m ->
  handle (message_head m) (message_body m) (hp_server p) = (s', Val (Plain reply)) ->
  exchange (message_text m) p = (put_server s' p, Val (client_reads p (reply_reads reply))).
Proof.
  intros Hm Hq Hp Hd Hh. cbn [exchange pair_host]. unfold serve_connection. rewrite <- (app_nil_r (Bytes <$> _)). unfold handle_connection.
  rewrite (receive_message o m _ [] EmptyString) by (done || by rewrite Hcut). by rewrite Hh.
Qed.

(** What a message needs to be posted. *)
Record http_ready (c : HttpClient) (m : Message) (body : string) : Prop := mkHttpReady {
  hr_good : good_message m;
  hr_body : serialize_message m = Val body;
  hr_client : wf_client c;
  hr_running : hc_running c = true;
  hr_passes : passes o (message_head (post_message c body));
  hr_size : (Z.of_nat (size body) < modulus 64)%Z;
}.

Lemma http_ready_frame c m body : http_ready c m body -> parse_frame body = Val (Ok (mkFrame [normalize_message m] [] false)).
Proof.
  intros [[Hwf Hdump] Hbody _ _ _ _]. destruct (serialize_message_line m Hwf Hdump) as (body' & Hs & _ & _ & _ & Hf).
  rewrite Hbody in Hs. by injection Hs as <-.
Qed.

(** A message posted: the handler's reply is what the client reads. *)
Lemma send_served m body reply (p : HttpPair) s' :
  http_ready (hp_http p) m body ->
  handle (message_head (post_message (hp_http p) body)) body (hp_server p) = (s', Val (Plain reply)) ->
  http_client_send m p = post_read (reply_reads reply) (put_server s' p).
Proof.
  intros [Hg Hbody Hcl Hrun Hp Hsz] Hh.
  assert (exchange (post_request (hp_http p) body) p = (put_server s' p, Val (Open (reply_reads reply)))) as Hx.
  { change (post_request _ body) with (message_text (post_message (hp_http p) body)).
    rewrite (serve_message _ reply p s') by (done || by apply post_message_wf || by apply post_message_length).
    unfold client_reads. by rewrite Hrun. }
  unfold http_client_send, lift. rewrite Hbody. rewrite (st_bind_val _ _ _ p body) by done.
  unfold post_payload. rewrite (st_bind_val _ _ _ p (hp_http p)) by done. by rewrite (st_bind_val _ _ _ _ _ Hx).
Qed.

(** The headers a reply adds, and what they are to its reader. *)
Definition reply_message (reply : Reply) : Http.http_message :=
  HttpResponse (reply_status reply) (reply_reason reply) (reply_headers reply) (reply_body reply) false.

Record readable (reply : Reply) : Prop := mkReadable {
  rb_wf : wf_reply reply;
  rb_plain : is_event_stream (message_head (reply_message reply)) = false;
  rb_whole : header_contains (message_head (reply_message reply)) "transfer-encoding" "chunked" = false;
  rb_size : (Z.of_nat (size (reply_body reply)) < modulus 64)%Z;
}.

Lemma read_reply reply (p : HttpPair) :
  readable reply ->
  post_read (reply_reads reply) p =
    (_ ← take_session_id (message_head (reply_message reply));
     if (reply_status reply =? 202)%Z then skip
     else if (reply_status reply =? 200)%Z then deliver_frame (reply_body reply)
     else bad_status (message_head (reply_message reply))) p.
Proof. intros []. apply post_read_plain; done. Qed.

Lemma hear_messages ms (p : HttpPair) : for_each http_message ms p = (add_heard ms p, Val tt).
Proof.
  revert p. induction ms as [|m ms IH]; intros p.
  - destruct p as [c s h e]. unfold add_heard. cbn. by rewrite app_nil_r.
  - cbn [for_each]. rewrite (st_bind_val _ _ p (add_heard [m] p) tt) by done. rewrite IH. unfold add_heard. cbn. by rewrite <- app_assoc.
Qed.
End pair.
Arguments HttpPair : clear implicits.
