(* ===== verification/HttpRemote.v ===== *)
(** * A client and a server over HTTP

    The client of Client.v and the server of Program.v joined by the two ends
    of the HTTP transport: a request method of the client is a call of the
    server's handler, through JSON text, HTTP messages and any division of the
    bytes into reads. *)

From S2P Require Import Prelude Json Core Types Message Content Schema Protocol State Router Session SessionFacts.
From S2P Require Import Pagination Registry ToolRegistry PromptProvider ResourceProvider Logging Server Program.
From S2P Require Import Sampling Roots Client Remote.
From S2P Require Import Lines Decimal Chunked Http Sse SseChannel HttpEndpoint PostCapture HttpServer HttpClient HttpLink HttpPair.

#[export] Instance http_in_pair {T A : Type} {TR : Transport T} {HI : HttpIn T} : HttpIn (T * A) := {|
  http_part t := http_part t.1;
  with_http h t := (with_http h t.1, t.2);
|}.

#[export] Instance http_in_pair_laws {T A : Type} {TR : Transport T} {HI : HttpIn T} {JT : JsonText} {HIL : HttpInLaws T} :
  HttpInLaws (T * A).
Proof.
  split.
  - intros h t. exact (http_part_with h t.1).
  - intros m t. cbn [t_send paired_transport http_part with_http http_in_pair]. unfold zoom. rewrite http_in_send.
    by destruct (http_send m (http_part t.1)).
Qed.

(** ** The server's end of a POST *)

Section post.
Context {JT : JsonText} {T U V K : Type} {TR : Transport T} {HI : HttpIn T} {AP : Application T U V K}.
#[local] Abbreviation Sess := (Session T U V K).

(** The server's options, the time, and how bytes are cut into reads. *)
Context (o : HttpServerOptions) (now : Z) (cut : string -> list string).
#[local] Abbreviation host := (pair_host o (handle_request now) cut).

(** The pair as the peer of the client's session. *)
Definition http_peer : Peer (HttpPair Sess) := fun m p =>
  let p' := (http_client_send (HW := host) m p).1 in
  (mkHttpPair (hp_http p') (hp_server p') [] (hp_errors p'), hp_heard p').

Context {HIL : HttpInLaws T} {JL : JsonTextLaws}.

Definition begun (s : Sess) : Sess := set_session_captures (capture_begin (session_captures s)) s.
Definition ended (s : Sess) : Sess := set_session_captures (capture_end (session_captures s)) s.

Lemma handle_request_single head body m reply (s s' : Sess) :
  method head = "POST" -> parse_frame body = Val (Ok (mkFrame [m] [] false)) ->
  handle_message now m (begun s) = (s', Val tt) -> reply_for (session_captures s') [] reply ->
  handle_request now head body s = (ended s', Val (Plain reply)).
Proof.
  intros Hm Hf Hh Hc. unfold handle_request. rewrite Hm. cbn [String.eqb Ascii.eqb Bool.eqb negb].
  unfold lift at 1. rewrite Hf. rewrite (st_bind_val _ _ _ s (Ok (mkFrame [m] [] false))) by done.
  by rewrite (st_bind_val _ _ _ _ _ (answer_post_single (HW := http_host now) m [] reply s s' Hh Hc)).
Qed.
Context (Hcut : forall s, foldr String.append EmptyString (cut s) = s).

(** What the peer hears is what the client makes of the server's reply. *)
Lemma http_peer_post m body reply ms (p : HttpPair Sess) (s' : Sess) :
  http_ready o (hp_http p) m body -> hp_heard p = [] ->
  handle_message now (normalize_message m) (begun (hp_server p)) = (s', Val tt) -> reply_for (session_captures s') [] reply ->
  post_read (HW := host) (reply_reads cut reply) (put_server (ended s') p) = (add_heard ms (put_server (ended s') p), Val tt) ->
  http_peer m p = (mkHttpPair (hp_http p) (ended s') [] (hp_errors p), ms).
Proof.
  intros Hr Hheard Hh Hc Hread. unfold http_peer.
  rewrite (send_served o (handle_request now) cut Hcut m body reply p (ended s') Hr).
  - rewrite Hread. cbn. by rewrite Hheard.
  - apply (handle_request_single _ body (normalize_message m) reply (hp_server p) s'); try done. by eapply http_ready_frame.
Qed.

Lemma http_peer_reply r body response text (p : HttpPair Sess) (s' : Sess) :
  http_ready o (hp_http p) (MRequest r) body -> hp_heard p = [] ->
  handle_message now (normalize_message (MRequest r)) (begun (hp_server p)) = (s', Val tt) ->
  captured (session_captures s') = Some [message_to_json (MResponse response)] ->
  good_message (MResponse response) -> serialize_message (MResponse response) = Val text ->
  (Z.of_nat (size text) < modulus 64)%Z ->
  http_peer (MRequest r) p =
    (mkHttpPair (hp_http p) (ended s') [] (hp_errors p), [normalize_message (MResponse response)]).
Proof.
  intros Hr Hheard Hh Hc [Hrwf Hrdump] Ht Htsz.
  destruct (serialize_message_line (MResponse response) Hrwf Hrdump) as (text' & Hs & _ & Hne & _ & Hrf).
  rewrite Ht in Hs. injection Hs as <-. apply (http_peer_post _ body (answered text []) _ p s' Hr Hheard Hh).
  { right. by exists response, text. }
  rewrite read_reply; [|done|by split; [exact (answered_wf text)|reflexivity|reflexivity|]]. unfold take_session_id. cbn [String.eqb header].
  rewrite <- (hear_messages o (handle_request now) cut), <- (deliver_frame_messages text _ _ _ Hne Hrf). reflexivity.
Qed.

(** A message that is handled without a response: the peer has nothing to say. *)
Lemma http_peer_quiet m body (p : HttpPair Sess) (s' : Sess) :
  http_ready o (hp_http p) m body -> hp_heard p = [] ->
  handle_message now (normalize_message m) (begun (hp_server p)) = (s', Val tt) ->
  captured (session_captures s') = Some [] ->
  http_peer m p = (mkHttpPair (hp_http p) (ended s') [] (hp_errors p), []).
Proof.
  intros Hr Hheard Hh Hc. apply (http_peer_post _ body (accepted []) _ p s' Hr Hheard Hh); [by left|].
  rewrite read_reply; [|done|by split; [exact accepted_wf|..]]. unfold add_heard. cbn. by rewrite app_nil_r.
Qed.
End post.

(** ** Calling a server's handler *)

Section http_remote.
Context {HT HR HP SK V C SH EH CB UB LB K : Type} {JT : JsonText} {JL : JsonTextLaws}.
#[local] Abbreviation server := (Server HT HR HP SK unit).
#[local] Abbreviation http_world := (Session (HttpTransport * server) ServerHandler V C).
#[local] Abbreviation pair := (HttpPair http_world).
#[local] Abbreviation client := (Client SH EH CB UB LB).

(** The server's functions and callbacks. *)
Context (tool_fn : HT -> json -> st http_world CallToolResult).
Context (read_fn : HR -> string -> st http_world (Result ReadResourceResult)).
Context (prompt_fn : HP -> json -> st http_world (Result GetPromptResult)).
Context (complete_fn : SK -> string -> st http_world CompleteResult).
Context (notification_fn : V -> option json -> st http_world unit).
Context (response_fn : C -> Result json -> st http_world unit).
Context (progress_fn : C -> ProgressNotification -> st http_world unit).
Context (close_fn : C -> st http_world unit).
Context (error_fn : C -> Error -> st http_world unit).
#[local] Abbreviation run_handler := (Program.run_handler tool_fn read_fn prompt_fn complete_fn).

#[local] Instance http_app : Application (HttpTransport * server) ServerHandler V C :=
  application tool_fn read_fn prompt_fn complete_fn notification_fn response_fn progress_fn close_fn error_fn.
#[local] Instance http_sessions : Sessions HT HR HP SK unit http_world := single tool_fn read_fn prompt_fn complete_fn.

(** The server's HTTP options, the time there, and how bytes are cut into reads. *)
Context (o : HttpServerOptions) (served : Z) (cut : string -> list string).
Context (Hcut : forall s, foldr String.append EmptyString (cut s) = s).
#[local] Instance peer : Peer pair := http_peer o served cut.
#[local] Abbreviation world := (Session (Link pair * client) ClientHandler ClientNotice K).
Context {APP : Application (Link pair * client) ClientHandler ClientNotice K}.

(** A server session over HTTP that is ready. *)
Record http_operating (so : ServerOptions) (s : http_world) : Prop := mkHttpOperating {
  ho_kind : kind s = ServerSession so;
  ho_state : state s = Operating;
  ho_router : exists r, session_router s = install r;
}.

(** The session once the response is sent, on the POST. *)
Definition responded (r : JsonRpcResponse) (s : http_world) : http_world :=
  let s := log (Sent (MResponse r)) s in
  set_session_captures (set_captured (Some [message_to_json (MResponse r)]) (session_captures s)) s.

Lemma send_captured r (s : http_world) :
  captured (session_captures s) = Some [] -> send_message (MResponse r) s = (responded r s, Val tt).
Proof.
  destruct s as [k [[opts ep ch cap ce] srv] ? ? ? ? ? ? ? ? ?]. unfold session_captures. cbn. intros Hc.
  unfold send_message, emit, on_transport, zoom. run.
  unfold t_send, paired_transport, zoom. cbn. unfold http_send, try_capture. cbn. by rewrite Hc.
Qed.

Lemma responded_captured r (s : http_world) :
  captured (session_captures (responded r s)) = Some [message_to_json (MResponse r)].
Proof. unfold responded, session_captures, set_session_captures. cbn. apply captured_set. Qed.

Lemma begun_operating so s : http_operating so s -> http_operating so (begun s).
Proof. by intros [? ? ?]. Qed.

(** What a request has to satisfy to go through, and its answer to come back. *)
Record http_call_ready (w : world) (request : JsonRpcRequest) (body : string) : Prop := mkHttpCallReady {
  hc_session : has_session (client_of w) = true;
  hc_inbox : inbox w = [];
  hc_heard : hp_heard (peer_of w) = [];
  hc_ready : http_ready o (hp_http (peer_of w)) (MRequest request) body;
}.

Lemma serve_operating so r method h id params (s s' : http_world) res :
  http_operating so s -> Program.accepted so method -> (method, h) ∈ handler_table ->
  run_handler h params s = (s', Val res) ->
  captured (session_captures s') = Some [] -> r = response_of id res ->
  handle_message served (MRequest (mkRequest id method params)) s = (responded r s', Val tt).
Proof.
  intros [Hk Hs [rt Hr]] Ha Hin Hrun Hc ->. destruct (handler_methods method h Hin) as [Hi Hp].
  unfold http_app. rewrite (handle_request_serve _ _ _ _ _ _ _ _ _ served so rt id method h params s) by done.
  rewrite (st_bind_val _ _ _ _ _ Hrun). by apply send_captured.
Qed.

(** C6: a request of the client, over HTTP, is a call of the server's handler:
    the request is serialized and posted, cut into reads in any way, parsed,
    handled by the server's session on the connection's thread, its response
    captured, serialized, cut and read back; and [client_request] returns what
    the handler computed, as JSON text keeps it, errors and exceptions
    included.  The server's session is left as the handler left it, without the
    capture. *)
Theorem http_remote_request so now method h params (w : world) body s' res text :
  let id := IdInt (next_request_id w) in
  let server_end := hp_server (peer_of w) in
  http_call_ready w (mkRequest id method params) body ->
  http_operating so server_end -> Program.accepted so method -> (method, h) ∈ handler_table ->
  run_handler h (normalize <$> params) (begun server_end) = (s', Val res) ->
  captured (session_captures s') = Some [] ->
  good_message (MResponse (response_of id res)) -> serialize_message (MResponse (response_of id res)) = Val text ->
  (Z.of_nat (size text) < modulus 64)%Z ->
  exists w', client_request pump now method params w = (w', Val (normalize_result res)) /\
    hp_server (peer_of w') = ended (responded (response_of id res) s') /\
    hp_heard (peer_of w') = [] /\ inbox w' = [] /\ client_of w' = client_of w /\ state w' = state w.
Proof.
  intros id server_end [Hs Hi Hh Hr] Ho Ha Hin Hrun Hc Hg Ht Hsz.
  pose proof (serve_operating so _ method h id _ _ s' res (begun_operating so server_end Ho) Ha Hin Hrun Hc eq_refl) as Hhandle.
  pose proof (http_peer_reply o served cut Hcut _ body _ text (peer_of w) _ Hr Hh Hhandle
                (responded_captured _ _) Hg Ht Hsz) as Hpeer.
  rewrite normalize_response in Hpeer.
  destruct (client_request_reply now method params w _ (normalize_result res) Hs Hi Hpeer) as (w' & H1 & H2 & H3 & H4 & H5).
  exists w'. by rewrite H2.
Qed.
End http_remote.

(** ** A concrete pair

    The sample server behind the HTTP transport, answering tools/list. *)
Module HttpRemoteDemo.
#[local] Existing Instances BitText.text BitText.laws.

Definition server_world : Type := Session (HttpTransport * Sample.server) ServerHandler nat nat.
Definition pair : Type := HttpPair server_world.

Definition so : ServerOptions := server_options Sample.initial_server.
Definition start : server_world :=
  make_session (ServerSession so) (http_connect true (make_http_transport default_http_options), Sample.initial_server).
Definition operating : server_world := set_state Operating (set_router (install (session_router start)) start).

Definition tool_fn (h : nat) (arguments : json) : st server_world CallToolResult :=
  mret (mkCallToolResult [text_content "done"] false).
Definition app : Application (HttpTransport * Sample.server) ServerHandler nat nat :=
  application tool_fn (fun _ _ => lift Undefined) (fun _ _ => lift Undefined) (fun _ _ => lift Undefined)
    (fun _ _ => skip) (fun _ _ => skip) (fun _ _ => skip) (fun _ => skip) (fun _ _ => skip).

(** Every text is cut after ten bytes. *)
Definition cut (s : string) : list string := [str_take 10 s; str_drop 10 s].

Definition http : HttpClient := set_running true HttpLinkDemo.http.
Definition the_pair : pair := mkHttpPair http operating [] [].

Lemma running_wf : wf_client http.
Proof. by destruct HttpLinkDemo.http_wf. Qed.
Definition peer : Peer pair := http_peer (AP := app) default_http_options 0 cut.
Definition world : Type := Session (Link pair * RemoteDemo.client) ClientHandler ClientNotice nat.
Definition client_app : Application (Link pair * RemoteDemo.client) ClientHandler ClientNotice nat :=
  client_application (fun _ _ => lift Undefined) (fun _ _ => lift Undefined)
    (fun _ => skip) (fun _ _ => skip) (fun _ _ => skip) (fun _ _ => skip) (fun _ _ => skip) (fun _ => skip)
    (fun _ _ => skip).
Definition world_start : world :=
  set_state Operating (make_session (ClientSession (client_options RemoteDemo.the_client))
    (mkLink the_pair [], RemoteDemo.the_client)).

Definition request : JsonRpcRequest := mkRequest (IdInt (next_request_id world_start)) kToolsList None.
Definition body : string := match serialize_message (MRequest request) with Val s => s | _ => EmptyString end.
Definition result : Result json := Ok (page_to_json Tool_to_json (mkPage [Sample.echo] None) "tools").
Definition reply_text : string :=
  match serialize_message (MResponse (response_of (req_id request) result)) with Val s => s | _ => EmptyString end.

Lemma cut_whole s : foldr String.append EmptyString (cut s) = s.
Proof. unfold cut. cbn [foldr]. rewrite str_app_nil_r. apply str_take_drop. Qed.
End HttpRemoteDemo.

Section http_remote_demo.
#[local] Existing Instances BitText.text BitText.laws HttpRemoteDemo.peer HttpRemoteDemo.client_app.

Lemma http_remote_request_witness :
  exists w', client_request pump 0 kToolsList None HttpRemoteDemo.world_start =
    (w', Val (normalize_result HttpRemoteDemo.result)).
Proof.
  edestruct (http_remote_request HttpRemoteDemo.tool_fn (fun _ _ => lift Undefined) (fun _ _ => lift Undefined)
    (fun _ _ => lift Undefined) (fun _ _ => skip) (fun _ _ => skip) (fun _ _ => skip) (fun _ => skip)
    (fun _ _ => skip) default_http_options 0 HttpRemoteDemo.cut HttpRemoteDemo.cut_whole
    HttpRemoteDemo.so 0 kToolsList HToolsList None HttpRemoteDemo.world_start
    HttpRemoteDemo.body (begun HttpRemoteDemo.operating) HttpRemoteDemo.result HttpRemoteDemo.reply_text) as (w' & Hw & _).
  - split; [reflexivity|reflexivity|reflexivity|]. split.
    + split; [by repeat split|reflexivity].
    + vm_compute. reflexivity.
    + exact HttpRemoteDemo.running_wf.
    + reflexivity.
    + split; [reflexivity|]. split; [vm_compute; reflexivity|exact I].
    + vm_compute. reflexivity.
  - split; [reflexivity|reflexivity|]. by exists (session_router HttpRemoteDemo.start).
  - exact RemoteDemo.tools_list_accepted.
  - left.
  - vm_compute. reflexivity.
  - vm_compute. reflexivity.
  - split; [split; [by intros i [= <-]|cbn; repeat constructor]|vm_compute; reflexivity].
  - vm_compute. reflexivity.
  - vm_compute. reflexivity.
  - exists w'. exact Hw.
Defined.
End http_remote_demo.
