(* ===== verification/StdioRemote.v ===== *)
(** * A client and a server over stdio

    The client of Client.v and the server of Program.v joined by two pipes: the
    client's messages are lines on the child's stdin, which the server's read
    loop takes in any division into reads, and the server's are lines on its
    stdout, which the client's reader takes likewise. *)

From S2P Require Import Prelude Json Core Types Message Content Schema Protocol State Router Session SessionFacts.
From S2P Require Import Pagination Registry ToolRegistry PromptProvider ResourceProvider Logging Server Program.
From S2P Require Import Sampling Roots Client Remote Platform Lines LineTransport StdioClient.

(** ** The server's end *)

(** The server's transport and what it has written that the client has not
    read; [pp_errors] is what went to the error handler. *)
Record Pipe : Type := mkPipe { pp_transport : StdioTransport; pp_out : string; pp_errors : list Error }.

Section pipe.
Context {JT : JsonText}.

Definition pipe_error (e : Error) : st Pipe unit :=
  modify (fun p => mkPipe (pp_transport p) (pp_out p) (pp_errors p ++ [e])).
Definition pipe_write (bytes : string) : st Pipe bool := fun p =>
  (mkPipe (pp_transport p) (pp_out p +:+ bytes) (pp_errors p), Val true).
Definition pipe_line (line : string) : st Pipe unit := stdio_write_line pp_transport pipe_error pipe_write line.

#[export] Instance pipe_transport : Transport Pipe := {|
  t_connect :=
    _ ← stdio_connect pp_transport (fun t p => mkPipe t (pp_out p) (pp_errors p)) pipe_error true; skip;
  t_disconnect := stdio_disconnect pp_transport (fun t p => mkPipe t (pp_out p) (pp_errors p));
  t_send m := send pipe_error pipe_line m;
  t_send_batch ms := send_batch pipe_error pipe_line ms;
|}.

Lemma pipe_send m line p :
  serialize_message m = Val line -> find_char LF line = None -> (0 <= out_fd (pp_transport p))%Z ->
  t_send m p = (mkPipe (pp_transport p) (pp_out p +:+ end_line line) (pp_errors p), Val tt).
Proof.
  intros Hs Hl Hf. cbn [t_send pipe_transport]. unfold send, send_line, pipe_line, stdio_write_line. run.
  rewrite Hs. cbn. rewrite Hl. run. cbn. by rewrite (proj2 (Z.ltb_ge _ 0) Hf).
Qed.
End pipe.

(** ** The client's reader on an open stream *)

Section reader.
Context {W : Type} {JT : JsonText} {CH : ChildHost W}.

Lemma next_line_open chunks b :
  match split_lines (b +:+ foldr String.append EmptyString chunks) with
  | ([], _) => exists r, next_line (ReadData <$> chunks) (mkLineReader b false) = (None, r)
  | (line :: lines, rest) =>
      exists b' chunks',
        next_line (ReadData <$> chunks) (mkLineReader b false) =
          (Some (ReadLine (strip_cr line), mkLineReader b' false), ReadData <$> chunks') /\
        split_lines (b' +:+ foldr String.append EmptyString chunks') = (lines, rest)
  end.
Proof.
  revert b. induction chunks as [|c chunks IH]; intros b; cbn [foldr].
  - rewrite str_app_nil_r, split_lines_find. cbn [fmap list_fmap next_line lr_buffer lr_eof].
    destruct (find_char LF b) as [pos|]; [|by eexists].
    destruct (split_lines (str_drop (S pos) b)) as [ls rest] eqn:E. exists (str_drop (S pos) b), [].
    split; [done|]. cbn [foldr]. by rewrite str_app_nil_r.
  - rewrite fmap_cons. cbn [next_line lr_buffer lr_eof]. destruct (find_char LF b) as [pos|] eqn:Ef.
    + set (tl := c +:+ foldr String.append EmptyString chunks).
      assert (split_lines (b +:+ tl) = let '(ls, r) := split_lines (str_drop (S pos) b +:+ tl) in (str_take pos b :: ls, r)) as ->.
      { rewrite split_lines_app, (split_lines_find b), Ef, (split_lines_app (str_drop (S pos) b) tl).
        destruct (split_lines (str_drop (S pos) b)) as [l1 r1]. by destruct (split_lines (r1 +:+ tl)). }
      destruct (split_lines (str_drop (S pos) b +:+ tl)) as [ls rest] eqn:E.
      exists (str_drop (S pos) b), (c :: chunks). split; [by rewrite fmap_cons|]. exact E.
    + rewrite <- str_app_assoc. apply IH.
Qed.

(** The lines there are, one turn each, and one to find that there is no more. *)
Lemma stdout_loop_open fuel chunks b (w : W) :
  let lines := (split_lines (b +:+ foldr String.append EmptyString chunks)).1 in
  length lines < fuel ->
  stdout_loop fuel (ReadData <$> chunks) (mkLineReader b false) w = for_each (fun l => stdout_line (strip_cr l)) lines w.
Proof.
  revert chunks b w. induction fuel as [|fuel IH]; intros chunks b w; cbv zeta; [lia|]. cbn [stdout_loop].
  pose proof (next_line_open chunks b) as H. destruct (split_lines _) as [[|line lines] rest]; cbn [fst].
  - intros _. destruct H as [r ->]. done.
  - destruct H as (b' & chunks' & -> & E). cbn [for_each length]. intros Hf. unfold mbind, st_bind.
    destruct (stdout_line (strip_cr line) w) as [w1 [[]|x|]]; [|done|done]. rewrite IH; rewrite E; cbn [fst]; [done|lia].
Qed.
End reader.

(** ** Both ends *)

Section pair.
Context {JT : JsonText} {A U V K : Type} {AP : Application (Pipe * A) U V K}.
#[local] Abbreviation Sess := (Session (Pipe * A) U V K).

(** The bytes in the two pipes that nobody has read are [sp_stdin] and the
    server's [pp_out]; the readers keep the beginning of a line. *)
Record StdioPair : Type := mkStdioPair {
  sp_client : StdioClient;
  sp_stdin : string;
  sp_server_buffer : string;
  sp_session : Sess;
  sp_client_buffer : string;
  sp_heard : list Message;
  sp_errors : list Error;
}.

#[local] Instance pair_child : ChildHost StdioPair := {|
  stdio_of := sp_client;
  put_stdio c p := mkStdioPair c (sp_stdin p) (sp_server_buffer p) (sp_session p) (sp_client_buffer p) (sp_heard p) (sp_errors p);
  spawn_child _ := mret (inr "already running");
  write_child bytes := fun p =>
    (mkStdioPair (sp_client p) (sp_stdin p +:+ bytes) (sp_server_buffer p) (sp_session p) (sp_client_buffer p) (sp_heard p) (sp_errors p),
     Val true);
  close_child _ := skip;
  wait_child _ := mret None;
  terminate_child _ := skip;
  child_message m := modify (fun p =>
    mkStdioPair (sp_client p) (sp_stdin p) (sp_server_buffer p) (sp_session p) (sp_client_buffer p) (sp_heard p ++ [m]) (sp_errors p));
  child_error e := modify (fun p =>
    mkStdioPair (sp_client p) (sp_stdin p) (sp_server_buffer p) (sp_session p) (sp_client_buffer p) (sp_heard p) (sp_errors p ++ [e]));
  child_closed := skip;
  child_stderr _ := skip;
|}.

(** The server's time, and how the bytes of the pipes are cut into reads. *)
Context (now : Z) (cut : string -> list string).

(** What a reader has left of a line after its reads. *)
Definition left_over (buffer : string) (chunks : list string) : string :=
  (split_lines (buffer +:+ foldr String.append EmptyString chunks)).2.

(** The server's reader thread takes what is in its stdin. *)
Definition server_reads (p : StdioPair) : StdioPair :=
  let chunks := cut (sp_stdin p) in
  let s := (read_loop (handle_message now) on_transport_error handle_close (IoChunk <$> chunks) (sp_server_buffer p) (sp_session p)).1 in
  mkStdioPair (sp_client p) EmptyString (left_over (sp_server_buffer p) chunks) s (sp_client_buffer p) (sp_heard p) (sp_errors p).

Definition take_output (s : Sess) : Sess :=
  set_transport (mkPipe (pp_transport (transport s).1) EmptyString (pp_errors (transport s).1), (transport s).2) s.

(** The client's reader thread takes what the server has written. *)
Definition client_reads (p : StdioPair) : StdioPair :=
  let chunks := cut (pp_out (transport (sp_session p)).1) in
  let bytes := sp_client_buffer p +:+ foldr String.append EmptyString chunks in
  let q := (stdout_loop (S (length (split_lines bytes).1)) (ReadData <$> chunks) (mkLineReader (sp_client_buffer p) false) p).1 in
  mkStdioPair (sp_client q) (sp_stdin q) (sp_server_buffer q) (take_output (sp_session q)) (left_over (sp_client_buffer p) chunks)
    (sp_heard q) (sp_errors q).

(** The pair as the peer of the client's session. *)
Definition stdio_peer : Peer StdioPair := fun m p =>
  let p := client_reads (server_reads (stdio_client_send m p).1) in
  (mkStdioPair (sp_client p) (sp_stdin p) (sp_server_buffer p) (sp_session p) (sp_client_buffer p) [] (sp_errors p), sp_heard p).

Context {JL : JsonTextLaws}.
Context (Hcut : forall s, foldr String.append EmptyString (cut s) = s).

(** Nothing is under way, and the descriptors are open. *)
Record quiet_pair (p : StdioPair) : Prop := mkQuietPair {
  qp_stdin : sp_stdin p = EmptyString;
  qp_server : sp_server_buffer p = EmptyString;
  qp_client : sp_client_buffer p = EmptyString;
  qp_heard : sp_heard p = [];
  qp_fd : (0 <= stdin_fd (sc_process (sp_client p)))%Z;
}.

Lemma stdio_client_sends m line p :
  serialize_message m = Val line -> find_char LF line = None -> (0 <= stdin_fd (sc_process (sp_client p)))%Z ->
  (stdio_client_send m p).1 =
    mkStdioPair (sp_client p) (sp_stdin p +:+ end_line line) (sp_server_buffer p) (sp_session p) (sp_client_buffer p)
      (sp_heard p) (sp_errors p).
Proof.
  intros Hs Hl Hf. unfold stdio_client_send, send, send_line, write_child_line. run. rewrite Hs. cbn. rewrite Hl. run. cbn.
  by rewrite (proj2 (Z.ltb_ge _ 0) Hf).
Qed.

Lemma one_line line : find_char LF line = None -> split_lines (EmptyString +:+ end_line line) = ([line], EmptyString).
Proof.
  intros Hl. change (EmptyString +:+ end_line line) with (end_line line).
  by rewrite <- (str_app_nil_r (end_line line)), split_lines_end.
Qed.

(** A line in the pipe is a message for the server's session. *)
Lemma server_reads_message m line p s' :
  good_message m -> serialize_message m = Val line ->
  sp_stdin p = end_line line -> sp_server_buffer p = EmptyString ->
  handle_message now (normalize_message m) (sp_session p) = (s', Val tt) ->
  server_reads p =
    mkStdioPair (sp_client p) EmptyString EmptyString s' (sp_client_buffer p) (sp_heard p) (sp_errors p).
Proof.
  intros Hm Hs Hi Hb Hh. destruct Hm as [Hwf Hd]. destruct (serialize_message_line m Hwf Hd) as (l & Hs' & Hlf & _).
  rewrite Hs in Hs'. injection Hs' as <-. unfold server_reads, left_over. rewrite Hi, Hb, Hcut, (one_line line Hlf). f_equal.
  set (reads := read_loop (handle_message now) on_transport_error handle_close).
  assert (reads (IoChunk <$> cut (end_line line)) EmptyString (sp_session p) =
          reads (IoChunk EmptyString :: (IoChunk <$> cut (end_line line)) ++ []) EmptyString (sp_session p)) as ->
    by by rewrite app_nil_r.
  unfold reads. rewrite <- read_loop_chunks, Hcut. cbn [read_loop]. rewrite (one_line line Hlf). cbn [for_each].
  pose proof (process_line_message (handle_message now) on_transport_error m line (sp_session p) (conj Hwf Hd) Hs) as Hp.
  rewrite (st_bind_val _ _ _ _ _ Hh) in Hp.
  rewrite (st_bind_val _ _ _ s' tt); [done|]. by rewrite (st_bind_val _ _ _ _ _ Hp).
Qed.

(** A line the server has written is a message the client's session gets. *)
Lemma client_reads_message m line p :
  good_message m -> serialize_message m = Val line ->
  pp_out (transport (sp_session p)).1 = end_line line -> sp_client_buffer p = EmptyString ->
  client_reads p =
    mkStdioPair (sp_client p) (sp_stdin p) (sp_server_buffer p) (take_output (sp_session p)) EmptyString
      (sp_heard p ++ [normalize_message m]) (sp_errors p).
Proof.
  intros Hm Hs Ho Hb. destruct Hm as [Hwf Hd]. destruct (serialize_message_line m Hwf Hd) as (l & Hs' & Hlf & _).
  rewrite Hs in Hs'. injection Hs' as <-. unfold client_reads, left_over. rewrite Ho, Hb.
  rewrite stdout_loop_open by (rewrite Hcut, (one_line line Hlf); cbn; lia).
  rewrite Hcut, (one_line line Hlf). cbn [fst snd for_each].
  pose proof (process_line_message child_message child_error m line p (conj Hwf Hd) Hs) as Hp.
  fold stdout_line in Hp. unfold stdout_line. rewrite (st_bind_val _ _ _ _ _ Hp). reflexivity.
Qed.

(** A request goes to the server's session as a line, and its response comes
    back as one. *)
Lemma stdio_peer_reply r line response text p s' :
  quiet_pair p -> good_message (MRequest r) -> serialize_message (MRequest r) = Val line ->
  handle_message now (normalize_message (MRequest r)) (sp_session p) = (s', Val tt) ->
  good_message (MResponse response) -> serialize_message (MResponse response) = Val text ->
  pp_out (transport s').1 = end_line text ->
  stdio_peer (MRequest r) p =
    (mkStdioPair (sp_client p) EmptyString EmptyString (take_output s') EmptyString [] (sp_errors p),
     [normalize_message (MResponse response)]).
Proof.
  intros [H1 H2 H3 H4 H5] Hm Hs Hh Hr Ht Ho. destruct Hm as [Hwf Hd].
  destruct (serialize_message_line _ Hwf Hd) as (l & Hs' & Hlf & _). rewrite Hs in Hs'. injection Hs' as <-.
  unfold stdio_peer. rewrite (stdio_client_sends _ line p Hs Hlf H5), H1. change (EmptyString +:+ end_line line) with (end_line line).
  rewrite (server_reads_message (MRequest r) line _ s' (conj Hwf Hd) Hs); [|done|done|exact Hh].
  rewrite (client_reads_message (MResponse response) text _ Hr Ht); [|done|done]. cbn. by rewrite H4.
Qed.

(** Nothing was written: nothing is read. *)
Lemma client_reads_nothing p :
  pp_out (transport (sp_session p)).1 = EmptyString -> sp_client_buffer p = EmptyString ->
  client_reads p =
    mkStdioPair (sp_client p) (sp_stdin p) (sp_server_buffer p) (take_output (sp_session p)) EmptyString (sp_heard p) (sp_errors p).
Proof.
  intros Ho Hb. unfold client_reads, left_over. rewrite Ho, Hb.
  rewrite stdout_loop_open by (rewrite Hcut; cbn; lia). by rewrite Hcut.
Qed.

(** A message that the server's session handles without writing. *)
Lemma stdio_peer_quiet m line p s' :
  quiet_pair p -> good_message m -> serialize_message m = Val line ->
  handle_message now (normalize_message m) (sp_session p) = (s', Val tt) -> pp_out (transport s').1 = EmptyString ->
  stdio_peer m p = (mkStdioPair (sp_client p) EmptyString EmptyString (take_output s') EmptyString [] (sp_errors p), []).
Proof.
  intros [H1 H2 H3 H4 H5] Hm Hs Hh Ho. pose proof Hm as [Hwf Hd].
  destruct (serialize_message_line _ Hwf Hd) as (l & Hs' & Hlf & _). rewrite Hs in Hs'. injection Hs' as <-.
  unfold stdio_peer. rewrite (stdio_client_sends _ line p Hs Hlf H5), H1. change (EmptyString +:+ end_line line) with (end_line line).
  rewrite (server_reads_message m line _ s' Hm Hs); [|done|done|exact Hh].
  rewrite client_reads_nothing by done. cbn. by rewrite H4.
Qed.
End pair.

(** ** Calling a server's handler *)

Section stdio_remote.
Context {HT HR HP SK V C SH EH CB UB LB K : Type} {JT : JsonText} {JL : JsonTextLaws}.
#[local] Abbreviation server := (Server HT HR HP SK unit).
#[local] Abbreviation stdio_world := (Session (Pipe * server) ServerHandler V C).
#[local] Abbreviation pair := (StdioPair (A := server) (U := ServerHandler) (V := V) (K := C)).
#[local] Abbreviation client := (Client SH EH CB UB LB).

(** The server's functions and callbacks. *)
Context (tool_fn : HT -> json -> st stdio_world CallToolResult).
Context (read_fn : HR -> string -> st stdio_world (Result ReadResourceResult)).
Context (prompt_fn : HP -> json -> st stdio_world (Result GetPromptResult)).
Context (complete_fn : SK -> string -> st stdio_world CompleteResult).
Context (notification_fn : V -> option json -> st stdio_world unit).
Context (response_fn : C -> Result json -> st stdio_world unit).
Context (progress_fn : C -> ProgressNotification -> st stdio_world unit).
Context (close_fn : C -> st stdio_world unit).
Context (error_fn : C -> Error -> st stdio_world unit).
#[local] Abbreviation run_handler := (Program.run_handler tool_fn read_fn prompt_fn complete_fn).

#[local] Instance stdio_app : Application (Pipe * server) ServerHandler V C :=
  application tool_fn read_fn prompt_fn complete_fn notification_fn response_fn progress_fn close_fn error_fn.
#[local] Instance stdio_sessions : Sessions HT HR HP SK unit stdio_world := single tool_fn read_fn prompt_fn complete_fn.

(** The time at the server, and how bytes are cut into reads. *)
Context (served : Z) (cut : string -> list string).
Context (Hcut : forall s, foldr String.append EmptyString (cut s) = s).
#[local] Instance stdio_pair_peer : Peer pair := stdio_peer served cut.
#[local] Abbreviation world := (Session (Link pair * client) ClientHandler ClientNotice K).
Context {APP : Application (Link pair * client) ClientHandler ClientNotice K}.

(** A server session over stdio that is ready. *)
Record stdio_operating (so : ServerOptions) (s : stdio_world) : Prop := mkStdioOperating {
  so_kind : kind s = ServerSession so;
  so_state : state s = Operating;
  so_router : exists r, session_router s = install r;
}.

(** Nothing is written that was not read, and stdout is open. *)
Definition silent (s : stdio_world) : Prop := pp_out (transport s).1 = EmptyString /\ (0 <= out_fd (pp_transport (transport s).1))%Z.

Lemma take_output_silent r text (s : stdio_world) :
  silent s -> serialize_message (MResponse r) = Val text -> find_char LF text = None ->
  exists s', send_message (MResponse r) s = (s', Val tt) /\ pp_out (transport s').1 = end_line text /\
    take_output s' = log (Sent (MResponse r)) s.
Proof.
  destruct s as [k [[tr out errs] srv] ? ? ? ? ? ? ? ? ?]. unfold silent. cbn. intros [-> Hfd] Ht Hl.
  unfold send_message, emit, on_transport, zoom. run. unfold t_send, paired_transport, zoom. cbn.
  pose proof (pipe_send (MResponse r) text (mkPipe tr EmptyString errs) Ht Hl Hfd) as Hp. cbn [t_send pipe_transport] in Hp. rewrite Hp.
  eexists. by split_and!.
Qed.

(** C7: a request of the client, over stdio, is a call of the server's handler:
    the request is serialized, written as a line to the child's stdin, read in
    any division into reads, parsed and handled by the server's session; its
    response is written as a line, read likewise and parsed; and
    [client_request] returns what the handler computed, as JSON text keeps it,
    errors and exceptions included.  The server's session is left as the
    handler left it, but for the log of the response, and both pipes and both
    readers' buffers are empty again. *)
Theorem stdio_remote_request so now method h params (w : world) s' res :
  let id := IdInt (next_request_id w) in
  let server_end := sp_session (peer_of w) in
  has_session (client_of w) = true -> inbox w = [] -> quiet_pair (peer_of w) ->
  good_message (MRequest (mkRequest id method params)) ->
  stdio_operating so server_end -> Program.accepted so method -> (method, h) ∈ handler_table ->
  run_handler h (normalize <$> params) server_end = (s', Val res) -> silent s' ->
  good_message (MResponse (response_of id res)) ->
  exists w', client_request pump now method params w = (w', Val (normalize_result res)) /\
    sp_session (peer_of w') = log (Sent (MResponse (response_of id res))) s' /\
    quiet_pair (peer_of w') /\ inbox w' = [] /\ client_of w' = client_of w /\ state w' = state w.
Proof.
  intros id server_end Hs Hi Hq Hm [Hk Hst [rt Hr]] Ha Hin Hrun Hsil Hg.
  destruct Hm as [Hwf Hd]. destruct (serialize_message_line _ Hwf Hd) as (line & Hline & _).
  pose proof Hg as [Hrwf Hrd]. destruct (serialize_message_line _ Hrwf Hrd) as (text & Ht & Hlf & _).
  destruct (handler_methods method h Hin) as [Hni Hnp].
  destruct (take_output_silent (response_of id res) text s' Hsil Ht Hlf) as (s2 & Hsend & Hout & Htake).
  assert (handle_message served (normalize_message (MRequest (mkRequest id method params))) server_end = (s2, Val tt)) as Hh.
  { unfold stdio_app. cbn [normalize_message req_id req_method req_params].
    rewrite (handle_request_serve _ _ _ _ _ _ _ _ _ served so rt id method h (normalize <$> params) server_end) by done.
    by rewrite (st_bind_val _ _ _ _ _ Hrun). }
  pose proof (stdio_peer_reply served cut Hcut _ line _ text (peer_of w) s2 Hq (conj Hwf Hd) Hline Hh Hg Ht Hout) as Hpeer.
  rewrite normalize_response in Hpeer.
  destruct (client_request_reply now method params w _ (normalize_result res) Hs Hi Hpeer) as (w' & H1 & H2 & H3 & H4 & H5).
  exists w'. rewrite H2. split_and!; try done. split; try done. apply (qp_fd _ Hq).
Qed.
End stdio_remote.

(** ** A concrete pair

    The sample server behind its stdio transport, answering tools/list. *)
Module StdioRemoteDemo.
#[local] Existing Instances BitText.text BitText.laws.

Definition server_world : Type := Session (Pipe * Sample.server) ServerHandler nat nat.
Definition pair : Type := StdioPair (A := Sample.server) (U := ServerHandler) (V := nat) (K := nat).

Definition so : ServerOptions := server_options Sample.initial_server.
Definition start : server_world :=
  make_session (ServerSession so) (mkPipe (mkStdioTransport 0 1 false true) EmptyString [], Sample.initial_server).
Definition operating : server_world := set_state Operating (set_router (install (session_router start)) start).

Definition tool_fn (h : nat) (arguments : json) : st server_world CallToolResult :=
  mret (mkCallToolResult [text_content "done"] false).
Definition app : Application (Pipe * Sample.server) ServerHandler nat nat :=
  application tool_fn (fun _ _ => lift Undefined) (fun _ _ => lift Undefined) (fun _ _ => lift Undefined)
    (fun _ _ => skip) (fun _ _ => skip) (fun _ _ => skip) (fun _ => skip) (fun _ _ => skip).

(** Every text is cut after ten bytes. *)
Definition cut (s : string) : list string := [str_take 10 s; str_drop 10 s].
Lemma stdio_cut_whole s : foldr String.append EmptyString (cut s) = s.
Proof. unfold cut. cbn [foldr]. rewrite str_app_nil_r. apply str_take_drop. Qed.

Definition the_pair : pair := mkStdioPair StdioDemo.client EmptyString EmptyString operating EmptyString [] [].
Definition peer : Peer pair := stdio_peer (AP := app) 0 cut.
Definition world : Type := Session (Link pair * RemoteDemo.client) ClientHandler ClientNotice nat.
Definition client_app : Application (Link pair * RemoteDemo.client) ClientHandler ClientNotice nat :=
  client_application (fun _ _ => lift Undefined) (fun _ _ => lift Undefined)
    (fun _ => skip) (fun _ _ => skip) (fun _ _ => skip) (fun _ _ => skip) (fun _ _ => skip) (fun _ => skip)
    (fun _ _ => skip).
Definition world_start : world :=
  set_state Operating (make_session (ClientSession (client_options RemoteDemo.the_client))
    (mkLink the_pair [], RemoteDemo.the_client)).

Definition result : Result json := Ok (page_to_json Tool_to_json (mkPage [Sample.echo] None) "tools").
End StdioRemoteDemo.

Section stdio_remote_demo.
#[local] Existing Instances BitText.text BitText.laws StdioRemoteDemo.peer StdioRemoteDemo.client_app.

Lemma stdio_remote_request_witness :
  exists w', client_request pump 0 kToolsList None StdioRemoteDemo.world_start =
    (w', Val (normalize_result StdioRemoteDemo.result)).
Proof.
  edestruct (stdio_remote_request StdioRemoteDemo.tool_fn (fun _ _ => lift Undefined) (fun _ _ => lift Undefined)
    (fun _ _ => lift Undefined) (fun _ _ => skip) (fun _ _ => skip) (fun _ _ => skip) (fun _ => skip)
    (fun _ _ => skip) 0 StdioRemoteDemo.cut StdioRemoteDemo.stdio_cut_whole
    StdioRemoteDemo.so 0 kToolsList HToolsList None StdioRemoteDemo.world_start
    StdioRemoteDemo.operating StdioRemoteDemo.result) as (w' & Hw & _).
  - reflexivity.
  - reflexivity.
  - by split.
  - split; [by repeat split|reflexivity].
  - split; [reflexivity|reflexivity|]. by exists (session_router StdioRemoteDemo.start).
  - exact RemoteDemo.tools_list_accepted.
  - left.
  - vm_compute. reflexivity.
  - by split.
  - split; [split; [by intros i [= <-]|cbn; repeat constructor]|vm_compute; reflexivity].
  - exists w'. exact Hw.
Defined.
End stdio_remote_demo.
