(* ===== verification/StdioHandshake.v ===== *)
(** * Connecting over stdio

    [Server::run] on a [StdioTransport] (src/server/server.cpp,
    src/transport/stdio_transport.cpp) and [Client::connect]
    (src/client/client.cpp) across the two pipes of StdioRemote.v: the messages
    of the handshake as lines of JSON text, in any division into reads, bring
    both sessions to where StdioRemote.v starts from. *)

From S2P Require Import Prelude Json Core Types Message Content Schema Protocol State Router Session SessionFacts.
From S2P Require Import Pagination Registry ToolRegistry PromptProvider ResourceProvider Logging Server Program.
From S2P Require Import Sampling Roots Client Remote Handshake Platform Lines LineTransport StdioClient StdioRemote.

(** ** The handshake's messages as JSON text keeps them *)

Lemma normalize_params {SH EH CB UB LB} (c : Client SH EH CB UB LB) :
  normalize (InitializeParams_to_json (initialize_params c)) = InitializeParams_to_json (initialize_params c).
Proof.
  unfold initialize_params, client_caps, InitializeParams_to_json. destruct (cl_info c) as [n [t|] v], (roots_enabled c || _),
    (declared (sampling_handler c)), (declared (elicitation_handler c)); reflexivity.
Qed.

Lemma normalize_introduction {HT HR HP SK} (s : Server HT HR HP SK unit) :
  normalize (InitializeResult_to_json (introduction (server_options s))) = InitializeResult_to_json (introduction (server_options s)).
Proof.
  unfold introduction, server_options, capabilities, InitializeResult_to_json, ServerCapabilities_to_json.
  cbn [so_server_info so_capabilities so_instructions sc_prompts sc_resources sc_tools sc_logging sc_completions sc_tasks sc_experimental
    ir_protocol_version ir_capabilities ir_server_info ir_instructions].
  destruct (srv_info s) as [n [t|] v], (srv_instructions s), (0 <? prompt_count _), ((0 <? resource_count _) || _), (0 <? tool_count _),
    (prompt_has_completions _ || _); reflexivity.
Qed.

(** ** From construction to Operating *)

Section stdio_handshake.
Context {HT HR HP SK V C SH EH CB UB LB K : Type} {JT : JsonText} {JL : JsonTextLaws}.
#[local] Abbreviation server := (Server HT HR HP SK unit).
#[local] Abbreviation stdio_world := (Session (Pipe * server) ServerHandler V C).
#[local] Abbreviation pair := (StdioPair (A := server) (U := ServerHandler) (V := V) (K := C)).
#[local] Abbreviation client := (Client SH EH CB UB LB).

(** The server's functions and callbacks. *)
Context (tool_fn : HT -> json -> st stdio_world CallToolResult).
Context (read_fn : HR -> string -> st stdio_world (Result ReadResourceResult)).
Context (prompt_fn : HP -> json -> st stdio_world (Result GetPromptResult)).
Context (complete_fn : SK -> string -> st stdio_world CompleteResult).
Context (notification_fn : V -> option json -> st stdio_world unit).
Context (response_fn : C -> Result json -> st stdio_world unit).
Context (progress_fn : C -> ProgressNotification -> st stdio_world unit).
Context (close_fn : C -> st stdio_world unit).
Context (error_fn : C -> Error -> st stdio_world unit).

#[local] Instance piped_app : Application (Pipe * server) ServerHandler V C :=
  application tool_fn read_fn prompt_fn complete_fn notification_fn response_fn progress_fn close_fn error_fn.
#[local] Instance piped_sessions : Sessions HT HR HP SK unit stdio_world := single tool_fn read_fn prompt_fn complete_fn.

(** The time at the server, and how bytes are cut into reads. *)
Context (served : Z) (cut : string -> list string).
Context (Hcut : forall s, foldr String.append EmptyString (cut s) = s).
#[local] Instance piped_peer : Peer pair := stdio_peer served cut.
#[local] Abbreviation world := (Session (Link pair * client) ClientHandler ClientNotice K).
Context {APP : Application (Link pair * client) ClientHandler ClientNotice K}.

(** [run] over stdio, up to where it waits. *)
Lemma stdio_run_begin (s : stdio_world) :
  silent s ->
  exists s', run_begin s = (s', Val tt) /\ fresh (server_options (server_of s)) s' /\ silent s' /\
    tools (srv_tools (server_of s')) = tools (srv_tools (server_of s)).
Proof.
  destruct s as [k [[tr out errs] srv] ? ? ? ? ? ? ? ? ?], tr as [fd_in fd_out owns running]. unfold silent. cbn. intros [-> Hfd].
  destruct running; eexists; (split; [reflexivity|]); destruct srv as [? ? ? ? ? ? ? ss]; cbn; destruct (bool_decide (tt ∈ ss)); by repeat split.
Qed.

Lemma take_output_id (s : stdio_world) : pp_out (transport s).1 = EmptyString -> take_output s = s.
Proof. destruct s as [? [[? out ?] ?] ? ? ? ? ? ? ? ? ?]. cbn. by intros ->. Qed.

Definition answer_of (o : ServerOptions) : JsonRpcResponse := response_of (IdInt 1) (Ok (InitializeResult_to_json (introduction o))).

(** The server's end of the handshake, through the pipes. *)
Lemma piped_initialize (srv : server) (c : client) (p : pair) :
  let o := server_options srv in
  quiet_pair p -> fresh o (sp_session p) -> silent (sp_session p) ->
  good_message (initialize_request c) -> good_message (MResponse (answer_of o)) -> good_message initialized_notification ->
  exists p1, deliver (initialize_request c) p = (p1, [MResponse (answer_of o)]) /\
    exists p2, deliver initialized_notification p1 = (p2, []) /\ quiet_pair p2 /\
      sp_session p2 = set_state Operating (log (Sent (MResponse (answer_of o)))
        (introduced (IdInt 1) (initialize_params c) (sp_session p))).
Proof.
  intros o Hq Hf Hs Hm Hr Hn. set (s1 := introduced (IdInt 1) (initialize_params c) (sp_session p)).
  assert (silent s1) as Hs1 by exact Hs.
  destruct (serialize_message_line _ (proj1 Hm) (proj2 Hm)) as (line & Hline & _).
  destruct (serialize_message_line _ (proj1 Hr) (proj2 Hr)) as (text & Htext & Hlf & _).
  destruct (serialize_message_line _ (proj1 Hn) (proj2 Hn)) as (note & Hnote & _).
  destruct (take_output_silent (answer_of o) text s1 Hs1 Htext Hlf) as (s2 & Hsend & Hout & Htake).
  assert (handle_message served (normalize_message (initialize_request c)) (sp_session p) = (s2, Val tt)) as Hh.
  { cbn [normalize_message initialize_request req_id req_method req_params fmap option_fmap option_map]. rewrite normalize_params.
    by rewrite (handle_initialize_request served o). }
  pose proof (stdio_peer_reply served cut Hcut _ line (answer_of o) text p s2 Hq Hm Hline Hh Hr Htext Hout) as Hpeer.
  rewrite Htake in Hpeer. unfold answer_of in Hpeer at 2. rewrite normalize_response in Hpeer. cbn [normalize_result] in Hpeer.
  unfold o in Hpeer at 2. rewrite normalize_introduction in Hpeer. eexists. split; [exact Hpeer|].
  set (p1 := mkStdioPair _ _ _ _ _ _ _).
  assert (quiet_pair p1) as Hq1 by (split; try done; apply (qp_fd _ Hq)).
  assert (handle_message served (normalize_message initialized_notification) (sp_session p1) =
            (set_state Operating (sp_session p1), Val tt)) as Hh1.
  { apply (handle_initialized_note served o); [done|]. apply (fr_router _ _ Hf). }
  pose proof (stdio_peer_quiet served cut Hcut _ note p1 _ Hq1 Hn Hnote Hh1 (proj1 Hs)) as Hpeer1.
  eexists. split; [exact Hpeer1|]. split; [split; try done; apply (qp_fd _ Hq)|].
  apply (take_output_id (set_state Operating (log (Sent (MResponse (answer_of o))) s1))). exact (proj1 Hs).
Qed.

(** C4: from construction to Operating over stdio: whatever is registered with
    the server and configured on the client, [run] on one side of the pipes and
    [connect] on the other succeed, however the bytes of the three messages of
    the handshake are cut into reads.  Both sessions are Operating, each side
    knows the other's name and capabilities, and nothing is left in the pipes
    or in the readers' buffers. *)
Theorem stdio_run_then_connect now (s0 : stdio_world) (w : world) :
  let so := server_options (server_of s0) in
  silent s0 -> sp_session (peer_of w) = (run_begin s0).1 -> quiet_pair (peer_of w) -> unconnected w -> inbox w = [] ->
  Forall good_message [initialize_request (client_of w); MResponse (answer_of so); initialized_notification] ->
  exists w', client_connect pump now w = (w', Val (Ok (introduction so))) /\ connected w w' (introduction so) /\
    let s := sp_session (peer_of w') in
    stdio_operating so s /\ silent s /\ quiet_pair (peer_of w') /\
    tools (srv_tools (server_of s)) = tools (srv_tools (server_of s0)) /\
    client_info (Session.peer s) = Some (cl_info (client_of w)) /\
    client_capabilities (Session.peer s) = Some (client_caps (client_of w)).
Proof.
  intros so Hs0 Hp Hq Hu Hi Hgood. apply Forall_cons in Hgood as [Hm Hgood]. apply Forall_cons in Hgood as [Hr Hgood].
  apply Forall_cons in Hgood as [Hn _]. destruct (stdio_run_begin s0 Hs0) as (s & Hrun & Hf & Hs & Ht).
  rewrite Hrun in Hp. cbn [fst] in Hp. rewrite <- Hp in Hf, Hs, Ht.
  destruct (piped_initialize _ (client_of w) (peer_of w) Hq Hf Hs Hm Hr Hn) as (p1 & H1 & p2 & H2 & Hq2 & Hs2).
  destruct (client_connect_answered now w p1 (Ok (InitializeResult_to_json (introduction so))) (Ok (introduction so)) Hu Hi H1)
    as (w' & Hw' & Hc & Hpeer).
  - unfold handshake_outcome. by rewrite InitializeResult_read.
  - intros r _. by rewrite H2.
  - rewrite H2 in Hpeer. cbn [fst] in Hpeer. exists w'. cbv zeta. rewrite Hpeer, Hs2. split_and!; try done.
    split; [apply (fr_kind _ _ Hf)|done|]. eexists. apply (fr_router _ _ Hf).
Qed.
End stdio_handshake.

(** ** A concrete pair: the sample server and a new client *)
Module StdioHandshakeDemo.
#[local] Existing Instances BitText.text BitText.laws.

Definition app : Sessions nat nat nat nat unit StdioRemoteDemo.server_world :=
  single StdioRemoteDemo.tool_fn (fun _ _ => lift Undefined) (fun _ _ => lift Undefined) (fun _ _ => lift Undefined).
Definition serving : StdioRemoteDemo.server_world := (run_begin (Sessions0 := app) StdioRemoteDemo.start).1.
Definition the_pair : StdioRemoteDemo.pair := mkStdioPair StdioDemo.client EmptyString EmptyString serving EmptyString [] [].
Definition start : StdioRemoteDemo.world :=
  make_session (ClientSession (client_options HandshakeDemo.new_client)) (mkLink the_pair [], HandshakeDemo.new_client).
End StdioHandshakeDemo.

Section stdio_handshake_demo.
#[local] Existing Instances BitText.text BitText.laws StdioRemoteDemo.peer StdioRemoteDemo.client_app.

Lemma stdio_run_then_connect_witness :
  exists w', client_connect pump 0 StdioHandshakeDemo.start =
    (w', Val (Ok (introduction (server_options Sample.initial_server)))) /\
    state w' = Operating /\ state (sp_session (peer_of w')) = Operating.
Proof.
  destruct (stdio_run_then_connect StdioRemoteDemo.tool_fn (fun _ _ => lift Undefined) (fun _ _ => lift Undefined)
    (fun _ _ => lift Undefined) (fun _ _ => skip) (fun _ _ => skip) (fun _ _ => skip) (fun _ => skip)
    (fun _ _ => skip) 0 StdioRemoteDemo.cut StdioRemoteDemo.stdio_cut_whole 0 StdioRemoteDemo.start StdioHandshakeDemo.start)
    as (w' & Hw & Hc & Hs & _).
  - by split.
  - reflexivity.
  - by split.
  - reflexivity.
  - reflexivity.
  - repeat apply Forall_cons_2; [| | |by apply Forall_nil_2]; (split; [|vm_compute; reflexivity]).
    + split; [done|]. intros p [= <-]. split; [cbn; repeat constructor|done].
    + split; [by intros i [= <-]|cbn; repeat constructor].
    + by intros p [=].
  - exists w'. split; [exact Hw|]. split; [apply (cd_state _ _ _ Hc)|apply (so_state _ _ Hs)].
Defined.
End stdio_handshake_demo.
