(* ===== verification/HttpHandshake.v ===== *)
(** * Connecting over HTTP

    [Server::run] on an [HttpServerTransport] (src/server/server.cpp,
    src/transport/http_server_transport.cpp) and [Client::connect]
    (src/client/client.cpp) over an [HttpClientTransport]: the messages of the
    handshake as POSTs and their replies, in any division into reads, bring both
    sessions to where HttpRemote.v starts from. *)

From S2P Require Import Prelude Json Core Types Message Content Schema Protocol State Router Session SessionFacts.
From S2P Require Import Pagination Registry ToolRegistry PromptProvider ResourceProvider Logging Server Program.
From S2P Require Import Sampling Roots Client Remote Handshake StdioHandshake.
From S2P Require Import Lines Decimal Chunked Http Sse SseChannel HttpEndpoint PostCapture HttpServer HttpClient HttpLink HttpPair HttpRemote.

Section http_handshake.
Context {HT HR HP SK V C SH EH CB UB LB K : Type} {JT : JsonText} {JL : JsonTextLaws}.
#[local] Abbreviation server := (Server HT HR HP SK unit).
#[local] Abbreviation http_world := (Session (HttpTransport * server) ServerHandler V C).
#[local] Abbreviation pair := (HttpPair http_world).
#[local] Abbreviation client := (Client SH EH CB UB LB).

(** The server's functions and callbacks. *)
Context (tool_fn : HT -> json -> st http_world CallToolResult).
Context (read_fn : HR -> string -> st http_world (Result ReadResourceResult)).
Context (prompt_fn : HP -> json -> st http_world (Result GetPromptResult)).
Context (complete_fn : SK -> string -> st http_world CompleteResult).
Context (notification_fn : V -> option json -> st http_world unit).
Context (response_fn : C -> Result json -> st http_world unit).
Context (progress_fn : C -> ProgressNotification -> st http_world unit).
Context (close_fn : C -> st http_world unit).
Context (error_fn : C -> Error -> st http_world unit).

#[local] Instance posted_app : Application (HttpTransport * server) ServerHandler V C :=
  application tool_fn read_fn prompt_fn complete_fn notification_fn response_fn progress_fn close_fn error_fn.
#[local] Instance posted_sessions : Sessions HT HR HP SK unit http_world := single tool_fn read_fn prompt_fn complete_fn.

(** The server's HTTP options, the time there, and how bytes are cut into reads. *)
Context (o : HttpServerOptions) (served : Z) (cut : string -> list string).
Context (Hcut : forall s, foldr String.append EmptyString (cut s) = s).
#[local] Instance posted_peer : Peer pair := http_peer o served cut.
#[local] Abbreviation world := (Session (Link pair * client) ClientHandler ClientNotice K).
Context {APP : Application (Link pair * client) ClientHandler ClientNotice K}.

(** [run] over HTTP, up to where it waits. *)
Lemma http_run_begin (s : http_world) :
  exists s', run_begin s = (s', Val tt) /\ fresh (server_options (server_of s)) s' /\
    tools (srv_tools (server_of s')) = tools (srv_tools (server_of s)) /\
    (transport s').1 = http_connect true (transport s).1.
Proof.
  destruct s as [k [tr srv] ? ? ? ? ? ? ? ? ?]. eexists. split; [reflexivity|].
  destruct srv as [? ? ? ? ? ? ? ss]. cbn. by destruct (bool_decide (tt ∈ ss)).
Qed.

(** The three messages of the handshake can be sent over HTTP. *)
Record can_greet (h : HttpClient) (c : client) (so : ServerOptions) : Prop := mkCanGreet {
  cg_request : exists body, http_ready o h (initialize_request c) body;
  cg_note : exists body, http_ready o h initialized_notification body;
  cg_good : good_message (MResponse (answer_of so));
  cg_answer : exists text, serialize_message (MResponse (answer_of so)) = Val text /\ (Z.of_nat (size text) < modulus 64)%Z;
}.

Lemma begun_captured (s : http_world) : captured (session_captures (begun s)) = Some [].
Proof. unfold begun, session_captures, set_session_captures. cbn. apply captured_set. Qed.

Lemma ended_captured (s : http_world) : captured (session_captures (ended s)) = None.
Proof. unfold ended, session_captures, set_session_captures. cbn. apply captured_set. Qed.

(** The server's end of the handshake, on its two POSTs. *)
Lemma posted_initialize (srv : server) (c : client) (p : pair) :
  let so := server_options srv in
  hp_heard p = [] -> fresh so (hp_server p) -> can_greet (hp_http p) c so ->
  exists p1, Remote.deliver (initialize_request c) p = (p1, [MResponse (answer_of so)]) /\
    Remote.deliver initialized_notification p1 =
      (mkHttpPair (hp_http p)
         (ended (set_state Operating (begun (ended (responded (answer_of so)
            (introduced (IdInt 1) (initialize_params c) (begun (hp_server p)))))))) [] (hp_errors p), []).
Proof.
  intros so Hh Hf [[body Hb] [note Hn] Hg (text & Ht & Hsz)]. set (s1 := introduced (IdInt 1) (initialize_params c) (begun (hp_server p))).
  assert (fresh so (begun (hp_server p))) as Hfb by by destruct Hf.
  assert (captured (session_captures s1) = Some []) as Hc1 by exact (begun_captured (hp_server p)).
  assert (handle_message served (normalize_message (initialize_request c)) (begun (hp_server p)) =
            (responded (answer_of so) s1, Val tt)) as Hh1.
  { cbn [normalize_message initialize_request req_id req_method req_params fmap option_fmap option_map]. rewrite normalize_params.
    rewrite (handle_initialize_request served so) by done. by apply send_captured. }
  pose proof (http_peer_reply o served cut Hcut _ body (answer_of so) text p _ Hb Hh Hh1
                (responded_captured _ _) Hg Ht Hsz) as Hpeer.
  unfold answer_of in Hpeer at 2. rewrite normalize_response in Hpeer. cbn [normalize_result] in Hpeer.
  unfold so in Hpeer at 2. rewrite normalize_introduction in Hpeer. eexists. split; [exact Hpeer|].
  set (p1 := mkHttpPair _ _ _ _).
  refine (http_peer_quiet o served cut Hcut initialized_notification note p1 (set_state Operating (begun (hp_server p1))) Hn eq_refl _ _).
  - apply (handle_initialized_note served so); [done|]. apply (fr_router _ _ Hf).
  - exact (begun_captured (hp_server p1)).
Qed.

End http_handshake.

(** ** A concrete pair: the sample server and a new client *)
Module HttpHandshakeDemo.
#[local] Existing Instances BitText.text BitText.laws.

Definition app : Sessions nat nat nat nat unit HttpRemoteDemo.server_world :=
  single HttpRemoteDemo.tool_fn (fun _ _ => lift Undefined) (fun _ _ => lift Undefined) (fun _ _ => lift Undefined).
(** A server whose transport has not been started. *)
Definition server : HttpRemoteDemo.server_world :=
  make_session (ServerSession HttpRemoteDemo.so) (make_http_transport default_http_options, Sample.initial_server).
Definition serving : HttpRemoteDemo.server_world := (run_begin (Sessions0 := app) server).1.
Definition the_pair : HttpRemoteDemo.pair := mkHttpPair HttpRemoteDemo.http serving [] [].
Definition start : HttpRemoteDemo.world :=
  make_session (ClientSession (client_options HandshakeDemo.new_client)) (mkLink the_pair [], HandshakeDemo.new_client).

Definition text_of (m : Message) : string := match serialize_message m with Val s => s | _ => EmptyString end.

Lemma can_post m :
  good_message m -> serialize_message m = Val (text_of m) -> (Z.of_nat (size (text_of m)) < modulus 64)%Z ->
  origin_allowed default_http_options (message_head (post_message HttpRemoteDemo.http (text_of m))) = true ->
  exists body, http_ready default_http_options HttpRemoteDemo.http m body.
Proof.
  intros Hg Ht Hs Ho. exists (text_of m). split; try done. apply HttpRemoteDemo.running_wf.
Qed.
End HttpHandshakeDemo.

Section http_handshake_demo.
#[local] Existing Instances BitText.text BitText.laws HttpRemoteDemo.peer HttpRemoteDemo.client_app.

End http_handshake_demo.
