(* ===== verification/SessionClient.v ===== *)
(** * A client of the multi-session server

    The client transport of HttpClient.v against the server of HttpSessions.v,
    across HttpPair.v: how the client comes by the id of its session, how its
    messages reach that session, and what it learns when the session is gone. *)

From S2P Require Import Prelude Json Core Types Message Protocol State Router Session.
From S2P Require Import Lines Decimal Chunked Http Sse SseChannel HttpEndpoint PostCapture HttpServer HttpSessions.
From S2P Require Import HttpClient HttpLink HttpPair Handshake HttpRemote.

(** ** Headers *)

Definition mentions (name : string) (hs : HeaderList) : bool := existsb (fun h => String.eqb (to_lower h.1) name) hs.

Lemma set_headers_app l1 l2 m : set_headers (l1 ++ l2) m = set_headers l2 (set_headers l1 m).
Proof. apply foldl_app. Qed.

Lemma set_headers_other name hs m : mentions name hs = false -> set_headers hs m !! name = m !! name.
Proof.
  revert m. induction hs as [|h hs IH]; intros m; [done|]. cbn [mentions existsb]. intros [Hn%String.eqb_neq Hh]%orb_false_iff.
  cbn [set_headers foldl]. change (foldl _ _ hs) with (set_headers hs (<[to_lower h.1 := h.2]> m)).
  rewrite IH by exact Hh. by rewrite lookup_insert_ne.
Qed.

(** The options leave the session header to the transport. *)
Definition plain_options (c : HttpClient) : Prop := mentions session_header (hco_headers (hc_options c)) = false.

Lemma posted_id c body : plain_options c -> header (message_head (post_message c body)) session_header = hc_session_id c.
Proof.
  intros Hp. unfold header, post_message. cbn [message_head headers]. set (hs := post_headers c).
  assert (set_headers (all_headers (HttpRequest "POST" (hco_path (hc_options c)) hs body)) ∅ !! session_header =
            set_headers hs ∅ !! session_header) as ->.
  { cbn [all_headers]. destruct (_ && _); [|done]. rewrite set_headers_app. by apply set_headers_other. }
  unfold hs, post_headers. rewrite !set_headers_app, set_headers_other by exact Hp. unfold set_header.
  destruct (String.eqb_spec (hc_session_id c) EmptyString) as [->|]; [by destruct (hco_origin _)|].
  cbn [set_headers foldl fst snd]. change (to_lower "Mcp-Session-Id") with session_header. by rewrite lookup_insert_eq.
Qed.

(** The request that ends the session. *)
Definition delete_message (c : HttpClient) : Http.http_message :=
  let o := hc_options c in
  HttpRequest "DELETE" (hco_path o)
    [("Host", host_header o); ("Mcp-Session-Id", hc_session_id c); ("MCP-Protocol-Version", kProtocolVersion);
     ("Connection", "close")] EmptyString.

Lemma delete_wf c : wf_client c -> hc_session_id c <> EmptyString -> wf_http (delete_message c).
Proof.
  intros [[Hp1 Hp2] Hh _] Hid. unfold post_headers in Hh. rewrite !Forall_app in Hh. destruct Hh as (Hh & _ & Hi & _).
  unfold set_header in Hi. rewrite (proj2 (String.eqb_neq _ _) Hid) in Hi. apply Forall_cons in Hi as [Hi _]. apply Forall_cons in Hh as [Hh _].
  split; [done|]. split; [done|]. split; [done|]. split; [done|]. unfold delete_message.
  apply Forall_cons_2; [exact Hh|]. apply Forall_cons_2; [exact Hi|]. repeat constructor.
Qed.

Lemma delete_length c : declares_length (delete_message c).
Proof. reflexivity. Qed.

Lemma delete_id c : header (message_head (delete_message c)) session_header = hc_session_id c.
Proof. reflexivity. Qed.

(** A reply, with the id of a new session or without. *)
Definition id_header (id : option string) : HeaderList := match id with Some id => [("Mcp-Session-Id", id)] | None => [] end.

Definition wf_id (id : string) : Prop := single_line id /\ trim id = id.

Lemma reply_readable status reason body content_type id :
  (100 <= status <= 599)%Z -> single_line reason -> content_type = "text/plain" \/ content_type = "application/json" ->
  (forall i, id = Some i -> wf_id i) -> (Z.of_nat (size body) < modulus 64)%Z ->
  let reply := mkReply status reason body content_type (id_header id) in
  readable reply /\ header (message_head (reply_message reply)) session_header = default EmptyString id.
Proof.
  intros Hst Hr Ht Hid Hsz reply. split; [split; [| | |done]|].
  - split; [done|]. split; [done|]. unfold reply_headers, reply. cbn [reply_content_type reply_extra app].
    do 3 (apply Forall_cons_2; [destruct Ht; subst; by repeat split|]).
    destruct id as [i|]; [|apply Forall_nil_2]. destruct (Hid i eq_refl) as [[] ?]. apply Forall_cons_2; [by repeat split|apply Forall_nil_2].
  - destruct Ht; subst; by destruct id.
  - by destruct id.
  - by destruct id.
Qed.

Lemma hex_wf s : str_forall (fun c => bool_decide (is_Some (hex_digit c))) s = true -> wf_id s.
Proof.
  intros H. assert (forall c, is_Some (hex_digit c) -> is_blank c = false /\ Ascii.eqb c CR = false /\ Ascii.eqb LF c = false /\ Ascii.eqb CR c = false) as Hc.
  { intros [[] [] [] [] [] [] [] []]; vm_compute; intros [? ?]; try done. }
  split.
  - split; induction s as [|c s IH]; try done; cbn in H; apply andb_true_iff in H as [H1%bool_decide_eq_true H2];
      destruct (Hc c H1) as (_ & _ & E1 & E2); rewrite find_char_cons, ?E1, ?E2; by rewrite IH.
  - apply trim_id. eapply str_forall_impl; [|exact H]. intros c Hc0%bool_decide_eq_true. by destruct (Hc c Hc0) as (-> & -> & _).
Qed.

Lemma generated_id words : wf_id (generate_session_id words).
Proof.
  apply hex_wf. unfold generate_session_id. induction words as [|w words IH]; [done|]. cbn [fmap list_fmap foldr].
  rewrite str_forall_app. by rewrite (proj2 (hex_pad_spec 8 w)), IH.
Qed.

(** ** What a session says to a message *)

(** What was captured while a message was handled: a response or nothing. *)
Record spoken `{JsonText} (c : Captures) (answer : option JsonRpcResponse) (text : string) : Prop := mkSpoken {
  sk_captured : captured c = Some (match answer with Some r => [message_to_json (MResponse r)] | None => [] end);
  sk_text : match answer with
            | Some r => good_message (MResponse r) /\ serialize_message (MResponse r) = Val text
            | None => text = EmptyString
            end;
  sk_size : (Z.of_nat (size text) < modulus 64)%Z;
}.

Definition spoken_reply (extra : HeaderList) (answer : option JsonRpcResponse) (text : string) : Reply :=
  match answer with Some _ => answered text extra | None => accepted extra end.

Definition spoken_messages (answer : option JsonRpcResponse) : list Message :=
  match answer with Some r => [normalize_message (MResponse r)] | None => [] end.

Lemma spoken_reply_for `{JsonText} c answer text extra : spoken c answer text -> reply_for c extra (spoken_reply extra answer text).
Proof. intros [Hc Ht _]. destruct answer as [r|]; [right|by left]. destruct Ht as [_ Ht]. by exists r, text. Qed.

(** The client with the id of a reply. *)
Definition take_id (id : option string) (c : HttpClient) : HttpClient :=
  match id with Some i => if String.eqb i EmptyString then c else set_session_id i c | None => c end.

Section session_client.
Context {W Sid : Type} {SH : SessionHost W Sid} {JT : JsonText} {JL : JsonTextLaws} {SL : SessionHostLaws W Sid}.

(** The server's options, the time, and how bytes are cut into reads. *)
Context (o : HttpServerOptions) (now : Z) (cut : string -> list string).
Context (Hcut : forall s, foldr String.append EmptyString (cut s) = s).
#[local] Instance session_pair : HttpClientHost (HttpPair W) := pair_host o (handle_session_request now) cut.

Lemma read_session_reply reply (p : HttpPair W) :
  readable reply ->
  post_read (reply_reads cut reply) p =
    (_ ← take_session_id (message_head (reply_message reply));
     if (reply_status reply =? 202)%Z then skip
     else if (reply_status reply =? 200)%Z then deliver_frame (reply_body reply)
     else bad_status (message_head (reply_message reply))) p.
Proof. exact (read_reply o (handle_session_request now) cut Hcut reply p). Qed.

Lemma take_reply_id reply id (p : HttpPair W) :
  header (message_head (reply_message reply)) session_header = default EmptyString id ->
  take_session_id (message_head (reply_message reply)) p = (put_client (take_id id (hp_http p)) p, Val tt).
Proof.
  unfold take_session_id. intros Hh. change "mcp-session-id" with session_header. rewrite Hh.
  destruct p as [c s h es], id as [i|]; cbn; [|done]. by destruct (String.eqb i EmptyString).
Qed.

(** The reply to a message that was handled. *)
Lemma read_spoken c id answer text (p : HttpPair W) :
  spoken c answer text -> (forall i, id = Some i -> wf_id i) ->
  post_read (reply_reads cut (spoken_reply (id_header id) answer text)) p =
    (add_heard (spoken_messages answer) (put_client (take_id id (hp_http p)) p), Val tt).
Proof.
  intros [_ Ht Hsz] Hid. destruct answer as [r|]; cbn [spoken_reply spoken_messages]; unfold answered, accepted.
  - destruct (reply_readable 200 "OK" text "application/json" id) as [Hr Hh]; [done|done|by right|done|done|].
    rewrite (read_session_reply _ p Hr). rewrite (st_bind_val _ _ _ _ _ (take_reply_id _ id p Hh)).
    destruct Ht as [[Hwf Hd] Ht]. destruct (serialize_message_line (MResponse r) Hwf Hd) as (text' & Hs & _ & Hne & _ & Hf).
    rewrite Ht in Hs. injection Hs as <-. cbn [reply_status answered Z.eqb Pos.eqb]. 
    rewrite (deliver_frame_messages text _ _ _ Hne Hf). exact (hear_messages o (handle_session_request now) cut [_] _).
  - destruct (reply_readable 202 "Accepted" EmptyString "text/plain" id) as [Hr Hh]; [done|done|by left|done|done|].
    rewrite (read_session_reply _ p Hr). rewrite (st_bind_val _ _ _ _ _ (take_reply_id _ id p Hh)).
    cbn. unfold add_heard. cbn. by rewrite app_nil_r.
Qed.

(** A reply that is an error: the client's error handler gets one error, and an
    id that is not known any more is forgotten. *)
Lemma read_error status reason body content_type (p : HttpPair W) :
  (100 <= status <= 599)%Z -> status <> 200%Z -> status <> 202%Z -> single_line reason ->
  content_type = "text/plain" \/ content_type = "application/json" -> (Z.of_nat (size body) < modulus 64)%Z ->
  exists e, post_read (reply_reads cut (mkReply status reason body content_type [])) p =
    (add_error e (put_client (if (status =? 404)%Z then set_session_id EmptyString (hp_http p) else hp_http p) p), Val tt).
Proof.
  intros Hst H200 H202 Hr Ht Hsz.
  destruct (reply_readable status reason body content_type None Hst Hr Ht) as [Hrd Hh]; [done|done|].
  change (id_header None) with ([] : HeaderList) in Hrd, Hh.
  rewrite (read_session_reply _ p Hrd). rewrite (st_bind_val _ _ _ _ _ (take_reply_id _ None p Hh)).
  cbn [reply_status take_id]. rewrite (proj2 (Z.eqb_neq _ _) H202), (proj2 (Z.eqb_neq _ _) H200).
  assert (put_client (hp_http p) p = p) as -> by by destruct p.
  unfold bad_status. change (Http.status (message_head _)) with status. unfold gets. run. cbn [http_of session_pair pair_host].
  destruct (status =? 404)%Z; [|by eexists; destruct p]. destruct p as [c s h es]. cbn [hp_http].
  destruct (String.eqb_spec (hc_session_id c) EmptyString) as [E|]; cbn [negb andb]; eexists; [|reflexivity].
  assert (set_session_id EmptyString c = c) as -> by (destruct c; cbn in E; by subst). reflexivity.
Qed.

(** *** Routing *)

(** The idle sessions end before a request is looked at. *)
Definition sweeps (w w1 : W) : Prop :=
  exists evicted w0, on_registry (remove_idle now) w = (w0, Val evicted) /\ for_each evict evicted w0 = (w1, Val tt).

Lemma handle_swept head body w w1 :
  sweeps w w1 -> method head = "POST" ->
  handle_session_request now head body w = handle_post now (header head session_header) body w1.
Proof.
  intros (evicted & w0 & H1 & H2) Hm. unfold handle_session_request. rewrite (st_bind_val _ _ _ _ _ H1), (st_bind_val _ _ _ _ _ H2).
  rewrite Hm. reflexivity.
Qed.

(** The message as the server's handler gets it. *)
Lemma post_routed m body reply (p : HttpPair W) w1 w2 :
  let c := hp_http p in
  http_ready o c m body -> plain_options c -> sweeps (hp_server p) w1 ->
  handle_post now (hc_session_id c) body w1 = (w2, Val (Plain reply)) ->
  http_client_send m p = post_read (reply_reads cut reply) (put_server w2 p).
Proof.
  intros c Hr Ho Hs Hh. apply (send_served o (handle_session_request now) cut Hcut m body reply p w2 Hr).
  change (hp_http p) with c. rewrite (handle_swept (message_head (post_message c body)) body _ w1 Hs eq_refl). by rewrite posted_id.
Qed.

(** With a capture begun, and ended. *)
Definition capturing (w : W) : W := set_host_captures (capture_begin (host_captures w)) w.
Definition released (w : W) : W := set_host_captures (capture_end (host_captures w)) w.

Lemma answer_spoken k m extra answer text w w' :
  deliver_to now k m (capturing w) = (w', Val tt) -> spoken (host_captures w') answer text ->
  answer_post (HW := session_host now k) (mkFrame [m] [] false) extra w =
    (released w', Val (spoken_reply extra answer text)).
Proof.
  intros Hd Hs. by apply (answer_post_single (HW := session_host now k) m extra (spoken_reply extra answer text) w w'), spoken_reply_for.
Qed.

Definition asks_initialize (m : Message) : bool := frame_contains_initialize (mkFrame [m] [] false).

Lemma open_session_id w w2 k extra :
  open_session now w = (w2, Val (Some (k, extra))) ->
  exists id, extra = id_header (Some id) /\ wf_id id /\ entries (registry_of w2) !! id = Some (mkEntry k now).
Proof.
  unfold open_session. intros H. apply st_bind_inv in H as [(w1 & sid & H1 & H)|[(? & _ & ?)|[_ ?]]]; [|done|done].
  destruct sid as [sid|]; [|done]. apply st_bind_inv in H as [(w3 & ? & H3 & H)|[(? & _ & ?)|[_ ?]]]; [|done|done].
  apply st_bind_inv in H as [(w4 & words & H4 & H)|[(? & _ & ?)|[_ ?]]]; [|done|done].
  run_in H. unfold on_registry in H. injection H as <- <- <-. exists (generate_session_id words).
  split; [done|]. split; [apply generated_id|]. rewrite registry_of_set. apply lookup_insert_eq.
Qed.

Lemma delivered_registry k m w w' : deliver_to now k m (capturing w) = (w', Val tt) -> registry_of (released w') = registry_of w.
Proof.
  intros H. unfold released. rewrite registry_of_captures. pose proof (deliver_registry now k m (registry_of w) (capturing w)) as Hk.
  rewrite H in Hk. apply Hk. unfold capturing. apply registry_of_captures.
Qed.

(** The session that the client's id names on the server. *)
Definition session_at (p : HttpPair W) : option Sid := e_session <$> entries (registry_of (hp_server p)) !! hc_session_id (hp_http p).
(** The server has parsed the body of a message that was posted. *)
Ltac read_frame Hr :=
  unfold handle_post, lift; rewrite (http_ready_frame _ _ _ _ Hr);
  match goal with |- context [mkFrame ?ms ?es ?b] => erewrite (st_bind_val _ _ _ _ (Ok (mkFrame ms es b))) by reflexivity end.

Lemma post_opens m body (p : HttpPair W) w1 w2 w3 k extra answer text :
  let c := hp_http p in
  http_ready o c m body -> plain_options c -> sweeps (hp_server p) w1 ->
  hc_session_id c = EmptyString -> asks_initialize (normalize_message m) = true ->
  open_session now w1 = (w2, Val (Some (k, extra))) ->
  deliver_to now k (normalize_message m) (capturing w2) = (w3, Val tt) -> spoken (host_captures w3) answer text ->
  exists id, let p' := add_heard (spoken_messages answer) (put_client (take_id (Some id) c) (put_server (released w3) p)) in
    http_client_send m p = (p', Val tt) /\ session_at p' = Some k.
Proof.
  intros c Hr Ho Hs Hid Hm Hopen Hd Hsp. destruct (open_session_id _ _ _ _ Hopen) as (id & -> & Hwf & He). exists id. cbv zeta. split.
  - rewrite (post_routed m body (spoken_reply (id_header (Some id)) answer text) p w1 (released w3) Hr Ho Hs).
    + rewrite (read_spoken (host_captures w3) (Some id) answer text); [done|done|by intros i [= <-]].
    + fold c. read_frame Hr.
      rewrite Hid. cbn [String.eqb]. unfold asks_initialize in Hm. rewrite Hm. cbn [negb]. rewrite (st_bind_val _ _ _ _ _ Hopen).
      by rewrite (st_bind_val _ _ _ _ _ (answer_spoken k _ (id_header (Some id)) answer text w2 w3 Hd Hsp)).
  - unfold session_at. cbn [hp_http hp_server add_heard put_client put_server]. rewrite (delivered_registry _ _ _ _ Hd).
    assert (hc_session_id (take_id (Some id) c) = id) as ->; [|by rewrite He].
    cbn [take_id]. destruct (String.eqb_spec id EmptyString) as [->|]; [exact Hid|by destruct c].
Qed.

Lemma post_found m body (p : HttpPair W) w1 w3 e answer text :
  let c := hp_http p in let id := hc_session_id c in
  http_ready o c m body -> plain_options c -> sweeps (hp_server p) w1 ->
  id <> EmptyString -> entries (registry_of w1) !! id = Some e ->
  deliver_to now (e_session e) (normalize_message m) (capturing (set_registry (find now id (registry_of w1)).2 w1)) = (w3, Val tt) ->
  spoken (host_captures w3) answer text ->
  let p' := add_heard (spoken_messages answer) (put_server (released w3) p) in
  http_client_send m p = (p', Val tt) /\ session_at p' = Some (e_session e).
Proof.
  intros c id Hr Ho Hs Hid He Hd Hsp. set (w2 := set_registry _ w1) in *. cbv zeta.
  assert (on_registry (find now id) w1 = (w2, Val (Some (e_session e)))) as Hfind.
  { unfold on_registry, w2, find. by rewrite He. }
  split.
  - rewrite (post_routed m body (spoken_reply [] answer text) p w1 (released w3) Hr Ho Hs).
    + rewrite (read_spoken (host_captures w3) None answer text); [|done|done]. by destruct p.
    + fold c id. read_frame Hr.
      rewrite (proj2 (String.eqb_neq _ _) Hid). rewrite (st_bind_val _ _ _ _ _ Hfind).
      by rewrite (st_bind_val _ _ _ _ _ (answer_spoken (e_session e) _ [] answer text w2 w3 Hd Hsp)).
  - unfold session_at. cbn [hp_http hp_server add_heard put_server]. rewrite (delivered_registry _ _ _ _ Hd). unfold w2.
    rewrite registry_of_set. unfold find. fold c id. rewrite He. cbn [snd with_entries entries]. by rewrite lookup_insert_eq.
Qed.

Lemma post_unknown m body (p : HttpPair W) w1 :
  let c := hp_http p in
  http_ready o c m body -> plain_options c -> sweeps (hp_server p) w1 ->
  hc_session_id c <> EmptyString -> entries (registry_of w1) !! hc_session_id c = None ->
  exists e, http_client_send m p =
    (add_error e (put_client (set_session_id EmptyString c) (put_server (set_registry (registry_of w1) w1) p)), Val tt).
Proof.
  intros c Hr Ho Hs Hid He. set (w2 := set_registry _ w1).
  rewrite (post_routed m body (plain 404 "Not Found" "unknown or expired session") p w1 w2 Hr Ho Hs).
  - by apply (read_error 404 "Not Found" "unknown or expired session" "text/plain"); [..|left|].
  - fold c. read_frame Hr.
    rewrite (proj2 (String.eqb_neq _ _) Hid). unfold on_registry, find. unfold mbind, st_bind. by rewrite He.
Qed.

Definition header_required : Error := error InvalidRequest "Mcp-Session-Id header required (initialize first)".

Lemma post_refused m body (p : HttpPair W) w1 text :
  let c := hp_http p in
  http_ready o c m body -> plain_options c -> sweeps (hp_server p) w1 ->
  hc_session_id c = EmptyString -> asks_initialize (normalize_message m) = false ->
  serialize_message (error_response header_required) = Val text -> (Z.of_nat (size text) < modulus 64)%Z ->
  exists e, http_client_send m p = (add_error e (put_server w1 p), Val tt).
Proof.
  intros c Hr Ho Hs Hid Hm Ht Hsz.
  rewrite (post_routed m body (mkReply 400 "Bad Request" text "application/json" []) p w1 w1 Hr Ho Hs).
  - destruct (read_error 400 "Bad Request" text "application/json" (put_server w1 p)) as [e He]; try done; [by right|].
    exists e. rewrite He. by destruct p.
  - fold c. read_frame Hr.
    rewrite Hid. cbn [String.eqb]. unfold asks_initialize in Hm. rewrite Hm. cbn [negb]. unfold jsonrpc_error.
    fold header_required. by rewrite Ht.
Qed.

(** C15: a client and the sessions of the server, over any division of the bytes
    into reads.  An initialize request of a client without a session opens one,
    and the client takes its id; with the id of a session, a message is handled
    by that session, and the client hears its response or nothing; with the id
    of a session that is gone, nothing is handled, the client forgets the id and
    its error handler runs once; without an id anything but an initialize
    request is refused.  The session that the client's id names afterwards is
    the one that handled the message. *)
Theorem session_affinity m body (p : HttpPair W) w1 :
  let c := hp_http p in let id := hc_session_id c in let m' := normalize_message m in
  http_ready o c m body -> plain_options c -> sweeps (hp_server p) w1 ->
  (forall w2 w3 k extra answer text, id = EmptyString -> asks_initialize m' = true ->
     open_session now w1 = (w2, Val (Some (k, extra))) ->
     deliver_to now k m' (capturing w2) = (w3, Val tt) -> spoken (host_captures w3) answer text ->
     exists id', let p' := add_heard (spoken_messages answer) (put_client (take_id (Some id') c) (put_server (released w3) p)) in
       http_client_send m p = (p', Val tt) /\ session_at p' = Some k) /\
  (forall w3 e answer text, id <> EmptyString -> entries (registry_of w1) !! id = Some e ->
     deliver_to now (e_session e) m' (capturing (set_registry (find now id (registry_of w1)).2 w1)) = (w3, Val tt) ->
     spoken (host_captures w3) answer text ->
     let p' := add_heard (spoken_messages answer) (put_server (released w3) p) in
     http_client_send m p = (p', Val tt) /\ session_at p' = Some (e_session e)) /\
  (id <> EmptyString -> entries (registry_of w1) !! id = None ->
     exists e, http_client_send m p =
       (add_error e (put_client (set_session_id EmptyString c) (put_server (set_registry (registry_of w1) w1) p)), Val tt)) /\
  (forall text, id = EmptyString -> asks_initialize m' = false ->
     serialize_message (error_response header_required) = Val text -> (Z.of_nat (size text) < modulus 64)%Z ->
     exists e, http_client_send m p = (add_error e (put_server w1 p), Val tt)).
Proof.
  intros c id m' Hr Ho Hs. split_and!.
  - intros w2 w3 k extra answer text Hid Hm Hopen Hd Hsp. by eapply post_opens.
  - intros w3 e answer text Hid He Hd Hsp. by eapply post_found.
  - intros Hid He. by apply post_unknown with body.
  - intros text Hid Hm Ht Hsz. by eapply post_refused.
Qed.

(** *** Leaving and coming back *)

Lemma keeps_entries_evict (t : gmap string (Entry Sid)) sid : keeps (fun w => entries (registry_of w) = t) (evict sid).
Proof.
  unfold evict. apply keeps_bind; [|intros _; apply keeps_entries_close].
  intros w Hw. pose proof (disconnect_registry sid (registry_of w) w eq_refl) as Hk. cbv beta in *. by rewrite Hk.
Qed.

Lemma sweeps_entries w w1 id : sweeps w w1 -> entries (registry_of w) !! id = None -> entries (registry_of w1) !! id = None.
Proof.
  intros (evicted & w0 & H1 & H2) He.
  assert (entries (registry_of w0) !! id = None) as He0.
  { unfold on_registry in H1. destruct (remove_idle now (registry_of w)) as [l r] eqn:E. injection H1 as <- _. rewrite registry_of_set.
    unfold remove_idle in E. destruct (_ <=? 0)%Z; injection E as _ <-; [done|]. cbn. by apply map_lookup_filter_None_2; left. }
  pose proof (keeps_for_each (fun w => entries (registry_of w) = entries (registry_of w0)) evict evicted) as Hk.
  specialize (Hk (fun sid _ => keeps_entries_evict _ sid) w0 eq_refl). rewrite H2 in Hk. cbv beta in Hk. cbn [fst] in Hk. by rewrite Hk.
Qed.

(** What [handle_delete] does to the table. *)
Lemma delete_forgets id w w' a :
  id <> EmptyString -> allow_client_termination (reg_options (registry_of w)) = true ->
  handle_delete id w = (w', Val a) -> entries (registry_of w') !! id = None.
Proof.
  intros Hid Ha. unfold handle_delete. rewrite (proj2 (String.eqb_neq _ _) Hid). unfold gets. run. rewrite Ha. cbn [negb].
  unfold on_registry, remove. destruct (entries (registry_of w) !! id) as [e|] eqn:E; cbv beta iota.
  - set (w2 := set_registry _ w). pose proof (keeps_entries_evict (delete id (entries (registry_of w))) (e_session e) w2) as Hk.
    destruct (evict (e_session e) w2) as [w3 [u|x|]]; [|done|done]. intros [= <- _]. cbn [fst] in Hk. rewrite Hk; [apply lookup_delete_eq|].
    unfold w2. by rewrite registry_of_set.
  - intros [= <- _]. by rewrite registry_of_set.
Qed.

(** Ending the session: the server forgets the id, the client does not. *)
Lemma disconnect_forgets (p p1 : HttpPair W) w0 :
  let c := hp_http p in
  wf_client c -> hc_running c = true -> hc_session_id c <> EmptyString -> passes o (message_head (delete_message c)) ->
  sweeps (hp_server p) w0 -> allow_client_termination (reg_options (registry_of w0)) = true ->
  http_client_disconnect p = (p1, Val tt) ->
  hp_http p1 = set_running false c /\ hp_heard p1 = hp_heard p /\ entries (registry_of (hp_server p1)) !! hc_session_id c = None.
Proof.
  intros c Hwf Hrun Hid Hp Hs Ha. unfold http_client_disconnect, gets. run. cbn [http_of session_pair pair_host]. fold c. rewrite Hrun.
  set (p0 := put_client (set_running false c) p).
  change (on_http (set_running false) p) with (p0, Val (A := unit) tt). cbv beta iota.
  unfold send_session_delete, gets. run. cbn [http_of session_pair pair_host].
  change (hc_session_id (hp_http p0)) with (hc_session_id c). rewrite (proj2 (String.eqb_neq _ _) Hid).
  change (delete_request (hp_http p0)) with (message_text (delete_message c)). cbn [exchange session_pair pair_host].
  unfold serve_connection. rewrite <- (app_nil_r (Bytes <$> _)). unfold handle_connection.
  rewrite (receive_message o (delete_message c) _ [] EmptyString); [|by apply delete_wf|done|done|apply delete_length|by rewrite Hcut].
  destruct (handle_session_request now (message_head (delete_message c)) (message_body (delete_message c)) (hp_server p0)) as [s r] eqn:E.
  destruct Hs as (evicted & wa & H1 & H2). change (hp_server p0) with (hp_server p) in E. unfold handle_session_request in E.
  rewrite (st_bind_val _ _ _ _ _ H1), (st_bind_val _ _ _ _ _ H2), delete_id in E. cbn [method message_head delete_message String.eqb Ascii.eqb Bool.eqb] in E.
  destruct r as [a|x|]; [|by unfold mbind, st_bind..].
  pose proof (delete_forgets _ _ _ _ Hid Ha E) as Hf. unfold mbind, st_bind. destruct a; intros [= <-]; by split_and!.
Qed.

(** Coming back: the client's next message carries the id of the session it has
    ended, so that the server, which accepts an initialize request only without
    an id, answers it with an error, and the handshake gets no answer.  The one
    after it has no id. *)
Theorem reconnect_refused m body (p p1 p2 : HttpPair W) w0 w1 b :
  let c := hp_http p in
  wf_client c -> hc_running c = true -> hc_session_id c <> EmptyString -> passes o (message_head (delete_message c)) ->
  sweeps (hp_server p) w0 -> allow_client_termination (reg_options (registry_of w0)) = true ->
  http_client_disconnect p = (p1, Val tt) -> http_client_connect true p1 = (p2, Val b) ->
  http_ready o (hp_http p2) m body -> plain_options (hp_http p2) -> sweeps (hp_server p2) w1 ->
  hc_session_id (hp_http p2) = hc_session_id c /\
  exists p3, http_client_send m p2 = (p3, Val tt) /\ hp_heard p3 = hp_heard p /\ hc_session_id (hp_http p3) = EmptyString.
Proof.
  intros c Hwf Hrun Hid Hp Hs Ha Hd Hc Hr Ho Hs2. destruct (disconnect_forgets p p1 w0 Hwf Hrun Hid Hp Hs Ha Hd) as (Hh & Hheard & He).
  unfold http_client_connect, gets in Hc. run_in Hc. cbn [http_of session_pair pair_host] in Hc. rewrite Hh in Hc. injection Hc as <- _.
  assert (hc_session_id (hp_http p1) = hc_session_id c) as E by by rewrite Hh.
  split; [cbn; exact E|].
  destruct (post_unknown m body _ w1 Hr Ho Hs2) as [e Hsend]; [cbn; by rewrite E| |].
  { cbn. rewrite E. eapply sweeps_entries; [exact Hs2|]. exact He. }
  eexists. split; [exact Hsend|]. split; [exact Hheard|done].
Qed.
End session_client.

(** ** A concrete client: it opens a session, leaves and comes back *)
Module SessionClientDemo.
#[local] Existing Instances BitText.text BitText.laws SessionsDemo.application.

Definition request : Message := initialize_request HandshakeDemo.new_client.
Definition body : string := match serialize_message request with Val s => s | _ => EmptyString end.
Definition start : HttpPair SessionsDemo.world := mkHttpPair HttpRemoteDemo.http SessionsDemo.start [] [].

Definition opened : SessionsDemo.world := (open_session (SH := SessionsDemo.host) 0 SessionsDemo.start).1.
Definition handled : SessionsDemo.world :=
  (deliver_to (SessionHost := SessionsDemo.host) 0 0 request (capturing (SH := SessionsDemo.host) opened)).1.
Definition answer : JsonRpcResponse :=
  response_of (IdInt 1) (Ok (InitializeResult_to_json (introduction HttpDemo.server_options))).
Definition text : string := match serialize_message (MResponse answer) with Val s => s | _ => EmptyString end.

Definition host : HttpClientHost (HttpPair SessionsDemo.world) :=
  session_pair (SH := SessionsDemo.host) default_http_options 0 HttpRemoteDemo.cut.
End SessionClientDemo.

Section session_client_demo.
#[local] Existing Instances BitText.text BitText.laws SessionsDemo.application SessionsDemo.host SessionsDemo.laws SessionClientDemo.host.

Lemma session_affinity_witness :
  exists p', http_client_send SessionClientDemo.request SessionClientDemo.start = (p', Val tt) /\
    hp_heard p' = [MResponse SessionClientDemo.answer] /\ session_at p' = Some 0.
Proof.
  destruct (session_affinity default_http_options 0 HttpRemoteDemo.cut HttpRemoteDemo.cut_whole SessionClientDemo.request
    SessionClientDemo.body SessionClientDemo.start SessionsDemo.start) as (Hopen & _).
  - split; [|vm_compute; reflexivity|exact HttpRemoteDemo.running_wf|reflexivity| |vm_compute; reflexivity].
    + split; [|vm_compute; reflexivity]. split; [done|]. intros p [= <-]. split; [cbn; repeat constructor|done].
    + split; [reflexivity|]. split; [vm_compute; reflexivity|exact I].
  - reflexivity.
  - exists [], SessionsDemo.start. by split.
  - destruct (Hopen SessionClientDemo.opened SessionClientDemo.handled 0 [("Mcp-Session-Id", SessionsDemo.first_id)]
      (Some SessionClientDemo.answer) SessionClientDemo.text) as (id & Hsend & Hat).
    + reflexivity.
    + vm_compute. reflexivity.
    + vm_compute. reflexivity.
    + vm_compute. reflexivity.
    + split; [vm_compute; reflexivity| |vm_compute; reflexivity].
      split; [|vm_compute; reflexivity]. split; [|vm_compute; reflexivity]. split; [by intros i [= <-]|cbn; repeat constructor].
    + eexists. split; [exact Hsend|]. split; [vm_compute; reflexivity|exact Hat].
Defined.

(** The first initialize after coming back is lost, the second opens a session. *)
Example initialize_lost :
  let visit :=
    _ ← http_client_send SessionClientDemo.request;
    _ ← http_client_disconnect;
    _ ← http_client_connect true;
    http_client_send SessionClientDemo.request in
  let p := (visit SessionClientDemo.start).1 in
  hp_heard p = [MResponse SessionClientDemo.answer] /\ length (hp_errors p) = 1 /\ session_at p = None /\
  let p' := (http_client_send SessionClientDemo.request p).1 in
  hp_heard p' = [MResponse SessionClientDemo.answer; MResponse SessionClientDemo.answer] /\ session_at p' = Some 1.
Proof. vm_compute. by split_and!. Qed.
End session_client_demo.
