(* ===== verification/EventStream.v ===== *)
(** * The event stream, end to end

    The client's background stream (HttpClient.v) against the server's channel
    (SseChannel.v): what one connection delivers, wherever it breaks off, and
    what a client that reconnects ends up with. *)

From S2P Require Import Prelude Json Core Types Message State Lines Decimal Chunked Http Sse SseChannel.
From S2P Require Import HttpEndpoint HttpClient.
From stdpp Require Import sorting.

(** ** A stream that breaks off in the middle of an event *)

Lemma take_lines_no_event ls p r :
  Forall (fun l => l <> EmptyString /\ find_char CR l = None) ls -> take_lines ls p = Val r -> r.1 = [].
Proof.
  intros Hls. revert p r. induction Hls as [|l ls [Hne Hcr] _ IH]; intros p r; cbn [take_lines]; [by intros [= <-]|].
  rewrite strip_cr_none by done.
  assert (forall r, take_line l p = Val r -> r.1 = []) as Hl.
  { intros r1. unfold take_line. destruct l as [|c l]; [done|].
    assert (forall f v, (p' ← take_field f v p; Val ([], p')) = Val r1 -> r1.1 = []) as Hf.
    { intros f v. destruct (take_field f v p); [by intros [= <-]|done|done]. }
    repeat case_match; first [by intros [= <-]|apply Hf]. }
  destruct (take_line l p) as [[evs q]| |] eqn:E; cbn [mbind outcome_bind fst snd]; [|done|done].
  destruct (take_lines ls q) as [[evs' q']| |] eqn:E'; cbn [mbind outcome_bind fst snd]; [|done|done].
  intros [= <-]. cbn [fst]. rewrite (Hl _ eq_refl : evs = []). exact (IH _ _ E').
Qed.

Lemma split_lines_nil s r : split_lines s = ([], r) -> r = s.
Proof. rewrite split_lines_find. destruct (find_char LF s); [by destruct (split_lines _)|by intros [= <-]]. Qed.

(** Only the last line of an event is empty. *)
Lemma event_lines_fields e :
  exists fields, event_lines e = fields ++ [EmptyString] /\ Forall (fun l => l <> EmptyString) fields.
Proof.
  unfold event_lines. rewrite !app_assoc. eexists. split; [done|].
  assert (forall name v, name <> EmptyString -> Forall (fun l => l <> EmptyString) (optional_line name v)) as Hopt.
  { intros name [v|] Hn; [|constructor]. constructor; [|constructor]. by destruct name. }
  rewrite <- !app_assoc. repeat apply Forall_app_2; [by apply Hopt..|].
  apply Forall_fmap, Forall_true. by intros l.
Qed.

(** The text of an event short of its end gives no event. *)
Lemma feed_cut e a b :
  wf_event e -> a +:+ b = format_sse_event e -> b <> EmptyString -> exists q, feed a new_parser = Val ([], q).
Proof.
  intros He Hab Hb.
  assert (split_lines (format_sse_event e) = (event_lines e, EmptyString)) as Hsp.
  { unfold format_sse_event. rewrite split_lines_concat.
    - cbn [split_lines]. by rewrite app_nil_r.
    - eapply Forall_impl; [by apply event_lines_no_break|]. by intros l []. }
  rewrite <- Hab, split_lines_app in Hsp. destruct (split_lines a) as [l1 r1] eqn:E1.
  destruct (split_lines (r1 +:+ b)) as [l2 r2] eqn:E2. injection Hsp as Hl Hr2.
  destruct l2 as [|x l2 _] using rev_ind.
  { apply split_lines_nil in E2. rewrite Hr2 in E2. destruct r1, b; done. }
  pose proof (take_lines_event e [] He) as Ht. rewrite app_nil_r, <- Hl, take_lines_app in Ht.
  unfold feed. change (sp_buffer new_parser +:+ a) with a. rewrite E1. cbn [sp_partial new_parser].
  destruct (take_lines l1 no_event) as [[evs q]| |] eqn:E; [|done|done]. cbn [mbind outcome_bind fst snd].
  assert (evs = []) as ->; [|by eexists].
  refine (take_lines_no_event l1 no_event _ _ E).
  destruct (event_lines_fields e) as (fields & Hf & Hne). rewrite Hf, app_assoc in Hl.
  apply app_inj_tail in Hl as [Hl _]. pose proof (event_lines_no_break e He) as Hno.
  rewrite Hf, <- Hl in Hno. rewrite <- Hl in Hne. apply Forall_app in Hno as [[Hno _]%Forall_app _].
  apply Forall_app in Hne as [Hne _]. rewrite Forall_forall in Hno, Hne |- *.
  intros l Hin. by split; [apply Hne|apply Hno].
Qed.

(** ** One connection *)

Section connection.
Context {W : Type} {JT : JsonText} {HW : HttpClientHost W}.

(** What follows the last read is not another one. *)
Definition over (reads : list client_read) : Prop := match reads with Ready _ :: _ => False | _ => True end.

Lemma feed_all_cons c chunks s :
  feed_all (c :: chunks) s = (r ← feed c s; r' ← feed_all chunks r.2; Val (r.1 ++ r'.1, r'.2)).
Proof. done. Qed.

Lemma stream_events_feed chunks chunk parser reads delivered evs q (w : W) :
  over reads -> feed_all (chunk :: chunks) parser = Val (evs, q) ->
  stream_events ((Ready <$> chunks) ++ reads) chunk parser delivered w =
  (_ ← for_each stream_event evs; mret (delivered || negb (bool_decide (evs = [])))) w.
Proof.
  intros Ho. revert chunk parser delivered evs w. induction chunks as [|c chunks IH]; intros chunk parser delivered evs w Hf;
    rewrite feed_all_cons in Hf; destruct (feed chunk parser) as [[evs1 q1]| |] eqn:E1;
    try done; cbn [mbind outcome_bind fst snd] in Hf.
  - injection Hf as <- <-. rewrite app_nil_r. cbn [fmap list_fmap app].
    assert (stream_events reads chunk parser delivered w =
              (_ ← for_each stream_event evs1; mret (delivered || negb (bool_decide (evs1 = [])))) w) as ->; [|done].
    destruct reads as [|[]]; [|by destruct Ho| |]; cbn [stream_events]; unfold lift; rewrite E1; done.
  - rewrite fmap_cons. cbn [app stream_events].
    destruct (feed_all (c :: chunks) q1) as [[evs2 q2]| |] eqn:E2; [|done|done].
    injection Hf as <- <-.
    unfold lift. rewrite E1. run. fold (@mbind (st W) _). rewrite for_each_app. unfold mbind, st_bind.
    destruct (for_each stream_event evs1 w) as [w1 [[]|x|]]; [|done|done].
    rewrite (IH _ _ _ _ w1 E2). unfold mbind, st_bind.
    destruct (for_each stream_event evs2 w1) as [w2 [[]|x|]]; [|done|done].
    unfold mret, st_ret. do 2 f_equal. rewrite <- orb_assoc. f_equal. by destruct evs1, evs2.
Qed.

(** What is on the wire when a stream breaks off: the head, some events, and a
    part of the next. *)
Definition stream_bytes (events : list SseEvent) (part : string) : string :=
  stream_head kProtocolVersion +:+ (foldr String.append EmptyString (format_sse_event <$> events) +:+ part).

Definition part_of (e : SseEvent) (part : string) : Prop :=
  wf_event e /\ exists rest, part +:+ rest = format_sse_event e /\ rest <> EmptyString.

(** Events the parser gives back as they were written. *)
Definition plain_event (e : SseEvent) : Prop := wf_event e /\ received e = e.

Lemma feed_events events next part :
  Forall plain_event events -> part_of next part ->
  exists q, feed (foldr String.append EmptyString (format_sse_event <$> events) +:+ part) new_parser = Val (events, q).
Proof.
  intros He (Hn & rest & Hp & Hr). destruct (feed_cut next part rest Hn Hp Hr) as [q Hq]. exists q. rewrite feed_app.
  assert (events_of (Event <$> events) = events) as Hev.
  { clear Hn Hp. induction He as [|e l [_ He] _ IH]; [done|]. rewrite fmap_cons. cbn [events_of omap list_omap].
    rewrite He. f_equal. exact IH. }
  pose proof (feed_items (Event <$> events) [foldr String.append EmptyString (format_sse_event <$> events)]) as Hf.
  rewrite feed_all_concat, Hev in Hf. cbn [foldr] in Hf. rewrite !str_app_nil_r in Hf. rewrite Hf.
  - cbn [mbind outcome_bind fst snd]. rewrite Hq. cbn [mbind outcome_bind fst snd]. by rewrite app_nil_r.
  - apply Forall_fmap. eapply Forall_impl; [exact He|]. by intros e [].
  - by rewrite <- list_fmap_compose.
Qed.

(** A connection that breaks off: the events that arrived whole are handled in
    order, and nothing else is. *)
Lemma run_sse_once_events events next part chunks reads (w w1 : W) :
  exchange (get_request (http_of w)) w = (w1, Val (Open ((Ready <$> chunks) ++ reads))) -> over reads ->
  Forall plain_event events -> part_of next part ->
  foldr String.append EmptyString chunks = stream_bytes events part ->
  run_sse_once w = (_ ← for_each stream_event events; mret (negb (bool_decide (events = [])))) w1.
Proof.
  intros Hx Ho He Hp Hc.
  set (text := foldr String.append EmptyString (format_sse_event <$> events) +:+ part) in *.
  set (m := HttpResponse 200 "OK" [("Content-Type", "text/event-stream"); ("Cache-Control", "no-cache");
              ("Connection", "keep-alive"); ("MCP-Protocol-Version", kProtocolVersion)] text true).
  assert (wf_http m) as Hm.
  { split; [done|]. split; [done|]. repeat (apply Forall_cons_2; [by repeat split|]). apply Forall_nil_2. }
  destruct (read_head_message m chunks reads EmptyString Hm eq_refl Hc (head_nonempty m)) as (rest & chunks' & Hr & Hb).
  unfold run_sse_once. rewrite (st_bind_val _ _ w w (http_of w)) by done. rewrite (st_bind_val _ _ _ _ _ Hx).
  unfold lift. rewrite Hr. run.
  destruct (feed_events events next part He Hp) as [q Hf]. fold text in Hf. change text with (message_body m) in Hf.
  rewrite <- Hb, <- feed_all_concat in Hf.
  assert (negb (status (message_head m) =? 200)%Z || negb (is_event_stream (message_head m)) = false) as ->
    by (vm_compute; reflexivity).
  by rewrite (stream_events_feed chunks' rest new_parser reads false events q w1 Ho Hf).
Qed.

(** *** What the client remembers *)

Definition position (c : HttpClient) : string * Z := (last_event_id c, hc_retry_ms c).

Definition note (p : string * Z) (e : SseEvent) : string * Z := (default p.1 (sse_id e), default p.2 (retry_ms e)).

(** The handlers leave the background stream's part of the transport alone. *)
Class StreamLaws : Prop := {
  http_of_put c w : http_of (put_http c w) = c;
  message_keeps m p : keeps (fun w => position (http_of w) = p) (http_message m);
  error_keeps e p : keeps (fun w => position (http_of w) = p) (http_error e);
}.
Context {HL : StreamLaws}.

Lemma deliver_frame_position payload p : keeps (fun w => position (http_of w) = p) (deliver_frame payload).
Proof.
  unfold deliver_frame. destruct (String.eqb payload EmptyString); [apply keeps_skip|].
  apply keeps_bind; [apply keeps_lift|]. intros [f|e]; [|apply error_keeps].
  apply keeps_bind; [apply keeps_for_each; intros; apply error_keeps|]. intros ?.
  apply keeps_for_each. intros. apply message_keeps.
Qed.

Lemma stream_event_position e p :
  triple (fun w => position (http_of w) = p) (stream_event e) (fun _ w => position (http_of w) = note p e).
Proof.
  unfold stream_event, on_http. eapply triple_bind with (Q := fun _ w => position (http_of w) = (p.1, default p.2 (retry_ms e))).
  { destruct (retry_ms e) as [ms|]; [|by intros w w' [] <- [= <-]].
    apply triple_modify. intros w <-. by rewrite http_of_put. }
  intros _. eapply triple_bind with (Q := fun _ w => position (http_of w) = note p e).
  { unfold note. destruct (sse_id e) as [id|]; [|by intros w w' [] Hw [= <-]].
    apply triple_modify. intros w Hw. rewrite http_of_put. injection Hw as _ Hms. unfold position. cbn. by rewrite Hms. }
  intros _. apply keeps_preserves, deliver_frame_position.
Qed.

Lemma stream_events_position events (w w' : W) :
  for_each stream_event events w = (w', Val tt) -> position (http_of w') = foldl note (position (http_of w)) events.
Proof.
  revert w. induction events as [|e events IH]; intros w; [by intros [= <-]|]. cbn [for_each foldl].
  intros [(w1 & [] & H1 & H2)|[(? & _ & ?)|[_ ?]]]%st_bind_inv; [|done|done].
  by rewrite (IH w1 H2), (stream_event_position e _ w w1 tt eq_refl H1).
Qed.

Definition channel_events (initial retry : Z) (items : list Item) : list SseEvent :=
  initial_event initial retry :: (item_event <$> items).

(** Where the next connection will resume. *)
Definition resume_id (initial : Z) (items : list Item) : string :=
  to_string (match last items with Some it => it_id it | None => initial end).

Lemma note_channel_events initial retry items p :
  foldl note p (channel_events initial retry items) = (resume_id initial items, retry).
Proof.
  unfold channel_events, resume_id. cbn [foldl]. change (note p (initial_event initial retry)) with (to_string initial, retry).
  induction items as [|it items IH] using rev_ind; [done|]. rewrite fmap_app, foldl_app, IH, last_snoc. done.
Qed.

Lemma channel_events_plain initial retry items :
  (0 <= initial)%Z -> (0 <= retry < modulus 31)%Z -> Forall one_line items -> Forall (fun it => 0 <= it_id it)%Z items ->
  Forall plain_event (channel_events initial retry items).
Proof.
  intros Hi Hr Hl Hid. constructor.
  - split; [|done]. split; [intros v [= <-]; by apply single_line_to_string|]. split; [done|]. split; [done|]. by intros ms [= <-].
  - apply Forall_fmap. rewrite Forall_forall in Hl, Hid |- *. intros it Hit. destruct (Hl it Hit) as [Hlf Hcr].
    split; [split; [intros v [= <-]; by apply single_line_to_string, Hid|by split]|].
    unfold received, item_event. cbn. by rewrite drop_newlines_single.
Qed.

(** One connection of the background stream: when the stream breaks off
    after [items] and in the middle of whatever was to come, the client hands
    over exactly their payloads, in order and once each, and remembers the last
    of them as the place to resume - or, if none has arrived yet, the newest
    event the server had queued. *)
Theorem connection_delivers initial retry items next part chunks reads (w w1 : W) :
  exchange (get_request (http_of w)) w = (w1, Val (Open ((Ready <$> chunks) ++ reads))) -> over reads ->
  (0 <= initial)%Z -> (0 <= retry < modulus 31)%Z -> Forall one_line items -> Forall (fun it => 0 <= it_id it)%Z items ->
  part_of next part ->
  foldr String.append EmptyString chunks = stream_bytes (channel_events initial retry items) part ->
  run_sse_once w =
    (_ ← stream_event (initial_event initial retry);
     _ ← for_each (fun it => _ ← on_http (set_last_event_id (to_string (it_id it))); deliver_frame (it_data it)) items;
     mret true) w1 /\
  (forall w', run_sse_once w = (w', Val true) -> position (http_of w') = (resume_id initial items, retry)).
Proof.
  intros Hx Ho Hi Hr Hl Hid Hp Hc.
  pose proof (run_sse_once_events _ next part chunks reads w w1 Hx Ho (channel_events_plain _ _ _ Hi Hr Hl Hid) Hp Hc) as ->.
  split.
  - unfold channel_events. cbn [for_each]. unfold mbind, st_bind.
    destruct (stream_event (initial_event initial retry) w1) as [w2 [[]|x|]]; [|done|done].
    assert (for_each stream_event (item_event <$> items) w2 =
              for_each (fun it => _ ← on_http (set_last_event_id (to_string (it_id it))); deliver_frame (it_data it)) items w2)
      as ->; [|done].
    clear. revert w2. induction items as [|it items IH]; intros w2; [done|]. rewrite fmap_cons. cbn [for_each].
    unfold mbind, st_bind. unfold stream_event at 1. cbn [retry_ms sse_id item_event sse_data]. run.
    destruct (on_http _ w2) as [w3 [[]|x|]]; [|done|done].
    destruct (deliver_frame _ w3) as [w4 [[]|x|]]; [|done|done]. exact (IH w4).
  - intros w' [(w2 & [] & H1 & H2)|[(? & _ & ?)|[_ ?]]]%st_bind_inv; [|done|done]. injection H2 as <-.
    by rewrite (stream_events_position _ _ _ H1), note_channel_events.
Qed.
End connection.

Module EventStreamDemo.
#[local] Existing Instance BitText.text.

#[export] Instance stream_laws : StreamLaws (W := ClientWorld).
Proof.
  split.
  - done.
  - intros m p. apply keeps_modify. by intros w.
  - intros e p. apply keeps_modify. by intros w.
Qed.

Definition options : HttpClientOptions := mkHttpClientOptions "127.0.0.1" 3001 "/mcp" [] None 1000 5 true.
Definition items : list Item := [mkItem 3 "x"; mkItem 4 "y"].
Definition bytes : string := stream_bytes (channel_events 4 3000 items) "id: 5".

(** Two reads, and then the connection is closed. *)
Definition world : ClientWorld :=
  mkClientWorld (make_http_client options) [Open ((Ready <$> [str_take 150 bytes; str_drop 150 bytes]) ++ [Closed])] [] [].

Lemma connection_delivers_witness :
  let w1 := (next_connection (get_request (cw_http world)) world).1 in
  run_sse_once world =
    (_ ← stream_event (initial_event 4 3000);
     _ ← for_each (fun it => _ ← on_http (set_last_event_id (to_string (it_id it))); deliver_frame (it_data it)) items;
     mret true) w1 /\
  (forall w', run_sse_once world = (w', Val true) -> position (http_of w') = ("4", 3000%Z)).
Proof.
  intros w1.
  refine (connection_delivers 4 3000 items (item_event (mkItem 5 "z")) "id: 5" [str_take 150 bytes; str_drop 150 bytes]
            [Closed] world w1 _ _ _ _ _ _ _ _).
  - reflexivity.
  - exact I.
  - lia.
  - unfold modulus. lia.
  - repeat (apply Forall_cons_2; [split; reflexivity|]). apply Forall_nil_2.
  - repeat (apply Forall_cons_2; [simpl; lia|]). apply Forall_nil_2.
  - split; [split; [intros v [= <-]; by split|by repeat split]|].
    exists (str_drop 5 (format_sse_event (item_event (mkItem 5 "z")))). split; [reflexivity|discriminate].
  - cbn [foldr]. rewrite str_app_nil_r. apply str_take_drop.
Defined.
End EventStreamDemo.

(** ** Reconnecting *)

(** A client of the channel: where it will resume, what it was handed.  Kept
    for the theorem: where its first stream started, and whether a stream broke
    off after the initial event with its backlog still to come. *)
Record Subscriber : Type := mkSubscriber {
  sub_system : System;
  sub_position : string * Z;
  sub_got : list Item;
  sub_first : option Z;
  sub_skipped : bool;
}.

Definition subscriber (retry : Z) (sys : System) : Subscriber := mkSubscriber sys (EmptyString, retry) [] None false.

(** One more connection: the client asks to resume, the channel and its other
    streams go on, and the connection is over after [arrived] items ([None]:
    before the initial event was there). *)
Definition reconnect (ops : list op) (arrived : option nat) (u : Subscriber) : Subscriber :=
  let i := length (sys_streams (sub_system u)) in
  let attached := step (sub_system u) (Attach (sub_position u).1) in
  let sys := run_ops ops attached in
  match sys_streams attached !! i, sys_streams sys !! i, arrived with
  | Some _, Some s, Some k =>
      let items := take k (st_written s) in
      mkSubscriber sys
        (foldl note (sub_position u) (channel_events (st_initial s) (channel_retry (sys_channel sys)) items))
        (sub_got u ++ items)
        (Some (default (st_start s) (sub_first u)))
        (sub_skipped u || (bool_decide (items = []) && (st_start s <=? st_initial s)%Z))
  | _, _, _ => mkSubscriber sys (sub_position u) (sub_got u) (sub_first u) (sub_skipped u)
  end.

Definition reconnects (l : list (list op * option nat)) (u : Subscriber) : Subscriber :=
  foldl (fun u a => reconnect a.1 a.2 u) u l.

(** *** What the operations leave alone *)

Lemma step_stream sys o i s :
  sys_streams sys !! i = Some s ->
  exists s', sys_streams (step sys o) !! i = Some s' /\ st_start s' = st_start s /\ st_initial s' = st_initial s.
Proof.
  intros Hi. destruct o as [payload|h|j|j|j|]; cbn [step]; try (by exists s).
  - destruct (attach _ _) as [[[[g cu] l]|] c']; [|by exists s]. exists s. split; [|done]. by apply lookup_app_l_Some.
  - destruct (sys_streams sys !! j) as [t|] eqn:Ej; [|by exists s].
    destruct (turn_stream (sys_history sys) (sys_channel sys) t) as [t' c'] eqn:Et. cbn [sys_streams].
    destruct (decide (j = i)) as [->|Hn]; [|exists s; by rewrite list_lookup_insert_ne].
    rewrite Hi in Ej. injection Ej as <-. exists t'. rewrite list_lookup_insert_eq by by eapply lookup_lt_Some.
    split; [done|]. unfold turn_stream in Et. repeat case_match; by simplify_eq.
  - cbn [sys_streams]. rewrite list_lookup_alter. case_decide; [|by exists s]. subst. rewrite Hi. eexists. split; [done|].
    unfold write_one. by repeat case_match.
  - cbn [sys_streams]. rewrite list_lookup_alter. case_decide; [|by exists s]. subst. rewrite Hi. by eexists.
Qed.

Lemma step_prefix sys o : sys_history sys `prefix_of` sys_history (step sys o).
Proof.
  destruct o as [payload|h|j|j|j|]; cbn [step]; try done.
  - cbn [sys_history]. destruct (ch_running _); [by eexists|done].
  - by destruct (attach _ _) as [[[[g cu] l]|] c'].
  - destruct (sys_streams sys !! j); [|done]. by destruct (turn_stream _ _ _).
Qed.

Lemma run_ops_stream ops sys i s :
  sys_streams sys !! i = Some s ->
  exists s', sys_streams (run_ops ops sys) !! i = Some s' /\ st_start s' = st_start s /\ st_initial s' = st_initial s.
Proof.
  revert sys s. induction ops as [|o ops IH]; intros sys s Hi; [by exists s|].
  destruct (step_stream sys o i s Hi) as (s1 & H1 & E1 & E2).
  destruct (IH _ _ H1) as (s2 & H2 & E3 & E4). exists s2. split; [done|]. split; congruence.
Qed.

Lemma run_ops_prefix ops sys : sys_history sys `prefix_of` sys_history (run_ops ops sys).
Proof.
  revert sys. induction ops as [|o ops IH]; intros sys; [done|]. etrans; [apply step_prefix|apply IH].
Qed.

(** The watermark never passes the next id. *)
Lemma step_watermark sys o :
  system_ok sys -> (Z.of_nat (length (sys_history sys)) + 2 < modulus 64)%Z ->
  (next_undelivered (sys_channel sys) <= next_event_id (sys_channel sys))%Z ->
  (next_undelivered (sys_channel (step sys o)) <= next_event_id (sys_channel (step sys o)))%Z.
Proof.
  intros [Hc Hs] Hb Hle. destruct o as [payload|h|j|j|j|]; cbn [step]; try done.
  - cbn [sys_channel]. unfold enqueue. destruct (ch_running _); [|done]. cbn. rewrite (co_next _ _ Hc) in Hle |- *.
    rewrite wrap_u_id by (unfold in_u; lia). lia.
  - unfold attach. by destruct (ch_running _).
  - destruct (sys_streams sys !! j) as [t|]; [|done].
    destruct (turn_stream (sys_history sys) (sys_channel sys) t) as [t' c'] eqn:Et. cbn [sys_channel]. revert Et.
    unfold turn_stream. destruct (st_open t); [|by intros [= _ <-]]. destruct (st_unsent t); [|by intros [= _ <-]].
    destruct (stream_turn _ _ _) as [[| |pending cursor'] c1] eqn:E; intros [= _ <-].
    1-2: assert (c1 = sys_channel sys) as -> by (unfold stream_turn in E; by repeat case_match; simplify_eq); done.
    destruct (stream_turn_batch _ _ _ _ _ _ _ Hc Hb E) as (_ & _ & -> & -> & _). cbn.
    rewrite (co_next _ _ Hc) in Hle |- *. lia.
Qed.

Lemma run_ops_watermark replay retry ops :
  (Z.of_nat (length ops) + 2 < modulus 64)%Z ->
  let c := sys_channel (run_ops ops (start replay retry)) in (next_undelivered c <= next_event_id c)%Z.
Proof.
  induction ops as [|o ops IH] using rev_ind; intros Hb; cbv zeta; [done|]. rewrite length_app in Hb. cbn in Hb.
  unfold run_ops in *. rewrite foldl_app. cbn [foldl].
  destruct (run_ops_ok replay retry ops) as (Hok & _ & Hh & _); [lia|].
  apply step_watermark; [exact Hok|unfold run_ops in Hh; lia|apply IH; lia].
Qed.

(** *** What was handed over is a segment of the history *)

#[local] Abbreviation before := (fun a b : Item => it_id a < it_id b)%Z.

Lemma numbered_app_l h1 h2 : numbered (h1 ++ h2) -> numbered h1.
Proof. intros H i x Hx. apply H. by apply lookup_app_l_Some. Qed.

Lemma numbered_sorted h : numbered h -> StronglySorted before h.
Proof.
  induction h as [|it h IH] using rev_ind; intros Hn; [constructor|]. pose proof (numbered_app_l _ _ Hn) as Hh.
  apply StronglySorted_app_2; [|by apply IH|by repeat constructor].
  intros x y Hx ->%list_elem_of_singleton. apply numbered_range in Hx; [|done].
  rewrite (Hn (length h) it); [lia|]. rewrite lookup_app_r by lia. by rewrite Nat.sub_diag.
Qed.

Lemma sorted_filter (P : Item -> Prop) `{DP : forall x, Decision (P x)} l :
  StronglySorted before l -> StronglySorted before (filter P l).
Proof.
  induction l as [|x l IH]; intros Hl; [constructor|]. apply StronglySorted_cons in Hl as [Hx Hl].
  rewrite filter_cons. destruct (decide (P x)); [|by apply IH]. apply StronglySorted_cons.
  split; [|by apply IH]. rewrite Forall_forall in Hx |- *. intros y [_ Hy]%list_elem_of_filter. by apply Hx.
Qed.

Lemma filter_every {A} (P : A -> Prop) `{DP : forall x, Decision (P x)} (l : list A) :
  (forall x, x ∈ l -> P x) -> filter P l = l.
Proof.
  induction l as [|x l IH]; intros H; [done|]. rewrite filter_cons_True by (apply H; left). f_equal.
  apply IH. intros y Hy. apply H. by right.
Qed.

(** The front of a sorted list, cut at the id of its last element. *)
Lemma sorted_front l1 l2 z :
  StronglySorted before (l1 ++ l2) -> last l1 = Some z -> filter (fun it => it_id it <= it_id z)%Z (l1 ++ l2) = l1.
Proof.
  intros Hs [l1' ->]%last_Some. rewrite filter_app, (filter_none _ l2), app_nil_r.
  - apply StronglySorted_app in Hs as (_ & Hs & _). rewrite filter_app, filter_cons_True, filter_nil by lia. f_equal.
    apply filter_every. intros x Hx. apply (StronglySorted_app_1_elem_of _ _ _ x z) in Hs; [cbn in Hs; lia|done|left].
  - intros x Hx. apply (StronglySorted_app_1_elem_of _ _ _ z x) in Hs; [cbn in Hs; lia| |done].
    apply elem_of_app. right. left.
Qed.

(** What a client that has read up to [L] has: the items from [F] on, but for
    those it missed. *)
Definition segment (replay : nat) (h : list Item) (F L : Z) (got : list Item) (missed : list Z) : Prop :=
  got = filter (fun it => F <= it_id it <= L /\ it_id it ∉ missed)%Z h /\
  Forall (fun j => j <= L /\ j + Z.of_nat replay <= Z.of_nat (length h))%Z missed.

Lemma segment_grow replay h h' F L got missed :
  numbered h' -> h `prefix_of` h' -> (L <= Z.of_nat (length h))%Z ->
  segment replay h F L got missed -> segment replay h' F L got missed.
Proof.
  intros Hn [more ->] HL [-> Hm]. split.
  - rewrite filter_app, (filter_none _ more); [by rewrite app_nil_r|]. intros x [i Hi]%list_elem_of_lookup [Hx _].
    assert ((h ++ more) !! (length h + i) = Some x) as Hx' by (by rewrite lookup_app_r, Nat.add_sub' by lia).
    rewrite (Hn _ _ Hx') in Hx. lia.
  - eapply Forall_impl; [exact Hm|]. intros j [? ?]. rewrite length_app. lia.
Qed.

Lemma segment_more replay h F L got missed s k z :
  numbered h -> stream_ok replay h s -> st_start s = (L + 1)%Z -> (F <= L + 1)%Z ->
  segment replay h F L got missed -> last (take k (st_written s)) = Some z ->
  exists missed', segment replay h F (it_id z) (got ++ take k (st_written s)) missed'.
Proof.
  intros Hn [Hi Hc Hr Hms] HL HF [-> Hm] Hz. set (items := take k (st_written s)) in *.
  assert (z ∈ filter (in_window s) h) as [[Hzw _] Hzh]%list_elem_of_filter.
  { rewrite <- Hi, <- (take_drop k (st_written s)), !elem_of_app. left. left.
    apply last_Some in Hz as [l Hz]. unfold items in Hz. rewrite Hz. apply elem_of_app. right. left. }
  exists (missed ++ filter (fun j => L < j <= it_id z)%Z (st_missed s)). split.
  - assert (items = filter (fun it => L + 1 <= it_id it <= it_id z /\ it_id it ∉ st_missed s)%Z h) as ->.
    { rewrite <- (sorted_front items (drop k (st_written s) ++ st_unsent s) z) at 1; [|..|done].
      - unfold items. rewrite app_assoc, take_drop, Hi, list_filter_filter. apply filter_in. intros x _.
        unfold in_window. rewrite HL. split; [|intros [[? ?] ?]; repeat split; lia || done]. tauto.
      - unfold items. rewrite app_assoc, take_drop, Hi. by apply sorted_filter, numbered_sorted. }
    rewrite <- (numbered_filter_or h (L + 1)%Z); [|done|intros x [? _]; lia|intros x [? _]; lia].
    rewrite Forall_forall in Hm. apply filter_in. intros x _. rewrite elem_of_app, list_elem_of_filter. split.
    + intros [[[H1 H2] H3]|[[H1 H2] H3]].
      * split; [lia|]. intros [Hx|[Hx _]]; [done|lia].
      * split; [lia|]. intros [Hx|[_ Hx]]; [|done]. specialize (Hm _ Hx). lia.
    + intros [[H1 H2] H3]. destruct (decide (it_id x <= L)%Z).
      * left. split; [lia|]. intros Hx. apply H3. by left.
      * right. split; [lia|]. intros Hx. apply H3. right. split; [lia|done].
  - apply Forall_app_2.
    + eapply Forall_impl; [exact Hm|]. intros j [? ?]. lia.
    + rewrite Forall_forall in Hms |- *. intros j [Hj Hin]%list_elem_of_filter. specialize (Hms _ Hin). lia.
Qed.

(** *** The invariant of a client *)

Definition resumable (replay : nat) (u : Subscriber) : Prop :=
  let h := sys_history (sub_system u) in
  match sub_first u with
  | None => (sub_position u).1 = EmptyString /\ sub_got u = []
  | Some F => exists L missed, (sub_position u).1 = to_string L /\ (0 <= L <= Z.of_nat (length h))%Z /\ (F <= L + 1)%Z /\
      segment replay h F L (sub_got u) missed
  end.

(** Where the stream of the next connection starts. *)
Lemma attach_start sys id i :
  system_ok sys -> (Z.of_nat (length (sys_history sys)) + 2 < modulus 64)%Z -> i = length (sys_streams sys) ->
  match sys_streams (step sys (Attach id)) !! i with
  | None => True
  | Some s =>
      st_initial s = Z.of_nat (length (sys_history sys)) /\
      st_start s = (if String.eqb id EmptyString then next_undelivered (sys_channel sys) else wrap_u 64 (strtoull id + 1))
  end.
Proof.
  intros [Hc _] Hb ->. cbn [step]. unfold attach. destruct (ch_running (sys_channel sys)).
  - cbn [sys_streams]. rewrite lookup_app_r, Nat.sub_diag by lia. cbn. split; [|done].
    rewrite (co_next _ _ Hc), wrap_u_id by (unfold in_u; lia). lia.
  - cbn [sys_streams]. by rewrite lookup_ge_None_2.
Qed.

(** A stream that starts where the client resumes. *)
Lemma resumes_after replay u h' s :
  let h := sys_history (sub_system u) in let c := sys_channel (sub_system u) in
  channel_ok c h -> (next_undelivered c <= next_event_id c)%Z -> numbered h' -> h `prefix_of` h' ->
  (Z.of_nat (length h') + 2 < modulus 64)%Z ->
  st_start s = (if String.eqb (sub_position u).1 EmptyString then next_undelivered c
                else wrap_u 64 (strtoull (sub_position u).1 + 1)) ->
  resumable replay u ->
  exists F L missed, default (st_start s) (sub_first u) = F /\ st_start s = (L + 1)%Z /\ (F <= L + 1)%Z /\
    (0 <= L <= Z.of_nat (length h))%Z /\ segment replay h' F L (sub_got u) missed.
Proof.
  intros h c Hc0 Hw Hn Hpre Hb Hstart Hr. pose proof (prefix_length _ _ Hpre) as Hlen. unfold resumable in Hr.
  destruct (sub_first u) as [F|].
  - destruct Hr as (L & missed & Hp & HLh & HF & Hseg). exists F, L, missed. split; [done|]. fold h in HLh.
    split; [|split; [done|split; [done|]]].
    + rewrite Hstart, Hp. destruct (to_string_digits L ltac:(lia)) as [_ Hne]. rewrite (proj2 (String.eqb_neq _ _) Hne).
      pose proof (strtoull_to_string L EmptyString ltac:(lia) eq_refl) as Hl. rewrite str_app_nil_r in Hl.
      rewrite Hl, wrap_u_id by (unfold in_u; lia). done.
    + eapply segment_grow; [exact Hn|exact Hpre|lia|exact Hseg].
  - destruct Hr as [Hp Hg]. rewrite Hp in Hstart. cbn [String.eqb] in Hstart.
    rewrite (co_next _ _ Hc0) in Hw. pose proof (co_undelivered _ _ Hc0).
    exists (st_start s), (st_start s - 1)%Z, []. split; [done|]. split; [lia|]. split; [lia|]. split; [lia|].
    split; [|constructor]. rewrite Hg. symmetry. apply filter_none. intros x _ [? _]. lia.
Qed.

Lemma reconnect_resumable replay ops arrived u :
  let u' := reconnect ops arrived u in
  system_ok (sub_system u) -> system_ok (sub_system u') ->
  replay_buffer_size (sys_channel (sub_system u')) = replay ->
  (Z.of_nat (length (sys_history (sub_system u'))) + 2 < modulus 64)%Z ->
  (next_undelivered (sys_channel (sub_system u)) <= next_event_id (sys_channel (sub_system u)))%Z ->
  sub_skipped u' = false -> resumable replay u -> resumable replay u' /\ sub_skipped u = false.
Proof.
  unfold reconnect. set (attached := step (sub_system u) _). set (i := length (sys_streams (sub_system u))).
  set (sys := run_ops ops attached).
  assert (sys_history (sub_system u) `prefix_of` sys_history sys) as Hpre.
  { etrans; [apply step_prefix|apply run_ops_prefix]. }
  set (h := sys_history (sub_system u)) in *.
  assert (Hgrow : system_ok sys -> resumable replay u ->
    resumable replay (mkSubscriber sys (sub_position u) (sub_got u) (sub_first u) (sub_skipped u))).
  { intros [Hc _]. unfold resumable. cbn. destruct (sub_first u) as [F|]; [|done].
    intros (L & missed & Hp & HL & HF & Hseg). exists L, missed. split; [done|].
    pose proof (prefix_length _ _ Hpre). split; [fold h in HL; lia|]. split; [done|].
    eapply segment_grow; [exact (co_numbered _ _ Hc)|exact Hpre|fold h in HL; lia|exact Hseg]. }
  destruct (sys_streams attached !! i) as [s0|] eqn:E0; [|by cbn; auto].
  destruct (run_ops_stream ops attached i s0 E0) as (s & Es & Est & Ein). fold sys in Es. rewrite Es.
  destruct arrived as [k|]; [|by cbn; auto]. cbn [sub_system sub_skipped]. intros Hu Hu' Hrep Hb Hw Hsk Hr.
  apply orb_false_iff in Hsk as [Hsk Hskip]. split; [|done].
  pose proof (prefix_length _ _ Hpre) as Hlen.
  pose proof (attach_start (sub_system u) (sub_position u).1 i Hu) as Ha.
  fold attached h in Ha. rewrite E0 in Ha.
  destruct Ha as [Hinit Hstart]; [lia|done|]. rewrite <- Ein in Hinit. rewrite <- Est in Hstart.
  destruct Hu' as [Hc Hs]. rewrite Hrep in Hs. rewrite Forall_lookup in Hs. specialize (Hs _ _ Es).
  destruct (resumes_after replay u (sys_history sys) s (proj1 Hu) Hw (co_numbered _ _ Hc) Hpre Hb Hstart Hr)
    as (F & L & missed & HF & HL & HFL & HLh & Hseg). fold h in HLh.
  unfold resumable. cbn [sub_first sub_position sub_got sub_system]. rewrite HF, note_channel_events. cbn [fst].
  unfold resume_id. destruct (last (take k (st_written s))) as [z|] eqn:Ez.
  - destruct (segment_more _ _ _ _ _ _ s k z (co_numbered _ _ Hc) Hs HL HFL Hseg Ez) as (missed' & Hseg').
    exists (it_id z), missed'. split; [done|].
    assert (z ∈ filter (in_window s) (sys_history sys)) as [[Hzw _] Hzh]%list_elem_of_filter.
    { destruct Hs as [<- _ _ _]. rewrite <- (take_drop k (st_written s)), !elem_of_app. left. left.
      apply last_Some in Ez as [l ->]. apply elem_of_app. right. left. }
    pose proof (numbered_range _ _ (co_numbered _ _ Hc) Hzh). split; [lia|]. split; [lia|done].
  - apply last_None in Ez. rewrite Ez in Hskip |- *. rewrite bool_decide_true in Hskip by done. cbn [andb] in Hskip.
    apply Z.leb_gt in Hskip. exists L, missed. rewrite Hinit in Hskip |- *. assert (L = Z.of_nat (length h)) as -> by lia.
    split; [done|]. split; [lia|]. split; [done|]. by rewrite app_nil_r.
Qed.

Definition attempts_length (l : list (list op * option nat)) : nat := foldr (fun a n => S (length a.1) + n) 0 l.

Lemma attempts_length_snoc l a : attempts_length (l ++ [a]) = attempts_length l + S (length a.1).
Proof. unfold attempts_length. induction l as [|b l IH]; cbn [app foldr]; [lia|]. rewrite IH. lia. Qed.

Lemma reconnect_system ops arrived u :
  sub_system (reconnect ops arrived u) = run_ops (Attach (sub_position u).1 :: ops) (sub_system u).
Proof. unfold reconnect. by repeat case_match. Qed.

Lemma reconnects_ops l u ops0 sys0 :
  sub_system u = run_ops ops0 sys0 ->
  exists ops, sub_system (reconnects l u) = run_ops ops sys0 /\ length ops = length ops0 + attempts_length l.
Proof.
  intros Hu. induction l as [|a l IH] using rev_ind; [exists ops0; split; [done|cbn; lia]|].
  destruct IH as (ops & Ho & Hl). unfold reconnects in *. rewrite foldl_app. cbn [foldl]. rewrite reconnect_system, Ho.
  exists (ops ++ Attach (sub_position (foldl (fun u a => reconnect a.1 a.2 u) u l)).1 :: a.1).
  split; [unfold run_ops; by rewrite foldl_app|]. rewrite length_app, Hl, attempts_length_snoc. cbn. lia.
Qed.

Lemma reconnects_resumable replay retry r ops0 l :
  (Z.of_nat (length ops0 + attempts_length l) + 2 < modulus 64)%Z ->
  let u := reconnects l (subscriber r (run_ops ops0 (start replay retry))) in
  sub_skipped u = false -> resumable replay u.
Proof.
  induction l as [|a l IH] using rev_ind; intros Hb; cbv zeta; [done|]. rewrite attempts_length_snoc in Hb.
  set (u0 := subscriber _ _) in *.
  destruct (reconnects_ops l u0 ops0 (start replay retry) eq_refl) as (ops & Ho & Hl).
  destruct (reconnects_ops (l ++ [a]) u0 ops0 (start replay retry) eq_refl) as (ops' & Ho' & Hl').
  rewrite attempts_length_snoc in Hl'. unfold reconnects in *. rewrite foldl_app in Ho' |- *. cbn [foldl] in Ho' |- *.
  set (u := foldl _ u0 l) in *. intros Hsk.
  destruct (run_ops_ok replay retry ops) as (Hok & _); [lia|]. destruct (run_ops_ok replay retry ops') as (Hok' & _ & Hh & _); [lia|].
  pose proof (run_ops_watermark replay retry ops ltac:(lia)) as Hw. cbv zeta in Hok, Hok', Hh.
  rewrite <- Ho in Hok, Hw. rewrite <- Ho' in Hok', Hh.
  pose proof (reconnect_resumable replay a.1 a.2 u Hok Hok') as H. apply H; [|lia|exact Hw|done|].
  - rewrite Ho'. apply replay_size_const.
  - apply IH; [lia|]. unfold reconnect in Hsk. repeat case_match; cbn in Hsk; try done. by apply orb_false_iff in Hsk as [? _].
Qed.


(** Three connections: the first breaks off after one item of two, the second
    before anything arrived. *)
Definition sample_attempts : list (list op * option nat) :=
  [([Turn 0; Write 0; Write 0; WriteFails 0], Some 1);
   ([Enqueue "c"], None);
   ([Turn 2; Write 2; Write 2; Enqueue "d"; Turn 2; Write 2], Some 3)].

Definition sample_subscriber : Subscriber :=
  reconnects sample_attempts (subscriber 1000 (run_ops [Enqueue "a"; Enqueue "b"] (start 16 3000))).


Example sample_got : it_data <$> sub_got sample_subscriber = ["a"; "b"; "c"; "d"].
Proof. reflexivity. Qed.

(** A connection that breaks off right after the initial event loses the
    backlog: the client resumes after events it has not been sent. *)
Lemma backlog_lost :
  let u := reconnects [([], Some 0); ([Turn 1; Write 1; Enqueue "c"; Turn 1; Write 1], Some 1)]
             (subscriber 1000 (run_ops [Enqueue "a"; Enqueue "b"] (start 16 3000))) in
  it_data <$> sys_history (sub_system u) = ["a"; "b"; "c"] /\ it_data <$> sub_got u = ["c"].
Proof. split; reflexivity. Qed.

(** A position beyond the last id, as a client has it after a restart of the
    server, silences the stream until the ids have caught up. *)
Lemma stale_position_silent :
  let sys := run_ops [Attach "5"; Enqueue "a"; Enqueue "b"; Turn 0; Write 0] (start 16 3000) in
  (it_data <$> sys_history sys) = ["a"; "b"] /\ (st_written <$> sys_streams sys) = [[]].
Proof. split; reflexivity. Qed.
