(* ===== verification/Workers.v ===== *)
(** * A transport and its reader thread

    What src/transport/http_client_transport.cpp and stdio_transport.cpp share:
    [connect] makes a wake event and starts a thread, [disconnect] stops it
    through [running_] and the event, joins it and drops the event.  The
    caller's steps, the thread's and those of other threads that wait with the
    event are interleaved.  The class [WorkerLoop] is what the thread runs;
    ReaderThreads.v has the two loops. *)

From S2P Require Import Prelude Core.

(** ** What is shared

    [event]: the number of the wake event that [wake_] owns; a wake event that
    could not be made has no descriptors, and counts as none.  [closes]: how
    often the close handler was called. *)
Record Shared : Type := mkShared {
  running : bool;
  event : option nat;
  signalled : bool;
  made : nat;
  close_emitted : bool;
  closes : nat;
}.

Definition set_running (b : bool) (s : Shared) : Shared := mkShared b (event s) (signalled s) (made s) (close_emitted s) (closes s).
Definition set_signalled (s : Shared) : Shared :=
  mkShared (running s) (event s) (bool_decide (is_Some (event s)) || signalled s) (made s) (close_emitted s) (closes s).
Definition make_event (s : Shared) : Shared :=
  mkShared (running s) (Some (made s)) false (S (made s)) (close_emitted s) (closes s).
Definition drop_event (s : Shared) : Shared := mkShared (running s) None false (made s) (close_emitted s) (closes s).

(** The handler runs; [once]: only the first time. *)
Definition emit_close (once : bool) (s : Shared) : Shared :=
  if once && close_emitted s then s
  else mkShared (running s) (event s) (signalled s) (made s) true (S (closes s)).

(** ** What the thread runs

    A step gets a choice of the outside world; [None] is a step that blocks.
    [uses g]: a thread in [poll_readable] was given the event [g].  [closing]:
    it has stopped the transport itself. *)
Class WorkerLoop (L Ch : Type) := {
  entry : L;
  over : L -> bool;
  uses : nat -> L -> bool;
  closing : L -> bool;
  loop_step : Ch -> L -> Shared -> option (outcome (L * Shared));
  turns_left : L -> nat;
  stops_itself : bool;
}.

Class WorkerLaws (L Ch : Type) {WL : WorkerLoop L Ch} : Prop := {
  entry_fresh : over entry = false /\ (forall g, uses g entry = true) /\ closing entry = false;
  loop_keeps c l s l' s' : loop_step c l s = Some (Val (l', s')) ->
    event s' = event s /\ signalled s' = signalled s /\ made s' = made s /\ (running s' = true -> running s = true);
  loop_steady c l s l' s' : stops_itself = false -> loop_step c l s = Some (Val (l', s')) -> running s' = running s;
  loop_closing c l s l' s' : loop_step c l s = Some (Val (l', s')) ->
    (closing l = true -> over l' = true \/ closing l' = true) /\
    (running s = true -> running s' = false -> over l' = true \/ closing l' = true) /\
    (closing l' = true -> closing l = true \/ running s' = false);
  loop_safe c l s g r : loop_step c l s = Some r -> over l = false -> event s = Some g -> uses g l = true ->
    exists l' s', r = Val (l', s') /\ uses g l' = true;
  turns_over l : over l = false -> 0 < turns_left l;
  (** stopped, the thread comes to its end whatever it meets *)
  loop_ends c l s g : over l = false -> event s = Some g -> uses g l = true ->
    running s = false -> signalled s = true \/ closing l = true ->
    exists l' s', loop_step c l s = Some (Val (l', s')) /\ turns_left l' < turns_left l;
}.

(** ** The transport *)

(** Where a caller of [connect] or [disconnect] is.  [dying]: the call is the
    destructor's. *)
Inductive caller :=
| Outside | BeforeWake | BeforeThread
| BeforeSignal (was_running dying : bool) | BeforeJoin (dying : bool) | BeforeReset (dying : bool)
| Gone.

Section transport.
Context {L Ch : Type} {WL : WorkerLoop L Ch}.

Record World : Type := mkWorld {
  shared : Shared;
  thread : option L;               (** the thread object: what its thread runs, unless joined *)
  calling : caller;
  borrowed : list (option nat);    (** the events other threads wait with *)
}.

Definition new_transport : World := mkWorld (mkShared false None false 0 false 0) None Outside [].

(** The class's [disconnect] returns at once when it is not running, or goes on
    ([eager]); [wanted]: [connect] starts a thread. *)
Context (eager wanted : bool).

Inductive step_ :=
| Connect | Wake (made : bool) | StartThread
| Disconnect (dying : bool) | Signal | Join | JoinSelf | Reset
| Turn (c : Ch) | Borrow | Release (i : nat).

(** The end of [disconnect]; the destructor goes on to the members, and
    destroying a thread object whose thread was not joined is [std::terminate]. *)
Definition finish (dying : bool) (w : World) : outcome World :=
  if dying then match thread w with Some _ => Undefined | None => Val (mkWorld (shared w) None Gone (borrowed w)) end
  else Val (mkWorld (shared w) (thread w) Outside (borrowed w)).

(** [None]: the step cannot be made now. *)
Definition step_world (s : step_) (w : World) : option (outcome World) :=
  let with_shared f c := mkWorld (f (shared w)) (thread w) c (borrowed w) in
  match s, calling w with
  | Connect, Outside =>
      Some (Val (if running (shared w) then w else with_shared (set_running true) BeforeWake))
  | Wake ok, BeforeWake =>
      Some (Val (if ok then with_shared make_event BeforeThread
                 else with_shared (fun s => set_running false (drop_event s)) Outside))
  | StartThread, BeforeThread =>
      Some (if wanted then
              match thread w with
              | Some _ => Undefined      (** assigned to while joinable: [std::terminate] *)
              | None => Val (mkWorld (shared w) (Some entry) Outside (borrowed w))
              end
            else Val (with_shared (fun s => s) Outside))
  | Disconnect dying, Outside =>
      let was_running := running (shared w) in
      Some (if eager && negb was_running then finish dying w
            else Val (with_shared (set_running false) (BeforeSignal was_running dying)))
  | Signal, BeforeSignal was_running dying =>
      Some (Val (with_shared (if was_running then set_signalled else fun s => s) (BeforeJoin dying)))
  | Join, BeforeJoin dying =>
      match thread w with
      | Some l => if over l then Some (Val (mkWorld (shared w) None (BeforeReset dying) (borrowed w))) else None
      | None => Some (Val (with_shared (fun s => s) (BeforeReset dying)))
      end
  | JoinSelf, BeforeJoin dying => Some (Val (with_shared (fun s => s) (BeforeReset dying)))
  | Reset, BeforeReset dying => Some (finish dying (with_shared drop_event Outside))
  | Turn c, _ =>
      match thread w with
      | Some l =>
          if over l then None
          else
            r ← loop_step c l (shared w);
            Some (match r with
                  | Val (l', s') => Val (mkWorld s' (Some l') (calling w) (borrowed w))
                  | Throw x => Throw x
                  | Undefined => Undefined
                  end)
      | None => None
      end
  | Borrow, Gone => None
  | Borrow, _ => Some (Val (mkWorld (shared w) (thread w) (calling w) (borrowed w ++ [event (shared w)])))
  | Release i, _ =>
      match borrowed w !! i with
      | Some (Some g) =>      (** the wait ends; its event must still be there *)
          Some (if bool_decide (event (shared w) = Some g)
                then Val (mkWorld (shared w) (thread w) (calling w) (delete i (borrowed w))) else Undefined)
      | Some None => Some (Val (mkWorld (shared w) (thread w) (calling w) (delete i (borrowed w))))
      | None => None
      end
  | _, _ => None
  end.

(** What the application sees to: [connect] is not called between a reader's
    end and [disconnect], nobody waits with the event when it is dropped, and
    the reader itself does not call [disconnect]. *)
Definition disciplined (s : step_) (w : World) : Prop :=
  match s with
  | Connect => running (shared w) = false -> thread w = None
  | Reset => Forall (fun p => p = None) (borrowed w)
  | JoinSelf => False
  | _ => True
  end.

Inductive reachable : outcome World -> Prop :=
| reach_new : reachable (Val new_transport)
| reach_by w s r : reachable (Val w) -> disciplined s w -> step_world s w = Some r -> reachable r.

(** ** What is reached *)

Definition holds_event (w : World) (p : option nat) : Prop := p = None \/ p = event (shared w).

(** Where the caller is, and what it has done so far. *)
Definition caller_ok (w : World) : Prop :=
  match calling w with
  | Outside => (event (shared w) = None -> thread w = None /\ running (shared w) = false) /\
      (running (shared w) = false -> thread w = None -> event (shared w) = None)
  | BeforeWake => thread w = None /\ running (shared w) = true /\ event (shared w) = None
  | BeforeThread => thread w = None /\ running (shared w) = true /\ is_Some (event (shared w))
  | BeforeSignal _ _ => running (shared w) = false
  | BeforeJoin _ => running (shared w) = false
  | BeforeReset _ => running (shared w) = false /\ thread w = None
  | Gone => thread w = None /\ event (shared w) = None
  end.

(** A thread that was stopped was told so, or stopped by itself, but for the
    moment before [disconnect] signals. *)
Definition told (w : World) (l : L) : Prop :=
  running (shared w) = true \/ over l = true \/ signalled (shared w) = true \/ closing l = true \/
  exists dying, calling w = BeforeSignal true dying.

Record world_ok (w : World) : Prop := mkWorldOk {
  wo_caller : caller_ok w;
  wo_thread : forall l, thread w = Some l ->
    (exists g, event (shared w) = Some g /\ uses g l = true) /\ (closing l = true -> running (shared w) = false) /\ told w l;
  wo_borrowed : Forall (holds_event w) (borrowed w);
  wo_idle : stops_itself = false -> calling w = Outside -> running (shared w) = false -> thread w = None;
}.

(** Steps one after the other. *)
Fixpoint steps (l : list step_) (w : World) : option (outcome World) :=
  match l with
  | [] => Some (Val w)
  | s :: l => match step_world s w with Some (Val w') => steps l w' | r => r end
  end.

(** Only the thread runs the close handler. *)
Lemma step_closes s w w' :
  step_world s w = Some (Val w') ->
  (close_emitted (shared w') = close_emitted (shared w) /\ closes (shared w') = closes (shared w)) \/
  exists c l l', loop_step c l (shared w) = Some (Val (l', shared w')).
Proof.
  destruct s as [|[]| | | | | | |c| |i]; unfold step_world; destruct (calling w) as [| | |[]| | |] eqn:Ec; try done.
  all: unfold finish; intros H; repeat case_match; simplify_eq; auto.
  all: right; destruct (loop_step c l (shared w)) as [[[l' s']|x|]|] eqn:El; try done; cbn in H; simplify_eq; by exists c, l, l'.
Qed.

Fixpoint careful (l : list step_) (w : World) : Prop :=
  match l with
  | [] => True
  | s :: l => disciplined s w /\ match step_world s w with Some (Val w') => careful l w' | _ => True end
  end.

Lemma steps_reachable l w r : reachable (Val w) -> careful l w -> steps l w = Some r -> reachable r.
Proof.
  revert w. induction l as [|s l IH]; intros w Hw Hc H; cbn [steps careful] in *; [by injection H as <-|].
  destruct Hc as [Hd Hc]. destruct (step_world s w) as [[w'|x|]|] eqn:Es; [|injection H as <-..|done].
  - apply (IH w'); [by eapply reach_by|done|done].
  - by eapply reach_by.
  - by eapply reach_by.
Qed.

Context {LW : WorkerLaws L Ch} (Heager : eager = true -> stops_itself = false).

Lemma new_transport_ok : world_ok new_transport.
Proof. by split. Qed.

(** The end of a call. *)
Lemma finish_ok dying w :
  thread w = None -> event (shared w) = None -> running (shared w) = false -> Forall (holds_event w) (borrowed w) ->
  exists w', finish dying w = Val w' /\ world_ok w'.
Proof.
  intros Ht He Hr Hb. unfold finish. rewrite Ht. destruct dying; eexists; (split; [done|]); split; cbn; try done.
Qed.

(** One turn of the thread. *)
Lemma turn_ok c l w r :
  world_ok w -> thread w = Some l -> over l = false -> loop_step c l (shared w) = Some r ->
  exists l' s', r = Val (l', s') /\ world_ok (mkWorld s' (Some l') (calling w) (borrowed w)).
Proof.
  intros [Hc Ht Hb Hi] El Hov Hs. destruct (Ht l El) as ((g & Hg & Hw) & Hcl & Hto).
  destruct (loop_safe c l (shared w) g r Hs Hov Hg Hw) as (l' & s' & -> & Hw').
  exists l', s'. split; [done|]. destruct (loop_keeps c l _ l' s' Hs) as (Ke & Ks & Km & Kr).
  destruct (loop_closing c l _ l' s' Hs) as (C1 & C2 & C3).
  assert (running (shared w) = false -> running s' = false) as Hrun.
  { intros Hf. destruct (running s'); [by rewrite Kr in Hf|done]. }
  split; cbn.
  - unfold caller_ok in *. cbn. rewrite Ke. destruct (calling w); destruct_and?; try (split_and!; by auto); try congruence; auto.
    split; [intros E; congruence|done].
  - intros l0 [= <-]. rewrite Ke. split_and!; [by exists g| |].
    + intros Hcl'. destruct (C3 Hcl') as [?|?]; [by auto|done].
    + unfold told in *. cbn. rewrite Ks. destruct (running s') eqn:Er; [by left|right].
      destruct (running (shared w)) eqn:Er0; [destruct (C2 eq_refl eq_refl); tauto|].
      destruct Hto as [?|[?|[?|[Hcl0|?]]]]; [done|congruence|tauto|destruct (C1 Hcl0); tauto|tauto].
  - eapply Forall_impl; [exact Hb|]. unfold holds_event. cbn. by rewrite Ke.
  - intros Hst Ho Hr. rewrite (loop_steady c l _ l' s' Hst Hs) in Hr. by rewrite (Hi Hst Ho Hr) in El.
Qed.

(** Only what the caller does in between changes. *)
Lemma called_ok w c :
  world_ok w -> caller_ok (mkWorld (shared w) (thread w) c (borrowed w)) -> c <> Outside ->
  (forall l, thread w = Some l -> told (mkWorld (shared w) (thread w) c (borrowed w)) l) ->
  world_ok (mkWorld (shared w) (thread w) c (borrowed w)).
Proof.
  intros [Hc Ht Hb Hi] Hc' Hne Hto. split; [done| |done|done]. intros l Hl. cbn in *. destruct (Ht l Hl) as (? & ? & _).
  split_and!; auto.
Qed.

Lemma borrowed_none w (b : list (option nat)) :
  event (shared w) = None -> Forall (holds_event w) b -> forall w', Forall (holds_event w') b.
Proof. intros He Hb w'. eapply Forall_impl; [exact Hb|]. unfold holds_event. rewrite He. intros p [->| ->]; by left. Qed.

Lemma connect_ok w r :
  world_ok w -> (running (shared w) = false -> thread w = None) -> step_world Connect w = Some r -> exists w', r = Val w' /\ world_ok w'.
Proof.
  intros Hok Hd. pose proof Hok as [Hc Ht Hb Hi]. unfold step_world, caller_ok in *. destruct (calling w) eqn:Ec; try done.
  intros [= <-]. eexists. split; [done|]. destruct (running (shared w)) eqn:Er; [done|].
  destruct Hc as [_ Hc]. specialize (Hd eq_refl). specialize (Hc eq_refl Hd).
  split; cbn; try done. intros l Hl. congruence.
Qed.

Lemma wake_ok ok w r : world_ok w -> step_world (Wake ok) w = Some r -> exists w', r = Val w' /\ world_ok w'.
Proof.
  intros [Hc Ht Hb Hi]. unfold step_world, caller_ok in *. destruct (calling w) eqn:Ec; try done. destruct Hc as (Hth & Hr & He).
  intros [= <-]. eexists. split; [done|]. destruct ok; split; cbn; try done.
  all: try (by intros l Hl; congruence). all: by eapply borrowed_none.
Qed.

Lemma start_ok w r : world_ok w -> step_world StartThread w = Some r -> exists w', r = Val w' /\ world_ok w'.
Proof.
  intros Hok. pose proof Hok as [Hc Ht Hb Hi]. unfold step_world, caller_ok in *. destruct (calling w) eqn:Ec; try done.
  destruct Hc as (Hth & Hr & [g He]). rewrite Hth. destruct entry_fresh as (E1 & E2 & E3).
  intros [= <-]. destruct wanted; eexists; (split; [done|]); split; cbn; try done.
  all: try (split; intros; congruence).
  - intros l [= <-]. rewrite E3. split_and!; [by exists g|done|by left].
  - intros. congruence.
Qed.

Lemma disconnect_ok dying w r : world_ok w -> step_world (Disconnect dying) w = Some r -> exists w', r = Val w' /\ world_ok w'.
Proof.
  intros Hok. pose proof Hok as [Hc Ht Hb Hi]. unfold step_world. destruct (calling w) eqn:Ec; try done. intros [= <-].
  destruct (eager && negb (running (shared w))) eqn:Ee.
  - apply andb_true_iff in Ee as [He Hr]. apply negb_true_iff in Hr. specialize (Hi (Heager He) eq_refl Hr).
    unfold caller_ok in Hc. rewrite Ec in Hc. destruct Hc as [_ Hc]. by apply finish_ok; auto.
  - eexists. split; [done|]. split; cbn; try done. intros l Hl. destruct (Ht l Hl) as (? & ? & Hto). split_and!; try done.
    unfold told in *. cbn. destruct (running (shared w)); [right; right; right; right; by eexists|].
    destruct Hto as [?|[?|[?|[?|(d & Hd)]]]]; try tauto; congruence.
Qed.

Lemma signal_ok w r : world_ok w -> step_world Signal w = Some r -> exists w', r = Val w' /\ world_ok w'.
Proof.
  intros Hok. pose proof Hok as [Hc Ht Hb Hi]. unfold step_world. unfold caller_ok in Hc.
  destruct (calling w) as [| | |was dying| | |] eqn:Ec; try done. intros [= <-]. eexists. split; [done|]. destruct was.
  - split; cbn; try done. intros l Hl. destruct (Ht l Hl) as ((g & Hg & Hu) & ? & _). split_and!; [by exists g|done|].
    unfold told. cbn. rewrite Hg. right; right; by left.
  - apply called_ok; try done. intros l Hl. destruct (Ht l Hl) as (_ & _ & Hto).
    unfold told in *. cbn. destruct Hto as [?|[?|[?|[?|(d & Hd)]]]]; try tauto; congruence.
Qed.

Lemma join_ok w r : world_ok w -> step_world Join w = Some r -> exists w', r = Val w' /\ world_ok w'.
Proof.
  intros Hok. pose proof Hok as [Hc Ht Hb Hi]. unfold step_world. unfold caller_ok in Hc. destruct (calling w) eqn:Ec; try done.
  destruct (thread w) as [l|] eqn:El.
  - destruct (over l); [|done]. intros [= <-]. eexists. split; [done|]. by split.
  - intros [= <-]. eexists. split; [done|]. by split; cbn; try done; intros; congruence.
Qed.

Lemma reset_ok w r :
  world_ok w -> Forall (fun p => p = None) (borrowed w) -> step_world Reset w = Some r -> exists w', r = Val w' /\ world_ok w'.
Proof.
  intros [Hc Ht Hb Hi] Hd. unfold step_world. unfold caller_ok in Hc. destruct (calling w) eqn:Ec; try done. destruct Hc as [Hr Hth].
  intros [= <-]. apply finish_ok; try done. eapply Forall_impl; [exact Hd|]. intros p ->. by left.
Qed.

Lemma shared_same_ok w b :
  world_ok w -> Forall (holds_event w) b -> world_ok (mkWorld (shared w) (thread w) (calling w) b).
Proof. intros [Hc Ht _ Hi] Hb. split; [done|done| |done]. by eapply Forall_impl. Qed.

Lemma borrow_ok w r : world_ok w -> step_world Borrow w = Some r -> exists w', r = Val w' /\ world_ok w'.
Proof.
  intros Hok. unfold step_world.
  destruct (calling w) eqn:Ec; try done; intros [= <-]; eexists; (split; [done|]); rewrite <- Ec; apply shared_same_ok; try done.
  all: apply Forall_app; split; [apply (wo_borrowed _ Hok)|]; apply Forall_singleton; by right.
Qed.

Lemma release_ok i w r : world_ok w -> step_world (Release i) w = Some r -> exists w', r = Val w' /\ world_ok w'.
Proof.
  intros Hok. unfold step_world. pose proof (wo_borrowed _ Hok) as Hb.
  assert (world_ok (mkWorld (shared w) (thread w) (calling w) (delete i (borrowed w)))) as Hd.
  { apply shared_same_ok; [done|]. by apply Forall_delete. }
  destruct (borrowed w !! i) as [[g|]|] eqn:Ei; [|intros [= <-]; by eexists|done].
  assert (event (shared w) = Some g) as Hg.
  { destruct (proj1 (Forall_lookup _ _) Hb i _ Ei) as [?|Hp]; [done|by rewrite Hp]. }
  rewrite Hg, bool_decide_eq_true_2 by done. intros [= <-]. by eexists.
Qed.

Lemma step_world_ok w s r :
  world_ok w -> disciplined s w -> step_world s w = Some r -> exists w', r = Val w' /\ world_ok w'.
Proof.
  destruct s; cbn [disciplined]; eauto using connect_ok, wake_ok, start_ok, disconnect_ok, signal_ok, join_ok, reset_ok, borrow_ok, release_ok.
  - done.
  - intros Hok _. unfold step_world. destruct (thread w) as [l|] eqn:El; [|done]. destruct (over l) eqn:Eo; [done|].
    destruct (loop_step c l (shared w)) as [r0|] eqn:Es; [|done]. intros [= <-].
    destruct (turn_ok c l w r0 Hok El Eo Es) as (l' & s' & -> & Hw). by eexists.
Qed.

Lemma reachable_world_ok r : reachable r -> exists w, r = Val w /\ world_ok w.
Proof.
  induction 1 as [|w s r Hr (w0 & [= <-] & Hw) Hd Hs]; [exists new_transport; split; [done|apply new_transport_ok]|].
  by eapply step_world_ok.
Qed.

(** ** Stopping

    The thread's turns while it is not over; the choices left are not made. *)
Fixpoint turns (cs : list Ch) (w : World) : option (outcome World) :=
  match cs, thread w with
  | c :: cs, Some l =>
      if over l then Some (Val w)
      else match step_world (Turn c) w with Some (Val w') => turns cs w' | r => r end
  | _, _ => Some (Val w)
  end.

(** Once [disconnect] waits in [join], the thread ends within its number of
    turns, none of which blocks, and [join] gets through. *)
Lemma join_returns cs dying l w :
  world_ok w -> calling w = BeforeJoin dying -> thread w = Some l -> turns_left l <= length cs ->
  exists w', turns cs w = Some (Val w') /\
    exists w'', step_world Join w' = Some (Val w'') /\ calling w'' = BeforeReset dying /\ thread w'' = None.
Proof.
  revert l w. induction cs as [|c cs IH]; intros l w Hok Hc Hl Hn; cbn [turns length] in *.
  - destruct (over l) eqn:Eo; [|pose proof (turns_over l Eo); lia].
    exists w. split; [done|]. eexists. unfold step_world. by rewrite Hc, Hl, Eo.
  - rewrite Hl. destruct (over l) eqn:Eo.
    { exists w. split; [done|]. eexists. unfold step_world. by rewrite Hc, Hl, Eo. }
    pose proof (wo_caller _ Hok) as Hr. unfold caller_ok in Hr. rewrite Hc in Hr.
    destruct (wo_thread _ Hok l Hl) as ((g & Hg & Hw) & Hcl & Hto).
    assert (signalled (shared w) = true \/ closing l = true) as Hsc.
    { destruct Hto as [?|[?|[?|[?|(d & Hd)]]]]; try tauto; congruence. }
    destruct (loop_ends c l (shared w) g Eo Hg Hw Hr Hsc) as (l' & s' & Hs & Hlt).
    destruct (turn_ok c l w _ Hok Hl Eo Hs) as (l0 & s0 & [= <- <-] & Hok').
    unfold step_world at 1. rewrite Hc, Hl, Eo, Hs. cbn [mbind option_bind]. rewrite Hc in Hok'.
    by apply (IH l'); [| | |lia].
Qed.
End transport.
Arguments World L : clear implicits.
