(* ===== verification/ReaderThreads.v ===== *)
(** * The two reader threads

    The loops that the threads of Workers.v run, step by step between the
    accesses to what they share: [HttpClientTransport::sse_loop] with
    [run_sse_once] (src/transport/http_client_transport.cpp) and
    [StdioTransport::read_loop] (src/transport/stdio_transport.cpp).  What is
    read and delivered is in HttpClient.v and LineTransport.v. *)

From S2P Require Import Prelude Core Workers.

(** What the outside world does next: a call succeeds or fails, a wait goes on,
    a read brings so many events or lines. *)
Inductive choice := Good | Bad | Blocked | Brings (n : nat).

(** [poll_readable]: a wake-up takes precedence; [wake] is the event the call
    was given, and none is never signalled. *)
Definition woken (wake : option nat) (s : Shared) : bool := bool_decide (is_Some wake) && signalled s.

(** Using the descriptors of an event that is gone is undefined. *)
Definition still_there (wake : option nat) (s : Shared) : bool :=
  match wake with Some g => bool_decide (event s = Some g) | None => true end.

Definition go {A} (l : A) (s : Shared) : option (outcome (A * Shared)) := Some (Val (l, s)).

(** Taking a step apart. *)
Ltac take_step H := unfold go in H; repeat case_match; simplify_eq.

(** ** The event stream of the HTTP client *)

(** [failures] of [sse_loop] and [delivered] of [run_sse_once] are carried along;
    [pending] events are still to be delivered.  That [++failures] overflows after
    2^31 failures in a row is in HttpClient.v. *)
Inductive sse_pc :=
| SLoop (failures : Z)                                  (** [while (running_)] *)
| SConnect (failures : Z)                               (** [tcp_connect] and the request *)
| SHead (failures : Z)                                  (** more of the head is wanted *)
| SHeadPoll (failures : Z) (wake : option nat)
| SHeadRead (failures : Z)
| SEvents (failures : Z) (delivered : bool) (pending : nat)
| SHandler (failures : Z) (pending : nat)               (** in [deliver_frame] *)
| SStreamPoll (failures : Z) (delivered : bool) (wake : option nat)
| SStreamRead (failures : Z) (delivered : bool)
| SReturned (failures : Z) (delivered : bool)
| SWarmUp (failures : Z)                                (** without a session id *)
| SWarmUpPoll (failures : Z) (wake : option nat)
| SAfter (failures : Z)                                 (** [if (!running_)] *)
| SDelay (failures : Z)
| SDelayPoll (failures : Z) (wake : option nat)
| SGiveUp                                               (** [emit_error] and [emit_close] *)
| SOver.

Section sse.
(** [max_reconnect_attempts]. *)
Context (limit : Z).

Definition sse_uses (g : nat) (l : sse_pc) : bool :=
  match l with SHeadPoll _ w | SStreamPoll _ _ w | SWarmUpPoll _ w | SDelayPoll _ w => bool_decide (w = Some g) | _ => true end.

Definition sse_step (c : choice) (l : sse_pc) (s : Shared) : option (outcome (sse_pc * Shared)) :=
  match l with
  | SLoop f => go (if running s then SConnect f else SOver) s
  | SConnect f => go (match c with Bad => SReturned f false | _ => SHead f end) s
  | SHead f => go (SHeadPoll f (event s)) s
  | SHeadPoll f wake =>
      if negb (still_there wake s) then Some Undefined
      else if woken wake s then go (SReturned f false) s
      else match c with
           | Blocked => None
           | Bad => go (SReturned f false) s            (** 30 s, or a failure *)
           | _ => go (SHeadRead f) s
           end
  | SHeadRead f =>
      if running s then
        go (match c with
            | Bad => SReturned f false                  (** the end, or not an event stream *)
            | Brings n => SEvents f false n
            | _ => SHead f
            end) s
      else go (SReturned f false) s
  | SEvents f d pending =>
      match pending with
      | S pending => go (SHandler f pending) s
      | O => go (SStreamPoll f d (event s)) s
      end
  | SHandler f pending => go (SEvents f true pending) s
  | SStreamPoll f d wake =>
      if negb (still_there wake s) then Some Undefined
      else if woken wake s then go (SReturned f d) s
      else match c with
           | Blocked => None
           | Bad => go (SReturned f d) s
           | _ => go (SStreamRead f d) s
           end
  | SStreamRead f d =>
      if running s then
        go (match c with Brings n => SEvents f d n | Bad => SReturned f d | _ => SEvents f d 0 end) s
      else go (SReturned f d) s
  | SReturned f true => go (SAfter 0) s
  | SReturned f false =>
      match c with
      | Bad => go (SWarmUp f) s                         (** no session id yet *)
      | _ => go (if (0 <? limit)%Z && (limit <=? f + 1)%Z then SGiveUp else SAfter (f + 1)) s
      end
  | SWarmUp f => match event s with Some g => go (SWarmUpPoll f (Some g)) s | None => Some Undefined end
  | SWarmUpPoll f wake =>
      if negb (still_there wake s) then Some Undefined
      else if woken wake s then go (SLoop f) s
      else match c with Blocked => None | _ => go (SLoop f) s end
  | SAfter f => go (if running s then SDelay f else SOver) s
  | SDelay f => match event s with Some g => go (SDelayPoll f (Some g)) s | None => Some Undefined end
  | SDelayPoll f wake =>
      if negb (still_there wake s) then Some Undefined
      else if woken wake s then go (SLoop f) s
      else match c with Blocked => None | _ => go (SLoop f) s end
  | SGiveUp => go SOver (emit_close true s)
  | SOver => None
  end.

Definition sse_turns (l : sse_pc) : nat :=
  match l with
  | SOver => 0
  | SLoop _ | SAfter _ | SGiveUp => 1
  | SWarmUpPoll _ _ | SDelayPoll _ _ => 2
  | SWarmUp _ | SDelay _ => 3
  | SReturned _ _ => 4
  | SHeadPoll _ _ | SHeadRead _ | SStreamPoll _ _ _ | SStreamRead _ _ => 5
  | SHead _ => 6
  | SConnect _ => 7
  | SEvents _ _ pending => 6 + 2 * pending
  | SHandler _ pending => 7 + 2 * pending
  end.

#[export] Instance sse_worker : WorkerLoop sse_pc choice := {|
  entry := SLoop 0;
  over l := match l with SOver => true | _ => false end;
  uses := sse_uses;
  closing _ := false;
  loop_step := sse_step;
  turns_left := sse_turns;
  stops_itself := false;
|}.

Lemma sse_step_shared c l s l' s' : sse_step c l s = Some (Val (l', s')) -> s' = s \/ s' = emit_close true s.
Proof. destruct l; cbn; intros H; take_step H; auto. Qed.

Lemma emit_close_running once s : running (emit_close once s) = running s.
Proof. unfold emit_close. by destruct (once && close_emitted s). Qed.

#[export] Instance sse_laws : WorkerLaws sse_pc choice.
Proof.
  split; cbn [entry over uses closing loop_step turns_left stops_itself sse_worker].
  - done.
  - intros c l s l' s' [->| ->]%sse_step_shared; [done|]. rewrite emit_close_running. unfold emit_close.
    by destruct (true && close_emitted s).
  - intros c l s l' s' _ [->| ->]%sse_step_shared; [done|apply emit_close_running].
  - intros c l s l' s' [->| ->]%sse_step_shared; rewrite ?emit_close_running; split_and!; congruence.
  - intros c l s g r H Ho He Hu. destruct l; cbn in H, Hu; unfold still_there in H;
      try apply bool_decide_eq_true in Hu; subst; rewrite ?He, ?(bool_decide_eq_true_2 (Some g = Some g)) in H by done;
      cbn in H; take_step H; eexists _, _; (split; [done|]); cbn; rewrite ?He; try done; by apply bool_decide_eq_true.
  - intros []; cbn; try done; lia.
  - intros c l s g Ho He Hu Hr Hc. destruct Hc as [Hs|Hc]; [|done].
    destruct l; cbn in Hu; try apply bool_decide_eq_true in Hu; subst; try done; cbn [sse_step]; unfold still_there, woken, go;
      rewrite ?He, ?Hr, ?Hs, ?(bool_decide_eq_true_2 (Some g = Some g)), ?(bool_decide_eq_true_2 (is_Some (Some g))) by done;
      cbn [negb andb].
    all: try (eexists _, _; split; [done|cbn [sse_turns]; lia]).
    all: repeat case_match; eexists _, _; (split; [done|cbn [sse_turns]; lia]).
Qed.
End sse.

(** ** The reader of the stdio transport *)

(** The most lines that one read can complete: the size of its buffer. *)
Definition kChunk : nat := 4096.

Inductive read_pc :=
| RLoop                                (** [while (running_)] *)
| RWait
| RPoll (wake : option nat)
| RCheck                               (** woken: [if (!running_)] *)
| RRead
| RLines (pending : nat)               (** [process_line] for each *)
| RStop                                (** after the loop *)
| RClose
| ROver.

Definition read_uses (g : nat) (l : read_pc) : bool := match l with RPoll w => bool_decide (w = Some g) | _ => true end.

Definition read_turn (c : choice) (l : read_pc) (s : Shared) : option (outcome (read_pc * Shared)) :=
  match l with
  | RLoop => go (if running s then RWait else RStop) s
  | RWait => go (RPoll (event s)) s
  | RPoll wake =>
      if negb (still_there wake s) then Some Undefined
      else if woken wake s then go RCheck s
      else match c with Blocked => None | Bad => go RStop s | _ => go RRead s end
  | RCheck => go (if running s then RLoop else ROver) s
  | RRead => go (match c with Bad => RStop | Brings n => RLines (Nat.min n kChunk) | _ => RLines 0 end) s
  | RLines (S pending) => go (RLines pending) s
  | RLines O => go RLoop s
  | RStop => go RClose (set_running false s)
  | RClose => go ROver (emit_close false s)
  | ROver => None
  end.

Definition read_turns (l : read_pc) : nat :=
  match l with
  | ROver => 0
  | RClose | RCheck => 1
  | RStop | RPoll _ => 2
  | RLoop | RWait => 3
  | RLines pending => 4 + pending
  | RRead => 5 + kChunk
  end.

#[export] Instance read_worker : WorkerLoop read_pc choice := {|
  entry := RLoop;
  over l := match l with ROver => true | _ => false end;
  uses := read_uses;
  closing l := match l with RClose => true | _ => false end;
  loop_step := read_turn;
  turns_left := read_turns;
  stops_itself := true;
|}.

#[export] Instance read_laws : WorkerLaws read_pc choice.
Proof.
  split; cbn [entry over uses closing loop_step turns_left stops_itself read_worker].
  - done.
  - intros c l s l' s' H. destruct l; cbn in H; take_step H; split_and!; try done; try congruence.
  - done.
  - intros c l s l' s' H. destruct l; cbn in H; take_step H; split_and!; intros; try done; try congruence; auto.
  - intros c l s g r H Ho He Hu. destruct l; cbn in H, Hu; unfold still_there in H;
      try apply bool_decide_eq_true in Hu; subst; rewrite ?He, ?(bool_decide_eq_true_2 (Some g = Some g)) in H by done;
      cbn in H; take_step H; eexists _, _; (split; [done|]); cbn; rewrite ?He; try done; by apply bool_decide_eq_true.
  - intros []; cbn; try done; lia.
  - intros c l s g Ho He Hu Hr Hc.
    destruct l; cbn in Hu; try apply bool_decide_eq_true in Hu; subst; try done; cbn [read_turn]; unfold still_there, woken, go;
      rewrite ?He, ?Hr, ?(bool_decide_eq_true_2 (Some g = Some g)), ?(bool_decide_eq_true_2 (is_Some (Some g))) by done;
      cbn [negb andb].
    all: try (destruct Hc as [Hs|Hs]; [rewrite ?Hs|done]).
    all: try (eexists _, _; split; [done|cbn [read_turns]; lia]).
    all: repeat case_match; eexists _, _; (split; [done|cbn [read_turns]; lia]).
Qed.

(** ** Both transports *)

(** What is promised of a transport in any reachable state [w]. *)
Record sound_transport {L} `{WL : WorkerLoop L choice} (eager wanted : bool) (w : World L) : Prop := mkSoundTransport {
  (** the thread has a wake event, and waits with no other *)
  sd_thread : forall l, thread w = Some l -> exists g, event (shared w) = Some g /\ uses g l = true;
  (** so does every other thread that waits *)
  sd_borrowed : Forall (holds_event w) (borrowed w);
  (** when the event is gone, or the transport, so is the thread *)
  sd_stopped : event (shared w) = None \/ calling w = Gone -> thread w = None;
  (** [disconnect] returns: joining takes a bounded number of the thread's turns *)
  sd_join : forall dying l cs, calling w = BeforeJoin dying -> thread w = Some l -> turns_left l <= length cs ->
    exists w', turns eager wanted cs w = Some (Val w') /\
      exists w'', step_world eager wanted Join w' = Some (Val w'') /\ calling w'' = BeforeReset dying /\ thread w'' = None;
}.

Lemma reachable_sound {L} `{WL : WorkerLoop L choice} `{!WorkerLaws L choice} eager wanted r :
  (eager = true -> stops_itself = false) -> reachable eager wanted r ->
  exists w, r = Val w /\ world_ok w /\ sound_transport eager wanted w.
Proof.
  intros He Hr. destruct (reachable_world_ok _ _ He r Hr) as (w & -> & Hok). exists w. split_and!; [done|done|]. split.
  - intros l Hl. by destruct (wo_thread _ Hok l Hl).
  - apply (wo_borrowed _ Hok).
  - intros Hg. destruct (thread w) as [l|] eqn:El; [|done]. destruct (wo_thread _ Hok l El) as ((g & Hev & _) & _).
    pose proof (wo_caller _ Hok) as Hc. unfold caller_ok in Hc. destruct Hg as [Hg|Hg]; [congruence|]. rewrite Hg in Hc. destruct Hc. congruence.
  - intros dying l cs Hc Hl Hn. by eapply join_returns.
Qed.

Lemma sse_closes_once limit wanted r :
  reachable (WL := sse_worker limit) true wanted r ->
  match r with Val w => closes (shared w) = Nat.b2n (close_emitted (shared w)) | _ => True end.
Proof.
  induction 1 as [|w s r Hr IH Hd Hs]; [done|]. destruct r as [w'|x|]; [|done|done].
  destruct (step_closes _ _ s w w' Hs) as [[E1 E2]|(c & l & l' & Hl)]; [congruence|].
  destruct (sse_step_shared _ c l _ l' _ Hl) as [->| ->]; [done|]. unfold emit_close.
  destruct (close_emitted (shared w)) eqn:Ee; cbn; [by rewrite Ee|]. by rewrite IH.
Qed.

(** C20: the HTTP client and its stream's thread, in any interleaving with the
    calls of [connect] and [disconnect] and with requests that wait for their
    answer, provided none is waiting when [disconnect] drops the wake event and
    the stream's handlers do not call [disconnect]: nobody touches an event that
    is gone, no thread object is assigned to or destroyed while its thread has
    not been joined, [disconnect] gets the thread to its end within a bounded
    number of turns, whatever the server does, after it nothing is left, and
    the close handler has run at most once. *)
Theorem http_client_threads limit wanted r :
  reachable (WL := sse_worker limit) true wanted r ->
  exists w, r = Val w /\ sound_transport (WL := sse_worker limit) true wanted w /\
    (calling w = Outside -> running (shared w) = false -> thread w = None /\ event (shared w) = None) /\
    closes (shared w) <= 1.
Proof.
  intros Hr. destruct (reachable_sound (WL := sse_worker limit) true wanted r ltac:(done) Hr) as (w & -> & Hok & Hw).
  exists w. split_and!; [done|done| |].
  - intros Hc Hrun. pose proof (wo_caller _ Hok) as Hcal. unfold caller_ok in Hcal. rewrite Hc in Hcal. destruct Hcal as [_ Hcal].
    pose proof (wo_idle _ Hok eq_refl Hc Hrun). auto.
  - pose proof (sse_closes_once limit wanted _ Hr) as Hc. cbn in Hc. rewrite Hc. destruct (close_emitted _); cbn; lia.
Qed.

(** The stdio transport and its reader, likewise; [connect] must not be called
    after the input's end without [disconnect] in between.  A reader that is
    stopped has been told so or is ending by itself, but for the moment before
    [disconnect] signals. *)
Theorem stdio_threads r :
  reachable (WL := read_worker) false true r ->
  exists w, r = Val w /\ sound_transport (WL := read_worker) false true w /\ (forall l, thread w = Some l -> told w l).
Proof.
  intros Hr. destruct (reachable_sound (WL := read_worker) false true r ltac:(done) Hr) as (w & -> & Hok & Hw).
  exists w. split_and!; [done|done|]. intros l Hl. by destruct (wo_thread _ Hok l Hl) as (_ & _ & Hto).
Qed.

(** ** Schedules *)
Module ReaderThreadsDemo.

Abbreviation http_steps := (steps (WL := sse_worker 5) true true).
Abbreviation stdio_steps := (steps (WL := read_worker) false true).

Definition connecting {Ch} : list (step_ (Ch := Ch)) := [Connect; Wake true; StartThread].

(** The stream is opened and followed; [disconnect] ends it. *)
Definition session : list (step_ (Ch := choice)) :=
  connecting ++ [Turn Good; Turn Good; Turn Good; Turn Good; Turn (Brings 1); Turn Good; Turn Good; Turn Good;
    Disconnect false; Signal; Turn Good; Turn Good; Turn Good; Join; Reset; Disconnect true].

Example http_session : exists w, http_steps session new_transport = Some (Val w) /\ calling w = Gone /\ thread w = None.
Proof. eexists. split; [vm_compute; reflexivity|by split]. Qed.

Lemma http_client_threads_witness :
  exists w, http_steps session new_transport = Some (Val w) /\ closes (shared w) <= 1.
Proof.
  assert (exists w, http_steps session new_transport = Some (Val w)) as [w E] by (eexists; vm_compute; reflexivity).
  destruct (http_client_threads 5 true (Val w)) as (w' & Hw & _ & _ & Hc).
  - refine (steps_reachable _ _ session new_transport _ _ _ E); [constructor|]. vm_compute. split_and!; done || constructor.
  - injection Hw as <-. exists w. split; [exact E|exact Hc].
Defined.

(** A request waits for its answer while [disconnect] drops the wake event: it
    comes back to an event that is gone. *)
Example request_outlives_event :
  http_steps (connecting ++ [Borrow; Disconnect false; Signal; Turn Good; Join; Reset; Release 0]) new_transport = Some Undefined.
Proof. vm_compute. reflexivity. Qed.

(** The stream's own handler calls [disconnect], which cannot join: a later
    [connect] assigns to a thread object that is joinable, and so does the
    destructor destroy one. *)
Definition from_handler : list (step_ (Ch := choice)) :=
  connecting ++ [Turn Good; Turn Good; Turn Good; Turn Good; Turn (Brings 1); Turn Good; Disconnect false; Signal; JoinSelf; Reset].
Example reconnect_in_handler : http_steps (from_handler ++ connecting) new_transport = Some Undefined.
Proof. vm_compute. reflexivity. Qed.
Example destroyed_unjoined :
  http_steps (from_handler ++ [Turn Good; Turn Good; Turn Good; Turn Good; Turn Good; Disconnect true]) new_transport = Some Undefined.
Proof. vm_compute. reflexivity. Qed.

(** After the end of its input the stdio transport is not running, and a
    [connect] assigns to the thread object of the reader that ended. *)
Example reconnect_after_end :
  stdio_steps (connecting ++ [Turn Good; Turn Good; Turn Good; Turn Bad; Turn Good; Turn Good] ++ connecting) new_transport = Some Undefined.
Proof. vm_compute. reflexivity. Qed.

(** Whether [disconnect] is reported as a close depends on where the reader is:
    not when it is woken, but when it has lines to handle. *)
Example disconnect_while_waiting :
  (fun r => match r with Some (Val w) => Some (closes (shared w)) | _ => None end)
    (stdio_steps (connecting ++ [Turn Good; Turn Good; Disconnect false; Signal; Turn Good; Turn Good; Join; Reset]) new_transport) = Some 0.
Proof. vm_compute. reflexivity. Qed.
Example disconnect_while_reading :
  (fun r => match r with Some (Val w) => Some (closes (shared w)) | _ => None end)
    (stdio_steps (connecting ++ [Turn Good; Turn Good; Turn Good; Turn (Brings 1); Disconnect false; Signal; Turn Good; Turn Good; Turn Good;
       Turn Good; Turn Good; Join; Reset]) new_transport) = Some 1.
Proof. vm_compute. reflexivity. Qed.
End ReaderThreadsDemo.
