(* ===== verification/Descriptors.v ===== *)
(** * The kernel's descriptors

    What the platform layer (src/platform/) asks of the operating system: a
    class of the calls it makes, with the table of the process's descriptors,
    and laws that say what the calls do to the table.  [SimKernel] is a kernel
    that fails where a script says so. *)

From S2P Require Import Prelude Core State.

(** ** Addresses *)

(** [htons] and [ntohs] on a little-endian machine. *)
Definition htons (p : Z) : Z := (p mod 256 * 256 + p / 256)%Z.
Definition ntohs (p : Z) : Z := htons p.

Lemma ntohs_htons p : in_u 16 p -> ntohs (htons p) = p.
Proof.
  unfold in_u, modulus. change (2 ^ 16)%Z with 65536%Z. intros Hp. unfold ntohs, htons.
  pose proof (Z.mod_pos_bound p 256 ltac:(lia)). pose proof (Z.div_mod p 256 ltac:(lia)).
  rewrite Z.add_mod, Z.mul_mod, Z.mod_same, Z.mul_0_r, Z.mod_0_l, Z.add_0_l, Z.mod_mod by lia.
  rewrite Z.div_add_l by lia. rewrite (Z.mod_small (p / 256)) by (split; [apply Z.div_pos|apply Z.div_lt_upper_bound]; lia).
  rewrite (Z.div_small (p / 256)) by (split; [apply Z.div_pos|apply Z.div_lt_upper_bound]; lia). lia.
Qed.

Lemma htons_0 p : in_u 16 p -> htons p = 0%Z -> p = 0%Z.
Proof. intros Hp H. rewrite <- (ntohs_htons p Hp), H. done. Qed.

(** [sockaddr_in]; the port is in network order. *)
Record sockaddr : Type := mkSockaddr { sin_addr : Z; sin_port : Z }.

(** ** The kernel *)

(** What a descriptor stands for. *)
Inductive descr :=
| Unbound | Bound (a : sockaddr) | Listening (a : sockaddr)
| Connecting (a : sockaddr) | Connected (a : sockaddr) | Refused
| Accepted
| PipeRead | PipeWrite.

Inductive sockopt := SO_REUSEADDR | SO_EXCLUSIVEADDRUSE | TCP_NODELAY.

(** The calls; [errno] is [WSAGetLastError] on Windows.  [sys_poll_write] waits
    for a descriptor to become writable and also tells whether the error event
    is set. *)
Class Kernel (W : Type) := {
  fds : W -> gmap Z descr;
  errno : W -> Z;
  EINPROGRESS : Z;
  EWOULDBLOCK : Z;
  O_NONBLOCK : Z;
  strerror : Z -> string;
  inet_pton : string -> option Z;
  INADDR_LOOPBACK : Z;                 (** after [htonl] *)
  wsa_started : W -> bool;             (** the static of [ensure_wsa] *)
  sys_wsa_startup : W -> W * unit;
  sys_socket : W -> W * Z;
  sys_setsockopt : Z -> sockopt -> W -> W * Z;
  sys_getfl : Z -> W -> W * Z;
  sys_setfl : Z -> Z -> W -> W * Z;
  sys_fionbio : Z -> bool -> W -> W * Z;
  sys_bind : Z -> sockaddr -> W -> W * Z;
  sys_listen : Z -> Z -> W -> W * Z;
  sys_getsockname : Z -> W -> W * option sockaddr;
  sys_connect : Z -> sockaddr -> W -> W * Z;
  sys_poll_write : Z -> Z -> W -> W * (Z * bool);
  sys_select_write : Z -> Z -> Z -> W -> W * Z;
  sys_so_error : Z -> W -> W * option Z;
  sys_accept : Z -> W -> W * Z;
  sys_close : Z -> W -> W * unit;
  sys_pipe : W -> W * option (Z * Z);
  sys_fork : W -> W * Z;
}.

(** What the manuals say the calls do to the table. *)
Class KernelLaws (W : Type) `{Kernel W} : Prop := {
  wsa_startup_law w : fds (sys_wsa_startup w).1 = fds w;
  socket_law w :
    let '(w', fd) := sys_socket w in
    fd = (-1)%Z /\ fds w' = fds w \/ (0 <= fd)%Z /\ fds w !! fd = None /\ fds w' = <[fd := Unbound]> (fds w);
  accept_law s w :
    let '(w', fd) := sys_accept s w in
    fd = (-1)%Z /\ fds w' = fds w \/ (0 <= fd)%Z /\ fds w !! fd = None /\ fds w' = <[fd := Accepted]> (fds w);
  pipe_law w :
    match sys_pipe w with
    | (w', None) => fds w' = fds w
    | (w', Some (r, s)) =>
        (0 <= r)%Z /\ (0 <= s)%Z /\ r <> s /\ fds w !! r = None /\ fds w !! s = None /\
        fds w' = <[s := PipeWrite]> (<[r := PipeRead]> (fds w))
    end;
  setsockopt_law fd o w : fds (sys_setsockopt fd o w).1 = fds w;
  getfl_law fd w : fds (sys_getfl fd w).1 = fds w;
  setfl_law fd f w : fds (sys_setfl fd f w).1 = fds w;
  fionbio_law fd b w : fds (sys_fionbio fd b w).1 = fds w;
  fork_law w : fds (sys_fork w).1 = fds w;
  bind_law fd a w :
    fds w !! fd = Some Unbound ->
    let '(w', rc) := sys_bind fd a w in
    if (rc =? 0)%Z
    then exists port, (sin_port a <> 0%Z -> port = sin_port a) /\ fds w' = <[fd := Bound (mkSockaddr (sin_addr a) port)]> (fds w)
    else fds w' = fds w;
  listen_law fd n a w :
    fds w !! fd = Some (Bound a) ->
    let '(w', rc) := sys_listen fd n w in
    fds w' = if (rc =? 0)%Z then <[fd := Listening a]> (fds w) else fds w;
  getsockname_law fd w : fds (sys_getsockname fd w).1 = fds w;
  getsockname_value fd a w :
    fds w !! fd = Some (Listening a) -> (sys_getsockname fd w).2 = Some a;
  connect_law fd a w :
    fds w !! fd = Some Unbound ->
    let '(w', rc) := sys_connect fd a w in
    exists d, fds w' = <[fd := d]> (fds w) /\
      (rc = 0%Z -> d = Connected a) /\
      (rc <> 0%Z -> errno w' = EINPROGRESS \/ errno w' = EWOULDBLOCK -> d = Connecting a);
  poll_write_law fd a ms w :
    fds w !! fd = Some (Connecting a) ->
    let '(w', (ready, _)) := sys_poll_write fd ms w in
    exists d, fds w' = <[fd := d]> (fds w) /\ ((0 < ready)%Z -> d = Connected a \/ d = Refused);
  select_write_law fd a sec usec w :
    fds w !! fd = Some (Connecting a) ->
    let '(w', ready) := sys_select_write fd sec usec w in
    exists d, fds w' = <[fd := d]> (fds w) /\ ((0 < ready)%Z -> d = Connected a \/ d = Refused);
  so_error_law fd w : fds (sys_so_error fd w).1 = fds w;
  so_error_value fd d w :
    fds w !! fd = Some d ->
    exists e, (sys_so_error fd w).2 = Some e /\ (d = Refused -> e <> 0%Z);
  close_law fd w : fds (sys_close fd w).1 = delete fd (fds w);
}.

Definition call {W A} (f : W -> W * A) : st W A := fun w => let '(w', a) := f w in (w', Val a).

(** ** Computations that return *)

Definition returns {W A} (m : st W A) : Prop := forall w, exists a, (m w).2 = Val a.

Lemma returns_ret {W A} (a : A) : returns (W := W) (mret a).
Proof. intros w. by exists a. Qed.
Lemma returns_gets {W A} (f : W -> A) : returns (gets f).
Proof. intros w. by exists (f w). Qed.
Lemma returns_call {W A} (f : W -> W * A) : returns (call f).
Proof. intros w. unfold call. destruct (f w) as [w' a]. by exists a. Qed.
Lemma returns_bind {W A B} (m : st W A) (k : A -> st W B) : returns m -> (forall a, returns (k a)) -> returns (mbind k m).
Proof.
  intros Hm Hk w. destruct (Hm w) as [a Ha]. destruct (m w) as [w' r] eqn:E. cbn in Ha. subst r.
  rewrite (st_bind_val _ _ _ _ _ E). apply Hk.
Qed.

Create HintDb returns.
#[export] Hint Resolve returns_ret returns_gets returns_call : returns.
#[export] Hint Extern 2 (returns (mbind _ _)) => apply returns_bind; [|intros ?] : returns.
#[export] Hint Extern 3 (returns (match ?x with _ => _ end)) => destruct x eqn:? : returns.

(** What holds of the outcome of a computation that returns. *)
Lemma triple_returns {W A} (P : W -> Prop) (m : st W A) Q w :
  triple P m Q -> returns m -> P w -> exists w' a, m w = (w', Val a) /\ Q a w'.
Proof.
  intros Hm Hr HP. destruct (Hr w) as [a Ha]. destruct (m w) as [w' r] eqn:E. cbn in Ha. subst r.
  exists w', a. split; [done|]. by eapply Hm.
Qed.

(** ** Owning a descriptor

    [alone base P fd]: the table is [base] and one descriptor more. *)
Section owning.
Context {W : Type} {KW : Kernel W} {KL : KernelLaws W}.

Definition table (base : gmap Z descr) (w : W) : Prop := fds w = base.

Definition alone (base : gmap Z descr) (P : descr -> Prop) (fd : Z) (w : W) : Prop :=
  (0 <= fd)%Z /\ base !! fd = None /\ exists d, P d /\ fds w = <[fd := d]> base.

Lemma alone_table base P fd w :
  alone base P fd w -> exists d, P d /\ (0 <= fd)%Z /\ base !! fd = None /\ table (<[fd := d]> base) w.
Proof. intros (? & ? & d & ? & ?). by exists d. Qed.

(** Nothing was opened, or [fd] was. *)
Definition opened (base : gmap Z descr) (P : descr -> Prop) (fd : Z) (w : W) : Prop :=
  fd = (-1)%Z /\ table base w \/ alone base P fd w.

Lemma alone_weaken base (P Q : descr -> Prop) fd w : (forall d, P d -> Q d) -> alone base P fd w -> alone base Q fd w.
Proof. intros HPQ (? & ? & d & ? & ?). split; [done|]. split; [done|]. exists d. auto. Qed.

Lemma triple_call {A} (P : W -> Prop) (f : W -> W * A) (Q : A -> W -> Prop) :
  (forall w, P w -> Q (f w).2 (f w).1) -> triple P (call f) Q.
Proof. intros H w w' a HP E. unfold call in E. specialize (H w HP). destruct (f w). by injection E as <- <-. Qed.

(** Calls that leave the table alone. *)
Lemma triple_quiet {A} (I : gmap Z descr -> Prop) (f : W -> W * A) :
  (forall w, fds (f w).1 = fds w) -> triple (fun w => I (fds w)) (call f) (fun _ w => I (fds w)).
Proof. intros H. apply triple_call. intros w Hw. by rewrite H. Qed.

Lemma alone_quiet {A} base P fd (f : W -> W * A) :
  (forall w, fds (f w).1 = fds w) -> preserves (alone base P fd) (call f).
Proof. intros H. apply (triple_quiet (fun t => (0 <= fd)%Z /\ base !! fd = None /\ exists d, P d /\ t = <[fd := d]> base)). exact H. Qed.

Lemma table_quiet {A} base (f : W -> W * A) : (forall w, fds (f w).1 = fds w) -> preserves (table base) (call f).
Proof. intros H. apply (triple_quiet (fun t => t = base)). exact H. Qed.

Lemma triple_socket base : triple (table base) (call sys_socket) (opened base (eq Unbound)).
Proof.
  apply triple_call. intros w Hw. pose proof (socket_law w) as H. destruct (sys_socket w) as [w' fd].
  unfold table in Hw. subst base. cbn. destruct H as [[-> H]|(? & ? & ?)]; [left; split; [done|exact H]|right].
  split; [done|]. split; [done|]. by exists Unbound.
Qed.

Lemma triple_accept base s : triple (table base) (call (sys_accept s)) (opened base (eq Accepted)).
Proof.
  apply triple_call. intros w Hw. pose proof (accept_law s w) as H. destruct (sys_accept s w) as [w' fd].
  unfold table in Hw. subst base. cbn. destruct H as [[-> H]|(? & ? & ?)]; [left; split; [done|exact H]|right].
  split; [done|]. split; [done|]. by exists Accepted.
Qed.

Lemma triple_close base P fd : triple (alone base P fd) (call (sys_close fd)) (fun _ => table base).
Proof.
  apply triple_call. intros w (_ & Hn & d & _ & Hw). unfold table. rewrite close_law, Hw. by apply delete_insert_id.
Qed.

(** A call that changes what [fd] stands for. *)
Lemma alone_change {A} base (P Q : descr -> Prop) fd (f : W -> W * A) (R : A -> Prop) :
  (forall w d, P d -> fds w !! fd = Some d ->
     exists d', fds (f w).1 = <[fd := d']> (fds w) /\ (R (f w).2 -> Q d')) ->
  triple (alone base P fd) (call f) (fun a w => alone base (fun d => R a -> Q d) fd w).
Proof.
  intros H. apply triple_call. intros w (Hfd & Hn & d & Hd & Hw). split; [done|]. split; [done|].
  destruct (H w d Hd) as (d' & Hw' & HQ); [rewrite Hw; apply lookup_insert_eq|]. exists d'. split; [done|].
  by rewrite Hw', Hw, insert_insert_eq.
Qed.
End owning.

(** ** A kernel that follows a script

    A call that can fail takes the next number of the script: 0 goes well, 1
    fails, and 2 is the third way out, where there is one (3 for a connection
    attempt that is reported as on Windows). *)

Record SimKernel : Type := mkSimKernel { sk_fds : gmap Z descr; sk_script : list nat; sk_errno : Z }.

Definition next_fd (m : gmap Z descr) : Z := map_fold (fun k _ n => Z.max n (k + 1)) 0%Z m.

Lemma next_fd_fresh m : (0 <= next_fd m)%Z /\ m !! next_fd m = None.
Proof.
  cut ((0 <= next_fd m)%Z /\ forall k d, m !! k = Some d -> (k < next_fd m)%Z); 
    [intros [H1 H2]; split; [done|]; destruct (m !! next_fd m) as [d|] eqn:E; [specialize (H2 _ _ E); lia|done]|].
  unfold next_fd. apply (map_fold_weak_ind (fun n m => (0 <= n)%Z /\ forall k (d : descr), m !! k = Some d -> (k < n)%Z)).
  - split; [done|]. intros k d. by rewrite lookup_empty.
  - intros i x m' n Hi [Hn IH]. split; [lia|]. intros k d. rewrite lookup_insert_Some. intros [[-> _]|[_ Hk]]; [lia|].
    specialize (IH k d Hk). lia.
Qed.

Definition on_fds (f : gmap Z descr -> gmap Z descr) (w : SimKernel) : SimKernel :=
  mkSimKernel (f (sk_fds w)) (sk_script w) (sk_errno w).
Definition verdict (w : SimKernel) : SimKernel * nat :=
  (mkSimKernel (sk_fds w) (tail (sk_script w)) (sk_errno w), hd 0 (sk_script w)).

Definition sim_new (d : descr) (w : SimKernel) : SimKernel * Z :=
  let '(w, v) := verdict w in
  if v =? 0 then let fd := next_fd (sk_fds w) in (on_fds <[fd := d]> w, fd) else (w, (-1)%Z).

(** A call that succeeds and changes [fd], or fails. *)
Definition sim_change (fd : Z) (d : descr -> descr) (w : SimKernel) : SimKernel * Z :=
  let '(w, v) := verdict w in if v =? 0 then (on_fds (alter d fd) w, 0%Z) else (w, (-1)%Z).

Definition sim_await (fd : Z) (w : SimKernel) : SimKernel * Z :=
  let '(w, v) := verdict w in
  match v with
  | 0 => (on_fds (alter (fun d => match d with Connecting a => Connected a | _ => d end) fd) w, 1%Z)
  | 1 => (w, 0%Z)
  | _ => (on_fds (alter (fun _ => Refused) fd) w, 1%Z)
  end.

#[export] Instance sim_kernel : Kernel SimKernel := {|
  fds := sk_fds;
  errno := sk_errno;
  EINPROGRESS := 115;
  EWOULDBLOCK := 11;
  O_NONBLOCK := 2048;
  strerror e := "error " +:+ to_string e;
  inet_pton s := if String.eqb s "127.0.0.1" then Some 16777343%Z else None;
  INADDR_LOOPBACK := 16777343;
  wsa_started _ := true;
  sys_wsa_startup w := (w, tt);
  sys_socket := sim_new Unbound;
  sys_setsockopt _ _ w := (w, 0%Z);
  sys_getfl _ w := (w, 2%Z);
  sys_setfl _ _ w := (w, 0%Z);
  sys_fionbio _ _ w := let '(w, v) := verdict w in (w, if v =? 0 then 0%Z else (-1)%Z);
  sys_bind fd a := sim_change fd (fun _ => Bound (if (sin_port a =? 0)%Z then mkSockaddr (sin_addr a) 4242 else a));
  sys_listen fd _ := sim_change fd (fun d => match d with Bound a => Listening a | _ => d end);
  sys_getsockname fd w := (w, match sk_fds w !! fd with Some (Listening a) => Some a | _ => None end);
  sys_connect fd a w :=
    let '(w, v) := verdict w in
    match v with
    | 0 => (on_fds (alter (fun _ => Connected a) fd) w, 0%Z)
    | 1 => (mkSimKernel (sk_fds w) (sk_script w) 113, (-1)%Z)
    | 2 => (mkSimKernel (alter (fun _ => Connecting a) fd (sk_fds w)) (sk_script w) 115, (-1)%Z)
    | _ => (mkSimKernel (alter (fun _ => Connecting a) fd (sk_fds w)) (sk_script w) 11, (-1)%Z)
    end;
  sys_poll_write fd _ w := let '(w, r) := sim_await fd w in (w, (r, false));
  sys_select_write fd _ _ w := sim_await fd w;
  sys_so_error fd w :=
    (w, match sk_fds w !! fd with Some Refused => Some 111%Z | Some _ => Some 0%Z | None => None end);
  sys_accept _ := sim_new Accepted;
  sys_close fd w := (on_fds (delete fd) w, tt);
  sys_pipe w :=
    let '(w, v) := verdict w in
    if v =? 0 then
      let r := next_fd (sk_fds w) in
      let s := next_fd (<[r := PipeRead]> (sk_fds w)) in
      (on_fds (fun m => <[s := PipeWrite]> (<[r := PipeRead]> m)) w, Some (r, s))
    else (w, None);
  sys_fork w := let '(w, v) := verdict w in (w, if v =? 0 then 42%Z else (-1)%Z);
|}.

Lemma alter_some {A} (f : A -> A) (m : gmap Z A) k x : m !! k = Some x -> alter f k m = <[k := f x]> m.
Proof. intros H. apply map_eq. intros i. destruct (decide (k = i)) as [<-|]; [by rewrite lookup_alter_eq, H, lookup_insert_eq|].
  by rewrite lookup_alter_ne, lookup_insert_ne. Qed.

Lemma sim_new_law d w :
  let '(w', fd) := sim_new d w in
  fd = (-1)%Z /\ sk_fds w' = sk_fds w \/ (0 <= fd)%Z /\ sk_fds w !! fd = None /\ sk_fds w' = <[fd := d]> (sk_fds w).
Proof.
  unfold sim_new, verdict. destruct (hd 0 (sk_script w) =? 0); [right|by left]. cbn.
  destruct (next_fd_fresh (sk_fds w)). done.
Qed.

Lemma sim_await_law fd a w :
  sk_fds w !! fd = Some (Connecting a) ->
  let '(w', ready) := sim_await fd w in
  exists d, sk_fds w' = <[fd := d]> (sk_fds w) /\ ((0 < ready)%Z -> d = Connected a \/ d = Refused).
Proof.
  intros H. unfold sim_await, verdict. destruct (hd 0 (sk_script w)) as [|[|n]]; cbn.
  - exists (Connected a). rewrite (alter_some _ _ _ _ H). auto.
  - exists (Connecting a). by rewrite insert_id.
  - exists Refused. rewrite (alter_some _ _ _ _ H). auto.
Qed.

#[export] Instance sim_kernel_laws : KernelLaws SimKernel.
Proof.
  split; try done; cbn [fds errno EINPROGRESS EWOULDBLOCK sim_kernel sys_socket sys_accept sys_select_write sys_so_error
    sys_fork sys_fionbio sys_getsockname] in *.
  - apply sim_new_law.
  - intros s. apply sim_new_law.
  - intros w. cbn [sys_pipe sim_kernel]. unfold verdict. destruct (hd 0 (sk_script w) =? 0); [|done]. cbn.
    destruct (next_fd_fresh (sk_fds w)) as [H1 H2]. set (r := next_fd (sk_fds w)) in *.
    destruct (next_fd_fresh (<[r := PipeRead]> (sk_fds w))) as [H3 H4]. apply lookup_insert_None in H4 as [H4 H5]. done.
  - intros fd a w H. cbn [sys_bind sim_kernel]. unfold sim_change, verdict. destruct (hd 0 (sk_script w) =? 0); [|done]. cbn.
    rewrite (alter_some _ _ _ _ H). destruct (Z.eqb_spec (sin_port a) 0); [by exists 4242%Z|]. exists (sin_port a). by destruct a.
  - intros fd n a w H. cbn [sys_listen sim_kernel]. unfold sim_change, verdict. destruct (hd 0 (sk_script w) =? 0); [|done]. cbn.
    by rewrite (alter_some _ _ _ _ H).
  - intros fd a w H. cbn. by rewrite H.
  - intros fd a w H. cbn [sys_connect sim_kernel]. unfold verdict. destruct (hd 0 (sk_script w)) as [|[|[|n]]]; cbn.
    + exists (Connected a). by rewrite (alter_some _ _ _ _ H).
    + exists Unbound. rewrite insert_id by done. split; [done|]. split; [done|]. by intros _ [?|?].
    + exists (Connecting a). by rewrite (alter_some _ _ _ _ H).
    + exists (Connecting a). by rewrite (alter_some _ _ _ _ H).
  - intros fd a ms w H. cbn [sys_poll_write sim_kernel]. pose proof (sim_await_law fd a w H) as Hw. by destruct (sim_await fd w).
  - intros fd a sec usec w H. by apply sim_await_law.
  - intros fd d w H. cbn. rewrite H. exists (match d with Refused => 111%Z | _ => 0%Z end). by destruct d.
Qed.
