(* ===== verification/Sockets.v ===== *)
(** * TCP sockets

    The sockets of the platform layer, in its three backends:
    src/platform/posix/net.cpp, win32/net.cpp and vxworks/net.cpp, over the
    kernel of Descriptors.v.  A call that fails returns the error text, and
    leaves no descriptor behind. *)

From S2P Require Import Prelude Core State Descriptors.

Section sockets.
Context {W : Type} {KW : Kernel W}.

(** The backends of [fill_addr] are the same. *)
Definition fill_addr (host : string) (port : Z) : sockaddr + string :=
  let node := if String.eqb host "localhost" then "127.0.0.1" else c_str host in
  match inet_pton node with
  | Some a => inl (mkSockaddr a (htons port))
  | None => inr ("invalid IPv4 address: " +:+ host)
  end.

(** Setting [error], closing the socket and returning [kInvalidFd]. *)
Definition abandon (fd : Z) (error : st W string) : st W (Z + string) :=
  e ← error; _ ← call (sys_close fd); mret (inr e).

(** [bind(...) != 0 || listen(fd, 16) != 0]. *)
Definition bind_listen (fd : Z) (addr : sockaddr) (backlog : Z) : st W bool :=
  rc ← call (sys_bind fd addr);
  if negb (rc =? 0)%Z then mret true
  else rc ← call (sys_listen fd backlog); mret (negb (rc =? 0)%Z).

(** The value of [so_error] after [getsockopt]. *)
Definition so_error (fd : Z) : st W Z := e ← call (sys_so_error fd); mret (default 0%Z e).

Definition tcp_local_port (fd : Z) : st W Z :=
  name ← call (sys_getsockname fd);
  mret (match name with Some a => ntohs (sin_port a) | None => 0%Z end).

Definition tcp_accept (listen_fd : Z) : st W Z :=
  fd ← call (sys_accept listen_fd); mret (if (fd <? 0)%Z then (-1)%Z else fd).

End sockets.

(** ** POSIX *)
Section posix.
Context {W : Type} {KW : Kernel W}.

Definition last_error : st W string := gets (fun w => strerror (errno w)).

Definition posix_tcp_listen (host : string) (port : Z) : st W (Z + string) :=
  match fill_addr host port with
  | inr e => mret (inr e)
  | inl addr =>
      fd ← call sys_socket;
      if (fd <? 0)%Z then e ← last_error; mret (inr e)
      else
        _ ← call (sys_setsockopt fd SO_REUSEADDR);
        failed ← bind_listen fd addr 16;
        if (failed : bool) then abandon fd last_error else mret (inl fd)
  end.

Definition posix_finish_connect (fd flags : Z) : st W (Z + string) :=
  _ ← call (sys_setfl fd flags);
  _ ← call (sys_setsockopt fd TCP_NODELAY);
  mret (inl fd).

Definition posix_tcp_connect (host : string) (port timeout_ms : Z) : st W (Z + string) :=
  match fill_addr host port with
  | inr e => mret (inr e)
  | inl addr =>
      fd ← call sys_socket;
      if (fd <? 0)%Z then e ← last_error; mret (inr e)
      else
        flags ← call (sys_getfl fd);
        _ ← call (sys_setfl fd (Z.lor flags O_NONBLOCK));
        rc ← call (sys_connect fd addr);
        e ← gets errno;
        if negb (rc =? 0)%Z && negb (e =? EINPROGRESS)%Z then abandon fd last_error
        else if negb (rc =? 0)%Z then
          r ← call (sys_poll_write fd timeout_ms);
          e ← so_error fd;
          if (r.1 <=? 0)%Z || negb (e =? 0)%Z
          then abandon fd (mret (if (r.1 <=? 0)%Z then "connect timed out" else strerror e))
          else posix_finish_connect fd flags
        else posix_finish_connect fd flags
  end.
End posix.

(** ** Windows *)
Section win32.
Context {W : Type} {KW : Kernel W}.

Definition ensure_wsa : st W unit :=
  started ← gets wsa_started; if (started : bool) then skip else call sys_wsa_startup.

Definition wsa_error : st W string := gets (fun w => "winsock error " +:+ to_string (errno w)).

Definition win32_tcp_listen (host : string) (port : Z) : st W (Z + string) :=
  _ ← ensure_wsa;
  match fill_addr host port with
  | inr e => mret (inr e)
  | inl addr =>
      fd ← call sys_socket;
      if (fd =? -1)%Z then e ← wsa_error; mret (inr e)
      else
        _ ← call (sys_setsockopt fd SO_EXCLUSIVEADDRUSE);
        failed ← bind_listen fd addr 16;
        if (failed : bool) then abandon fd wsa_error else mret (inl fd)
  end.

Definition win32_finish_connect (fd : Z) : st W (Z + string) :=
  _ ← call (sys_fionbio fd false);
  _ ← call (sys_setsockopt fd TCP_NODELAY);
  mret (inl fd).

Definition win32_tcp_connect (host : string) (port timeout_ms : Z) : st W (Z + string) :=
  _ ← ensure_wsa;
  match fill_addr host port with
  | inr e => mret (inr e)
  | inl addr =>
      fd ← call sys_socket;
      if (fd =? -1)%Z then e ← wsa_error; mret (inr e)
      else
        _ ← call (sys_fionbio fd true);
        rc ← call (sys_connect fd addr);
        e ← gets errno;
        if negb (rc =? 0)%Z && negb (e =? EWOULDBLOCK)%Z then abandon fd wsa_error
        else if negb (rc =? 0)%Z then
          r ← call (sys_poll_write fd timeout_ms);
          e ← so_error fd;
          if (r.1 <=? 0)%Z || negb (e =? 0)%Z || r.2
          then abandon fd (if (r.1 <=? 0)%Z then mret "connect timed out" else wsa_error)
          else win32_finish_connect fd
        else win32_finish_connect fd
  end.
End win32.

(** ** VxWorks *)
Section vx.
Context {W : Type} {KW : Kernel W}.

Definition vxworks_tcp_listen : string -> Z -> st W (Z + string) := posix_tcp_listen.

Definition vxworks_finish_connect (fd : Z) : st W (Z + string) :=
  _ ← call (sys_fionbio fd false);
  _ ← call (sys_setsockopt fd TCP_NODELAY);
  mret (inl fd).

(** The wait is [select], whose timeout is in seconds and microseconds. *)
Definition vxworks_tcp_connect (host : string) (port timeout_ms : Z) : st W (Z + string) :=
  match fill_addr host port with
  | inr e => mret (inr e)
  | inl addr =>
      fd ← call sys_socket;
      if (fd <? 0)%Z then e ← last_error; mret (inr e)
      else
        ok ← call (sys_fionbio fd true);
        if negb (ok =? 0)%Z then abandon fd (mret "FIONBIO failed")
        else
          rc ← call (sys_connect fd addr);
          e ← gets errno;
          if negb (rc =? 0)%Z && (negb (e =? EINPROGRESS)%Z && negb (e =? EWOULDBLOCK)%Z) then abandon fd last_error
          else if negb (rc =? 0)%Z then
            ready ← call (sys_select_write fd (Z.quot timeout_ms 1000) (Z.rem timeout_ms 1000 * 1000));
            e ← so_error fd;
            if (ready <=? 0)%Z || negb (e =? 0)%Z
            then abandon fd (mret (if (ready <=? 0)%Z then "connect timed out" else strerror e))
            else vxworks_finish_connect fd
          else vxworks_finish_connect fd
  end.
End vx.

(** ** The contract of pal.hpp

    One backend is selected at build time. *)

Inductive backend := POSIX | WIN32 | VXWORKS.

Section pal.
Context {W : Type} {KW : Kernel W}.

Definition tcp_listen (b : backend) : string -> Z -> st W (Z + string) :=
  match b with POSIX => posix_tcp_listen | WIN32 => win32_tcp_listen | VXWORKS => vxworks_tcp_listen end.

Definition tcp_connect (b : backend) : string -> Z -> Z -> st W (Z + string) :=
  match b with POSIX => posix_tcp_connect | WIN32 => win32_tcp_connect | VXWORKS => vxworks_tcp_connect end.

Context {KL : KernelLaws W}.

(** A socket that satisfies [P], or an error and nothing opened. *)
Definition settled (base : gmap Z descr) (P : descr -> Prop) (r : Z + string) (w : W) : Prop :=
  match r with inl fd => alone base P fd w | inr _ => table base w end.

Definition listening_at (a : sockaddr) (d : descr) : Prop :=
  exists port, d = Listening (mkSockaddr (sin_addr a) port) /\ (sin_port a <> 0%Z -> port = sin_port a).

#[local] Abbreviation some_descr := (fun _ : descr => True).

Lemma triple_if {A} (c : bool) (P : W -> Prop) (m1 m2 : st W A) Q :
  (c = true -> triple P m1 Q) -> (c = false -> triple P m2 Q) -> triple P (if c then m1 else m2) Q.
Proof. destruct c; auto. Qed.

Lemma triple_abandon base P Q fd error :
  preserves (alone base P fd) error -> triple (alone base P fd) (abandon fd error) (settled base Q).
Proof.
  intros He. eapply triple_bind; [exact He|]. intros e. eapply triple_bind; [apply triple_close|]. intros ?.
  intros w w' r Hw [= <- <-]. exact Hw.
Qed.

(** The error texts only look. *)
Lemma looks_ret {A} (I : W -> Prop) (a : A) : preserves I (mret a).
Proof. apply preserves_ret. Qed.
Lemma looks_gets {A} (I : W -> Prop) (f : W -> A) : preserves I (gets f).
Proof. by intros w w' a Hw [= <- _]. Qed.

Lemma triple_bind_listen base fd a n :
  triple (alone base (eq Unbound) fd) (bind_listen fd a n)
    (fun failed w => alone base (if (failed : bool) then some_descr else listening_at a) fd w).
Proof.
  unfold bind_listen. eapply triple_bind.
  - apply (alone_change base (eq Unbound)
             (fun d => exists port, d = Bound (mkSockaddr (sin_addr a) port) /\ (sin_port a <> 0%Z -> port = sin_port a))
             fd (sys_bind fd a) (fun rc => rc = 0%Z)).
    intros w d <- Hd. pose proof (bind_law fd a w Hd) as H. destruct (sys_bind fd a w) as [w' rc]. cbn.
    destruct (Z.eqb_spec rc 0) as [E|Hrc].
    + destruct H as (port & Hp & H). eexists. split; [exact H|]. intros _. by exists port.
    + exists Unbound. split; [by rewrite H, insert_id|]. by intros ->.
  - intros rc. destruct (Z.eqb_spec rc 0) as [E|Hrc]; cbn [negb].
    2:{ intros w w' r Hw [= <- <-]. by eapply alone_weaken; [|exact Hw]. }
    eapply triple_bind.
    + apply (alone_change base _ (listening_at a) fd (sys_listen fd n) (fun rc => rc = 0%Z)).
      intros w d Hd Hw. destruct (Hd E) as (port & -> & Hp).
      pose proof (listen_law fd n _ w Hw) as H. destruct (sys_listen fd n w) as [w' rc0]. cbn.
      destruct (Z.eqb_spec rc0 0) as [E0|Hrc]; rewrite H.
      * eexists. split; [done|]. intros _. by exists port.
      * eexists. split; [by rewrite (insert_id _ _ _ Hw)|]. done.
    + intros rc2 w w' r Hw [= <- <-]. apply (alone_weaken _ _ _ _ _ (fun d Hd => Hd)) in Hw.
      destruct (Z.eqb_spec rc2 0) as [E2|E2]; cbn [negb]; (eapply alone_weaken; [|exact Hw]); [|done]. intros d Hd. exact (Hd E2).
Qed.

(** The connection is made, or it is under way, or it failed. *)
Lemma triple_connect base fd a :
  triple (alone base (eq Unbound) fd) (call (sys_connect fd a))
    (fun rc w => alone base (fun d => (rc = 0%Z -> d = Connected a) /\
                   (rc <> 0%Z -> errno w = EINPROGRESS \/ errno w = EWOULDBLOCK -> d = Connecting a)) fd w).
Proof.
  apply triple_call. intros w (Hfd & Hn & d & <- & Hw).
  pose proof (connect_law fd a w ltac:(rewrite Hw; apply lookup_insert_eq)) as H.
  destruct (sys_connect fd a w) as [w1 rc]. destruct H as (d & Hd & H0 & H1). cbn [fst snd].
  split; [done|]. split; [done|]. exists d. split; [done|]. by rewrite Hd, Hw, insert_insert_eq.
Qed.

(** Waiting for a connection settles it, if the wait ends in time. *)
Definition settles (a : sockaddr) (ready : Z) (d : descr) : Prop := (0 < ready)%Z -> d = Connected a \/ d = Refused.

Lemma triple_poll_write base fd a ms :
  triple (alone base (eq (Connecting a)) fd) (call (sys_poll_write fd ms)) (fun r => alone base (settles a r.1) fd).
Proof.
  apply triple_call. intros w (Hfd & Hn & d & <- & Hw).
  pose proof (poll_write_law fd a ms w ltac:(rewrite Hw; apply lookup_insert_eq)) as H.
  destruct (sys_poll_write fd ms w) as [w1 [ready err]]. destruct H as (d & Hd & H). cbn [fst snd].
  split; [done|]. split; [done|]. exists d. split; [exact H|]. by rewrite Hd, Hw, insert_insert_eq.
Qed.

Lemma triple_select_write base fd a sec usec :
  triple (alone base (eq (Connecting a)) fd) (call (sys_select_write fd sec usec))
    (fun ready => alone base (settles a ready) fd).
Proof.
  apply triple_call. intros w (Hfd & Hn & d & <- & Hw).
  pose proof (select_write_law fd a sec usec w ltac:(rewrite Hw; apply lookup_insert_eq)) as H.
  destruct (sys_select_write fd sec usec w) as [w1 ready]. destruct H as (d & Hd & H). cbn [fst snd].
  split; [done|]. split; [done|]. exists d. split; [exact H|]. by rewrite Hd, Hw, insert_insert_eq.
Qed.

Lemma triple_so_error base (P : descr -> Prop) fd :
  triple (alone base P fd) (so_error fd) (fun e w => alone base (fun d => P d /\ (e = 0%Z -> d <> Refused)) fd w).
Proof.
  intros w w' e (Hfd & Hn & d & HP & Hw). unfold so_error, call. run.
  pose proof (so_error_law fd w) as H. pose proof (so_error_value fd d w ltac:(rewrite Hw; apply lookup_insert_eq)) as Hv.
  destruct (sys_so_error fd w) as [w1 r]. cbn in H, Hv. intros [= <- <-]. destruct Hv as (e & -> & He).
  split; [done|]. split; [done|]. exists d. split; [|congruence]. split; [done|]. cbn. intros -> Hd. by apply He.
Qed.

(** After a wait that went well the socket is connected. *)
Lemma settles_connected base fd a ready e w :
  (0 < ready)%Z -> e = 0%Z ->
  alone base (fun d => settles a ready d /\ (e = 0%Z -> d <> Refused)) fd w -> alone base (eq (Connected a)) fd w.
Proof. intros Hr He. apply alone_weaken. intros d [H1 H2]. destruct (H1 Hr) as [->|]; [done|]. by destruct (H2 He). Qed.

Lemma triple_opened {A} base P fd (c : bool) (m1 m2 : st W A) Q :
  (fd = (-1)%Z -> c = true) -> ((0 <= fd)%Z -> c = false) ->
  triple (table base) m1 Q -> triple (alone base P fd) m2 Q -> triple (opened base P fd) (if c then m1 else m2) Q.
Proof.
  intros H1 H2 T1 T2 w w' r [[Hfd Hw]|Hw] E; [rewrite (H1 Hfd) in E; by eapply T1|].
  rewrite (H2 (proj1 Hw)) in E. by eapply T2.
Qed.

Lemma triple_report base (e : st W string) P : preserves (table base) e -> triple (table base) (e ← e; mret (inr e)) (settled base P).
Proof. intros He. eapply triple_bind; [exact He|]. intros x w w' r Hw [= <- <-]. exact Hw. Qed.

Lemma triple_settled base P fd : triple (alone base P fd) (mret (inl fd)) (settled base P).
Proof. intros w w' r Hw [= <- <-]. exact Hw. Qed.

(** What the three functions do with an attempt to connect. *)
Lemma triple_attempt base fd a (failed : Z -> bool) (err : st W string) (wait finish : st W (Z + string)) :
  let S := settled base (eq (Connected a)) in
  (forall e, e <> EINPROGRESS -> e <> EWOULDBLOCK -> failed e = true) ->
  (forall P, preserves (alone base P fd) err) ->
  triple (alone base (eq (Connecting a)) fd) wait S -> triple (alone base (eq (Connected a)) fd) finish S ->
  triple (alone base (eq Unbound) fd)
    (rc ← call (sys_connect fd a); e ← gets errno;
     if negb (rc =? 0)%Z && failed e then abandon fd err else if negb (rc =? 0)%Z then wait else finish) S.
Proof.
  intros S Hf He Hwait Hfinish. eapply triple_bind; [apply triple_connect|]. intros rc w w' r Hw E.
  rewrite (st_bind_val _ _ w w (errno w)) in E by done. destruct (Z.eqb_spec rc 0) as [Hrc|Hrc]; cbn [negb andb] in E.
  - refine (Hfinish w w' r _ E). eapply alone_weaken; [|exact Hw]. intros d [H _]. symmetry. by apply H.
  - destruct (failed (errno w)) eqn:Hfail; [by eapply (triple_abandon base _ _ fd err (He _))|].
    refine (Hwait w w' r _ E). eapply alone_weaken; [|exact Hw]. intros d [_ H]. symmetry. apply H; [done|].
    destruct (decide (errno w = EINPROGRESS)); [by left|]. destruct (decide (errno w = EWOULDBLOCK)); [by right|].
    by rewrite Hf in Hfail.
Qed.

Lemma looks_errno (I : W -> Prop) : preserves I last_error.
Proof. apply looks_gets. Qed.
Lemma looks_wsa (I : W -> Prop) : preserves I wsa_error.
Proof. apply looks_gets. Qed.

Ltac quiet law := eapply triple_bind; [apply alone_quiet; intros; apply law|intros ?].
Create HintDb sockets.
#[local] Hint Resolve looks_ret looks_errno looks_wsa triple_abandon triple_report triple_settled : sockets.

Lemma posix_finish base P fd flags : triple (alone base P fd) (posix_finish_connect fd flags) (settled base P).
Proof. unfold posix_finish_connect. quiet setfl_law. quiet setsockopt_law. apply triple_settled. Qed.
Lemma win32_finish base P fd : triple (alone base P fd) (win32_finish_connect fd) (settled base P).
Proof. unfold win32_finish_connect. quiet fionbio_law. quiet setsockopt_law. apply triple_settled. Qed.
Lemma vx_finish base P fd : triple (alone base P fd) (vxworks_finish_connect fd) (settled base P).
Proof. unfold vxworks_finish_connect. quiet fionbio_law. quiet setsockopt_law. apply triple_settled. Qed.

(** The end of the wait: any test [bad] that covers the two failures. *)
Lemma triple_verdict base fd a ready e (bad : bool) (m1 m2 : st W (Z + string)) :
  (bad = false -> (0 < ready)%Z /\ e = 0%Z) ->
  triple (alone base some_descr fd) m1 (settled base (eq (Connected a))) ->
  triple (alone base (eq (Connected a)) fd) m2 (settled base (eq (Connected a))) ->
  triple (alone base (fun d => settles a ready d /\ (e = 0%Z -> d <> Refused)) fd) (if bad then m1 else m2)
    (settled base (eq (Connected a))).
Proof.
  intros Hb T1 T2. destruct bad.
  - eapply triple_pre; [exact T1|]. intros w. by apply alone_weaken.
  - destruct (Hb eq_refl) as [Hr He]. eapply triple_pre; [exact T2|]. intros w. by apply settles_connected.
Qed.

Lemma posix_connect base host port ms a :
  fill_addr host port = inl a -> triple (table base) (posix_tcp_connect host port ms) (settled base (eq (Connected a))).
Proof.
  intros Hf. unfold posix_tcp_connect. rewrite Hf. eapply triple_bind; [apply triple_socket|]. intros fd.
  apply triple_opened; [by intros ->|intros; by apply Z.ltb_ge|auto with sockets|]. quiet getfl_law. quiet setfl_law.
  apply (triple_attempt base fd a (fun e => negb (e =? EINPROGRESS)%Z)); [|auto with sockets| |apply posix_finish].
  { intros e He _. by apply negb_true_iff, Z.eqb_neq. }
  eapply triple_bind; [apply triple_poll_write|]. intros r. eapply triple_bind; [apply triple_so_error|]. intros e.
  apply triple_verdict; [|auto with sockets|apply posix_finish].
  intros [H1%Z.leb_gt H2%negb_false_iff%Z.eqb_eq]%orb_false_iff. done.
Qed.

Lemma wsa_quiet base : preserves (table base) ensure_wsa.
Proof.
  unfold ensure_wsa. eapply triple_bind; [apply looks_gets|]. intros [|]; [apply triple_skip|].
  apply table_quiet. intros. apply wsa_startup_law.
Qed.

Lemma win32_connect base host port ms a :
  fill_addr host port = inl a -> triple (table base) (win32_tcp_connect host port ms) (settled base (eq (Connected a))).
Proof.
  intros Hf. unfold win32_tcp_connect. eapply triple_bind; [apply wsa_quiet|]. intros ?. rewrite Hf.
  eapply triple_bind; [apply triple_socket|]. intros fd.
  apply triple_opened; [by intros ->|intros; apply Z.eqb_neq; lia|auto with sockets|]. quiet fionbio_law.
  apply (triple_attempt base fd a (fun e => negb (e =? EWOULDBLOCK)%Z)); [|auto with sockets| |apply win32_finish].
  { intros e _ He. by apply negb_true_iff, Z.eqb_neq. }
  eapply triple_bind; [apply triple_poll_write|]. intros r. eapply triple_bind; [apply triple_so_error|]. intros e.
  apply triple_verdict; [|destruct (r.1 <=? 0)%Z; auto with sockets|apply win32_finish].
  intros [[H1%Z.leb_gt H2%negb_false_iff%Z.eqb_eq]%orb_false_iff _]%orb_false_iff. done.
Qed.

Lemma vx_connect base host port ms a :
  fill_addr host port = inl a -> triple (table base) (vxworks_tcp_connect host port ms) (settled base (eq (Connected a))).
Proof.
  intros Hf. unfold vxworks_tcp_connect. rewrite Hf. eapply triple_bind; [apply triple_socket|]. intros fd.
  apply triple_opened; [by intros ->|intros; by apply Z.ltb_ge|auto with sockets|].
  eapply triple_bind; [apply alone_quiet; intros; apply fionbio_law|]. intros ok.
  destruct (negb (ok =? 0)%Z); [auto with sockets|].
  apply (triple_attempt base fd a (fun e => negb (e =? EINPROGRESS)%Z && negb (e =? EWOULDBLOCK)%Z));
    [|auto with sockets| |apply vx_finish].
  { intros e H1 H2. apply andb_true_iff. by rewrite !negb_true_iff, !Z.eqb_neq. }
  eapply triple_bind; [apply triple_select_write|]. intros ready. eapply triple_bind; [apply triple_so_error|]. intros e.
  apply triple_verdict; [|auto with sockets|apply vx_finish].
  intros [H1%Z.leb_gt H2%negb_false_iff%Z.eqb_eq]%orb_false_iff. done.
Qed.

Lemma fill_addr_addr host port a : fill_addr host port = inl a -> sin_port a = htons port.
Proof. unfold fill_addr. destruct (inet_pton _); [by intros [= <-]|done]. Qed.

Lemma connect_settled b base host port ms a :
  fill_addr host port = inl a -> triple (table base) (tcp_connect b host port ms) (settled base (eq (Connected a))).
Proof. destruct b; [apply posix_connect|apply win32_connect|apply vx_connect]. Qed.

Lemma posix_listen base host port a :
  fill_addr host port = inl a -> triple (table base) (posix_tcp_listen host port) (settled base (listening_at a)).
Proof.
  intros Hf. unfold posix_tcp_listen. rewrite Hf. eapply triple_bind; [apply triple_socket|]. intros fd.
  apply triple_opened; [by intros ->|intros; by apply Z.ltb_ge|auto with sockets|]. quiet setsockopt_law.
  eapply triple_bind; [apply triple_bind_listen|]. intros [|]; auto with sockets.
Qed.

Lemma win32_listen base host port a :
  fill_addr host port = inl a -> triple (table base) (win32_tcp_listen host port) (settled base (listening_at a)).
Proof.
  intros Hf. unfold win32_tcp_listen. eapply triple_bind; [apply wsa_quiet|]. intros ?. rewrite Hf.
  eapply triple_bind; [apply triple_socket|]. intros fd.
  apply triple_opened; [by intros ->|intros; apply Z.eqb_neq; lia|auto with sockets|]. quiet setsockopt_law.
  eapply triple_bind; [apply triple_bind_listen|]. intros [|]; auto with sockets.
Qed.

Lemma listen_settled b base host port a :
  fill_addr host port = inl a -> triple (table base) (tcp_listen b host port) (settled base (listening_at a)).
Proof. destruct b; [apply posix_listen|apply win32_listen|apply posix_listen]. Qed.

#[local] Hint Unfold bind_listen abandon so_error last_error posix_finish_connect ensure_wsa wsa_error
  win32_finish_connect vxworks_finish_connect : returns.
#[local] Hint Extern 1 (returns skip) => exact (returns_ret tt) : returns.

Lemma tcp_returns b host port ms : returns (tcp_listen b host port) /\ returns (tcp_connect b host port ms).
Proof.
  destruct b; cbn [tcp_listen tcp_connect]; unfold vxworks_tcp_listen, posix_tcp_listen, posix_tcp_connect, win32_tcp_listen,
    win32_tcp_connect, vxworks_tcp_connect; split; autounfold with returns; auto 30 with returns.
Qed.
End pal.

Section contract.
Context {W : Type} {KW : Kernel W} {KL : KernelLaws W}.

(** C22: on every backend, whatever the calls of the kernel answer, [tcp_listen]
    and [tcp_connect] return: either an error, and then the process has exactly
    the descriptors it had, or one new descriptor, which listens at the address
    that was asked for, with the port [tcp_local_port] reports, or is connected
    to it; never a socket whose connection was refused or is still under way. *)
Theorem tcp_sockets_spec b host port ms a (w : W) :
  fill_addr host port = inl a ->
  (exists w' r, tcp_listen b host port w = (w', Val r) /\
     settled (fds w) (listening_at a) r w' /\
     (forall fd, r = inl fd -> in_u 16 port -> port <> 0%Z -> exists w'', tcp_local_port fd w' = (w'', Val port))) /\
  (exists w' r, tcp_connect b host port ms w = (w', Val r) /\ settled (fds w) (eq (Connected a)) r w').
Proof.
  intros Hf. destruct (tcp_returns b host port ms) as [Hl Hc]. split.
  - destruct (triple_returns _ _ _ w (listen_settled b (fds w) host port a Hf) Hl eq_refl) as (w' & r & Hw & Hs).
    exists w', r. split; [done|]. split; [done|]. intros fd -> Hp Hnz. destruct Hs as (_ & _ & d & (p & -> & Hpp) & Hfds).
    rewrite (fill_addr_addr _ _ _ Hf) in Hpp. rewrite Hpp in Hfds by (intros H; by apply Hnz, htons_0).
    unfold tcp_local_port, call. run.
    pose proof (getsockname_value fd (mkSockaddr (sin_addr a) (htons port)) w') as Hn.
    destruct (sys_getsockname fd w') as [w'' name]. exists w''. cbn in Hn. rewrite Hn by (rewrite Hfds; apply lookup_insert_eq).
    cbn. by rewrite ntohs_htons.
  - destruct (triple_returns _ _ _ w (connect_settled b (fds w) host port ms a Hf) Hc eq_refl) as (w' & r & Hw & Hs).
    by exists w', r.
Qed.

(** A host that is no address opens nothing. *)
Lemma tcp_bad_host b host port ms e (w : W) :
  fill_addr host port = inr e ->
  exists w1 w2, tcp_listen b host port w = (w1, Val (inr e)) /\ tcp_connect b host port ms w = (w2, Val (inr e)) /\
    fds w1 = fds w /\ fds w2 = fds w.
Proof.
  intros Hf. destruct b; cbn [tcp_listen tcp_connect]; unfold vxworks_tcp_listen, posix_tcp_listen, posix_tcp_connect, vxworks_tcp_connect,
    win32_tcp_listen, win32_tcp_connect, ensure_wsa, call; run; rewrite Hf; [by exists w, w| |by exists w, w].
  destruct (wsa_started w); [by exists w, w|]. pose proof (wsa_startup_law w) as H.
  destruct (sys_wsa_startup w) as [w' []]. by exists w', w'.
Qed.
End contract.

(** ** Concrete sockets *)
Module SocketsDemo.
Definition kernel (script : list nat) : SimKernel := mkSimKernel {[0%Z := PipeRead; 1%Z := PipeWrite]} script 0.

(** [listen] fails after [socket] and [bind]: the socket is closed. *)
Lemma tcp_sockets_spec_witness :
  exists w' r, tcp_listen POSIX "localhost" 8080 (kernel [0; 0; 1]) = (w', Val r) /\
    settled (sk_fds (kernel [])) (listening_at (mkSockaddr 16777343 (htons 8080))) r w' /\
    (forall fd, r = inl fd -> in_u 16 8080 -> 8080%Z <> 0%Z -> exists w'', tcp_local_port fd w' = (w'', Val 8080%Z)).
Proof. exact (proj1 (tcp_sockets_spec POSIX "localhost" 8080 1000 _ (kernel [0; 0; 1]) eq_refl)). Defined.

(** A connection that is refused while it is under way leaves nothing open. *)
Example refused :
  tcp_connect POSIX "localhost" 80 1000 (kernel [0; 2; 2]) = (mkSimKernel (sk_fds (kernel [])) [] 115, Val (inr "error 111")).
Proof. vm_compute. reflexivity. Qed.

(** On Windows the text is not that of the socket's error: the last error
    is still that the attempt is under way. *)
Example refused_win32 :
  (tcp_connect WIN32 "localhost" 80 1000 (mkSimKernel ∅ [0; 0; 3; 2] 0)).2 = Val (inr "winsock error 11").
Proof. vm_compute. reflexivity. Qed.
End SocketsDemo.
