(* ===== verification/Wake.v ===== *)
(** * Wake-up events

    [WakeEvent] and [poll_readable] of the platform layer in their three
    backends: src/platform/posix/io.cpp, win32/io.cpp and vxworks/io.cpp.  An
    event is a pipe, or a pair of sockets connected over the loopback. *)

From S2P Require Import Prelude Core State Descriptors Platform Sockets.

Record WakeEvent : Type := mkWakeEvent { we_read : Z; we_write : Z }.   (** [fds_] *)

Definition no_event : WakeEvent := mkWakeEvent (-1) (-1).
Definition valid (e : WakeEvent) : bool := (0 <=? we_read e)%Z.

(** [signal]: the bytes the kernel took, and the calls not made. *)
Definition signal (e : WakeEvent) (calls : list write_call) : string * list write_call :=
  if (0 <=? we_write e)%Z
  then let '(_, out, calls) := write_all calls (String Ascii.zero EmptyString) in (out, calls)
  else (EmptyString, calls).

Section events.
Context {W : Type} {KW : Kernel W}.

Definition event_of (fds : option (Z * Z)) : WakeEvent :=
  match fds with Some (r, s) => mkWakeEvent r s | None => no_event end.

(** The destructor closes both ends. *)
Definition close_end (fd : Z) : st W unit := if (0 <=? fd)%Z then call (sys_close fd) else skip.
Definition wake_event_destroy (e : WakeEvent) : st W unit := _ ← close_end (we_read e); close_end (we_write e).
End events.

(** ** POSIX: a pipe *)
Section posixwake.
Context {W : Type} {KW : Kernel W}.

Definition posix_wake_event : st W WakeEvent := fds ← call sys_pipe; mret (event_of fds).
End posixwake.

(** ** VxWorks: two sockets *)
Section vxwake.
Context {W : Type} {KW : Kernel W}.

(** The listener on an ephemeral port, and the address it got. *)
Definition listen_loopback (listener : Z) : st W (option sockaddr) :=
  failed ← bind_listen listener (mkSockaddr INADDR_LOOPBACK 0) 1;
  if (failed : bool) then mret None else call (sys_getsockname listener).

(** The pair is the polled side and the signalled side. *)
Definition make_loopback_pair : st W (option (Z * Z)) :=
  listener ← call sys_socket;
  if (listener <? 0)%Z then mret None
  else
    addr ← listen_loopback listener;
    match addr with
    | None => _ ← call (sys_close listener); mret None
    | Some addr =>
        connector ← call sys_socket;
        failed ← (if (connector <? 0)%Z then mret true else rc ← call (sys_connect connector addr); mret (negb (rc =? 0)%Z));
        if (failed : bool) then
          _ ← close_end connector;
          _ ← call (sys_close listener);
          mret None
        else
          accepted ← call (sys_accept listener);
          _ ← call (sys_close listener);
          if (accepted <? 0)%Z then _ ← call (sys_close connector); mret None
          else mret (Some (accepted, connector))
    end.

Definition vxworks_wake_event : st W WakeEvent := fds ← make_loopback_pair; mret (event_of fds).

End vxwake.

(** ** Windows: two sockets *)
Section win32wake.
Context {W : Type} {KW : Kernel W}.

Definition close_socket (fd : Z) : st W unit := if (fd =? -1)%Z then skip else call (sys_close fd).

(** [a] is the signalled side, [b] the polled one. *)
Definition make_socket_pair : st W (option (Z * Z)) :=
  listener ← call sys_socket;
  if (listener =? -1)%Z then mret None
  else
    addr ← listen_loopback listener;
    match addr with
    | None => _ ← call (sys_close listener); mret None
    | Some addr =>
        a ← call sys_socket;
        failed ← (if (a =? -1)%Z then mret true else rc ← call (sys_connect a addr); mret (negb (rc =? 0)%Z));
        if (failed : bool) then
          _ ← call (sys_close listener);
          _ ← close_socket a;
          mret None
        else
          b ← call (sys_accept listener);
          _ ← call (sys_close listener);
          if (b =? -1)%Z then _ ← call (sys_close a); mret None
          else mret (Some (b, a))
    end.

Definition win32_wake_event : st W WakeEvent := _ ← ensure_wsa; fds ← make_socket_pair; mret (event_of fds).
End win32wake.

(** ** Ownership of the two ends *)

Section ownership.
Context {W : Type} {KW : Kernel W} {KL : KernelLaws W}.

(** Two descriptors were opened, or none. *)
Definition pair_of (base : gmap Z descr) (r : option (Z * Z)) (w : W) : Prop :=
  match r with
  | None => table base w
  | Some (a, b) =>
      (0 <= a)%Z /\ (0 <= b)%Z /\ a <> b /\ base !! a = None /\ base !! b = None /\
      exists d1 d2, fds w = <[a := d1]> (<[b := d2]> base)
  end.

Lemma triple_alone_table {A} base (P : descr -> Prop) fd (m : st W A) Q :
  (forall d, (0 <= fd)%Z -> base !! fd = None -> triple (table (<[fd := d]> base)) m Q) ->
  triple (alone base P fd) m Q.
Proof. intros H w w' a (d & _ & Hfd & Hn & Hw)%alone_table. by apply (H d Hfd Hn). Qed.

Lemma triple_close_fd base fd : triple (table base) (call (sys_close fd)) (fun _ => table (delete fd base)).
Proof. apply triple_call. intros w Hw. unfold table in *. by rewrite close_law, Hw. Qed.

(** Closing the last descriptor that was opened. *)
Lemma triple_close_last base fd d :
  base !! fd = None -> triple (table (<[fd := d]> base)) (call (sys_close fd)) (fun _ => table base).
Proof. intros Hn. pose proof (triple_close_fd (<[fd := d]> base) fd) as H. by rewrite delete_insert_id in H. Qed.

Lemma triple_listen_loopback base l :
  triple (alone base (eq Unbound) l) (listen_loopback l) (fun _ => alone base (fun _ => True) l).
Proof.
  unfold listen_loopback. eapply triple_bind; [apply triple_bind_listen|]. intros [|].
  - apply preserves_ret.
  - eapply triple_pre; [apply alone_quiet; intros; apply getsockname_law|]. intros w. by apply alone_weaken.
Qed.

(** The table while the listener [l] and the connector [c] are open. *)
Lemma triple_accept_pair base l d1 c d2 (bad : Z -> bool) :
  (forall fd, fd = (-1)%Z -> bad fd = true) -> (forall fd, (0 <= fd)%Z -> bad fd = false) ->
  base !! l = None -> (0 <= c)%Z -> base !! c = None -> c <> l ->
  triple (table (<[c := d2]> (<[l := d1]> base)))
    (accepted ← call (sys_accept l); _ ← call (sys_close l);
     if bad accepted then _ ← call (sys_close c); mret None else mret (Some (accepted, c)))
    (pair_of base).
Proof.
  intros Hbad Hgood Hl Hc Hcb Hcl. eapply triple_bind; [apply triple_accept|]. intros a w w' r [[Ha Hw]|Hw] E.
  - revert w w' r Hw E. eapply triple_bind; [apply triple_close_fd|]. intros ?. rewrite Hbad by done.
    rewrite delete_insert_ne, delete_insert_id by done.
    eapply triple_bind; [by apply triple_close_last|]. intros ? w w' r Hw [= <- <-]. exact Hw.
  - destruct Hw as (Hpos & [[Hab Hla]%lookup_insert_None Hca]%lookup_insert_None & d & <- & Hw). revert w w' r Hw E.
    change (triple (table (<[a := Accepted]> (<[c := d2]> (<[l := d1]> base))))
      (_ ← call (sys_close l); if bad a then _ ← call (sys_close c); mret None else mret (Some (a, c))) (pair_of base)).
    eapply triple_bind; [apply triple_close_fd|]. intros ?. rewrite Hgood by done. intros w w' r Hw [= <- <-].
    unfold table in Hw. rewrite delete_insert_ne, delete_insert_ne, delete_insert_id in Hw by done.
    do 5 (split; [done|]). by exists Accepted, d2.
Qed.

#[local] Abbreviation some_descr := (fun _ : descr => True).

Lemma opened_weaken base (P : descr -> Prop) fd w : opened base P fd w -> opened base some_descr fd w.
Proof. intros [?|?]; [by left|right]. by eapply alone_weaken. Qed.

(** The connecting side; [none] tells that there is no socket. *)
Lemma triple_connector base c addr (none : bool) :
  (c = (-1)%Z -> none = true) -> ((0 <= c)%Z -> none = false) ->
  triple (opened base (eq Unbound) c)
    (if none then mret true else rc ← call (sys_connect c addr); mret (negb (rc =? 0)%Z))
    (fun failed => if (failed : bool) then opened base some_descr c else alone base some_descr c).
Proof.
  intros H1 H2 w w' r [[Hc Hw]|Hw] E.
  - rewrite (H1 Hc) in E. injection E as <- <-. by left.
  - rewrite (H2 (proj1 Hw)) in E. revert w w' r Hw E. eapply triple_bind; [apply triple_connect|].
    intros rc w w' r Hw [= <- <-]. apply (alone_weaken _ _ some_descr) in Hw; [|done].
    destruct (negb _); [by right|done].
Qed.

Lemma triple_close_opened base P c (close : st W unit) :
  (c = (-1)%Z -> close = skip) -> ((0 <= c)%Z -> close = call (sys_close c)) ->
  triple (opened base P c) close (fun _ => table base).
Proof.
  intros H1 H2 w w' r [[Hc Hw]|Hw] E.
  - rewrite (H1 Hc) in E. by injection E as <- <-.
  - rewrite (H2 (proj1 Hw)) in E. by eapply triple_close.
Qed.

Lemma triple_none base : triple (table base) (mret None) (pair_of base).
Proof. intros w w' r Hw [= <- <-]. exact Hw. Qed.

Lemma vx_pair base : triple (table base) make_loopback_pair (pair_of base).
Proof.
  unfold make_loopback_pair. eapply triple_bind; [apply triple_socket|]. intros l.
  apply triple_opened; [by intros ->|intros; by apply Z.ltb_ge|apply triple_none|].
  eapply triple_bind; [apply triple_listen_loopback|]. intros [addr|].
  2:{ eapply triple_bind; [apply triple_close|]. intros ?. apply triple_none. }
  apply triple_alone_table. intros d Hl0 Hl. eapply triple_bind; [apply triple_socket|]. intros c.
  eapply triple_bind; [apply triple_connector; [by intros ->|intros; by apply Z.ltb_ge]|]. intros [|].
  - eapply triple_bind; [apply triple_close_opened; [by intros ->|]|].
    { intros Hc. unfold close_end. by rewrite (proj2 (Z.leb_le 0 c)). }
    intros ?. eapply triple_bind; [by apply triple_close_last|]. intros ?. apply triple_none.
  - apply triple_alone_table. intros d2 Hc0 [Hcb Hcl]%lookup_insert_None.
    apply (triple_accept_pair base l d c d2 (fun fd => (fd <? 0)%Z)); try done; [by intros ? ->|intros; by apply Z.ltb_ge].
Qed.

Lemma win32_pair base : triple (table base) make_socket_pair (pair_of base).
Proof.
  unfold make_socket_pair. eapply triple_bind; [apply triple_socket|]. intros l.
  apply triple_opened; [by intros ->|intros; apply Z.eqb_neq; lia|apply triple_none|].
  eapply triple_bind; [apply triple_listen_loopback|]. intros [addr|].
  2:{ eapply triple_bind; [apply triple_close|]. intros ?. apply triple_none. }
  apply triple_alone_table. intros d Hl0 Hl. eapply triple_bind; [apply triple_socket|]. intros a.
  eapply triple_bind; [apply triple_connector; [by intros ->|intros; apply Z.eqb_neq; lia]|]. intros [|].
  - intros w w' r [[Ha Hw]|Hw] E.
    + subst a. revert w w' r Hw E. cbn. eapply triple_bind; [by apply triple_close_last|]. intros ?.
      eapply triple_bind; [apply triple_skip|]. intros ?. apply triple_none.
    + revert w w' r Hw E. change (triple (alone (<[l := d]> base) some_descr a)
        (_ ← call (sys_close l); _ ← close_socket a; mret None) (pair_of base)).
      apply triple_alone_table. intros d2 Ha0 [Hab Hal]%lookup_insert_None.
      eapply triple_bind; [apply triple_close_fd|]. intros ?. rewrite delete_insert_ne, delete_insert_id by done.
      unfold close_socket. rewrite (proj2 (Z.eqb_neq a (-1))) by lia.
      eapply triple_bind; [by apply triple_close_last|]. intros ?. apply triple_none.
  - apply triple_alone_table. intros d2 Hc0 [Hcb Hcl]%lookup_insert_None.
    apply (triple_accept_pair base l d a d2 (fun fd => (fd =? -1)%Z)); try done; [by intros ? ->|intros; apply Z.eqb_neq; lia].
Qed.
End ownership.

Section contract.
Context {W : Type} {KW : Kernel W}.

Definition wake_event (b : backend) : st W WakeEvent :=
  match b with POSIX => posix_wake_event | WIN32 => win32_wake_event | VXWORKS => vxworks_wake_event end.

Context {KL : KernelLaws W}.

Lemma pipe_pair base : triple (table base) (call sys_pipe) (pair_of base).
Proof.
  apply triple_call. intros w Hw. pose proof (pipe_law w) as H. destruct (sys_pipe w) as [w' [[r s]|]]; unfold table in Hw; subst base; cbn; [|exact H].
  destruct H as (? & ? & ? & ? & ? & ->). split; [done|]. split; [done|]. split; [done|]. split; [done|]. split; [done|].
  exists PipeRead, PipeWrite. by rewrite insert_insert_ne.
Qed.

Lemma event_pair b base :
  triple (table base) (wake_event b) (fun e w => exists r, e = event_of r /\ pair_of base r w).
Proof.
  assert (forall m, triple (table base) m (pair_of base) ->
            triple (table base) (fds ← m; mret (event_of fds)) (fun e w => exists r, e = event_of r /\ pair_of base r w)) as H.
  { intros m Hm. eapply triple_bind; [exact Hm|]. intros r w w' e Hw [= <- <-]. by exists r. }
  destruct b; [apply H, pipe_pair| |apply H, vx_pair].
  eapply triple_bind; [apply wsa_quiet|]. intros ?. apply H, win32_pair.
Qed.

#[local] Hint Unfold listen_loopback bind_listen close_end close_socket ensure_wsa : returns.
#[local] Hint Extern 1 (returns skip) => exact (returns_ret tt) : returns.

Lemma wake_event_returns b : returns (wake_event b).
Proof.
  destruct b; cbn [wake_event]; unfold posix_wake_event, win32_wake_event, vxworks_wake_event,
    make_socket_pair, make_loopback_pair; autounfold with returns; auto 40 with returns.
Qed.

Lemma destroy_pair base r :
  triple (pair_of base r) (wake_event_destroy (event_of r)) (fun _ => table base).
Proof.
  destruct r as [[a b]|]; [|by intros w w' u Hw [= <- <-]].
  intros w w' u (Ha & Hb & Hab & Hna & Hnb & d1 & d2 & Hw) E. revert w w' u Hw E.
  change (triple (table (<[a := d1]> (<[b := d2]> base))) (wake_event_destroy (mkWakeEvent a b)) (fun _ => table base)).
  unfold wake_event_destroy, close_end. cbn [we_read we_write]. rewrite (proj2 (Z.leb_le 0 a) Ha), (proj2 (Z.leb_le 0 b) Hb).
  eapply triple_bind; [apply triple_close_last|intros ?; by apply triple_close_last].
  by rewrite lookup_insert_ne by congruence.
Qed.

(** On every backend, whatever the calls of the kernel answer, creating a
    wake-up event returns; it is valid exactly when two new descriptors were
    opened, and otherwise nothing was; and destroying it leaves the process
    with the descriptors it had before. *)
Theorem wake_event_owned b (w : W) :
  exists w1 e w2, wake_event b w = (w1, Val e) /\ wake_event_destroy e w1 = (w2, Val tt) /\ fds w2 = fds w /\
    (if valid e
     then we_read e <> we_write e /\ fds w !! we_read e = None /\ fds w !! we_write e = None /\
          exists d1 d2, fds w1 = <[we_read e := d1]> (<[we_write e := d2]> (fds w))
     else e = no_event /\ fds w1 = fds w).
Proof.
  destruct (triple_returns _ _ _ w (event_pair b (fds w)) (wake_event_returns b) eq_refl) as (w1 & e & Hw & r & -> & Hp).
  assert (returns (wake_event_destroy (event_of r))) as Hr.
  { unfold wake_event_destroy. autounfold with returns. auto 20 with returns. }
  destruct (triple_returns _ _ _ w1 (destroy_pair (fds w) r) Hr Hp) as (w2 & [] & Hd & Ht).
  exists w1, (event_of r), w2. split; [done|]. split; [done|]. split; [exact Ht|].
  destruct r as [[a b']|]; [|done]. destruct Hp as (Ha & Hb & Hab & Hna & Hnb & Hd12).
  unfold valid. cbn [event_of we_read we_write]. by rewrite (proj2 (Z.leb_le 0 a) Ha).
Qed.
End contract.

(** The second [socket] fails: the listener is closed again. *)
Lemma wake_event_owned_witness :
  exists w1 e w2, wake_event VXWORKS (SocketsDemo.kernel [0; 0; 0; 1]) = (w1, Val e) /\
    wake_event_destroy e w1 = (w2, Val tt) /\ sk_fds w2 = sk_fds (SocketsDemo.kernel []) /\ valid e = false.
Proof.
  destruct (wake_event_owned VXWORKS (SocketsDemo.kernel [0; 0; 0; 1])) as (w1 & e & w2 & H1 & H2 & H3 & _).
  exists w1, e, w2. split; [exact H1|]. split; [exact H2|]. split; [exact H3|].
  vm_compute in H1. injection H1 as <- <-. reflexivity.
Defined.
