(* ===== verification/PlatformIo.v ===== *)
(** * Descriptor I/O on Windows and VxWorks

    src/platform/win32/io.cpp and vxworks/io.cpp.  A Windows descriptor is a
    socket, or one of the C runtime's, whose lengths are 32 bits wide and whose
    readiness is found by looking every so often. *)

From S2P Require Import Prelude Core Lines Platform Wake.

(** ** VxWorks

    [read_some] and [write_all] are those of POSIX; waiting is [select]. *)
Definition vxworks_read_some : list read_call -> option read_result * list read_call := Platform.read_some.
Definition vxworks_write_all : list write_call -> string -> option bool * string * list write_call := Platform.write_all.

(** [FD_SET] is undefined outside the set. *)
Definition selectable (setsize fd : Z) : bool := (0 <=? fd)%Z && (fd <? setsize)%Z.

(** The wake descriptor is -1 without a valid event. *)
Definition vxworks_poll_readable (setsize fd wake_fd : Z) (calls : list poll_call) : outcome (option readiness) :=
  if selectable setsize fd && ((wake_fd <? 0)%Z || selectable setsize wake_fd)
  then Val (Platform.poll_readable (0 <=? wake_fd)%Z calls) else Undefined.

(** The [timeval] of a wait. *)
Definition timeval (timeout_ms : Z) : option (Z * Z) :=
  if (0 <=? timeout_ms)%Z then Some (Z.quot timeout_ms 1000, Z.rem timeout_ms 1000 * 1000)%Z else None.

Lemma timeval_exact timeout_ms sec usec :
  timeval timeout_ms = Some (sec, usec) ->
  (0 <= sec)%Z /\ (0 <= usec < 1000000)%Z /\ (sec * 1000000 + usec = timeout_ms * 1000)%Z.
Proof.
  unfold timeval. destruct (Z.leb_spec 0 timeout_ms) as [Hp|]; [|done]. intros [= <- <-].
  pose proof (Z.quot_rem' timeout_ms 1000). pose proof (Z.rem_bound_pos timeout_ms 1000 Hp ltac:(lia)). lia.
Qed.

(** ** Windows *)

(** What [recv] and [_read] do. *)
Inductive recv_call := RecvBytes (chunk : string) | RecvError (code : Z).

Definition WSAECONNRESET : Z := 10054.
Definition WSAESHUTDOWN : Z := 10058.

Definition win32_read_some (socket : bool) (c : recv_call) : read_result :=
  match c with
  | RecvBytes chunk => if String.eqb chunk EmptyString then ReadEof else ReadData chunk
  | RecvError code => if socket && ((code =? WSAECONNRESET)%Z || (code =? WSAESHUTDOWN)%Z) then ReadEof else ReadError
  end.

(** [send] takes an [int], [_write] an [unsigned]. *)
Definition narrow (socket : bool) (n : Z) : Z := if socket then wrap_s 32 n else wrap_u 32 n.

(** [left] is [size - written]; a call gets the length it is asked to write and
    answers with a count, or fails. *)
Fixpoint win32_write_all (socket : bool) (calls : list (Z -> option Z)) (left : Z) : option bool * Z :=
  if (0 <? left)%Z then
    match calls with
    | [] => (None, left)
    | c :: calls =>
        match c (narrow socket left) with
        | None => (Some false, left)
        | Some n => win32_write_all socket calls (left - n)
        end
    end
  else (Some true, left).

(** A call that takes no more than it is asked to. *)
Definition honest (c : Z -> option Z) : Prop := forall len n, (0 <= len)%Z -> c len = Some n -> (0 <= n <= len)%Z.

(** A call that takes something, when asked for something. *)
Definition takes (c : Z -> option Z) : Prop := forall len, (0 < len)%Z -> exists n, c len = Some n /\ (0 < n <= len)%Z.

(** Below 2 GiB every write ends with everything written. *)
Lemma win32_write_all_done socket calls left :
  (0 <= left < modulus 31)%Z -> Forall takes calls -> (left <= Z.of_nat (length calls))%Z ->
  win32_write_all socket calls left = (Some true, 0%Z).
Proof.
  intros Hl Hc. revert left Hl. induction Hc as [|c calls Hc _ IH]; intros left Hl Hn; cbn [win32_write_all];
    destruct (Z.ltb_spec 0 left) as [Hpos|]; cbn [length] in Hn.
  - lia.
  - f_equal. lia.
  - assert (narrow socket left = left) as ->.
    { assert (modulus 31 < modulus 32)%Z by (vm_compute; reflexivity).
      destruct socket; [apply wrap_s_id; [done|]|apply wrap_u_id]; unfold in_s, in_u; change (modulus (32 - 1)) with (modulus 31); lia. }
    destruct (Hc left Hpos) as (n & -> & Hnn). apply IH; lia.
  - f_equal. lia.
Qed.

(** A multiple of 4 GiB is written to a pipe as nothing, over and over. *)
Lemma win32_write_all_stuck calls k :
  Forall honest calls -> Forall (fun c => forall len, is_Some (c len)) calls -> (0 < k)%Z ->
  win32_write_all false calls (k * modulus 32) = (None, (k * modulus 32)%Z).
Proof.
  intros Hc Hs Hk. assert (0 < k * modulus 32)%Z as Hpos by (pose proof (modulus_pos 32 ltac:(lia)); nia).
  induction Hc as [|c calls Hc _ IH]; cbn [win32_write_all]; rewrite (proj2 (Z.ltb_lt _ _) Hpos); [done|].
  apply Forall_cons in Hs as [Hs1 Hs].
  assert (narrow false (k * modulus 32) = 0%Z) as -> by (unfold narrow, wrap_u; apply Z.mod_mul; by vm_compute).
  destruct (Hs1 0%Z) as [n Hn]. rewrite Hn. assert (n = 0%Z) as -> by (pose proof (Hc 0%Z n ltac:(lia) Hn); lia).
  rewrite Z.sub_0_r. auto.
Qed.

(** *** Waiting

    What one turn of the loop sees: the wake socket, [PeekNamedPipe]'s count or
    failure, or the wait for a console handle, and the clock at the end. *)
Inductive handle_wait := Signalled | WaitTimedOut | WaitFailed.

Record turn := mkTurn { tn_woken : bool; tn_peek : option Z; tn_wait : handle_wait; tn_clock : Z }.

(** [poll_readable] on a socket: one [WSAPoll], which is not repeated. *)
Definition poll_socket (watch_wake : bool) (c : poll_call) : readiness :=
  match c with
  | PollInterrupted | PollFails => PollFailed
  | PollTimeout => Woken
  | PollEvents wake fd => if watch_wake && wake then Woken else if fd then Readable else Woken
  end.

Definition expired (deadline : option Z) (clock : Z) : bool :=
  match deadline with Some d => (d <=? clock)%Z | None => false end.

Fixpoint poll_slices (watch_wake pipe : bool) (deadline : option Z) (turns : list turn) : option readiness :=
  match turns with
  | [] => None
  | t :: turns =>
      let next := if expired deadline (tn_clock t) then Some Woken else poll_slices watch_wake pipe deadline turns in
      if watch_wake && tn_woken t then Some Woken
      else if pipe then
        match tn_peek t with
        | None => Some Readable
        | Some available => if (0 <? available)%Z then Some Readable else next
        end
      else
        match tn_wait t with
        | Signalled => Some Readable
        | WaitFailed => Some PollFailed
        | WaitTimedOut => next
        end
  end.

Definition deadline_of (timeout_ms now : Z) : option Z := if (timeout_ms <? 0)%Z then None else Some (now + timeout_ms)%Z.

Definition kSliceMs : Z := 20.

(** The clock of a turn: a slice at least after the one before. *)
Fixpoint sliced (now : Z) (turns : list turn) : Prop :=
  match turns with
  | [] => True
  | t :: turns => (now <= tn_clock t)%Z /\ sliced (tn_clock t + kSliceMs) turns
  end.

(** A wait with a time-out ends after as many turns as slices fit into it, and
    one more. *)
Lemma poll_slices_returns watch_wake pipe timeout_ms now turns :
  (0 <= timeout_ms)%Z -> sliced now turns -> turns <> [] ->
  (timeout_ms <= kSliceMs * (Z.of_nat (length turns) - 1))%Z ->
  exists r, poll_slices watch_wake pipe (deadline_of timeout_ms now) turns = Some r.
Proof.
  intros Ht Hs Hne Hn. unfold deadline_of. rewrite (proj2 (Z.ltb_ge timeout_ms 0) Ht).
  assert (now + timeout_ms <= now + kSliceMs * (Z.of_nat (length turns) - 1))%Z as Hd by lia.
  set (d := (now + timeout_ms)%Z) in *. clearbody d. clear Ht Hn. revert now Hs Hd.
  induction turns as [|t turns IH]; intros now Hs Hd; [done|]. destruct Hs as [Hc Hs]. cbn [poll_slices].
  assert (exists r, (if expired (Some d) (tn_clock t) then Some Woken else poll_slices watch_wake pipe (Some d) turns) = Some r) as [r Hr].
  { unfold expired. destruct (Z.leb_spec d (tn_clock t)) as [|Hlate]; [by eexists|].
    destruct turns as [|t' turns]; [cbn in Hd; unfold kSliceMs in *; lia|].
    apply (IH ltac:(done) (tn_clock t + kSliceMs)%Z Hs). cbn [length] in Hd |- *. unfold kSliceMs in *. lia. }
  rewrite Hr. destruct (watch_wake && tn_woken t); [by eexists|]. destruct pipe.
  - destruct (tn_peek t) as [n|]; [|by eexists]. destruct (0 <? n)%Z; by eexists.
  - destruct (tn_wait t); by eexists.
Qed.

(** A wake-up ends the wait in the turn that sees it, whatever there is to read. *)
Lemma poll_slices_woken pipe deadline t turns :
  tn_woken t = true -> poll_slices true pipe deadline (t :: turns) = Some Woken.
Proof. intros Hw. cbn [poll_slices]. by rewrite Hw. Qed.
