(* ===== verification/Processes.v ===== *)
(** * Child processes

    [spawn] of src/platform/posix/process.cpp, with the descriptors it opens,
    and the environment block and the waits of src/platform/win32/process.cpp.
    What the child of a [fork] does is in Platform.v. *)

From S2P Require Import Prelude Core State Lines Descriptors Platform Sockets Wake.

(** ** POSIX *)

Section posix.
Context {W : Type} {KW : Kernel W}.

Definition pipe_ends : Type := Z * Z.   (** read, write *)

(** [pipe(in_pipe) != 0 || pipe(out_pipe) != 0 || pipe(err_pipe) != 0]: what was
    opened before a failure stays open. *)
Definition make_pipes : st W (option (pipe_ends * pipe_ends * pipe_ends)) :=
  in_pipe ← call sys_pipe;
  match in_pipe with
  | None => mret None
  | Some i =>
      out_pipe ← call sys_pipe;
      match out_pipe with
      | None => mret None
      | Some o => err_pipe ← call sys_pipe; mret (match err_pipe with Some e => Some (i, o, e) | None => None end)
      end
  end.

Definition close_all (l : list Z) : st W unit := for_each (fun fd => call (sys_close fd)) l.

Definition spawn : st W (Process + string) :=
  pipes ← make_pipes;
  match pipes with
  | None => mret (inr "failed to create pipes")
  | Some (i, o, e) =>
      p ← call sys_fork;
      if (p <? 0)%Z then
        error ← last_error;
        _ ← close_all [i.1; i.2; o.1; o.2; e.1; e.2];
        mret (inr error)
      else
        _ ← call (sys_close i.1); _ ← call (sys_close o.2); _ ← call (sys_close e.2);
        mret (inl (mkProcess p i.2 o.1 e.1))
  end.

Context {KL : KernelLaws W}.

Definition add_pipe (p : pipe_ends) (m : gmap Z descr) : gmap Z descr := <[p.2 := PipeWrite]> (<[p.1 := PipeRead]> m).
Definition new_pipe (p : pipe_ends) (m : gmap Z descr) : Prop := p.1 <> p.2 /\ m !! p.1 = None /\ m !! p.2 = None.

Lemma triple_pipe base :
  triple (table base) (call sys_pipe)
    (fun r => match r with Some p => fun w => new_pipe p base /\ table (add_pipe p base) w | None => table base end).
Proof.
  apply triple_call. intros w Hw. pose proof (pipe_law w) as H. destruct (sys_pipe w) as [w' [[r s]|]]; unfold table in *; subst base; cbn; [|exact H].
  by destruct H as (_ & _ & ? & ? & ? & ?).
Qed.

(** Three pipes, or at most two that nobody will close. *)
Lemma triple_make_pipes base :
  triple (table base) make_pipes
    (fun r w => match r with
                | Some (i, o, e) =>
                    new_pipe i base /\ new_pipe o (add_pipe i base) /\ new_pipe e (add_pipe o (add_pipe i base)) /\
                    table (add_pipe e (add_pipe o (add_pipe i base))) w
                | None => exists left_, length left_ <= 2 /\ table (foldr add_pipe base left_) w
                end).
Proof.
  unfold make_pipes. eapply triple_bind; [apply triple_pipe|]. intros [i|].
  2:{ intros w w' r Hw [= <- <-]. exists []. split; [cbn; lia|done]. }
  intros w w' r [Hi Hw]. revert w w' r Hw. eapply triple_bind; [apply triple_pipe|]. intros [o|].
  2:{ intros w w' r Hw [= <- <-]. exists [i]. split; [cbn; lia|done]. }
  intros w w' r [Ho Hw]. revert w w' r Hw. eapply triple_bind; [apply triple_pipe|]. intros [e|].
  - intros w w' r [He Hw] [= <- <-]. done.
  - intros w w' r Hw [= <- <-]. exists [o; i]. split; [cbn; lia|done].
Qed.

Lemma triple_close_all base l : triple (table base) (close_all l) (fun _ => table (foldl (fun m fd => delete fd m) base l)).
Proof.
  revert base. induction l as [|fd l IH]; intros base; [apply triple_skip|].
  unfold close_all. cbn [for_each foldl]. eapply triple_bind; [apply triple_close_fd|]. intros ?. apply IH.
Qed.

#[local] Ltac solve_table :=
  apply map_eq; intros k; rewrite !lookup_delete, !lookup_insert;
  repeat case_decide; subst; try done; congruence.

Lemma spawn_triple base :
  triple (table base) spawn
    (fun r w => match r with
                | inl p =>
                    NoDup [stdin_fd p; stdout_fd p; stderr_fd p] /\
                    Forall (fun fd => base !! fd = None) [stdin_fd p; stdout_fd p; stderr_fd p] /\
                    table (<[stdin_fd p := PipeWrite]> (<[stdout_fd p := PipeRead]> (<[stderr_fd p := PipeRead]> base))) w
                | inr e =>
                    table base w \/
                    e = "failed to create pipes" /\ exists left_, length left_ <= 2 /\ table (foldr add_pipe base left_) w
                end).
Proof.
  unfold spawn. eapply triple_bind; [apply triple_make_pipes|]. intros [[[[i1 i2] [o1 o2]] [e1 e2]]|].
  2:{ intros w w' r Hw [= <- <-]. by right. }
  intros w w' r (Hi & Ho & He & Hw). unfold new_pipe, add_pipe in *. cbn [fst snd] in *.
  destruct Hi as (? & ? & ?), Ho as (? & Ho1 & Ho2), He as (? & He1 & He2).
  do 2 rewrite lookup_insert_None in Ho1, Ho2, He1, He2. do 2 rewrite lookup_insert_None in He1, He2. destruct_and!. revert w w' r Hw.
  eapply triple_bind; [apply table_quiet; intros; apply fork_law|]. intros p. destruct (p <? 0)%Z.
  - eapply triple_bind; [apply looks_errno|]. intros error. eapply triple_bind; [apply triple_close_all|]. intros ? w w' r Hw [= <- <-].
    left. cbn [foldl] in Hw. unfold table in *. rewrite Hw. solve_table.
  - do 3 (eapply triple_bind; [apply triple_close_fd|]; intros ?). intros w w' r Hw [= <- <-].
    cbn [stdin_fd stdout_fd stderr_fd]. split; [|split].
    + repeat (apply NoDup_cons_2; [rewrite ?elem_of_cons, elem_of_nil; naive_solver|]). apply NoDup_nil_2.
    + repeat apply Forall_cons_2; done.
    + unfold table in *. rewrite Hw. solve_table.
Qed.

#[local] Hint Extern 1 (returns (for_each _ _)) => cbn [for_each] : returns.
#[local] Hint Extern 1 (returns skip) => exact (returns_ret tt) : returns.

(** Starting a child returns, whatever the calls of the kernel answer:
    either the process, with three new descriptors for its streams and nothing
    else left open, or an error; after an error of [fork] nothing is left open,
    but after one of [pipe] the pipes made before it are. *)
Theorem spawn_descriptors (w : W) :
  exists w' r, spawn w = (w', Val r) /\
    match r with
    | inl p =>
        NoDup [stdin_fd p; stdout_fd p; stderr_fd p] /\
        Forall (fun fd => fds w !! fd = None) [stdin_fd p; stdout_fd p; stderr_fd p] /\
        fds w' = <[stdin_fd p := PipeWrite]> (<[stdout_fd p := PipeRead]> (<[stderr_fd p := PipeRead]> (fds w)))
    | inr e =>
        fds w' = fds w \/
        e = "failed to create pipes" /\ exists left_, length left_ <= 2 /\ fds w' = foldr add_pipe (fds w) left_
    end.
Proof.
  assert (returns spawn) as Hr.
  { unfold spawn, make_pipes, last_error, close_all. auto 40 with returns. }
  destruct (triple_returns _ _ _ w (spawn_triple (fds w)) Hr eq_refl) as (w' & r & Hw & H). by exists w', r.
Qed.
End posix.

Module ProcessDemo.
Definition kernel (script : list nat) : SimKernel := mkSimKernel ∅ script 11.

Lemma spawn_descriptors_witness :
  exists w' r, spawn (kernel [0; 0; 0; 1]) = (w', Val r) /\ sk_fds w' = ∅.
Proof.
  destruct (spawn_descriptors (kernel [0; 0; 0; 1])) as (w' & r & H1 & H2). exists w', r. split; [exact H1|].
  vm_compute in H1. injection H1 as <- <-. reflexivity.
Defined.

(** The second [pipe] fails, and both ends of the first stay open. *)
Example pipe_leaked :
  exists w', spawn (kernel [0; 1]) = (w', Val (inr "failed to create pipes")) /\ sk_fds w' = {[0%Z := PipeRead; 1%Z := PipeWrite]}.
Proof. eexists. split; [vm_compute; reflexivity|reflexivity]. Qed.
End ProcessDemo.

(** ** Windows

    [wait_exit] on a process handle, 0 once it is closed: the status, or none
    while the process runs, and the handle afterwards. *)
Definition win32_wait_exit (native_handle : Z) (signalled : bool) (code : Z) : option Z * Z :=
  if (native_handle =? 0)%Z then (Some (-1)%Z, native_handle)
  else if negb signalled then (None, native_handle)
  else (Some (wrap_s 32 code), 0%Z).

(** The handle is closed once: after an exit was seen every wait ends at once. *)
Lemma win32_wait_exit_once native_handle signalled code status h' signalled' code' :
  win32_wait_exit native_handle signalled code = (Some status, h') ->
  win32_wait_exit h' signalled' code' = (Some (-1)%Z, 0%Z).
Proof.
  unfold win32_wait_exit. destruct (Z.eqb_spec native_handle 0) as [->|]; [by intros [= _ <-]|].
  destruct signalled; [|done]. by intros [= _ <-].
Qed.
