(* ===== verification/Quoting.v ===== *)
(** * Command lines on Windows

    [append_quoted] of src/platform/win32/process.cpp: the one string a program
    is started with, from which its run-time library takes the arguments apart
    again.  The library's parser is an interface, with the rules its
    documentation gives for backslashes, quotes and blanks. *)

From S2P Require Import Prelude.

(** ** Quoting *)

Definition BACKSLASH : Ascii.ascii := "\"%char.
Definition QUOTE : Ascii.ascii := "034"%char.

Fixpoint backslashes (n : nat) : string := match n with O => EmptyString | S n => String BACKSLASH (backslashes n) end.

Definition is_special (c : Ascii.ascii) : bool :=
  existsb (Ascii.eqb c) [" "%char; "009"%char; "010"%char; "011"%char; QUOTE].

(** The loop over an argument, [n] backslashes into a run of them. *)
Fixpoint quote_body (n : nat) (arg : string) : string :=
  match arg with
  | EmptyString => backslashes (n * 2)
  | String c arg =>
      if Ascii.eqb c BACKSLASH then quote_body (S n) arg
      else if Ascii.eqb c QUOTE then backslashes (n * 2 + 1) +:+ String QUOTE (quote_body 0 arg)
      else backslashes n +:+ String c (quote_body 0 arg)
  end.

Definition quoted (arg : string) : string :=
  if negb (String.eqb arg EmptyString) && str_forall (fun c => negb (is_special c)) arg then arg
  else String QUOTE (quote_body 0 arg +:+ String QUOTE EmptyString).

Definition append_quoted (out arg : string) : string := out +:+ quoted arg.

Definition append_argument (out arg : string) : string := append_quoted (out +:+ String " " EmptyString) arg.

(** The command line [spawn] builds. *)
Definition command_line (command : string) (args : list string) : string :=
  foldl append_argument (append_quoted EmptyString command) args.

(** ** The parser of the run-time library *)

(** A character that begins another argument, after a blank. *)
Definition begins (s : string) : Prop :=
  match s with String c _ => c <> " "%char /\ c <> "009"%char | EmptyString => False end.

Definition first_not (P : Ascii.ascii -> Prop) (s : string) : Prop :=
  match s with String c _ => ~ P c | EmptyString => True end.

(** [parse q a s]: the arguments of the rest [s] of a command line, the first of
    which has begun with [a], inside quotes or not. *)
Class ArgvRules (parse : bool -> string -> string -> list string) : Prop := {
  argv_end q a : parse q a EmptyString = [a];
  argv_blank a s : begins s -> parse false a (String " " s) = a :: parse false EmptyString s;
  argv_char q a c s :
    is_special c = false \/ q = true -> c <> QUOTE -> c <> BACKSLASH ->
    parse q a (String c s) = parse q (a +:+ String c EmptyString) s;
  argv_backslashes q a n s :
    first_not (fun c => c = QUOTE \/ c = BACKSLASH) s ->
    parse q a (backslashes n +:+ s) = parse q (a +:+ backslashes n) s;
  argv_even q a n s :
    (q = true -> first_not (eq QUOTE) s) ->
    parse q a (backslashes (n * 2) +:+ String QUOTE s) = parse (negb q) (a +:+ backslashes n) s;
  argv_odd q a n s :
    parse q a (backslashes (n * 2 + 1) +:+ String QUOTE s) =
      parse q (a +:+ backslashes n +:+ String QUOTE EmptyString) s;
}.

Section rules.
Context {parse : bool -> string -> string -> list string} {AR : ArgvRules parse}.

Lemma backslashes_more n s : backslashes n +:+ String BACKSLASH s = backslashes (S n) +:+ s.
Proof.
  induction n as [|n IH]; [done|].
  change (backslashes (S n) +:+ String BACKSLASH s) with (String BACKSLASH (backslashes n +:+ String BACKSLASH s)).
  by rewrite IH.
Qed.

Lemma str_cons_app c s t : String c s +:+ t = String c (s +:+ t).
Proof. done. Qed.

Lemma quote_body_parse n arg a rest :
  first_not (eq QUOTE) rest ->
  parse true a (quote_body n arg +:+ String QUOTE rest) = parse false (a +:+ backslashes n +:+ arg) rest.
Proof.
  intros Hr. revert n a. induction arg as [|c arg IH]; intros n a; cbn [quote_body].
  - rewrite argv_even by done. by rewrite str_app_nil_r.
  - destruct (Ascii.eqb_spec c BACKSLASH) as [->|Hb]; [by rewrite IH, backslashes_more|].
    destruct (Ascii.eqb_spec c QUOTE) as [->|Hq].
    + rewrite str_app_assoc, str_cons_app, argv_odd, IH. f_equal. by rewrite !str_app_assoc.
    + rewrite str_app_assoc, str_cons_app, argv_backslashes by (cbn; tauto). rewrite argv_char by auto.
      rewrite IH. f_equal. by rewrite !str_app_assoc.
Qed.

(** An argument is followed by a blank or by nothing. *)
Definition stops (rest : string) : Prop := match rest with String c _ => c = " "%char | EmptyString => True end.

Lemma plain_parse n arg a rest :
  str_forall (fun c => negb (is_special c)) arg = true -> stops rest ->
  parse false a (backslashes n +:+ arg +:+ rest) = parse false (a +:+ backslashes n +:+ arg) rest.
Proof.
  intros Harg Hr. revert n a Harg. induction arg as [|c arg IH]; intros n a Harg.
  - rewrite str_app_nil_r. change (EmptyString +:+ rest) with rest. apply argv_backslashes.
    destruct rest as [|c rest]; [done|]. cbn in Hr |- *. subst c. by intros [|].
  - cbn [str_forall] in Harg. apply andb_true_iff in Harg as [Hc Harg]. apply negb_true_iff in Hc.
    rewrite str_cons_app. destruct (Ascii.eqb_spec c BACKSLASH) as [->|Hb].
    + rewrite backslashes_more, IH by done. by rewrite <- backslashes_more.
    + assert (c <> QUOTE) as Hq by (by intros ->). rewrite argv_backslashes by (cbn; tauto). rewrite argv_char by auto.
      pose proof (IH 0 ((a +:+ backslashes n) +:+ String c EmptyString) Harg) as H.
      change (backslashes 0 +:+ ?s) with s in H. rewrite H. f_equal. by rewrite !str_app_assoc.
Qed.

Lemma quoted_parse arg rest : stops rest -> parse false EmptyString (quoted arg +:+ rest) = parse false arg rest.
Proof.
  intros Hr. unfold quoted. destruct (negb _ && _) eqn:E.
  - apply andb_true_iff in E as [_ E]. by apply (plain_parse 0 arg EmptyString).
  - rewrite str_cons_app, str_app_assoc, str_cons_app.
    pose proof (argv_even (parse := parse) false EmptyString 0 (quote_body 0 arg +:+ String QUOTE (EmptyString +:+ rest))) as H.
    change (backslashes (0 * 2) +:+ ?s) with s in H. rewrite H by done. apply (quote_body_parse 0 arg EmptyString rest).
    destruct rest as [|c rest]; [done|]. cbn in Hr |- *. by subst c.
Qed.

Lemma quoted_begins arg rest : begins (quoted arg +:+ rest).
Proof.
  unfold quoted. destruct (negb _ && _) eqn:E; [|done]. destruct arg as [|c arg]; [done|].
  apply andb_true_iff in E as [_ E]. cbn in E. apply andb_true_iff in E as [E _]. apply negb_true_iff in E.
  split; by intros ->.
Qed.

Definition argument_text (args : list string) : string := foldr (fun a r => String " " (quoted a +:+ r)) EmptyString args.

Lemma command_line_text out args : foldl append_argument out args = out +:+ argument_text args.
Proof.
  revert out. induction args as [|a args IH]; intros out; cbn [foldl argument_text foldr]; [by rewrite str_app_nil_r|].
  rewrite IH. unfold append_argument, append_quoted. fold (argument_text args). by rewrite !str_app_assoc.
Qed.

(** C25: the arguments of a command line survive: what follows the quoted program
    name is taken apart into exactly the arguments given, whatever blanks,
    quotes and backslashes are in them, empty arguments included. *)
Theorem command_line_roundtrip command args :
  exists text, command_line command args = quoted command +:+ text /\ forall a, parse false a text = a :: args.
Proof.
  exists (argument_text args). split; [apply command_line_text|].
  induction args as [|arg args IH]; intros a; [by apply argv_end|]. cbn [argument_text foldr]. fold (argument_text args).
  rewrite argv_blank by apply quoted_begins. rewrite quoted_parse, IH; [done|]. by destruct args.
Qed.
End rules.

(** ** A parser that follows the rules

    [n] backslashes have been seen. *)
Fixpoint take_arguments (q : bool) (a : string) (n : nat) (s : string) : list string :=
  match s with
  | EmptyString => [a +:+ backslashes n]
  | String c s =>
      if Ascii.eqb c BACKSLASH then take_arguments q a (S n) s
      else if Ascii.eqb c QUOTE then
        if Nat.even n then take_arguments (negb q) (a +:+ backslashes (Nat.div2 n)) 0 s
        else take_arguments q (a +:+ backslashes (Nat.div2 n) +:+ String QUOTE EmptyString) 0 s
      else if negb q && (Ascii.eqb c " "%char || Ascii.eqb c "009"%char)
      then (a +:+ backslashes n) :: take_arguments false EmptyString 0 s
      else take_arguments q ((a +:+ backslashes n) +:+ String c EmptyString) 0 s
  end.

Definition parse_arguments (q : bool) (a s : string) : list string := take_arguments q a 0 s.

Lemma take_backslashes q a m n s : take_arguments q a m (backslashes n +:+ s) = take_arguments q a (m + n) s.
Proof.
  revert m. induction n as [|n IH]; intros m; [by rewrite Nat.add_0_r|].
  change (backslashes (S n) +:+ s) with (String BACKSLASH (backslashes n +:+ s)). cbn [take_arguments].
  rewrite Ascii.eqb_refl, IH. f_equal. lia.
Qed.

#[export] Instance parse_arguments_rules : ArgvRules parse_arguments.
Proof.
  split; unfold parse_arguments.
  - intros q a. cbn. by rewrite str_app_nil_r.
  - intros a s _. cbn. by rewrite str_app_nil_r.
  - intros q a c s Hc Hq Hb. cbn [take_arguments]. rewrite (proj2 (Ascii.eqb_neq _ _) Hb), (proj2 (Ascii.eqb_neq _ _) Hq).
    assert (negb q && (Ascii.eqb c " "%char || Ascii.eqb c "009"%char) = false) as ->.
    { destruct Hc as [Hc| ->]; [|done]. unfold is_special in Hc. cbn in Hc. destruct (Ascii.eqb c " "), (Ascii.eqb c "009"); try done.
      by rewrite andb_false_r. }
    cbn [backslashes]. by rewrite str_app_nil_r.
  - intros q a n s Hs. rewrite take_backslashes. cbn [Nat.add]. destruct s as [|c s]; cbn [take_arguments].
    + by rewrite str_app_nil_r.
    + cbn in Hs. rewrite (proj2 (Ascii.eqb_neq c BACKSLASH)), (proj2 (Ascii.eqb_neq c QUOTE)) by (intros ->; tauto).
      cbn [backslashes]. by rewrite str_app_nil_r.
  - intros q a n s _. rewrite take_backslashes. cbn [Nat.add take_arguments]. change (Ascii.eqb QUOTE BACKSLASH) with false.
    rewrite Ascii.eqb_refl, Nat.mul_comm, Nat.even_even, Nat.div2_double. done.
  - intros q a n s. rewrite take_backslashes. cbn [Nat.add take_arguments]. change (Ascii.eqb QUOTE BACKSLASH) with false.
    rewrite Ascii.eqb_refl, Nat.mul_comm, Nat.even_odd, Nat.add_1_r, Nat.div2_succ_double. done.
Qed.

Lemma command_line_roundtrip_witness :
  exists text, command_line "C:\server.exe" ["--name"; "a b"; EmptyString; "c:\dir\"] = "C:\server.exe" +:+ text /\
    forall a, parse_arguments false a text = [a; "--name"; "a b"; EmptyString; "c:\dir\"].
Proof.
  exact (command_line_roundtrip (parse := parse_arguments) "C:\server.exe" ["--name"; "a b"; EmptyString; "c:\dir\"]).
Defined.
