(* ===== verification/EnvBlock.v ===== *)
(** * The environment block on Windows

    [build_env_block] of src/platform/win32/process.cpp: the parent's
    environment with the launch parameters' variables in it, as a sequence of
    null-terminated entries that ends with an empty one. *)

From S2P Require Import Prelude Lines Platform.

Definition NUL : string := String Ascii.zero EmptyString.

(** [_stricmp(a.c_str(), b.c_str()) == 0]. *)
Definition stricmp (a b : string) : bool := String.eqb (str_map tolower (c_str a)) (str_map tolower (c_str b)).

(** The name of an entry; a leading ['='] belongs to it. *)
Definition entry_name (text : string) : string :=
  match str_find_from "=" 1 text with Some eq => str_take eq text | None => text end.

Definition overridden (env : list (string * string)) (text : string) : bool :=
  existsb (fun kv => stricmp kv.1 (entry_name text)) env.

Fixpoint terminated (entries : list string) : string :=
  match entries with [] => EmptyString | e :: entries => e +:+ NUL +:+ terminated entries end.

(** [strings]: what [GetEnvironmentStringsA] gives, if anything. *)
Definition build_env_block (strings : option (list string)) (env : list (string * string)) : string :=
  terminated (filter (fun text => overridden env text = false) (default [] strings)) +:+
  terminated (env_entry <$> env) +:+ NUL.

(** ** Reading a block *)

Fixpoint block_entries (entry block : string) : list string :=
  match block with
  | EmptyString => []
  | String c block =>
      if Ascii.eqb c Ascii.zero
      then if String.eqb entry EmptyString then [] else entry :: block_entries EmptyString block
      else block_entries (entry +:+ String c EmptyString) block
  end.

Definition win_getenv (name : string) (entries : list string) : option string :=
  match find (fun e => stricmp (entry_name e) name) entries with
  | Some e => Some (str_drop (S (size (entry_name e))) e)
  | None => None
  end.

(** An entry that a block can hold. *)
Definition wf_entry (e : string) : Prop := e <> EmptyString /\ find_char Ascii.zero e = None.

Lemma block_entries_entry acc e rest :
  find_char Ascii.zero e = None -> acc +:+ e <> EmptyString ->
  block_entries acc (e +:+ NUL +:+ rest) = (acc +:+ e) :: block_entries EmptyString rest.
Proof.
  revert acc. induction e as [|c e IH]; intros acc He Hne.
  - rewrite str_app_nil_r in *. cbn. by rewrite (proj2 (String.eqb_neq _ _) Hne).
  - rewrite find_char_cons in He. destruct (Ascii.eqb_spec Ascii.zero c) as [|Hc]; [done|].
    change (String c e +:+ NUL +:+ rest) with (String c (e +:+ NUL +:+ rest)). cbn [block_entries].
    rewrite (proj2 (Ascii.eqb_neq c Ascii.zero)) by congruence.
    assert (acc +:+ String c e = (acc +:+ String c EmptyString) +:+ e) as Hassoc by by rewrite str_app_assoc.
    rewrite Hassoc in *. apply IH; [by destruct (find_char _ e)|done].
Qed.

Lemma block_entries_terminated l rest :
  Forall wf_entry l -> block_entries EmptyString (terminated l +:+ rest) = l ++ block_entries EmptyString rest.
Proof.
  induction 1 as [|e l [Hne He] _ IH]; [done|]. cbn [terminated app]. rewrite !str_app_assoc.
  rewrite block_entries_entry by done. by rewrite IH.
Qed.

(** The block holds the entries that are kept and the new ones. *)
Lemma block_entries_block strings env :
  Forall wf_entry (default [] strings) -> Forall wf_entry (env_entry <$> env) ->
  block_entries EmptyString (build_env_block strings env) =
    filter (fun text => overridden env text = false) (default [] strings) ++ (env_entry <$> env).
Proof.
  intros Hs He. unfold build_env_block. rewrite block_entries_terminated.
  2:{ apply Forall_forall. intros e [_ Hin]%list_elem_of_filter. rewrite Forall_forall in Hs. by apply Hs. }
  rewrite block_entries_terminated by done. f_equal. apply app_nil_r.
Qed.

(** ** Looking a variable up *)

(** A variable's name: not empty, and without ['='] after its first character. *)
Definition wf_name (k : string) : Prop :=
  k <> EmptyString /\ find_char Ascii.zero k = None /\ find_char "="%char (str_drop 1 k) = None.

Lemma find_equals text : str_find_from "=" 1 text = (if decide (1 <= size text) then S <$> find_char "="%char (str_drop 1 text) else None).
Proof. unfold str_find_from, find_char. case_decide; [|done]. by destruct (str_find _ _). Qed.

Lemma entry_name_entry k v :
  wf_name k -> entry_name (env_entry (k, v)) = k /\ str_drop (S (size k)) (env_entry (k, v)) = v.
Proof.
  intros (Hne & _ & Hk). unfold env_entry, entry_name. cbn [fst snd].
  assert (str_find_from "=" 1 (k +:+ "=" +:+ v) = Some (size k)) as Hf.
  { rewrite find_equals. destruct k as [|c k]; [done|]. cbn [size str_drop] in *. rewrite decide_True by (cbn; lia).
    change (S <$> find_char "="%char (k +:+ String "=" v) = Some (S (size k))). by rewrite find_char_at. }
  rewrite Hf. split; [apply str_take_app_size|]. replace (S (size k)) with (size k + 1) by lia.
  by rewrite <- str_drop_drop, str_drop_app_size.
Qed.

Lemma stricmp_trans a b c : stricmp a b = true -> stricmp b c = stricmp a c.
Proof. unfold stricmp. intros H%String.eqb_eq. by rewrite H. Qed.
Lemma stricmp_sym a b : stricmp a b = stricmp b a.
Proof. unfold stricmp. apply String.eqb_sym. Qed.

Lemma win_getenv_app name l1 l2 :
  win_getenv name (l1 ++ l2) = match win_getenv name l1 with Some v => Some v | None => win_getenv name l2 end.
Proof. unfold win_getenv. induction l1 as [|e l1 IH]; [done|]. cbn [app find]. by destruct (stricmp _ _). Qed.

Lemma win_getenv_new name env :
  Forall (fun kv => wf_name kv.1) env ->
  win_getenv name (env_entry <$> env) = snd <$> find (fun kv => stricmp kv.1 name) env.
Proof.
  unfold win_getenv. induction 1 as [|[k v] env Hk _ IH]; [done|]. rewrite fmap_cons. cbn [find fst] in *.
  destruct (entry_name_entry k v Hk) as [Hn Hv]. rewrite Hn. destruct (stricmp k name); [|done]. cbn [fmap option_fmap option_map snd]. by rewrite Hn, Hv.
Qed.

Lemma win_getenv_kept name env l :
  win_getenv name (filter (fun text => overridden env text = false) l) =
    if existsb (fun kv => stricmp kv.1 name) env then None else win_getenv name l.
Proof.
  unfold win_getenv. induction l as [|e l IH]; [by destruct (existsb _ _)|]. rewrite filter_cons.
  destruct (stricmp (entry_name e) name) eqn:En.
  - assert (overridden env e = existsb (fun kv => stricmp kv.1 name) env) as Ho.
    { unfold overridden. clear IH. induction env as [|kv env IHe]; [done|]. cbn [existsb]. f_equal; [|exact IHe].
      rewrite (stricmp_sym kv.1 name), (stricmp_sym kv.1 (entry_name e)). symmetry. by apply stricmp_trans. }
    rewrite Ho in *. destruct (existsb _ env) eqn:Ex.
    + rewrite decide_False by done. exact IH.
    + rewrite decide_True by done. cbn [find]. by rewrite En.
  - cbn [find]. rewrite En. destruct (decide (overridden env e = false)); [|exact IH]. cbn [find]. by rewrite En.
Qed.

(** The environment a child is started with on Windows: read back from the
    block, names compared without regard to case, a variable of the launch
    parameters has the value given there and every other one the value it has
    in the parent. *)
Theorem env_block_spec inherited env name :
  Forall wf_entry inherited -> Forall (fun kv => wf_name kv.1 /\ find_char Ascii.zero kv.2 = None) env ->
  win_getenv name (block_entries EmptyString (build_env_block (Some inherited) env)) =
    match find (fun kv => stricmp kv.1 name) env with
    | Some kv => Some kv.2
    | None => win_getenv name inherited
    end.
Proof.
  intros Hi He. rewrite block_entries_block; [|done|].
  2:{ apply Forall_fmap. eapply Forall_impl; [exact He|]. intros [k v] [(Hne & Hz & _) Hv]. unfold env_entry. cbn [fst snd] in *.
      split; [by destruct k|]. rewrite find_char_skip by done. cbn [fst snd].
      change ("=" +:+ v) with (String "=" v). by rewrite find_char_cons, Hv. }
  change (default [] (Some inherited)) with inherited. rewrite win_getenv_app, win_getenv_kept, win_getenv_new.
  2:{ eapply Forall_impl; [exact He|]. by intros kv [H _]. }
  destruct (find (fun kv => stricmp kv.1 name) env) as [kv|] eqn:E.
  - apply find_some in E as [Hin Hc]. assert (existsb (fun kv => stricmp kv.1 name) env = true) as ->; [|done].
    apply existsb_exists. exists kv. split; [exact Hin|exact Hc].
  - assert (existsb (fun kv => stricmp kv.1 name) env = false) as ->; [|by destruct (win_getenv name inherited)].
    apply not_true_iff_false. intros (kv & Hin & Hc)%existsb_exists. by rewrite (find_none _ _ E kv Hin) in Hc.
Qed.

(** The drive entries of the shell are kept, and PATH is Path. *)
Lemma env_block_spec_witness :
  win_getenv "PATH" (block_entries EmptyString
    (build_env_block (Some ["=C:=C:\\dir"; "Path=old"; "A=1"]) [("path", "new")])) = Some "new".
Proof.
  apply (env_block_spec ["=C:=C:\\dir"; "Path=old"; "A=1"] [("path", "new")] "PATH"); repeat constructor; discriminate.
Defined.
