(* ===== verification/VxThreads.v ===== *)
(** * Threading primitives on VxWorks

    src/platform/vxworks/threading.cpp: the condition variable built from two
    semaphores, as the interleavings of its tasks' steps, and the conversion of
    time-outs.  The kernel's semaphores are an interface: a counting semaphore
    is what it has available, a binary one is full or empty. *)

From S2P Require Import Prelude.

(** ** The kernel's semaphores *)

(** [sem_take] without a task to hand over from: [None] is a task that blocks,
    or a [NO_WAIT] that fails.  [B] is for binary semaphores, and for
    mutual-exclusion semaphores that are not taken twice by a task. *)
Class SemLib (C B : Type) := {
  semCCreate : nat -> C;
  semc_take : C -> option C;
  semc_give : C -> C;
  semBCreate : bool -> B;
  semb_take : B -> option B;
  semb_give : B -> B;
}.

Class SemLaws (C B : Type) `{SemLib C B} := {
  available : C -> nat;
  full : B -> bool;
  available_create n : available (semCCreate n) = n;
  available_give s : available (semc_give s) = S (available s);
  available_take s :
    match semc_take s with Some s' => available s = S (available s') | None => available s = 0 end;
  full_create b : full (semBCreate b) = b;
  full_give s : full (semb_give s) = true;
  full_take s : match semb_take s with Some s' => full s = true /\ full s' = false | None => full s = false end;
}.

(** ** Time-outs *)

(** [sysClkRateGet] is the [rate]; the product is a [long long]. *)
Definition ms_to_ticks (rate ms : Z) : Z :=
  if (ms <=? 0)%Z then 0
  else
    let ticks := ((ms * rate + 999) / 1000)%Z in
    wrap_s 32 (if (ticks <? 1)%Z then 1 else ticks)%Z.

Lemma ms_to_ticks_bounds rate ms :
  (0 < rate)%Z -> (0 < ms)%Z -> (ms * rate <= 1000 * (modulus 31 - 1))%Z ->
  (1 <= ms_to_ticks rate ms < modulus 31)%Z /\ (1000 * (ms_to_ticks rate ms - 1) < ms * rate <= 1000 * ms_to_ticks rate ms)%Z.
Proof.
  intros Hr Hm Hb. unfold ms_to_ticks. rewrite (proj2 (Z.leb_gt ms 0)) by lia.
  set (n := (ms * rate)%Z) in *. assert (0 < n)%Z by nia.
  pose proof (Z.div_mod (n + 999) 1000 ltac:(lia)) as Hd. pose proof (Z.mod_pos_bound (n + 999) 1000 ltac:(lia)).
  set (q := ((n + 999) / 1000)%Z) in *. assert (1 <= q)%Z by lia. assert (q < modulus 31)%Z by (unfold modulus in *; lia).
  rewrite (proj2 (Z.ltb_ge q 1)) by lia. rewrite wrap_s_id by (unfold in_s, modulus in *; simpl in *; lia). lia.
Qed.

(** ** The condition variable *)

Record CondVar (C B : Type) := mkCondVar {
  sema : C;        (** one count for each waiter that is to wake *)
  internal : B;    (** guards [waiters] *)
  waiters : Z;
}.
Arguments mkCondVar {C B}.
Arguments sema {C B}.
Arguments internal {C B}.
Arguments waiters {C B}.

(** Where a task is.  [Idle] and [Holding]: in its own code, without and with
    the mutex.  [W...]: in [wait_for_ms]; [ok] is the status of its [semTake].
    [N...]: in [notify_all], [held] telling whether it holds the mutex. *)
Inductive pc :=
| Idle | Holding
| WEnter (forever : bool) | WUnlock (forever : bool) | WTake (forever : bool) | WReconcile (ok : bool) | WLock
| NEnter (held : bool) | NLoop (held : bool).

(** What a task does next: [Run] goes on in a call, [Timeout] is the other way
    out of [semTake]. *)
Inductive action := Acquire | Release | CallWait (forever : bool) | CallNotify | Run | Timeout.

Record VxWorld (C B : Type) := mkVxWorld {
  cv : CondVar C B;
  user_mutex : B;
  tasks : list pc;
}.
Arguments mkVxWorld {C B}.
Arguments cv {C B}.
Arguments user_mutex {C B}.
Arguments tasks {C B}.

Section condvar.
Context {C B : Type} {SL : SemLib C B}.

Definition new_condvar : CondVar C B := mkCondVar (semCCreate 0) (semBCreate true) 0.

(** A critical section of the internal lock that is not interrupted. *)
Definition guarded (f : C -> Z -> C * Z) (v : CondVar C B) : option (CondVar C B) :=
  i ← semb_take (internal v);
  let '(s, w) := f (sema v) (waiters v) in
  Some (mkCondVar s (semb_give i) w).

Definition enter_wait : CondVar C B -> option (CondVar C B) := guarded (fun s w => (s, (w + 1)%Z)).

(** After [semTake(sema, ticks)]: who timed out gives up its registration, or
    the count a notification has given it. *)
Definition reconcile (ok : bool) : CondVar C B -> option (CondVar C B) :=
  guarded (fun s w =>
    if ok then (s, w)
    else if (0 <? w)%Z then (s, (w - 1)%Z)
    else (default s (semc_take s), w)).

Definition notify_start (v : CondVar C B) : option (CondVar C B) :=
  i ← semb_take (internal v); Some (mkCondVar (sema v) i (waiters v)).

(** One turn of the loop, or the way out of it. *)
Definition notify_turn (v : CondVar C B) : bool * CondVar C B :=
  if (0 <? waiters v)%Z then (true, mkCondVar (semc_give (sema v)) (internal v) (waiters v - 1))
  else (false, mkCondVar (sema v) (semb_give (internal v)) (waiters v)).

(** A step of a task: its next place, the condition variable and the mutex;
    [None] while it is blocked. *)
Definition task_step (a : action) (p : pc) (v : CondVar C B) (m : B) : option (pc * CondVar C B * B) :=
  match p, a with
  | Idle, Acquire => m ← semb_take m; Some (Holding, v, m)
  | Holding, Release => Some (Idle, v, semb_give m)
  | Holding, CallWait forever => Some (WEnter forever, v, m)
  | Idle, CallNotify => Some (NEnter false, v, m)
  | Holding, CallNotify => Some (NEnter true, v, m)
  | WEnter forever, Run => v ← enter_wait v; Some (WUnlock forever, v, m)
  | WUnlock forever, Run => Some (WTake forever, v, semb_give m)
  | WTake _, Run => s ← semc_take (sema v); Some (WReconcile true, mkCondVar s (internal v) (waiters v), m)
  | WTake false, Timeout => Some (WReconcile false, v, m)
  | WReconcile ok, Run => v ← reconcile ok v; Some (WLock, v, m)
  | WLock, Run => m ← semb_take m; Some (Holding, v, m)
  | NEnter held, Run => v ← notify_start v; Some (NLoop held, v, m)
  | NLoop held, Run =>
      let '(more, v) := notify_turn v in
      Some ((if more then NLoop held else if held then Holding else Idle), v, m)
  | _, _ => None
  end.

Definition vx_step (w : VxWorld C B) (x : nat * action) : option (VxWorld C B) :=
  p ← tasks w !! x.1;
  '(p, v, m) ← task_step x.2 p (cv w) (user_mutex w);
  Some (mkVxWorld v m (<[x.1 := p]> (tasks w))).

Fixpoint vx_run (w : VxWorld C B) (l : list (nat * action)) : option (VxWorld C B) :=
  match l with
  | [] => Some w
  | x :: l => w ← vx_step w x; vx_run w l
  end.

Definition vx_start (n : nat) : VxWorld C B := mkVxWorld new_condvar (semBCreate true) (replicate n Idle).

(** ** The accounts balance *)

Context {L : SemLaws C B}.

(** A task that is registered and has not had its count yet. *)
Definition registered (p : pc) : bool :=
  match p with WUnlock _ | WTake _ | WReconcile false => true | _ => false end.

(** A task that holds the internal lock between steps. *)
Definition notifying (p : pc) : bool := match p with NLoop _ => true | _ => false end.

Definition count (f : pc -> bool) (l : list pc) : Z := foldr (fun p n => (Z.b2z (f p) + n)%Z) 0%Z l.

Lemma count_insert f l i p q :
  l !! i = Some p -> count f (<[i := q]> l) = (count f l + Z.b2z (f q) - Z.b2z (f p))%Z.
Proof.
  revert i. induction l as [|x l IH]; intros [|i] Hi; try done.
  - injection Hi as ->. change (<[0 := q]> (p :: l)) with (q :: l). cbn. unfold count. lia.
  - change (<[S i := q]> (x :: l)) with (x :: <[i := q]> l). cbn. fold (count f (<[i := q]> l)) (count f l).
    rewrite (IH i Hi). lia.
Qed.

Lemma count_nonneg f l : (0 <= count f l)%Z.
Proof. induction l as [|x l IH]; cbn; [lia|]. fold (count f l). destruct (f x); cbn; lia. Qed.

Lemma count_replicate f n p : f p = false -> count f (replicate n p) = 0%Z.
Proof. intros Hf. induction n as [|n IH]; [done|]. cbn. fold (count f (replicate n p)). by rewrite IH, Hf. Qed.

Lemma count_lookup f l i p : l !! i = Some p -> f p = true -> (1 <= count f l)%Z.
Proof.
  intros Hi Hf. revert i Hi. induction l as [|x l IH]; intros [|i] Hi; try done.
  - injection Hi as ->. cbn. fold (count f l). rewrite Hf. pose proof (count_nonneg f l). cbn. lia.
  - cbn. fold (count f l). pose proof (IH i Hi). destruct (f x); cbn; lia.
Qed.

Record balanced (w : VxWorld C B) : Prop := mkBalanced {
  bl_waiters : (0 <= waiters (cv w))%Z;
  bl_counts : (waiters (cv w) + Z.of_nat (available (sema (cv w))) = count registered (tasks w))%Z;
  bl_internal : (Z.b2z (full (internal (cv w))) + count notifying (tasks w) = 1)%Z;
}.

Lemma balanced_start n : balanced (vx_start n).
Proof.
  split; [done|..]; change (tasks (vx_start n)) with (replicate n Idle); rewrite count_replicate by done.
  - change (sema (cv (vx_start n))) with (semCCreate (C := C) (B := B) 0). by rewrite available_create.
  - change (internal (cv (vx_start n))) with (semBCreate (C := C) (B := B) true). by rewrite full_create.
Qed.

(** What a step does to the counts: the task moves from [p] to [q]. *)
Definition step_balanced (v v' : CondVar C B) (p q : pc) : Prop :=
  (0 <= waiters v' /\
   waiters v' + Z.of_nat (available (sema v')) - Z.b2z (registered q) =
     waiters v + Z.of_nat (available (sema v)) - Z.b2z (registered p) /\
   Z.b2z (full (internal v')) + Z.b2z (notifying q) = Z.b2z (full (internal v)) + Z.b2z (notifying p))%Z.

Lemma step_balanced_refl v p q :
  (0 <= waiters v)%Z -> registered p = registered q -> notifying p = notifying q -> step_balanced v v p q.
Proof. intros Hw Hr Hn. split; [done|]. rewrite Hr, Hn. by split. Qed.

Lemma guarded_balanced f v v' p q :
  guarded f v = Some v' -> notifying p = notifying q -> (0 <= (f (sema v) (waiters v)).2)%Z ->
  ((f (sema v) (waiters v)).2 + Z.of_nat (available (f (sema v) (waiters v)).1) - Z.b2z (registered q) =
   waiters v + Z.of_nat (available (sema v)) - Z.b2z (registered p))%Z ->
  step_balanced v v' p q.
Proof.
  unfold guarded. intros Hg Hn Hw Hb. pose proof (full_take (internal v)) as Hf.
  destruct (semb_take (internal v)) as [i|]; [|done]. cbn in Hg. destruct (f (sema v) (waiters v)) as [s w].
  injection Hg as <-. destruct Hf as [Hf _]. split; [done|]. split; [exact Hb|]. cbn. by rewrite full_give, Hf, Hn.
Qed.

Lemma task_step_balanced a p v m q v' m' :
  task_step a p v m = Some (q, v', m') -> (0 <= waiters v)%Z ->
  (registered p = true -> (0 < waiters v + Z.of_nat (available (sema v)))%Z) -> (notifying p = true -> full (internal v) = false) ->
  step_balanced v v' p q.
Proof.
  intros Hs Hw Hr Hn. destruct p as [| |forever|forever|forever|ok| |held|held], a; try discriminate Hs; cbn [task_step] in Hs;
    try (destruct forever; discriminate Hs).
  - destruct (semb_take m); [|done]. injection Hs as <- <- <-. by apply step_balanced_refl.
  - injection Hs as <- <- <-. by apply step_balanced_refl.
  - injection Hs as <- <- <-. by apply step_balanced_refl.
  - injection Hs as <- <- <-. by apply step_balanced_refl.
  - injection Hs as <- <- <-. by apply step_balanced_refl.
  - destruct (enter_wait v) as [v1|] eqn:E; [|done]. injection Hs as <- <- <-.
    unfold enter_wait in E. apply (guarded_balanced _ _ _ _ _ E); cbn; lia || done.
  - injection Hs as <- <- <-. by apply step_balanced_refl.
  - pose proof (available_take (sema v)) as Ht.
    destruct (semc_take (sema v)) as [s|]; [|by destruct forever].
    assert (Some (WReconcile true, mkCondVar s (internal v) (waiters v), m) = Some (q, v', m')) as Hs' by by destruct forever.
    injection Hs' as <- <- <-.
    split; [done|]. cbn. split; [lia|done].
  - destruct forever; [done|]. injection Hs as <- <- <-. by apply step_balanced_refl.
  - destruct (reconcile ok v) as [v1|] eqn:E; [|done]. injection Hs as <- <- <-.
    unfold reconcile in E. apply (guarded_balanced _ _ _ _ _ E); [by destruct ok| |]; destruct ok; cbn; try lia;
      destruct (Z.ltb_spec 0 (waiters v)); cbn; try lia.
    pose proof (available_take (sema v)) as Ht. specialize (Hr eq_refl).
    destruct (semc_take (sema v)); cbn; lia.
  - destruct (semb_take m); [|done]. injection Hs as <- <- <-. by apply step_balanced_refl.
  - unfold notify_start in Hs. pose proof (full_take (internal v)) as Hf.
    destruct (semb_take (internal v)) as [i|]; [|done]. injection Hs as <- <- <-. destruct Hf as [Hf1 Hf2].
    split; [done|]. cbn. rewrite Hf1, Hf2. split; [lia|done].
  - unfold notify_turn in Hs. destruct (Z.ltb_spec 0 (waiters v)); injection Hs as <- <- <-.
    + split; [cbn; lia|]. cbn. rewrite available_give, Nat2Z.inj_succ. split; [lia|done].
    + split; [done|]. cbn. rewrite full_give, (Hn eq_refl). by destruct held.
Qed.

Lemma vx_step_inv w x w' :
  vx_step w x = Some w' ->
  exists p q, tasks w !! x.1 = Some p /\ task_step x.2 p (cv w) (user_mutex w) = Some (q, cv w', user_mutex w') /\
    tasks w' = <[x.1 := q]> (tasks w).
Proof.
  unfold vx_step. destruct (tasks w !! x.1) as [p|]; [|done]. cbn.
  destruct (task_step x.2 p (cv w) (user_mutex w)) as [[[q v] m]|] eqn:E; [|done]. intros [= <-]. by exists p, q.
Qed.

Lemma vx_step_balanced w x w' : balanced w -> vx_step w x = Some w' -> balanced w'.
Proof.
  intros [Hw Hc Hi] (p & q & Hp & Hs & Ht)%vx_step_inv.
  destruct (task_step_balanced _ _ _ _ _ _ _ Hs Hw) as (H1 & H2 & H3).
  - intros Hr. pose proof (count_lookup registered _ _ _ Hp Hr). lia.
  - intros Hn. pose proof (count_lookup notifying _ _ _ Hp Hn). destruct (full (internal (cv w))); cbn in Hi; [lia|done].
  - split; [done| |]; rewrite Ht, (count_insert _ _ _ p q Hp); lia.
Qed.

Lemma vx_run_balanced l w w' : balanced w -> vx_run w l = Some w' -> balanced w'.
Proof.
  revert w. induction l as [|x l IH]; intros w Hb; cbn; [by intros [= <-]|].
  destruct (vx_step w x) as [w1|] eqn:E; [|done]. apply IH. by eapply vx_step_balanced.
Qed.

(** C17: however the tasks' steps interleave, time-outs racing with
    notifications included, the registered waiters and the counts given out
    balance: the count a task that timed out has to take back is always there,
    and when no task is waiting nothing is left over that would wake a later
    one. *)
Theorem condvar_balanced n l w :
  vx_run (vx_start n) l = Some w ->
  (waiters (cv w) + Z.of_nat (available (sema (cv w))) = count registered (tasks w))%Z /\
  (forall i, tasks w !! i = Some (WReconcile false) -> (waiters (cv w) <= 0)%Z -> is_Some (semc_take (sema (cv w)))) /\
  ((forall i p, tasks w !! i = Some p -> registered p = false) -> waiters (cv w) = 0%Z /\ semc_take (sema (cv w)) = None).
Proof.
  intros H. destruct (vx_run_balanced l _ _ (balanced_start n) H) as [Hw Hc _]. split; [done|].
  pose proof (available_take (sema (cv w))) as Ht. split.
  - intros i Hi Hle. pose proof (count_lookup registered _ _ _ Hi eq_refl). destruct (semc_take (sema (cv w))); [done|lia].
  - intros Hno. assert (count registered (tasks w) = 0%Z) as Hz.
    { clear -Hno. induction (tasks w) as [|p l IH]; [done|]. cbn. fold (count registered l).
      rewrite (Hno 0 p eq_refl), IH; [done|]. intros i q Hi. exact (Hno (S i) q Hi). }
    split; [lia|]. destruct (semc_take (sema (cv w))); [lia|done].
Qed.

(** ** Notifying *)

(** No task is on its way into a wait. *)
Definition no_entry (w : VxWorld C B) : Prop := forall i forever, tasks w !! i <> Some (WEnter forever).

Definition calls_wait (x : nat * action) : bool := match x.2 with CallWait _ => true | _ => false end.

Lemma task_step_entry a p v m forever v' m' : task_step a p v m = Some (WEnter forever, v', m') -> a = CallWait forever.
Proof.
  intros Hs. unfold task_step, mbind, option_bind in Hs. destruct p, a; try discriminate Hs;
    repeat case_match; simplify_eq; done.
Qed.

Lemma task_step_waiters a p v m q v' m' :
  task_step a p v m = Some (q, v', m') -> waiters v = 0%Z -> (forall forever, p <> WEnter forever) -> waiters v' = 0%Z.
Proof.
  intros Hs Hw Hp.
  assert (forall f v1, guarded f v = Some v1 -> waiters v1 = (f (sema v) (waiters v)).2) as Hg.
  { intros f v1. unfold guarded. destruct (semb_take _); [|done]. cbn. destruct (f _ _). by intros [= <-]. }
  destruct p as [| |f|f|f|ok| |held|held], a; try discriminate Hs; cbn [task_step] in Hs.
  - destruct (semb_take m); [|done]. by injection Hs as _ <- _.
  - by injection Hs as _ <- _.
  - by injection Hs as _ <- _.
  - by injection Hs as _ <- _.
  - by injection Hs as _ <- _.
  - by destruct (Hp f).
  - by injection Hs as _ <- _.
  - destruct f; discriminate Hs.
  - destruct f; discriminate Hs.
  - destruct f; discriminate Hs.
  - destruct f; discriminate Hs.
  - destruct (semc_take (sema v)); destruct f; try discriminate Hs; by injection Hs as _ <- _.
  - destruct f; [done|]. by injection Hs as _ <- _.
  - destruct (reconcile ok v) as [v1|] eqn:E; [|done]. injection Hs as _ <- _. unfold reconcile in E. rewrite (Hg _ _ E), Hw. by destruct ok.
  - destruct (semb_take m); [|done]. by injection Hs as _ <- _.
  - unfold notify_start in Hs. destruct (semb_take _); [|done]. cbn in Hs. by injection Hs as _ <- _.
  - unfold notify_turn in Hs. rewrite Hw in Hs. by injection Hs as _ <- _.
Qed.

Lemma vx_step_released w x w' :
  waiters (cv w) = 0%Z -> no_entry w -> calls_wait x = false -> vx_step w x = Some w' ->
  waiters (cv w') = 0%Z /\ no_entry w'.
Proof.
  intros Hw Hno Hx (p & q & Hp & Hs & Ht)%vx_step_inv. split.
  - apply (task_step_waiters _ _ _ _ _ _ _ Hs Hw). intros forever ->. by apply (Hno x.1 forever).
  - intros i forever Hi. rewrite Ht in Hi. destruct (decide (x.1 = i)) as [<-|Hne].
    + rewrite list_lookup_insert_eq in Hi by by eapply lookup_lt_Some. injection Hi as ->.
      apply task_step_entry in Hs. unfold calls_wait in Hx. by rewrite Hs in Hx.
    + rewrite list_lookup_insert_ne in Hi by done. by apply (Hno i forever).
Qed.

Lemma vx_run_released l w w' :
  waiters (cv w) = 0%Z -> no_entry w -> existsb calls_wait l = false -> vx_run w l = Some w' ->
  waiters (cv w') = 0%Z /\ no_entry w'.
Proof.
  revert w. induction l as [|x l IH]; intros w Hw Hno Hl; cbn; [by intros [= <-]|].
  cbn in Hl. apply orb_false_iff in Hl as [Hx Hl]. destruct (vx_step w x) as [w1|] eqn:E; [|done].
  destruct (vx_step_released w x w1 Hw Hno Hx E). by apply IH.
Qed.

End condvar.

(** ** Concrete tasks *)

#[export] Instance nat_sem : SemLib nat bool := {|
  semCCreate n := n;
  semc_take n := match n with O => None | S n => Some n end;
  semc_give := S;
  semBCreate b := b;
  semb_take b := if b then Some false else None;
  semb_give _ := true;
|}.

#[export] Instance nat_laws : SemLaws nat bool.
Proof. by refine {| available (n : nat) := n; full (b : bool) := b |}; [| |intros []| | |intros []]. Defined.

(** Task 0 waits without a time-out. *)
Definition waits : list (nat * action) := [(0, Acquire); (0, CallWait true); (0, Run); (0, Run)].
Definition notifies : list (nat * action) := [(1, CallNotify); (1, Run); (1, Run)].

Definition vx_after (l : list (nat * action)) : VxWorld nat bool := default (vx_start 3) (vx_run (vx_start 3) l).

Lemma condvar_balanced_witness :
  let w := vx_after (waits ++ notifies) in
  (waiters (cv w) + Z.of_nat (available (sema (cv w))) = count registered (tasks w))%Z /\
  (forall i, tasks w !! i = Some (WReconcile false) -> (waiters (cv w) <= 0)%Z -> is_Some (semc_take (sema (cv w)))) /\
  ((forall i p, tasks w !! i = Some p -> registered p = false) -> waiters (cv w) = 0%Z /\ semc_take (sema (cv w)) = None).
Proof. apply (condvar_balanced 3 (waits ++ notifies)). reflexivity. Defined.


(** A task that enters a wait after the notification can take the count of a
    task that was notified but has not come to its [semTake] yet: that one then
    sleeps on, without a time-out, although it was waiting when [notify_all] was
    called. *)
Lemma wakeup_stolen :
  let w := vx_after (waits ++ notifies ++ [(1, Run)] ++
             [(2, Acquire); (2, CallWait true); (2, Run); (2, Run); (2, Run); (2, Run); (2, Run); (2, Release)]) in
  tasks w = [WTake true; Idle; Idle] /\ vx_step w (0, Run) = None /\ vx_step w (0, Timeout) = None.
Proof. by split_and!. Qed.
