(* ===== verification/VxTasks.v ===== *)
(** * Threads on VxWorks

    [thread] of src/platform/vxworks/threading.cpp: a task and a state on the
    heap that the thread object and its task share, until [join] deletes it.
    The two sides are interleaved steps; touching a deleted state is undefined. *)

From S2P Require Import Prelude Core VxThreads.

(** Where the task is: in its function, before [semGive(state->done)], or over. *)
Inductive task_pc := NoTask | InFunction | BeforeGive | TaskOver.

(** Where the owner is: not in a call, or in [join] before [semTake], or between
    it and the deletion. *)
Inductive owner_pc := Outside | Joining | Deleting.

(** [state_] is [handle]; the [TaskState] is on the heap while [done_sem] is
    there.  [ran]: how often the function came to an end. *)
Record ThreadWorld (B : Type) : Type := mkThreadWorld {
  handle : bool;
  done_sem : option B;
  task : task_pc;
  owner : owner_pc;
  ran : nat;
}.
Arguments mkThreadWorld {B}.
Arguments handle {B}.
Arguments done_sem {B}.
Arguments task {B}.
Arguments owner {B}.
Arguments ran {B}.

(** [Start ok]: [taskSpawn] succeeds or not.  [Return]: the function returns. *)
Inductive thread_step := Start (spawned : bool) | Return | Give | CallJoin | Take | Delete.

Section threads.
Context {C B : Type} {SL : SemLib C B}.

Definition no_thread : ThreadWorld B := mkThreadWorld false None NoTask Outside 0.

(** [None]: the step cannot be made now. *)
Definition step_thread (s : thread_step) (w : ThreadWorld B) : option (outcome (ThreadWorld B)) :=
  match s, owner w, task w with
  | Start ok, Outside, NoTask =>
      Some (Val (if ok then mkThreadWorld true (Some (semBCreate false)) InFunction Outside (ran w) else w))
  | Return, _, InFunction => Some (Val (mkThreadWorld (handle w) (done_sem w) BeforeGive (owner w) (S (ran w))))
  | Give, _, BeforeGive =>
      Some (match done_sem w with
            | Some s => Val (mkThreadWorld (handle w) (Some (semb_give s)) TaskOver (owner w) (ran w))
            | None => Undefined
            end)
  | CallJoin, Outside, _ =>
      Some (Val (if handle w then mkThreadWorld true (done_sem w) (task w) Joining (ran w) else w))
  | Take, Joining, _ =>
      match done_sem w with
      | None => Some Undefined
      | Some s => s ← semb_take s; Some (Val (mkThreadWorld (handle w) (Some s) (task w) Deleting (ran w)))
      end
  | Delete, Deleting, _ =>
      Some (match done_sem w with
            | Some _ => Val (mkThreadWorld false None (task w) Outside (ran w))
            | None => Undefined
            end)
  | _, _, _ => None
  end.

Inductive reachable : outcome (ThreadWorld B) -> Prop :=
| reach_start : reachable (Val no_thread)
| reach_step w s r : reachable (Val w) -> step_thread s w = Some r -> reachable r.

Context {L : SemLaws C B}.

(** What holds of a thread object that is reached. *)
Record thread_ok (w : ThreadWorld B) : Prop := mkThreadOk {
  to_heap : handle w = bool_decide (is_Some (done_sem w));
  to_owner : owner w <> Outside -> handle w = true;
  to_task : task w <> NoTask -> handle w = false -> task w = TaskOver;
  to_none : task w = NoTask -> handle w = false;
  to_ran : ran w = match task w with BeforeGive | TaskOver => 1 | _ => 0 end;
  to_sem : forall s, done_sem w = Some s ->
    full s = match task w, owner w with TaskOver, (Outside | Joining) => true | _, _ => false end;
  to_deleting : owner w = Deleting -> task w = TaskOver;
}.

Lemma no_thread_ok : thread_ok no_thread.
Proof. by split. Qed.

Lemma step_thread_ok w s r : thread_ok w -> step_thread s w = Some r -> exists w', r = Val w' /\ thread_ok w'.
Proof.
  destruct w as [h d t o n]. intros [H1 H2 H3 H4 H5 H6 H7]. cbn in *. subst h n.
  destruct s as [ok| | | | |]; cbn.
  - destruct o, t; try done. intros [= <-]. destruct ok; eexists; (split; [done|]); [|by split].
    split; cbn; try done. intros s [= <-]. apply full_create.
  - destruct t; try done. intros [= <-]. eexists. split; [done|]. split; cbn; try done.
    + intros _ Hh. by specialize (H3 ltac:(discriminate) Hh).
    + intros Ho. by specialize (H7 Ho).
  - destruct t; try done. intros [= <-]. destruct d as [s|].
    + eexists. split; [done|]. split; cbn; try done. intros s' [= <-]. rewrite full_give. destruct o; try done. by specialize (H7 eq_refl).
    + by specialize (H3 ltac:(discriminate) eq_refl).
  - destruct o; try done. intros [= <-]. destruct (bool_decide (is_Some d)) eqn:Hd; eexists; (split; [done|]); split; cbn; try done.
  - destruct o; try done. destruct d as [s|]; [|by specialize (H2 ltac:(discriminate))].
    pose proof (full_take s) as Hf. destruct (semb_take s) as [s'|]; [|done]. intros [= <-]. destruct Hf as [Hf1 Hf2].
    assert (t = TaskOver) as -> by (rewrite (H6 s eq_refl) in Hf1; by destruct t).
    eexists. split; [done|]. split; cbn; try done. by intros s0 [= <-].
  - destruct o; try done. intros [= <-]. specialize (H7 eq_refl). subst t. destruct d as [s|]; [|by specialize (H2 ltac:(discriminate))].
    eexists. split; [done|]. by split.
Qed.

Lemma reachable_ok r : reachable r -> exists w, r = Val w /\ thread_ok w.
Proof.
  induction 1 as [|w s r Hr (w0 & [= <-] & Hw) Hs]; [exists no_thread; split; [done|apply no_thread_ok]|].
  by eapply step_thread_ok.
Qed.

(** A thread object, however its owner's steps and its task's interleave:
    neither side ever touches a state that was deleted; the function runs at
    most once; and when [join] is about to delete the state, and after it has,
    the function has returned and the task will not touch the state again. *)
Theorem thread_join_safe r :
  reachable r ->
  exists w, r = Val w /\ ran w <= 1 /\
    (owner w = Deleting \/ (handle w = false /\ task w <> NoTask) -> task w = TaskOver /\ ran w = 1).
Proof.
  intros (w & -> & [H1 H2 H3 H4 H5 H6 H7])%reachable_ok. exists w. split; [done|]. split; [rewrite H5; destruct (task w); lia|].
  intros [Ho|[Hh Ht]]; [specialize (H7 Ho)|specialize (H3 Ht Hh)]; rewrite H5; [by rewrite H7|by rewrite H3].
Qed.

(** [join] gets through as soon as the task is over. *)
Lemma join_progress w s :
  thread_ok w -> task w = TaskOver -> owner w = Joining -> done_sem w = Some s ->
  exists w', step_thread Take w = Some (Val w') /\ owner w' = Deleting.
Proof.
  intros Hok Ht Ho Hs. pose proof (to_sem w Hok s Hs) as Hf. rewrite Ht, Ho in Hf.
  unfold step_thread. rewrite Ho, Hs. pose proof (full_take s) as Hfs. destruct (semb_take s) as [s'|]; [by eexists|congruence].
Qed.

(** When the task cannot be spawned the object stays without a thread, and its
    function never runs; nothing tells the caller. *)
Lemma spawn_failure_silent : step_thread (Start false) no_thread = Some (Val no_thread).
Proof. done. Qed.
End threads.

Section witness.
#[local] Existing Instances nat_sem nat_laws.

Lemma thread_join_safe_witness :
  let w : ThreadWorld bool := mkThreadWorld false None TaskOver Outside 1 in ran w <= 1.
Proof.
  intros w. assert (reachable (Val w)) as Hr.
  { eapply (reach_step (mkThreadWorld true (Some false) TaskOver Deleting 1) Delete); [|reflexivity].
    eapply (reach_step (mkThreadWorld true (Some true) TaskOver Joining 1) Take); [|reflexivity].
    eapply (reach_step (mkThreadWorld true (Some false) BeforeGive Joining 1) Give); [|reflexivity].
    eapply (reach_step (mkThreadWorld true (Some false) InFunction Joining 0) Return); [|reflexivity].
    eapply (reach_step (mkThreadWorld true (Some false) InFunction Outside 0) CallJoin); [|reflexivity].
    eapply (reach_step no_thread (Start true)); [apply reach_start|reflexivity]. }
  destruct (thread_join_safe _ Hr) as (w' & [= <-] & H & _). exact H.
Defined.
End witness.
