(* ===== verification/OneShot.v ===== *)
(** * A value handed from one thread to another

    [OneShot] of include/mcp/sys/threading.hpp on the VxWorks primitives: the
    thread in [get], the thread in [set] and the owner that destroys the object
    once [get] has returned, as interleaved steps over the condition variable
    and the mutex of VxThreads.v.  Touching a destroyed object is undefined. *)

From S2P Require Import Prelude Core VxThreads.

(** What [set] is called with: a value, or nothing for [OneShot<void>]. *)
Inductive Payload (T : Type) := Value (v : T) | Signal.
Arguments Value {T}.
Arguments Signal {T}.

(** Where the thread in [get] is: before the lock, testing the predicate, in
    [cv_.wait], moving the value out, before the unlock, returned. *)
Inductive getter (T : Type) := GLock | GTest | GWait | GMove | GUnlock (r : option T) | GDone (r : option T).
Arguments GLock {T}.
Arguments GTest {T}.
Arguments GWait {T}.
Arguments GMove {T}.
Arguments GUnlock {T}.
Arguments GDone {T}.

(** Where the thread in [set] is. *)
Inductive setter := SLock | SValue | SReady | SNotify | SNotifying | SUnlock | SDone.

(** Task 0 of the primitives' world is the one in [get], task 1 the one in [set]. *)
Record OneShot (C B T : Type) := mkOneShot {
  prims : VxWorld C B;     (** [mutex_] and [cv_] *)
  value_ : option T;
  ready_ : bool;
}.
Arguments mkOneShot {C B T}.
Arguments prims {C B T}.
Arguments value_ {C B T}.
Arguments ready_ {C B T}.

Record Handoff (C B T : Type) := mkHandoff {
  shot : OneShot C B T;
  alive : bool;
  get_at : getter T;
  set_at : setter;
}.
Arguments mkHandoff {C B T}.
Arguments shot {C B T}.
Arguments alive {C B T}.
Arguments get_at {C B T}.
Arguments set_at {C B T}.

Inductive turn := Get | Set_ | Destroy.

Section oneshot.
Context {C B T : Type} {SL : SemLib C B}.
#[local] Abbreviation object := (OneShot C B T).
#[local] Abbreviation handoff := (Handoff C B T).

Definition primitive (i : nat) (a : action) (o : object) : option object :=
  w ← vx_step (prims o) (i, a); Some (mkOneShot w (value_ o) (ready_ o)).

(** Whether the call of the primitives that task [i] is in has returned. *)
Definition returned (i : nat) (o : object) : bool :=
  match tasks (prims o) !! i with Some Holding => true | _ => false end.

(** One step of [get]; [None] while it is blocked. *)
Definition get_step (payload : Payload T) (g : getter T) (o : object) : option (outcome (getter T * object)) :=
  match g with
  | GLock => o ← primitive 0 Acquire o; Some (Val (GTest, o))
  | GTest =>
      if ready_ o then Some (Val (match payload with Value _ => GMove | Signal => GUnlock None end, o))
      else o ← primitive 0 (CallWait true) o; Some (Val (GWait, o))
  | GWait => o ← primitive 0 Run o; Some (Val (if returned 0 o then GTest else GWait, o))
  | GMove => Some (match value_ o with Some v => Val (GUnlock (Some v), o) | None => Undefined end)
  | GUnlock r => o ← primitive 0 Release o; Some (Val (GDone r, o))
  | GDone _ => None
  end.

(** One step of [set]: the notification is made with the lock held. *)
Definition set_step (payload : Payload T) (s : setter) (o : object) : option (outcome (setter * object)) :=
  match s with
  | SLock => o ← primitive 1 Acquire o; Some (Val (match payload with Value _ => SValue | Signal => SReady end, o))
  | SValue => Some (Val (SReady, mkOneShot (prims o) (match payload with Value v => Some v | Signal => value_ o end) (ready_ o)))
  | SReady => Some (Val (SNotify, mkOneShot (prims o) (value_ o) true))
  | SNotify => o ← primitive 1 CallNotify o; Some (Val (SNotifying, o))
  | SNotifying => o ← primitive 1 Run o; Some (Val (if returned 1 o then SUnlock else SNotifying, o))
  | SUnlock => o ← primitive 1 Release o; Some (Val (SDone, o))
  | SDone => None
  end.

Definition moved {X : Type} (f : X * object -> handoff) (r : option (outcome (X * object))) : option (outcome handoff) :=
  fmap (M := option) (fmap (M := outcome) f) r.

(** A step of one of the parties: what is left of a call is undefined once the
    object is destroyed, which its owner does after [get]. *)
Definition handoff_step (payload : Payload T) (t : turn) (h : handoff) : option (outcome handoff) :=
  match t with
  | Get =>
      match get_at h with
      | GDone _ => None
      | g =>
          if alive h then moved (fun '(g, o) => mkHandoff o true g (set_at h)) (get_step payload g (shot h))
          else Some Undefined
      end
  | Set_ =>
      match set_at h with
      | SDone => None
      | s =>
          if alive h then moved (fun '(s, o) => mkHandoff o true (get_at h) s) (set_step payload s (shot h))
          else Some Undefined
      end
  | Destroy =>
      match get_at h with
      | GDone _ => if alive h then Some (Val (mkHandoff (shot h) false (get_at h) (set_at h))) else None
      | _ => None
      end
  end.

Definition new_handoff : handoff := mkHandoff (mkOneShot (vx_start 2) None false) true GLock SLock.

(** The parties' turns in some order; a turn of a party that is blocked is not
    possible. *)
Fixpoint handoff_run (payload : Payload T) (l : list turn) (h : handoff) : option (outcome handoff) :=
  match l with
  | [] => Some (Val h)
  | t :: l =>
      r ← handoff_step payload t h;
      match r with Val h => handoff_run payload l h | Throw e => Some (Throw e) | Undefined => Some Undefined end
  end.

(** ** What holds of a handoff that is reached *)

Context {L : SemLaws C B}.

Definition payload_value (payload : Payload T) : option T := match payload with Value v => Some v | Signal => None end.

(** Where in the primitives the threads can be. *)
Definition at_get (g : getter T) (p : pc) : bool :=
  match g, p with
  | (GLock | GDone _), Idle | (GTest | GMove | GUnlock _), Holding => true
  | GWait, (WEnter true | WUnlock true | WTake true | WReconcile true | WLock) => true
  | _, _ => false
  end.

Definition at_set (s : setter) (p : pc) : bool :=
  match s, p with
  | (SLock | SDone), Idle | (SValue | SReady | SNotify | SUnlock), Holding | SNotifying, (NEnter true | NLoop true) => true
  | _, _ => false
  end.

Definition holds_mutex (p : pc) : bool :=
  match p with Holding | WEnter _ | WUnlock _ | NEnter true | NLoop true => true | _ => false end.

Definition after_value (s : setter) : bool := match s with SLock | SValue => false | _ => true end.
Definition after_ready (s : setter) : bool := match s with SLock | SValue | SReady => false | _ => true end.
Definition after_notify (s : setter) : bool := match s with SUnlock | SDone => true | _ => false end.

(** On its way into the wait; and out of it. *)
Definition entering (p : pc) : bool := match p with WEnter _ | WUnlock _ => true | _ => false end.
Definition woken (p : pc) : bool := match p with WReconcile _ | WLock => true | _ => false end.

Definition got (g : getter T) : bool := match g with GMove | GUnlock _ | GDone _ => true | _ => false end.

(** The threads at [p0] and [p1], the condition variable [v] and the mutex [m]. *)
Record prims_ok (payload : Payload T) (g : getter T) (s : setter) (p0 p1 : pc) (v : CondVar C B) (m : B) : Prop := mkPrimsOk {
  po_get : at_get g p0 = true;
  po_set : at_set s p1 = true;
  po_mutex : (Z.b2z (full m) + Z.b2z (holds_mutex p0) + Z.b2z (holds_mutex p1) = 1)%Z;
  po_balanced : balanced (mkVxWorld v m [p0; p1]);
  po_entering : after_ready s = true -> entering p0 = false;
  po_asleep : after_ready s = false -> woken p0 = false /\ available (sema v) = 0;
  po_notified : after_notify s = true -> waiters v = 0%Z;
  po_got : got g = true -> s = SDone;
}.

Record handoff_ok (payload : Payload T) (h : handoff) : Prop := mkHandoffOk {
  hk_prims : exists p0 p1, tasks (prims (shot h)) = [p0; p1] /\
    prims_ok payload (get_at h) (set_at h) p0 p1 (cv (prims (shot h))) (user_mutex (prims (shot h)));
  hk_ready : ready_ (shot h) = after_ready (set_at h);
  hk_value : value_ (shot h) = if after_value (set_at h) then payload_value payload else None;
  hk_move : get_at h = GMove -> is_Some (payload_value payload);
  hk_result : match get_at h with GUnlock r | GDone r => r = payload_value payload | _ => True end;
  hk_alive : alive h = false -> exists r, get_at h = GDone r;
}.

Lemma new_handoff_ok payload : handoff_ok payload new_handoff.
Proof.
  split; try done. exists Idle, Idle. split; [done|]. split; try done.
  - change (user_mutex _) with (semBCreate (C := C) (B := B) true). by rewrite full_create.
  - exact (balanced_start 2).
  - intros _. split; [done|]. exact (available_create 0).
Qed.

(** *** How far the parties have to go *)

Definition get_rank (g : getter T) (p : pc) (ready : bool) : nat :=
  match g with
  | GLock => 10
  | GTest => if ready then 3 else 9
  | GWait => match p with WEnter _ => 8 | WUnlock _ => 7 | WTake _ => 6 | WReconcile _ => 5 | _ => 4 end
  | GMove => 2
  | GUnlock _ => 1
  | GDone _ => 0
  end.

Definition set_rank (s : setter) (p : pc) (waiting : Z) : nat :=
  match s with
  | SLock => 9
  | SValue => 8
  | SReady => 7
  | SNotify => 6
  | SNotifying => match p with NLoop _ => 2 + Z.to_nat waiting | _ => 5 end
  | SUnlock => 1
  | SDone => 0
  end.

Definition handoff_rank (h : handoff) : nat :=
  get_rank (get_at h) (default Idle (tasks (prims (shot h)) !! 0)) (ready_ (shot h)) +
  set_rank (set_at h) (default Idle (tasks (prims (shot h)) !! 1)) (waiters (cv (prims (shot h)))) +
  (if alive h then 1 else 0).

(** *** A step *)

Definition other (i : nat) (p0 p1 q : pc) : list pc := <[i := q]> [p0; p1].

Lemma primitive_inv i a p0 p1 v m vl rd o' :
  primitive i a (mkOneShot (mkVxWorld v m [p0; p1]) vl rd) = Some o' ->
  exists p q v' m', [p0; p1] !! i = Some p /\ task_step a p v m = Some (q, v', m') /\
    o' = mkOneShot (mkVxWorld v' m' (<[i := q]> [p0; p1])) vl rd /\
    (balanced (mkVxWorld v m [p0; p1]) -> balanced (mkVxWorld v' m' (<[i := q]> [p0; p1]))).
Proof.
  unfold primitive. cbn [prims value_ ready_]. destruct (vx_step _ _) as [w|] eqn:E; [|done]. intros [= <-].
  destruct (vx_step_inv _ _ _ E) as (p & q & Hp & Hs & Ht). cbn [fst snd cv user_mutex tasks] in *.
  exists p, q, (cv w), (user_mutex w). destruct w as [v' m' ts]. cbn in *. subst ts.
  split_and!; try done. intros Hb. exact (vx_step_balanced _ _ _ Hb E).
Qed.

(** The places a party can be at, from [at_get] or [at_set]. *)
Ltac places H :=
  repeat match type of H with
  | _ ?p = true => is_var p; destruct p; try discriminate H
  | _ (_ ?f) = true => is_var f; destruct f; try discriminate H
  end.

Lemma taken m m' (b0 b1 : bool) :
  semb_take m = Some m' -> (Z.b2z (full m) + Z.b2z b0 + Z.b2z b1 = 1)%Z -> b0 = false /\ b1 = false /\ full m' = false.
Proof. intros Ht. pose proof (full_take m) as H. rewrite Ht in H. destruct H as [-> ->], b0, b1; cbn; intros; split_and!; done || lia. Qed.

#[local] Arguments primitive : simpl never.
#[local] Arguments Z.add : simpl never.

(** A primitive's step: where the task was and is, and the world after it. *)
Ltac primitive_step H :=
  match type of H with context [primitive ?i ?a ?o] =>
    let E := fresh "E" in let p := fresh "p" in let o' := fresh "o'" in
    destruct (primitive i a o) as [o'|] eqn:E; [|discriminate H];
    apply primitive_inv in E as (p & ? & ? & ? & [= <-] & E & -> & Hb'); cbn in H
  end.

Lemma guarded_fields f (v v' : CondVar C B) :
  guarded f v = Some v' -> (sema v', waiters v') = f (sema v) (waiters v) /\ full (internal v') = true.
Proof.
  unfold guarded. destruct (semb_take _); [|done]. cbn. destruct (f _ _) as [x y]. intros [= <-]. split; [done|]. apply full_give.
Qed.

Lemma not_notified s : after_ready s = false -> after_notify s = false.
Proof. by destruct s. Qed.

Lemma set_rank_before s p n n' : after_ready s = false -> set_rank s p n = set_rank s p n'.
Proof. by destruct s. Qed.

(** The state after the step, with the tasks at [q0] and [q1]. *)
Ltac stepped q0 q1 :=
  eexists; split; [reflexivity|]; split;
  [split; cbn; try done; exists q0, q1; split; [done|]; split; cbn; try done;
   try (match goal with H : balanced _ -> balanced _ |- _ => by apply H end)
  |unfold handoff_rank; cbn; try lia].

Lemma get_step_ok payload h r :
  handoff_ok payload h -> handoff_step payload Get h = Some r ->
  exists h', r = Val h' /\ handoff_ok payload h' /\ handoff_rank h' < handoff_rank h.
Proof.
  destruct h as [[[v m ts] vl rd] al g s]. intros [(p0 & p1 & Ht & [Hg Hs Hm Hb He Ha Hn Hd]) Hr Hv Hmv Hres Hal]. cbn in *. subst ts rd vl.
  intros H. assert (al = true) as ->. { destruct al; [done|]. destruct (Hal eq_refl) as [r' ->]. done. }
  destruct g; cbn in H; try done.
  - primitive_step H. injection H as <-. places Hg. cbn in E.
    destruct (semb_take m) as [m1|] eqn:Em; [|done]. injection E as <- <- <-. destruct (taken _ _ _ _ Em Hm) as (_ & Hp1 & Hf).
    stepped Holding p1; [by rewrite Hf, Hp1|]. destruct (after_ready s); lia.
  - places Hg. destruct (after_ready s) eqn:Er.
    + injection H as <-. assert (s = SDone) as ->.
      { destruct s; try done; places Hs; destruct (full m); cbn in Hm; lia. }
      destruct payload as [x|]; stepped Holding p1.
    + primitive_step H. injection H as <-. cbn in E. injection E as <- <- <-.
      stepped (WEnter true) p1; rewrite ?Er; try done; try lia.
  - primitive_step H. injection H as <-. places Hg; cbn in E.
    + destruct (enter_wait v) as [v1|] eqn:Ev; [|done]. injection E as <- <- <-. apply guarded_fields in Ev as [[= E1 E2] _].
      assert (after_ready s = false) as Er by (destruct (after_ready s); [by discriminate He|done]).
      stepped (WUnlock true) p1; rewrite ?Er, ?E1; try done; try by auto.
      * by rewrite (not_notified s Er).
      * rewrite (set_rank_before s p1 _ (waiters v) Er). lia.
    + injection E as <- <- <-.
      assert (after_ready s = false) as Er by (destruct (after_ready s); [by discriminate He|done]).
      stepped (WTake true) p1; rewrite ?full_give; try done. destruct (full m), (holds_mutex p1); cbn in Hm; cbn; lia.
    + pose proof (available_take (sema v)) as Hav. destruct (semc_take (sema v)) as [c|]; [|done]. injection E as <- <- <-.
      assert (after_ready s = true) as Er by (destruct (after_ready s); [done|destruct (Ha eq_refl); lia]).
      stepped (WReconcile true) p1; by rewrite Er.
    + destruct (reconcile true v) as [v1|] eqn:Ev; [|done]. injection E as <- <- <-. apply guarded_fields in Ev as [[= E1 E2] _].
      stepped WLock p1; rewrite ?E1, ?E2; try done. lia.
    + destruct (semb_take m) as [m1|] eqn:Em; [|done]. injection E as <- <- <-. destruct (taken _ _ _ _ Em Hm) as (_ & Hp1 & Hf).
      assert (after_ready s = true) as Er by (destruct (after_ready s); [done|by destruct (Ha eq_refl)]).
      stepped Holding p1; rewrite ?Hf, ?Hp1, ?Er; try done; lia.
  - places Hg. rewrite (Hd eq_refl) in *. cbn in *. destruct (Hmv eq_refl) as [x Hx]. rewrite Hx in H. injection H as <-.
    stepped Holding p1.
  - primitive_step H. injection H as <-. places Hg. cbn in E. injection E as <- <- <-.
    stepped Idle p1. rewrite full_give. destruct (full m), (holds_mutex p1); cbn in Hm; cbn; lia.
Qed.

Lemma one_waiter v m p0 p1 :
  balanced (mkVxWorld v m [p0; p1]) -> registered p1 = false -> (0 <= waiters v <= 1)%Z.
Proof. intros [Hw Hc _] Hr. cbn in *. rewrite Hr in Hc. destruct (registered p0); cbn in Hc; lia. Qed.

Lemma held_alone m p0 p1 :
  (Z.b2z (full m) + Z.b2z (holds_mutex p0) + Z.b2z (holds_mutex p1) = 1)%Z -> holds_mutex p1 = true ->
  full m = false /\ holds_mutex p0 = false.
Proof. intros Hm Hp. rewrite Hp in Hm. destruct (full m), (holds_mutex p0); cbn in Hm; done || lia. Qed.

Lemma not_entering p : holds_mutex p = false -> entering p = false.
Proof. by destruct p. Qed.

Lemma set_step_ok payload h r :
  handoff_ok payload h -> handoff_step payload Set_ h = Some r ->
  exists h', r = Val h' /\ handoff_ok payload h' /\ handoff_rank h' < handoff_rank h.
Proof.
  destruct h as [[[v m ts] vl rd] al g s]. intros [(p0 & p1 & Ht & [Hg Hs Hm Hb He Ha Hn Hd]) Hr Hv Hmv Hres Hal]. cbn in *. subst ts rd vl.
  intros H. assert (s <> SDone) as Hs' by by intros ->.
  assert (got g = false) as Hg' by (destruct (got g); [by destruct (Hs' (Hd eq_refl))|done]).
  assert (al = true) as ->. { destruct al; [done|]. by destruct (Hal eq_refl) as [r' ->]. }
  destruct s; cbn in H; try done.
  - primitive_step H. injection H as <-. places Hs. cbn in E.
    destruct (semb_take m) as [m1|] eqn:Em; [|done]. injection E as <- <- <-.
    assert (holds_mutex p0 = false /\ full m1 = false) as [Hp0 Hf].
    { pose proof (full_take m) as Ht. rewrite Em in Ht. destruct Ht as [Hf1 Hf2], (holds_mutex p0); [rewrite Hf1 in Hm; cbn in Hm; lia|done]. }
    destruct payload as [x|]; stepped p0 Holding; rewrite ?Hf, ?Hp0, ?Hg'; done.
  - injection H as <-. places Hs. destruct payload as [x|]; stepped p0 Holding; rewrite ?Hg'; done.
  - injection H as <-. places Hs. destruct (held_alone _ _ _ Hm eq_refl) as [Hf Hp0].
    stepped p0 Holding; rewrite ?Hg'; try done; [intros _; by apply not_entering|].
    destruct g; cbn; try lia; by places Hg.
  - primitive_step H. injection H as <-. places Hs. cbn in E. injection E as <- <- <-.
    stepped p0 (NEnter true); rewrite ?Hg'; done.
  - primitive_step H. injection H as <-. places Hs; cbn in E.
    + destruct (notify_start v) as [v1|] eqn:Ev; [|done]. injection E as <- <- <-.
      unfold notify_start in Ev. destruct (semb_take (internal v)) as [i|]; [|done]. injection Ev as <-.
      pose proof (one_waiter v m p0 (NEnter true) Hb eq_refl). stepped p0 (NLoop true); rewrite ?Hg'; try done; try lia.
    + pose proof (one_waiter v m p0 (NLoop true) Hb eq_refl). unfold notify_turn in E.
      destruct (Z.ltb_spec 0 (waiters v)); injection E as <- <- <-.
      * stepped p0 (NLoop true); rewrite ?Hg'; try done; try lia.
      * stepped p0 Holding; rewrite ?Hg'; try done; try lia.
  - primitive_step H. injection H as <-. places Hs. cbn in E. injection E as <- <- <-.
    destruct (held_alone _ _ _ Hm eq_refl) as [Hf Hp0].
    stepped p0 Idle. by rewrite full_give, Hp0.
Qed.

Lemma handoff_step_ok payload t h r :
  handoff_ok payload h -> handoff_step payload t h = Some r ->
  exists h', r = Val h' /\ handoff_ok payload h' /\ handoff_rank h' < handoff_rank h.
Proof.
  destruct t; [apply get_step_ok|apply set_step_ok|]. intros Hok H. cbn in H.
  destruct (get_at h) as [| | | | |r'] eqn:Hg; try done. destruct (alive h) eqn:Hal; [|done]. injection H as <-.
  eexists. split; [done|]. split; [|unfold handoff_rank; cbn; rewrite Hg, Hal; lia].
  destruct Hok as [? ? ? ? ? ?]. rewrite Hg in *. split; cbn; try done. by eexists.
Qed.

(** *** The end *)

Lemma take_full m : full m = true -> is_Some (semb_take m).
Proof. pose proof (full_take m) as H. destruct (semb_take m); [done|]. by rewrite H. Qed.

Lemma guarded_full f (v : CondVar C B) : full (internal v) = true -> is_Some (guarded f v).
Proof. intros [i Hi]%take_full. unfold guarded. rewrite Hi. cbn. destruct (f _ _). done. Qed.

(** A task can make its step where [task_step] can. *)
Lemma primitive_blocked {X} (f : object -> X) i a p v m ts vl rd :
  primitive i a (mkOneShot (mkVxWorld v m ts) vl rd) ≫= (fun o => Some (f o)) = None -> ts !! i = Some p ->
  task_step a p v m = None.
Proof.
  unfold primitive, vx_step. cbn. intros H Hp. rewrite Hp in H. cbn in H.
  by destruct (task_step a p v m) as [[[? ?] ?]|].
Qed.

Lemma moved_None {X} (f : X * object -> handoff) r : moved f r = None -> r = None.
Proof. by destruct r. Qed.

Lemma internal_free v m p0 p1 :
  balanced (mkVxWorld v m [p0; p1]) -> notifying p0 = false -> notifying p1 = false -> full (internal v) = true.
Proof. intros [_ _ Hi] H0 H1. cbn in Hi. rewrite H0, H1 in Hi. destruct (full (internal v)); cbn in Hi; [done|lia]. Qed.

(** What [get] can be blocked by, when the other thread is not notifying. *)
Lemma get_blocked payload g s p0 p1 v m vl rd :
  prims_ok payload g s p0 p1 v m -> notifying p1 = false -> (g = GMove -> is_Some vl) ->
  get_step payload g (mkOneShot (mkVxWorld v m [p0; p1]) vl rd) = None ->
  (exists r, g = GDone r) \/ (full m = false /\ holds_mutex p0 = false) \/ (p0 = WTake true /\ semc_take (sema v) = None).
Proof.
  intros [Hg Hs Hm Hb He Ha Hn Hd] Hp1 Hmv H.
  assert (task_step Acquire p0 v m = None -> at_get GLock p0 = true -> full m = false) as Hlock.
  { intros E Hp. destruct p0; try done. cbn in E. destruct (full m) eqn:Ef; [|done]. apply take_full in Ef as [? Ef]. by rewrite Ef in E. }
  destruct g; cbn in H.
  - apply (primitive_blocked _ _ _ p0) in H; [|done]. right. left. split; [by apply Hlock|by places Hg].
  - places Hg. destruct rd; [done|]. by apply (primitive_blocked _ _ _ Holding) in H.
  - apply (primitive_blocked _ _ _ p0) in H; [|done]. right. places Hg; cbn in H.
    + destruct (guarded_full (fun c w => (c, (w + 1)%Z)) v) as [v1 Hv1]; [by apply (internal_free _ _ _ _ Hb)|].
      unfold enter_wait in H. by rewrite Hv1 in H.
    + done.
    + right. split; [done|]. by destruct (semc_take (sema v)).
    + destruct (guarded_full (fun c w => (c, w)) v) as [v1 Hv1]; [by apply (internal_free _ _ _ _ Hb)|].
      unfold reconcile in H. by rewrite Hv1 in H.
    + left. split; [|done]. destruct (full m) eqn:Ef; [|done]. apply take_full in Ef as [? Ef]. by rewrite Ef in H.
  - by destruct (Hmv eq_refl) as [x ->].
  - places Hg. by apply (primitive_blocked _ _ _ Holding) in H.
  - left. by eexists.
Qed.

(** [set] can only be blocked by a [get] that holds the mutex. *)
Lemma set_blocked payload g s p0 p1 v m vl rd :
  prims_ok payload g s p0 p1 v m -> notifying p0 = false ->
  set_step payload s (mkOneShot (mkVxWorld v m [p0; p1]) vl rd) = None -> s = SDone \/ s = SLock /\ full m = false.
Proof.
  intros [Hg Hs Hm Hb He Ha Hn Hd] Hp0 H. destruct s; cbn in H; try done; places Hs;
    try (eapply primitive_blocked in H; [|reflexivity]); try discriminate H.
  - right. split; [done|]. cbn in H. destruct (full m) eqn:Ef; [|done]. apply take_full in Ef as [? Ef]. by rewrite Ef in H.
  - cbn in H. unfold notify_start in H. destruct (take_full (internal v)) as [i Hi]; [by apply (internal_free _ _ _ _ Hb)|]. by rewrite Hi in H.
  - cbn in H. by destruct (notify_turn v).
  - by left.
Qed.

Lemma get_not_notifying g p : at_get g p = true -> notifying p = false.
Proof. by destruct g, p. Qed.

Lemma handoff_get_None payload o g s : handoff_step payload Get (mkHandoff o true g s) = None -> get_step payload g o = None.
Proof. destruct g; intros H; try exact (moved_None _ _ H). done. Qed.

Lemma handoff_set_None payload o g s : handoff_step payload Set_ (mkHandoff o true g s) = None -> set_step payload s o = None.
Proof. destruct s; intros H; try exact (moved_None _ _ H). done. Qed.

(** Somebody can go on, or all is done. *)
Lemma handoff_progress payload h :
  handoff_ok payload h -> (forall t, handoff_step payload t h = None) ->
  get_at h = GDone (payload_value payload) /\ set_at h = SDone /\ alive h = false.
Proof.
  destruct h as [[[v m ts] vl rd] al g s]. intros [(p0 & p1 & Ht & Hok) Hr Hv Hmv Hres Hal] H. cbn in Ht, Hok, Hr, Hv, Hmv, Hres, Hal.
  subst ts. pose proof Hok as [Hg Hs Hm Hb He Ha Hn Hd].
  destruct al; [|destruct (Hal eq_refl) as [r ->]; cbn in *; subst r; split_and!; [done|by apply Hd|done]].
  pose proof (handoff_get_None _ _ _ _ (H Get)) as HG. pose proof (handoff_set_None _ _ _ _ (H Set_)) as HS.
  eapply (set_blocked payload g) in HS; [|exact Hok|by eapply get_not_notifying].
  eapply (get_blocked payload g s) in HG; [|exact Hok|by destruct HS as [->|[-> _]]; places Hs|].
  2:{ intros ->. rewrite (Hd eq_refl) in Hv. cbn in Hv. rewrite Hv. by apply Hmv. }
  assert (holds_mutex p1 = false) as Hp1 by by destruct HS as [->|[-> _]]; places Hs.
  rewrite Hp1 in Hm. destruct HG as [[r ->]|[[Hf Hp0]|[-> Hav]]].
  - by specialize (H Destroy).
  - rewrite Hf, Hp0 in Hm. cbn in Hm. lia.
  - destruct HS as [->|[-> Hf]]; [|rewrite Hf in Hm; cbn in Hm; lia].
    pose proof (available_take (sema v)) as Hz. rewrite Hav in Hz. destruct Hb as [_ Hc _]. cbn in Hc. rewrite (Hn eq_refl), Hz in Hc.
    destruct (registered p1); cbn in Hc; lia.
Qed.

Lemma handoff_run_ok payload l h r :
  handoff_ok payload h -> handoff_run payload l h = Some r ->
  exists h', r = Val h' /\ handoff_ok payload h' /\ length l + handoff_rank h' <= handoff_rank h.
Proof.
  revert h. induction l as [|t l IH]; intros h Hok; cbn.
  - intros [= <-]. by exists h.
  - destruct (handoff_step payload t h) as [r1|] eqn:E; [|done]. cbn.
    destruct (handoff_step_ok _ _ _ _ Hok E) as (h1 & -> & Hok1 & Hlt). intros H.
    destruct (IH _ Hok1 H) as (h' & -> & Hok' & Hle). exists h'. split; [done|]. split; [done|lia].
Qed.

(** C19: a value handed over by [OneShot], however the threads in [get] and
    [set] and the owner that destroys the object once [get] has returned take
    turns: nobody touches a destroyed object or an empty [value_]; when [get]
    has returned, it has returned what [set] was given, and [set] has nothing
    left to do; nobody takes more than twenty turns together; and as long as
    the value is not handed over and the object not destroyed, somebody can go
    on.  So every schedule ends, with the value handed over. *)
Theorem oneshot_handoff payload l r :
  handoff_run payload l new_handoff = Some r ->
  length l <= 20 /\
  exists h, r = Val h /\
    (forall got, get_at h = GDone got -> got = payload_value payload /\ set_at h = SDone) /\
    ((forall t, handoff_step payload t h = None) ->
     get_at h = GDone (payload_value payload) /\ set_at h = SDone /\ alive h = false).
Proof.
  intros H. destruct (handoff_run_ok _ _ _ _ (new_handoff_ok payload) H) as (h & -> & Hok & Hle).
  split; [unfold handoff_rank in Hle; cbn in Hle; lia|]. exists h. split; [done|]. split; [|by apply handoff_progress].
  destruct Hok as [(p0 & p1 & _ & Hp) _ _ _ Hres _]. intros got Hg. rewrite Hg in Hres. split; [done|].
  apply (po_got _ _ _ _ _ _ _ Hp). by rewrite Hg.
Qed.
End oneshot.

Module OneShotDemo.
#[local] Existing Instances nat_sem nat_laws.

(** [get] waits first, is notified and ends after [set]. *)
Definition schedule : list turn :=
  replicate 4 Get ++ replicate 8 Set_ ++ replicate 6 Get ++ [Destroy].

Lemma oneshot_handoff_witness :
  exists h : Handoff nat bool nat, handoff_run (Value 7) schedule new_handoff = Some (Val h) /\ get_at h = GDone (Some 7).
Proof.
  destruct (handoff_run (C := nat) (B := bool) (Value 7) schedule new_handoff) as [r|] eqn:E; [|vm_compute in E; discriminate E].
  destruct (oneshot_handoff (Value 7) schedule r E) as (_ & h & -> & _ & H). exists h. split; [done|].
  apply H. vm_compute in E. injection E as <-. by intros [].
Defined.
End OneShotDemo.
