(* ===== verification/SysThreads.v ===== *)
(** * The rest of mcp::sys on VxWorks

    The mutex, the time-outs and the thread objects of
    include/mcp/sys/threading_vxworks.hpp and src/platform/vxworks/threading.cpp:
    why a mutual-exclusion semaphore can stand for the full-or-empty one of
    VxThreads.v, what a deadline becomes, and who owns a task's state. *)

From S2P Require Import Prelude Core VxThreads.
From stdpp Require Import fin_sets.

(** ** The mutex *)

(** The kernel's mutual-exclusion semaphores: a task takes one as often as it
    likes ([None]: it blocks, or a [NO_WAIT] fails), and only its owner can
    give it ([None]: an error). *)
Class SemMLib (M : Type) := {
  semMCreate : M;
  semm_take : nat -> M -> option M;
  semm_give : nat -> M -> option M;
}.

Class SemMLaws (M : Type) `{SemMLib M} := {
  holder : M -> option (nat * nat);   (** the owner, and how often it took it *)
  holder_create : holder semMCreate = None;
  holder_take t m :
    match semm_take t m with
    | Some m' =>
        (holder m = None /\ holder m' = Some (t, 1)) \/
        (exists n, holder m = Some (t, n) /\ holder m' = Some (t, S n))
    | None => exists t' n, holder m = Some (t', n) /\ t' <> t
    end;
  holder_give t m :
    match semm_give t m with
    | Some m' => exists n, holder m = Some (t, S n) /\ holder m' = if bool_decide (n = 0) then None else Some (t, n)
    | None => forall n, holder m <> Some (t, n)
    end;
}.

Section mutex.
Context {M : Type} {SM : SemMLib M}.

Definition make_mutex : M := semMCreate.

(** [None] while the task blocks. *)
Definition mutex_lock (t : nat) (m : M) : option M := semm_take t m.
(** The status of [semGive] is not looked at. *)
Definition mutex_unlock (t : nat) (m : M) : M := default m (semm_give t m).
Definition mutex_try_lock (t : nat) (m : M) : bool * M :=
  match semm_take t m with Some m' => (true, m') | None => (false, m) end.

(** What tasks do to a mutex; a task that holds it does not lock it again, and
    a task that does not hold it does not unlock it. *)
Inductive mutex_op := Lock (t : nat) | TryLock (t : nat) | Unlock (t : nat).

Definition mutex_step (x : mutex_op) (m : M) : option M :=
  match x with
  | Lock t => mutex_lock t m
  | TryLock t => Some (mutex_try_lock t m).2
  | Unlock t => Some (mutex_unlock t m)
  end.

Context {ML : SemMLaws M}.

Definition mutex_owner (m : M) : option nat := fst <$> holder m.

(** [lock_guard] and [unique_lock] lock and unlock in this way. *)
Definition disciplined (x : mutex_op) (m : M) : Prop :=
  match x with Lock t | TryLock t => mutex_owner m <> Some t | Unlock t => mutex_owner m = Some t end.

(** Taken at most once. *)
Definition taken_once (m : M) : Prop := forall t n, holder m = Some (t, n) -> n = 1.

(** ... and the same on a binary semaphore. *)
Definition binary_step {C B : Type} {SL : SemLib C B} (x : mutex_op) (b : B) : option B :=
  match x with
  | Lock _ => semb_take b
  | TryLock _ => Some (default b (semb_take b))
  | Unlock _ => Some (semb_give b)
  end.

Lemma make_mutex_free : mutex_owner make_mutex = None /\ taken_once make_mutex.
Proof. unfold mutex_owner, taken_once, make_mutex. rewrite holder_create. by split. Qed.

(** As long as it is used as a lock, the mutex is a binary semaphore: it blocks
    and lets through at the same steps. *)
Lemma mutex_binary {C B : Type} {SL : SemLib C B} {L : SemLaws C B} x (m : M) (b : B) :
  disciplined x m -> taken_once m -> full b = bool_decide (mutex_owner m = None) ->
  match mutex_step x m, binary_step x b with
  | Some m', Some b' => taken_once m' /\ full b' = bool_decide (mutex_owner m' = None)
  | None, None => True
  | _, _ => False
  end.
Proof.
  intros Hd Ho Hf. unfold disciplined, taken_once, mutex_owner in *. pose proof (full_take b) as Hb.
  destruct x as [t|t|t]; cbn [mutex_step binary_step]; unfold mutex_lock, mutex_try_lock, mutex_unlock.
  - pose proof (holder_take t m) as Ht. destruct (semm_take t m) as [m'|].
    + destruct Ht as [[H1 H2]|(n & H1 & _)]; [|by rewrite H1 in Hd]. rewrite H1 in Hf. cbn in Hf.
      destruct (semb_take b) as [b'|]; [|congruence]. destruct Hb as [_ Hb]. rewrite H2, Hb. split; [by intros ? ? [= _ <-]|done].
    + destruct Ht as (t' & n & H1 & Hne). rewrite H1 in Hf. cbn in Hf. destruct (semb_take b); [|done]. by destruct Hb; congruence.
  - pose proof (holder_take t m) as Ht. destruct (semm_take t m) as [m'|]; cbn [snd].
    + destruct Ht as [[H1 H2]|(n & H1 & _)]; [|by rewrite H1 in Hd]. rewrite H1 in Hf. cbn in Hf.
      destruct (semb_take b) as [b'|]; [|congruence]. destruct Hb as [_ Hb]. cbn. rewrite H2, Hb. split; [by intros ? ? [= _ <-]|done].
    + destruct Ht as (t' & n & H1 & Hne). rewrite H1 in Hf. cbn in Hf. destruct (semb_take b); [by destruct Hb; congruence|].
      cbn. split; [exact Ho|]. by rewrite Hf, H1.
  - pose proof (holder_give t m) as Ht. destruct (holder m) as [[t' n]|] eqn:E; [|done]. injection Hd as ->.
    pose proof (Ho _ _ eq_refl) as ->. destruct (semm_give t m) as [m'|]; [|by destruct (Ht 1)].
    destruct Ht as (n & [= <-] & H2). cbn in *. rewrite H2, full_give. by split.
Qed.

(** Unlike [std::mutex], where these are undefined: the owner that locks again
    is let through, and an unlock by another task is ignored. *)
Lemma mutex_lock_again t m n : holder m = Some (t, n) -> exists m', mutex_lock t m = Some m' /\ holder m' = Some (t, S n).
Proof.
  intros Hm. unfold mutex_lock. pose proof (holder_take t m) as Ht. destruct (semm_take t m) as [m'|].
  - destruct Ht as [[H _]|(k & H1 & H2)]; [congruence|]. exists m'. split; [done|]. congruence.
  - destruct Ht as (t' & k & H & Hne). congruence.
Qed.

Lemma mutex_unlock_other t m : mutex_owner m <> Some t -> mutex_unlock t m = m.
Proof.
  intros Hm. unfold mutex_unlock, mutex_owner in *. pose proof (holder_give t m) as Ht. destruct (semm_give t m); [|done].
  destruct Ht as (n & H & _). by rewrite H in Hm.
Qed.
End mutex.

(** ** Time-outs *)

(** [wait_until]: the clock counts nanoseconds; [duration_cast] cuts the rest. *)
Definition wait_until_ms (now deadline : Z) : Z :=
  if (now <? deadline)%Z then ((deadline - now) / 1000000)%Z else 0.

(** What [semTake] is given; -1 is [WAIT_FOREVER], 0 [NO_WAIT]. *)
Definition wait_ticks (rate timeout_ms : Z) : Z := if (timeout_ms <? 0)%Z then (-1)%Z else ms_to_ticks rate timeout_ms.

Definition wait_until_ticks (rate now deadline : Z) : Z := wait_ticks rate (wait_until_ms now deadline).

(** [sleep_for] of some nanoseconds: the argument of [taskDelay]. *)
Definition sleep_for_ms (rate milliseconds : Z) : Z :=
  if (milliseconds <=? 0)%Z then 0 else ms_to_ticks rate milliseconds.
Definition sleep_for (rate duration : Z) : Z := sleep_for_ms rate (Z.quot duration 1000000).

(** A wait with a deadline is never one without end, and ends at most a tick
    after the deadline's millisecond. *)
Lemma wait_until_bounds rate now deadline :
  (0 < rate)%Z -> (wait_until_ms now deadline * rate <= 1000 * (modulus 31 - 1))%Z ->
  (0 <= wait_until_ticks rate now deadline < modulus 31)%Z /\
  (1000 * (wait_until_ticks rate now deadline - 1) < wait_until_ms now deadline * rate)%Z.
Proof.
  intros Hr Hb. unfold wait_until_ticks, wait_ticks.
  assert (0 <= wait_until_ms now deadline)%Z as H0.
  { unfold wait_until_ms. destruct (Z.ltb_spec now deadline); [|lia]. apply Z.div_pos; lia. }
  rewrite (proj2 (Z.ltb_ge _ 0) H0). destruct (decide (wait_until_ms now deadline = 0)%Z) as [E|Hne].
  - rewrite E. unfold ms_to_ticks. cbn. unfold modulus. lia.
  - destruct (ms_to_ticks_bounds rate (wait_until_ms now deadline)) as [? ?]; lia.
Qed.

(** In the last millisecond before a deadline a wait does not wait at all: the
    rounding up of [ms_to_ticks] comes after the rounding down to milliseconds,
    and the session's timer loop spins until the deadline. *)
Lemma wait_until_no_wait rate now deadline :
  (deadline - now < 1000000)%Z -> wait_until_ticks rate now deadline = 0%Z.
Proof.
  intros H. unfold wait_until_ticks, wait_until_ms. destruct (Z.ltb_spec now deadline); [|done].
  by rewrite Z.div_small by lia.
Qed.

(** ** Thread objects

    Variables that hold a [thread], by name; a task's state is a number while
    it is on the heap.  What a state holds and how [join] waits is in
    VxTasks.v; here [join] is one step. *)

Record ThreadPool := mkThreadPool {
  objects : gmap nat (option nat);   (** each object's [state_] *)
  states : gset nat;                 (** on the heap *)
}.

(** What the program does to thread objects; [MoveAssign x y] is
    [x = std::move(y)]. *)
Inductive object_op :=
| DefaultThread (x : nat)
| StartThread (x : nat) (spawned : bool)
| MoveThread (x y : nat)
| MoveAssign (x y : nat)
| JoinThread (x : nat)
| DestroyThread (x : nat).

Definition joinable (s : option nat) : bool := match s with Some _ => true | None => false end.

(** [thread::get_id], the task's; none for an object without a task. *)
Definition get_id (tid : nat -> Z) (s : option nat) : option Z := tid <$> s.

(** [std::terminate]. *)
Definition terminate_exn : exn := ExnStd "terminate".

(** [Undefined]: no C++ program does this, the object does not exist or exists
    already. *)
Definition object_step (p : ThreadPool) (x : object_op) : outcome ThreadPool :=
  match x with
  | DefaultThread x =>
      match objects p !! x with
      | Some _ => Undefined
      | None => Val (mkThreadPool (<[x := None]> (objects p)) (states p))
      end
  | StartThread x spawned =>
      match objects p !! x with
      | Some _ => Undefined
      | None =>
          if spawned then
            let s := fresh (states p) in Val (mkThreadPool (<[x := Some s]> (objects p)) ({[s]} ∪ states p))
          else Val (mkThreadPool (<[x := None]> (objects p)) (states p))
      end
  | MoveThread x y =>
      match objects p !! x, objects p !! y with
      | None, Some s => Val (mkThreadPool (<[x := s]> (<[y := None]> (objects p))) (states p))
      | _, _ => Undefined
      end
  | MoveAssign x y =>
      match objects p !! x, objects p !! y with
      | Some sx, Some sy =>
          if joinable sx then Throw terminate_exn
          else Val (mkThreadPool (<[x := sy]> (<[y := sx]> (objects p))) (states p))
      | _, _ => Undefined
      end
  | JoinThread x =>
      match objects p !! x with
      | Some (Some s) => Val (mkThreadPool (<[x := None]> (objects p)) (states p ∖ {[s]}))
      | Some None => Val p
      | None => Undefined
      end
  | DestroyThread x =>
      match objects p !! x with
      | Some s => if joinable s then Throw terminate_exn else Val (mkThreadPool (delete x (objects p)) (states p))
      | None => Undefined
      end
  end.

Definition object_run (p : ThreadPool) (l : list object_op) : outcome ThreadPool :=
  foldl (fun r x => p ← r; object_step p x) (Val p) l.

Definition no_objects : ThreadPool := mkThreadPool ∅ ∅.

(** Each state on the heap has one owner, and owners have a state. *)
Record owned (p : ThreadPool) : Prop := mkOwned {
  ow_one : forall x y s, objects p !! x = Some (Some s) -> objects p !! y = Some (Some s) -> x = y;
  ow_live : forall s, s ∈ states p <-> exists x, objects p !! x = Some (Some s);
}.

Lemma no_objects_owned : owned no_objects.
Proof. split; cbn; [intros x y s H; by rewrite lookup_empty in H|]. intros s. split; [set_solver|]. intros [x H]. by rewrite lookup_empty in H. Qed.

(** What [x] owned, [y] owns. *)
Lemma owned_move p x y s :
  owned p -> objects p !! y = Some s -> (objects p !! x = None \/ objects p !! x = Some None) -> x <> y ->
  owned (mkThreadPool (<[x := s]> (<[y := None]> (objects p))) (states p)).
Proof.
  intros [H1 H2] Hy Hx Hne. assert (forall z t, <[x := s]> (<[y := None]> (objects p)) !! z = Some (Some t) <->
    objects p !! (if decide (z = x) then y else z) = Some (Some t) /\ z <> y) as Hl.
  { intros z t. destruct (decide (z = x)) as [->|Hz]; [rewrite lookup_insert_eq, Hy; naive_solver|].
    rewrite lookup_insert_ne by done. destruct (decide (z = y)) as [->|Hz']; [rewrite lookup_insert_eq; naive_solver|].
    rewrite lookup_insert_ne by done. naive_solver. }
  split; cbn.
  - intros a b t [Ha Ha']%Hl [Hb Hb']%Hl. pose proof (H1 _ _ _ Ha Hb) as E.
    destruct (decide (a = x)), (decide (b = x)); congruence.
  - intros t. rewrite H2. split; intros [a Ha].
    + exists (if decide (a = y) then x else a). apply Hl. destruct (decide (a = y)) as [->|Ha'].
      * rewrite decide_True by done. done.
      * rewrite decide_False; [done|]. intros ->. destruct Hx; congruence.
    + apply Hl in Ha as [Ha _]. by eexists.
Qed.

Lemma owned_none p x :
  owned p -> objects p !! x = None \/ objects p !! x = Some None ->
  owned (mkThreadPool (<[x := None]> (objects p)) (states p)) /\ owned (mkThreadPool (delete x (objects p)) (states p)).
Proof.
  intros [H1 H2] Hx.
  assert (forall z t, <[x := None]> (objects p) !! z = Some (Some t) <-> objects p !! z = Some (Some t)) as Hi.
  { intros z t. destruct (decide (z = x)) as [->|Hz]; [rewrite lookup_insert_eq; naive_solver|by rewrite lookup_insert_ne]. }
  assert (forall z t, delete x (objects p) !! z = Some (Some t) <-> objects p !! z = Some (Some t)) as Hd.
  { intros z t. destruct (decide (z = x)) as [->|Hz]; [rewrite lookup_delete_eq; naive_solver|by rewrite lookup_delete_ne]. }
  split; split; cbn.
  - intros a b t Ha%Hi Hb%Hi. by eapply H1.
  - intros t. rewrite H2. by setoid_rewrite Hi.
  - intros a b t Ha%Hd Hb%Hd. by eapply H1.
  - intros t. rewrite H2. by setoid_rewrite Hd.
Qed.

Lemma owned_start p x :
  owned p -> objects p !! x = None ->
  owned (mkThreadPool (<[x := Some (fresh (states p))]> (objects p)) ({[fresh (states p)]} ∪ states p)).
Proof.
  intros [H1 H2] Hx. pose proof (is_fresh (states p)) as Hf. set (s := fresh (states p)) in *.
  assert (forall z, objects p !! z <> Some (Some s)) as Hs by (intros z Hz; apply Hf, H2; by exists z).
  split; cbn.
  - intros a b t. destruct (decide (a = x)) as [->|Ha], (decide (b = x)) as [->|Hb];
      rewrite ?lookup_insert_eq, ?lookup_insert_ne by done; try naive_solver.
  - intros t. rewrite elem_of_union, elem_of_singleton, H2. split.
    + intros [->|[a Ha]]; [exists x; by rewrite lookup_insert_eq|]. exists a. rewrite lookup_insert_ne; [done|]. intros ->. congruence.
    + intros [a Ha]. destruct (decide (a = x)) as [->|Hne]; [rewrite lookup_insert_eq in Ha; injection Ha as <-; by left|].
      rewrite lookup_insert_ne in Ha by done. right. by exists a.
Qed.

Lemma owned_join p x s :
  owned p -> objects p !! x = Some (Some s) ->
  owned (mkThreadPool (<[x := None]> (objects p)) (states p ∖ {[s]})).
Proof.
  intros [H1 H2] Hx.
  assert (forall z t, <[x := None]> (objects p) !! z = Some (Some t) <-> objects p !! z = Some (Some t) /\ z <> x) as Hi.
  { intros z t. destruct (decide (z = x)) as [->|Hz]; [rewrite lookup_insert_eq; naive_solver|rewrite lookup_insert_ne by done; naive_solver]. }
  split; cbn.
  - intros a b t [Ha _]%Hi [Hb _]%Hi. by eapply H1.
  - intros t. rewrite elem_of_difference, elem_of_singleton, H2. split.
    + intros [[a Ha] Ht]. exists a. apply Hi. split; [done|]. intros ->. congruence.
    + intros [a [Ha Hne]%Hi]. split; [by exists a|]. intros ->. by destruct (Hne (H1 _ _ _ Ha Hx)).
Qed.

Lemma object_step_owned p x p' : owned p -> object_step p x = Val p' -> owned p'.
Proof.
  intros Ho. destruct x as [x|x [|]|x y|x y|x|x]; cbn; destruct (objects p !! x) as [sx|] eqn:Hx; try done.
  - intros [= <-]. by apply owned_none; [|left].
  - intros [= <-]. by apply owned_start.
  - intros [= <-]. by apply owned_none; [|left].
  - destruct (objects p !! y) as [sy|] eqn:Hy; [|done]. intros [= <-]. apply owned_move; [done..|by left|congruence].
  - destruct (objects p !! y) as [sy|] eqn:Hy; [|done]. destruct sx; [done|]. intros [= <-].
    destruct (decide (x = y)) as [<-|Hne]; [|by apply owned_move; [..|right|]].
    rewrite insert_insert_eq. replace sy with (@None nat) by congruence. by apply owned_none; [|right].
  - destruct sx as [s|]; intros [= <-]; [by apply owned_join|done].
  - destruct sx; [done|]. intros [= <-]. by apply owned_none; [|right].
Qed.

Lemma object_run_owned l p p' : owned p -> object_run p l = Val p' -> owned p'.
Proof.
  unfold object_run. revert p. induction l as [|x l IH]; intros p Ho; cbn; [by intros [= <-]|].
  destruct (object_step p x) as [p1|e|] eqn:E.
  - apply IH. by eapply object_step_owned.
  - intros H. exfalso. revert H. clear. induction l; [done|]. exact IHl.
  - intros H. exfalso. revert H. clear. induction l; [done|]. exact IHl.
Qed.

(** However a program constructs, moves, joins and destroys its thread objects:
    a task's state has one owner, and once the program has destroyed them all,
    without ending in [std::terminate], no state is left on the heap: every
    thread that was started has been joined. *)
Theorem threads_owned l p :
  object_run no_objects l = Val p ->
  (forall x y s, objects p !! x = Some (Some s) -> objects p !! y = Some (Some s) -> x = y) /\
  (objects p = ∅ -> states p = ∅).
Proof.
  intros H. destruct (object_run_owned _ _ _ no_objects_owned H) as [H1 H2]. split; [done|].
  intros He. apply set_eq. intros s. rewrite H2, He. split; [intros [x Hx]; by rewrite lookup_empty in Hx|set_solver].
Qed.

(** Overwriting or destroying an object whose thread was not joined ends the
    program. *)
Lemma unjoined_terminates p x y s :
  objects p !! x = Some (Some s) -> is_Some (objects p !! y) ->
  object_step p (DestroyThread x) = Throw terminate_exn /\ object_step p (MoveAssign x y) = Throw terminate_exn.
Proof. intros Hx [sy Hy]. cbn. by rewrite Hx, Hy. Qed.

Module SysThreadsDemo.
Definition program : list object_op :=
  [StartThread 0 true; DefaultThread 1; MoveAssign 1 0; StartThread 2 true; JoinThread 1; JoinThread 2;
   DestroyThread 2; DestroyThread 1; DestroyThread 0].

Lemma threads_owned_witness : exists p, object_run no_objects program = Val p /\ states p = ∅.
Proof.
  destruct (object_run no_objects program) as [p|e|] eqn:E; try discriminate E. exists p. split; [done|].
  apply (threads_owned program p E). vm_compute in E. injection E as <-. reflexivity.
Defined.

(** A clock of 60 ticks a second, half a millisecond to go. *)
Example no_wait : wait_until_ticks 60 0 500000 = 0%Z /\ wait_until_ticks 60 0 1000000 = 1%Z.
Proof. by split. Qed.
End SysThreadsDemo.
