(* ===== verification/Win32.v ===== *)
(** * Child processes and descriptors on Windows

    [spawn], [terminate] and the status helpers of
    src/platform/win32/process.cpp, and [is_socket], [close_fd],
    [shutdown_fd] and [poll_readable] of src/platform/win32/io.cpp, with the handles they open, the
    ones a child inherits and the two kinds of descriptor an [fd_t] can be. *)

From S2P Require Import Prelude Core State Lines Descriptors Platform Sockets Wake Quoting EnvBlock PlatformIo.

(** ** The system calls *)

Inductive handle_kind := HPipeRead | HPipeWrite | HProcess | HThread.

(** The arguments of [CreateProcessA] that are not constants. *)
Record startup := mkStartup {
  su_command_line : string;
  su_environment : string;
  su_cwd : option string;
  su_stdio : Z * Z * Z;       (** [hStdInput], [hStdOutput], [hStdError] *)
}.

(** A handle and whether children inherit it. *)
Abbreviation handle_table := (gmap Z (handle_kind * bool)).

Definition inheritable (t : handle_table) : handle_table := filter (fun kv => kv.2.2 = true) t.

(** A child that was started, with the handles it inherited. *)
Record child := mkChild { ch_startup : startup; ch_handles : handle_table }.

(** SOCKETs are the descriptors of [Kernel]; a CRT descriptor is a small number
    that the run-time library maps to a handle. *)
Class WinKernel (W : Type) {KW : Kernel W} := {
  handles : W -> handle_table;
  crt : W -> gmap Z Z;
  children : W -> list child;
  CreatePipe : W -> W * option (Z * Z);                  (** both ends inheritable *)
  clear_inherit : Z -> W -> W * unit;                    (** [SetHandleInformation(h, HANDLE_FLAG_INHERIT, 0)] *)
  GetEnvironmentStringsA : W -> W * option (list string);
  CreateProcessA : startup -> W -> W * option (Z * Z * Z);  (** id, process, thread *)
  CloseHandle : Z -> W -> W * unit;
  GetLastError : W -> W * Z;
  open_osfhandle : Z -> W -> W * Z;
  TerminateProcess : Z -> Z -> W -> W * unit;
  getsockopt_type : Z -> W -> W * bool;                  (** whether [SO_TYPE] could be read *)
  crt_close : Z -> W -> W * unit;
  sys_shutdown : Z -> W -> W * unit;                     (** both directions *)
}.

(** What a call leaves alone. *)
Definition same_but_handles {W} {KW : Kernel W} {WK : WinKernel W} (w w' : W) : Prop :=
  crt w' = crt w /\ children w' = children w /\ fds w' = fds w.
Definition same {W} {KW : Kernel W} {WK : WinKernel W} (w w' : W) : Prop :=
  handles w' = handles w /\ same_but_handles w w'.

(** What the documentation says the calls do. *)
Class WinLaws (W : Type) {KW : Kernel W} {WK : WinKernel W} : Prop := {
  CreatePipe_law w :
    match CreatePipe w with
    | (w', None) => same w w'
    | (w', Some (r, s)) =>
        same_but_handles w w' /\ r <> s /\ handles w !! r = None /\ handles w !! s = None /\
        handles w' = <[s := (HPipeWrite, true)]> (<[r := (HPipeRead, true)]> (handles w))
    end;
  clear_inherit_law h w :
    same_but_handles w (clear_inherit h w).1 /\
    handles (clear_inherit h w).1 = alter (fun k => (k.1, false)) h (handles w);
  GetEnvironmentStringsA_law w : same w (GetEnvironmentStringsA w).1;
  CreateProcessA_law s w :
    match CreateProcessA s w with
    | (w', None) => same w w'
    | (w', Some (_, p, t)) =>
        crt w' = crt w /\ fds w' = fds w /\
        p <> 0%Z /\ p <> t /\ handles w !! p = None /\ handles w !! t = None /\
        handles w' = <[t := (HThread, false)]> (<[p := (HProcess, false)]> (handles w)) /\
        children w' = children w ++ [mkChild s (inheritable (handles w))]
    end;
  CloseHandle_law h w :
    same_but_handles w (CloseHandle h w).1 /\ handles (CloseHandle h w).1 = delete h (handles w);
  GetLastError_law w : same w (GetLastError w).1;
  open_osfhandle_law h w :
    let '(w', fd) := open_osfhandle h w in
    handles w' = handles w /\ children w' = children w /\ fds w' = fds w /\
    (fd = (-1)%Z /\ crt w' = crt w \/ (0 <= fd)%Z /\ crt w !! fd = None /\ crt w' = <[fd := h]> (crt w));
  TerminateProcess_law h code w : same w (TerminateProcess h code w).1;
  getsockopt_type_law fd w :
    same w (getsockopt_type fd w).1 /\ (getsockopt_type fd w).2 = bool_decide (is_Some (fds w !! fd));
  crt_close_law fd w :
    children (crt_close fd w).1 = children w /\ fds (crt_close fd w).1 = fds w /\
    crt (crt_close fd w).1 = delete fd (crt w) /\
    handles (crt_close fd w).1 = match crt w !! fd with Some h => delete h (handles w) | None => handles w end;
  sys_shutdown_law fd w : same w (sys_shutdown fd w).1;
  sys_close_win_law fd w : handles (sys_close fd w).1 = handles w /\ crt (sys_close fd w).1 = crt w /\ children (sys_close fd w).1 = children w;
  wsa_startup_win_law w : same w (sys_wsa_startup w).1;
}.

Section win32.
Context {W : Type} {KW : Kernel W} {WK : WinKernel W}.

(** ** Starting a child *)

Definition make_inheritable_pipe (child_reads : bool) : st W (option (Z * Z)) :=
  p ← call CreatePipe;
  match p with
  | None => mret None
  | Some (read_end, write_end) =>
      _ ← call (clear_inherit (if child_reads then write_end else read_end)); mret (Some (read_end, write_end))
  end.

(** The three pipes; what was opened before a failure stays open. *)
Definition make_child_pipes : st W (option ((Z * Z) * (Z * Z) * (Z * Z))) :=
  i ← make_inheritable_pipe true;
  match i with
  | None => mret None
  | Some i =>
      o ← make_inheritable_pipe false;
      match o with
      | None => mret None
      | Some o => e ← make_inheritable_pipe false; mret (match e with Some e => Some (i, o, e) | None => None end)
      end
  end.

Definition startup_of (spec : ProcessSpec) (environment : option (list string)) (stdio : Z * Z * Z) : startup :=
  mkStartup (command_line (ps_command spec) (ps_args spec)) (build_env_block environment (ps_env spec)) (ps_cwd spec) stdio.

Definition close_handles (l : list Z) : st W unit := for_each (fun h => call (CloseHandle h)) l.

(** The process, with [native_handle], or the error. *)
Definition win32_spawn (spec : ProcessSpec) : st W (Process * Z + string) :=
  pipes ← make_child_pipes;
  match pipes with
  | None => mret (inr "failed to create pipes")
  | Some ((in_read, in_write), (out_read, out_write), (err_read, err_write)) =>
      environment ← call GetEnvironmentStringsA;
      pi ← call (CreateProcessA (startup_of spec environment (in_read, out_write, err_write)));
      _ ← close_handles [in_read; out_write; err_write];
      match pi with
      | None =>
          e ← call GetLastError;
          _ ← close_handles [in_write; out_read; err_read];
          mret (inr ("CreateProcess failed: " +:+ to_string e))
      | Some (id, process, thread) =>
          _ ← call (CloseHandle thread);
          stdin ← call (open_osfhandle in_write);
          stdout ← call (open_osfhandle out_read);
          stderr ← call (open_osfhandle err_read);
          mret (inl (mkProcess id stdin stdout stderr, process))
      end
  end.

(** Both ways of ending a child are [TerminateProcess]; [force] is ignored. *)
Definition win32_terminate (native_handle : Z) (force : bool) : st W unit :=
  if (native_handle =? 0)%Z then skip else call (TerminateProcess native_handle 1).

Definition win32_exited_normally (status : Z) : bool := true.
Definition win32_exit_code (status : Z) : Z := status.

(** ** Descriptors *)

Definition is_socket (fd : Z) : st W bool :=
  if (fd <? 0)%Z then mret false else _ ← ensure_wsa; call (getsockopt_type fd).

(** [close_fd(fd_t&)]: the variable afterwards. *)
Definition win32_close_fd (fd : Z) : st W Z :=
  if (fd <? 0)%Z then mret fd
  else
    socket ← is_socket fd;
    _ ← (if (socket : bool) then call (sys_close fd) else call (crt_close fd));
    mret (-1)%Z.

(** [close_fd(int&)]. *)
Definition win32_close_int (fd : Z) : st W Z :=
  if (0 <=? fd)%Z then _ ← call (crt_close fd); mret (-1)%Z else mret fd.

Definition win32_shutdown_fd (fd : Z) : st W unit :=
  if (0 <=? fd)%Z then socket ← is_socket fd; if (socket : bool) then call (sys_shutdown fd) else skip else skip.

(** posix/io.cpp and vxworks/io.cpp. *)
Definition posix_shutdown_fd (fd : Z) : st W unit := if (0 <=? fd)%Z then call (sys_shutdown fd) else skip.

(** *** Waiting

    The three ways of [poll_readable]: a socket takes one [WSAPoll], a CRT
    descriptor's handle, a [pipe] or not, is looked at in slices, and any other
    number fails. *)
Definition win32_poll_readable (fd timeout_ms now : Z) (watch_wake pipe : bool) (poll : poll_call) (turns : list turn)
  : st W (option readiness) :=
  _ ← ensure_wsa;
  socket ← is_socket fd;
  if (socket : bool) then mret (Some (poll_socket watch_wake poll))
  else
    handle ← gets (fun w => crt w !! fd);   (** [_get_osfhandle] *)
    match handle with
    | None => mret (Some PollFailed)
    | Some _ => mret (poll_slices watch_wake pipe (deadline_of timeout_ms now) turns)
    end.
End win32.

Section win32_facts.
Context {W : Type} {KW : Kernel W} {WK : WinKernel W} {KL : KernelLaws W} {WL : WinLaws W}.
Implicit Type w : W.

Lemma same_refl w : same w w.
Proof. by split_and!. Qed.
Lemma same_trans w1 w2 w3 : same w1 w2 -> same w2 w3 -> same w1 w3.
Proof. unfold same, same_but_handles. intros (? & ? & ? & ?) (? & ? & ? & ?). split_and!; congruence. Qed.

(** ** The pipes of a child *)

(** A pipe whose child's end is inherited. *)
Definition pipe_table (child_reads : bool) (p : Z * Z) (t : handle_table) : handle_table :=
  <[p.2 := (HPipeWrite, negb child_reads)]> (<[p.1 := (HPipeRead, child_reads)]> t).
Definition new_handles (l : list Z) (t : handle_table) : Prop := NoDup l /\ Forall (fun h => t !! h = None) l.

Lemma make_inheritable_pipe_spec b w :
  exists w' r, make_inheritable_pipe b w = (w', Val r) /\ same_but_handles w w' /\
    match r with
    | None => handles w' = handles w
    | Some p => p.1 <> p.2 /\ handles w !! p.1 = None /\ handles w !! p.2 = None /\ handles w' = pipe_table b p (handles w)
    end.
Proof.
  unfold make_inheritable_pipe, call. run. pose proof (CreatePipe_law w) as H.
  destruct (CreatePipe w) as [w1 [[r s]|]]; [|destruct H; by exists w1, None].
  destruct H as ((? & ? & ?) & Hne & Hr & Hs & Hw). run.
  pose proof (clear_inherit_law (if b then s else r) w1) as [(? & ? & ?) Hclear]. destruct (clear_inherit _ w1) as [w2 []]. cbn in *.
  exists w2, (Some (r, s)). split; [done|]. split; [split_and!; congruence|]. split_and!; [done..|].
  rewrite Hclear, Hw. unfold pipe_table. cbn [fst snd]. apply map_eq. intros k. destruct b; cbn [negb].
  - destruct (decide (k = s)) as [->|]; [by rewrite lookup_alter_eq, !lookup_insert_eq|].
    by rewrite lookup_alter_ne, !(lookup_insert_ne _ s k) by done.
  - destruct (decide (k = r)) as [->|].
    + rewrite lookup_alter_eq, lookup_insert_ne, lookup_insert_eq by done. by rewrite lookup_insert_ne, lookup_insert_eq.
    + rewrite lookup_alter_ne by done. destruct (decide (k = s)) as [->|]; [by rewrite !lookup_insert_eq|by rewrite !lookup_insert_ne].
Qed.

Lemma make_child_pipes_spec w :
  exists w' r, make_child_pipes w = (w', Val r) /\ same_but_handles w w' /\
    match r with
    | None => exists left_, length left_ <= 2 /\ handles w' = foldr (fun bp t => pipe_table bp.1 bp.2 t) (handles w) left_
    | Some (i, o, e) =>
        new_handles [i.1; i.2; o.1; o.2; e.1; e.2] (handles w) /\
        handles w' = pipe_table false e (pipe_table false o (pipe_table true i (handles w)))
    end.
Proof.
  unfold make_child_pipes.
  destruct (make_inheritable_pipe_spec true w) as (w1 & [i|] & H1 & S1 & T1); rewrite (st_bind_val _ _ _ _ _ H1);
    [|exists w1, None; split; [done|]; split; [done|]; exists []; split; [cbn; lia|done]].
  destruct T1 as (N1 & A1 & B1 & T1).
  destruct (make_inheritable_pipe_spec false w1) as (w2 & [o|] & H2 & S2 & T2); rewrite (st_bind_val _ _ _ _ _ H2);
    assert (same_but_handles w w2) as S12 by (destruct S1 as (? & ? & ?), S2 as (? & ? & ?); split_and!; congruence);
    [|exists w2, None; split; [done|]; split; [done|]; exists [(true, i)]; split; [cbn; lia|by rewrite T2]].
  destruct T2 as (N2 & A2 & B2 & T2).
  destruct (make_inheritable_pipe_spec false w2) as (w3 & e & H3 & S3 & T3); rewrite (st_bind_val _ _ _ _ _ H3).
  assert (same_but_handles w w3) as S13 by (destruct S12 as (? & ? & ?), S3 as (? & ? & ?); split_and!; congruence).
  destruct e as [e|]; [|exists w3, None; split; [done|]; split; [done|]; exists [(false, o); (true, i)]; split; [cbn; lia|by rewrite T3, T2, T1]].
  destruct T3 as (N3 & A3 & B3 & T3). exists w3, (Some (i, o, e)). split; [done|]. split; [done|].
  rewrite T2 in A3, B3. rewrite T1 in A2, B2, A3, B3. unfold pipe_table in A2, B2, A3, B3.
  repeat match goal with H : <[_ := _]> _ !! _ = None |- _ => apply lookup_insert_None in H as [? ?] end. split; [|by rewrite T3, T2, T1]. split.
  - repeat (apply NoDup_cons_2; [first [apply not_elem_of_nil|rewrite !not_elem_of_cons; split_and!; first [congruence|apply not_elem_of_nil]]|]). apply NoDup_nil_2.
  - repeat apply Forall_cons_2; done.
Qed.

Lemma close_handles_spec l w :
  exists w', close_handles l w = (w', Val tt) /\ same_but_handles w w' /\ handles w' = foldl (fun t h => delete h t) (handles w) l.
Proof.
  unfold close_handles. revert w. induction l as [|h l IH]; intros w; cbn [for_each foldl]; [by exists w|].
  destruct (CloseHandle_law h w) as [(? & ? & ?) H]. destruct (CloseHandle h w) as [w1 []] eqn:E. cbn [fst] in *.
  assert (call (CloseHandle h) w = (w1, Val tt)) as Hc by (unfold call; by rewrite E). rewrite (st_bind_val _ _ _ _ _ Hc).
  destruct (IH w1) as (w' & Hw & (? & ? & ?) & Ht). exists w'. split; [exact Hw|]. split; [split_and!; congruence|]. by rewrite Ht, H.
Qed.

(** A descriptor of the run-time library that owns [h], or none. *)
Definition wraps (w : W) (fd h : Z) : Prop := fd = (-1)%Z \/ crt w !! fd = Some h.

Lemma open_osfhandle_spec h w :
  exists w' fd, call (open_osfhandle h) w = (w', Val fd) /\ handles w' = handles w /\ children w' = children w /\ fds w' = fds w /\
    crt w ⊆ crt w' /\ wraps w' fd h.
Proof.
  unfold call. pose proof (open_osfhandle_law h w) as H. destruct (open_osfhandle h w) as [w' fd]. exists w', fd. split; [done|].
  destruct H as (? & ? & ? & [[-> E]|(? & Hn & E)]); split_and!; try done; [by rewrite E|by left| |right; by rewrite E, lookup_insert_eq].
  rewrite E. by apply insert_subseteq.
Qed.

(** The table once a child runs: the parent's ends of its pipes, which no child
    inherits, and the process. *)
Definition child_table (in_write out_read err_read process : Z) (t : handle_table) : handle_table :=
  <[in_write := (HPipeWrite, false)]> (<[out_read := (HPipeRead, false)]>
    (<[err_read := (HPipeRead, false)]> (<[process := (HProcess, false)]> t))).

(** ... and what the child has got of it. *)
Definition inherited_table (stdio : Z * Z * Z) (t : handle_table) : handle_table :=
  let '(in_read, out_write, err_write) := stdio in
  <[in_read := (HPipeRead, true)]> (<[out_write := (HPipeWrite, true)]> (<[err_write := (HPipeWrite, true)]> (inheritable t))).

#[local] Ltac solve_handles :=
  apply map_eq; intros ?k; rewrite ?lookup_delete, ?lookup_insert; repeat case_decide; subst; try done; congruence.

Lemma inherited_pipes i o e (t : handle_table) :
  new_handles [i.1; i.2; o.1; o.2; e.1; e.2] t ->
  inheritable (pipe_table false e (pipe_table false o (pipe_table true i t))) = inherited_table (i.1, o.2, e.2) t.
Proof.
  intros [Hn Hf]. rewrite !NoDup_cons, !Forall_cons in *. rewrite !not_elem_of_cons in Hn. destruct_and!.
  unfold pipe_table, inherited_table, inheritable. cbn [fst snd negb]. apply map_eq. intros k.
  rewrite map_lookup_filter, !lookup_insert, map_lookup_filter.
  repeat (case_decide; subst; cbn; try congruence; try (by rewrite option_guard_True); try (by rewrite option_guard_False)).
  all: by match goal with H : _ !! _ = None |- _ => rewrite H end.
Qed.

(** The handles that are left when the child's ends are closed. *)
Lemma parents_ends i o e process thread (t : handle_table) :
  new_handles [i.1; i.2; o.1; o.2; e.1; e.2] t -> process <> thread ->
  let t3 := pipe_table false e (pipe_table false o (pipe_table true i t)) in
  t3 !! process = None -> t3 !! thread = None ->
  delete thread (foldl (fun t h => delete h t) (<[thread := (HThread, false)]> (<[process := (HProcess, false)]> t3)) [i.1; o.2; e.2]) =
    child_table i.2 o.1 e.1 process t /\ NoDup [i.2; o.1; e.1; process] /\ t !! process = None.
Proof.
  intros [Hn Hf] Hpt t3 Hp Ht. unfold t3, pipe_table in *.
  repeat match goal with H : <[_ := _]> _ !! _ = None |- _ => apply lookup_insert_None in H as [? ?] end.
  rewrite !NoDup_cons, !Forall_cons in *. rewrite !not_elem_of_cons in *. destruct_and!. split_and!; try (done || congruence || apply not_elem_of_nil || apply NoDup_nil_2).
  unfold child_table. cbn [foldl negb]. apply map_eq. intros k. rewrite !lookup_delete, !lookup_insert.
  repeat (case_decide; subst; try congruence).
Qed.

Lemma closed_pipes i o e (t : handle_table) :
  new_handles [i.1; i.2; o.1; o.2; e.1; e.2] t ->
  foldl (fun t h => delete h t) (pipe_table false e (pipe_table false o (pipe_table true i t))) [i.1; o.2; e.2; i.2; o.1; e.1] = t.
Proof.
  intros [Hn Hf]. rewrite !NoDup_cons, !Forall_cons in *. rewrite !not_elem_of_cons in *. destruct_and!.
  unfold pipe_table. cbn [foldl negb]. apply map_eq. intros k. rewrite !lookup_delete, !lookup_insert.
  repeat (case_decide; subst; try congruence).
Qed.

Lemma call_value {A} (f : W -> W * A) w w' a : f w = (w', a) -> call f w = (w', Val a).
Proof. unfold call. by intros ->. Qed.

(** Wrapping the parent's ends. *)
Lemma wrap_ends_spec {X} (k : Z -> Z -> Z -> st W X) i o e w :
  exists w' a b c,
    (stdin ← call (open_osfhandle i); stdout ← call (open_osfhandle o); stderr ← call (open_osfhandle e); k stdin stdout stderr) w =
      k a b c w' /\
    handles w' = handles w /\ children w' = children w /\ fds w' = fds w /\ crt w ⊆ crt w' /\ wraps w' a i /\ wraps w' b o /\ wraps w' c e.
Proof.
  destruct (open_osfhandle_spec i w) as (w1 & a & Ho1 & ? & ? & ? & S1 & W1).
  destruct (open_osfhandle_spec o w1) as (w2 & b & Ho2 & ? & ? & ? & S2 & W2).
  destruct (open_osfhandle_spec e w2) as (w3 & c & Ho3 & ? & ? & ? & S3 & W3).
  exists w3, a, b, c. rewrite (st_bind_val _ _ _ _ _ Ho1), (st_bind_val _ _ _ _ _ Ho2), (st_bind_val _ _ _ _ _ Ho3).
  split; [done|]. split_and!; try congruence; [exact (transitivity S1 (transitivity S2 S3))|..].
  - destruct W1 as [|W1]; [by left|]. right. eapply lookup_weaken; [|exact S3]. eapply lookup_weaken; [|exact S2]. exact W1.
  - destruct W2 as [|W2]; [by left|]. right. eapply lookup_weaken; [|exact S3]. exact W2.
Qed.

(** Starting a child on Windows returns, whatever the system calls answer.
    Either the child runs, with the command line and the environment block of
    the launch parameters, and has inherited its three pipe ends, what was
    inheritable before, and no end of the parent's; the parent keeps its own
    three ends and the process handle, nothing else, and its descriptors own
    the ends (or are -1, where the run-time library had none left).  Or no
    child was started and everything is closed again, unless a pipe could not
    be made: the ones made before it stay open. *)
Theorem win32_spawn_handles spec (w : W) :
  exists w' r, win32_spawn spec w = (w', Val r) /\ fds w' = fds w /\
    match r with
    | inl (p, process) =>
        exists in_write out_read err_read stdio environment,
          process <> 0%Z /\ NoDup [in_write; out_read; err_read; process] /\
          handles w' = child_table in_write out_read err_read process (handles w) /\
          Forall (fun h => handles w !! h = None) [in_write; out_read; err_read; process; stdio.1.1; stdio.1.2; stdio.2] /\
          crt w ⊆ crt w' /\ wraps w' (stdin_fd p) in_write /\ wraps w' (stdout_fd p) out_read /\ wraps w' (stderr_fd p) err_read /\
          children w' = children w ++ [mkChild (startup_of spec environment stdio) (inherited_table stdio (handles w))]
    | inr e =>
        children w' = children w /\ crt w' = crt w /\
        (handles w' = handles w \/
         e = "failed to create pipes" /\
         exists left_, length left_ <= 2 /\ handles w' = foldr (fun bp t => pipe_table bp.1 bp.2 t) (handles w) left_)
    end.
Proof.
  unfold win32_spawn. destruct (make_child_pipes_spec w) as (w1 & r & H1 & (C1 & K1 & F1) & T1).
  rewrite (st_bind_val _ _ _ _ _ H1). destruct r as [[[i o] e]|]; [|exists w1; eexists; split; [done|]; split; [done|]; split_and!; [done..|by right]].
  destruct i as [i1 i2], o as [o1 o2], e as [e1 e2]. destruct T1 as [Hnew T1].
  pose proof (GetEnvironmentStringsA_law w1) as (T2 & C2 & K2 & F2). destruct (GetEnvironmentStringsA w1) as [w2 env] eqn:E2.
  rewrite (st_bind_val _ _ _ _ _ (call_value _ _ _ _ E2)). cbn [fst] in *. set (su := startup_of spec env (i1, o2, e2)).
  pose proof (CreateProcessA_law su w2) as H3. destruct (CreateProcessA su w2) as [w3 pi] eqn:E3.
  rewrite (st_bind_val _ _ _ _ _ (call_value _ _ _ _ E3)).
  destruct (close_handles_spec [i1; o2; e2] w3) as (w4 & H4 & (C4 & K4 & F4) & T4). rewrite (st_bind_val _ _ _ _ _ H4).
  destruct pi as [[[id process] thread]|].
  - destruct H3 as (C3 & F3 & Hnz & Hne & Hp & Ht & T3 & K3). rewrite T2, T1 in *.
    pose proof (CloseHandle_law thread w4) as [(C5 & K5 & F5) T5]. destruct (CloseHandle thread w4) as [w5 []] eqn:E5.
    rewrite (st_bind_val _ _ _ _ _ (call_value _ _ _ _ E5)). cbn [fst] in *.
    destruct (wrap_ends_spec (X := Process * Z + string) (fun a b c => mret (inl (mkProcess id a b c, process))) i2 o1 e1 w5)
      as (w6 & a & b & c & H6 & T6 & K6 & F6 & S6 & Wa & Wb & Wc).
    exists w6, (inl (mkProcess id a b c, process)). split; [exact H6|]. split; [congruence|].
    exists i2, o1, e1, (i1, o2, e2), env. destruct (parents_ends (i1, i2) (o1, o2) (e1, e2) _ _ _ Hnew Hne Hp Ht) as (P1 & P2 & P3).
    split; [done|]. split; [done|]. split; [by rewrite T6, T5, T4, T3|].
    split; [destruct Hnew as [_ Hnew]; rewrite !Forall_cons in *; cbn in *; naive_solver|].
    split; [etrans; [|exact S6]; by rewrite C5, C4, C3, C2, C1|]. split_and!; [done..|].
    rewrite K6, K5, K4, K3, K2, K1. by rewrite (inherited_pipes (i1, i2) (o1, o2) (e1, e2) _ Hnew).
  - destruct H3 as (T3 & C3 & K3 & F3).
    pose proof (GetLastError_law w4) as (T5 & C5 & K5 & F5). destruct (GetLastError w4) as [w5 err] eqn:E5.
    rewrite (st_bind_val _ _ _ _ _ (call_value _ _ _ _ E5)). cbn [fst] in *.
    destruct (close_handles_spec [i2; o1; e1] w5) as (w6 & H6 & (C6 & K6 & F6) & T6). rewrite (st_bind_val _ _ _ _ _ H6).
    exists w6; eexists. split; [done|]. split; [congruence|]. split_and!; [congruence|congruence|left].
    rewrite T6, T5, T4, T3, T2, T1. exact (closed_pipes (i1, i2) (o1, o2) (e1, e2) _ Hnew).
Qed.

(** ** Closing and shutting down *)

Lemma ensure_wsa_same w : exists w', ensure_wsa w = (w', Val tt) /\ same w w'.
Proof.
  unfold ensure_wsa, gets. run. destruct (wsa_started w); [exists w; split; [done|apply same_refl]|].
  unfold call. pose proof (wsa_startup_win_law w) as Hs. destruct (sys_wsa_startup w) as [w' []]. by exists w'.
Qed.

Lemma is_socket_spec fd w :
  exists w', is_socket fd w = (w', Val (bool_decide (0 <= fd)%Z && bool_decide (is_Some (fds w !! fd)))) /\ same w w'.
Proof.
  unfold is_socket. destruct (Z.ltb_spec fd 0).
  - exists w. rewrite (bool_decide_eq_false_2 (0 <= fd)%Z) by lia. split; [done|apply same_refl].
  - rewrite (bool_decide_eq_true_2 (0 <= fd)%Z) by lia.
    destruct (ensure_wsa_same w) as (w1 & H1 & S1).
    rewrite (st_bind_val _ _ _ _ _ H1). pose proof (getsockopt_type_law fd w1) as [S2 Hb].
    destruct (getsockopt_type fd w1) as [w2 b] eqn:E. exists w2. rewrite (call_value _ _ _ _ E). cbn in Hb. subst b.
    destruct S1 as (T1 & C1 & K1 & F1). rewrite F1. split; [done|]. eapply same_trans; [|exact S2]. by split_and!.
Qed.

(** A number that stands for one thing at most. *)
Definition one_kind (w : W) (fd : Z) : Prop := fds w !! fd = None \/ crt w !! fd = None.

(** Closing a descriptor on Windows: the variable becomes invalid, and
    where its number stands for one thing at most, just that is gone: a socket,
    or a CRT descriptor with the handle it owns; closing an invalid one does
    nothing.  Where an open SOCKET and an open CRT descriptor have the same
    number, it is the socket that is closed, whichever was meant. *)
Theorem win32_close_fd_spec fd (w : W) :
  exists w', win32_close_fd fd w = (w', Val (if (fd <? 0)%Z then fd else (-1)%Z)) /\ children w' = children w /\
    ((fd < 0)%Z -> w' = w) /\
    ((0 <= fd)%Z -> one_kind w fd ->
       fds w' = delete fd (fds w) /\ crt w' = delete fd (crt w) /\
       handles w' = match crt w !! fd with Some h => delete h (handles w) | None => handles w end) /\
    ((0 <= fd)%Z -> is_Some (fds w !! fd) -> fds w' = delete fd (fds w) /\ crt w' = crt w /\ handles w' = handles w).
Proof.
  unfold win32_close_fd. destruct (Z.ltb_spec fd 0); [exists w; split_and!; try done; lia|].
  destruct (is_socket_spec fd w) as (w1 & H1 & T1 & C1 & K1 & F1). rewrite (st_bind_val _ _ _ _ _ H1).
  rewrite (bool_decide_eq_true_2 (0 <= fd)%Z) by done. cbn [andb].
  destruct (fds w !! fd) as [d|] eqn:Ef.
  - rewrite (bool_decide_eq_true_2 (is_Some (Some d))) by done.
    pose proof (sys_close_win_law fd w1) as (T2 & C2 & K2). pose proof (close_law fd w1) as F2.
    destruct (sys_close fd w1) as [w2 []] eqn:E2. rewrite (st_bind_val _ _ _ _ _ (call_value _ _ _ _ E2)). cbn [fst] in *.
    exists w2. split; [done|]. split; [congruence|]. split; [lia|]. split.
    + intros _ [Hk|Hk]; [congruence|]. rewrite Hk. split_and!; try congruence. rewrite C2, C1. by rewrite delete_id.
    + intros _ _. split_and!; congruence.
  - rewrite (bool_decide_eq_false_2 (is_Some None)) by by intros [].
    pose proof (crt_close_law fd w1) as (K2 & F2 & C2 & T2).
    destruct (crt_close fd w1) as [w2 []] eqn:E2. rewrite (st_bind_val _ _ _ _ _ (call_value _ _ _ _ E2)). cbn [fst] in *.
    exists w2. split; [done|]. split; [congruence|]. split; [lia|]. split.
    + intros _ _. rewrite F2, F1, C2, C1, T2, C1, T1. split_and!; try done. by rewrite delete_id.
    + intros _ [? ?]. done.
Qed.

(** Shutting down closes nothing, on any platform. *)
Lemma shutdown_closes_nothing fd (w : W) :
  (exists w', win32_shutdown_fd fd w = (w', Val tt) /\ same w w') /\ (exists w', posix_shutdown_fd fd w = (w', Val tt) /\ same w w').
Proof.
  unfold win32_shutdown_fd, posix_shutdown_fd. destruct (Z.leb_spec 0 fd); [|by split; exists w].
  assert (forall w1, exists w', call (sys_shutdown fd) w1 = (w', Val tt) /\ same w1 w') as Hs.
  { intros w1. pose proof (sys_shutdown_law fd w1) as S. unfold call. destruct (sys_shutdown fd w1) as [w' []]. by exists w'. }
  split; [|apply Hs]. destruct (is_socket_spec fd w) as (w1 & H1 & S1). rewrite (st_bind_val _ _ _ _ _ H1).
  destruct (_ && _); [|by exists w1]. destruct (Hs w1) as (w' & Hw & S2). exists w'. split; [done|]. by eapply same_trans.
Qed.

(** A wait with a time-out ends, with the answer its descriptor's kind gives,
    and opens and closes nothing. *)
Lemma win32_poll_readable_returns fd timeout_ms now watch_wake pipe poll turns (w : W) :
  (0 <= timeout_ms)%Z -> sliced now turns -> turns <> [] ->
  (timeout_ms <= kSliceMs * (Z.of_nat (length turns) - 1))%Z ->
  exists w' r, win32_poll_readable fd timeout_ms now watch_wake pipe poll turns w = (w', Val (Some r)) /\ same w w' /\
    (if bool_decide (0 <= fd)%Z && bool_decide (is_Some (fds w !! fd)) then r = poll_socket watch_wake poll
     else match crt w !! fd with
          | None => r = PollFailed
          | Some _ => poll_slices watch_wake pipe (deadline_of timeout_ms now) turns = Some r
          end).
Proof.
  intros Ht Hs Hne Hn. unfold win32_poll_readable. destruct (ensure_wsa_same w) as (w1 & H1 & S1). rewrite (st_bind_val _ _ _ _ _ H1).
  destruct (is_socket_spec fd w1) as (w2 & H2 & S2). rewrite (st_bind_val _ _ _ _ _ H2).
  pose proof (same_trans _ _ _ S1 S2) as S. destruct S1 as (_ & _ & _ & F1). rewrite F1.
  destruct (bool_decide (0 <= fd)%Z && _) eqn:Eb at 1; rewrite Eb; [by exists w2, (poll_socket watch_wake poll)|].
  rewrite (st_bind_val _ _ w2 w2 (crt w !! fd)) by (unfold gets; by destruct S as (_ & -> & _)).
  destruct (crt w !! fd); [|by exists w2, PollFailed].
  destruct (poll_slices_returns watch_wake pipe timeout_ms now turns Ht Hs Hne Hn) as [r ->]. by exists w2, r.
Qed.

(** Ending a child leaves its handle open, and the tables alone. *)
Lemma win32_terminate_same h force (w : W) : exists w', win32_terminate h force w = (w', Val tt) /\ same w w'.
Proof.
  unfold win32_terminate. destruct (h =? 0)%Z; [by exists w|].
  pose proof (TerminateProcess_law h 1 w) as S. unfold call. destruct (TerminateProcess h 1 w) as [w' []]. by exists w'.
Qed.
End win32_facts.

(** ** A Windows that follows a script

    As for [SimKernel], a call that can fail takes the next number of the
    script, and fails unless it is 0. *)
Module Win32Demo.
Record SimWin : Type := mkSimWin {
  sw_kernel : SimKernel;
  sw_handles : handle_table;
  sw_crt : gmap Z Z;
  sw_children : list child;
}.

Definition lifted {A} (f : SimKernel -> SimKernel * A) (w : SimWin) : SimWin * A :=
  let '(k, a) := f (sw_kernel w) in (mkSimWin k (sw_handles w) (sw_crt w) (sw_children w), a).

#[export] Instance win_kernel : Kernel SimWin := {|
  fds w := sk_fds (sw_kernel w);
  errno w := sk_errno (sw_kernel w);
  EINPROGRESS := 115;
  EWOULDBLOCK := 11;
  O_NONBLOCK := 0;
  strerror e := to_string e;
  inet_pton := inet_pton (Kernel := sim_kernel);
  INADDR_LOOPBACK := 16777343;
  wsa_started _ := true;
  sys_wsa_startup w := (w, tt);
  sys_socket := lifted sys_socket;
  sys_setsockopt fd o := lifted (sys_setsockopt fd o);
  sys_getfl fd := lifted (sys_getfl fd);
  sys_setfl fd f := lifted (sys_setfl fd f);
  sys_fionbio fd b := lifted (sys_fionbio fd b);
  sys_bind fd a := lifted (sys_bind fd a);
  sys_listen fd n := lifted (sys_listen fd n);
  sys_getsockname fd := lifted (sys_getsockname fd);
  sys_connect fd a := lifted (sys_connect fd a);
  sys_poll_write fd ms := lifted (sys_poll_write fd ms);
  sys_select_write fd s u := lifted (sys_select_write fd s u);
  sys_so_error fd := lifted (sys_so_error fd);
  sys_accept fd := lifted (sys_accept fd);
  sys_close fd := lifted (sys_close fd);
  sys_pipe := lifted sys_pipe;
  sys_fork := lifted sys_fork;
|}.

Definition next_key {A} (start : Z) (m : gmap Z A) : Z := map_fold (fun k _ n => Z.max n (k + 4)) start m.

Lemma next_key_fresh {A} start (m : gmap Z A) : (start <= next_key start m)%Z /\ m !! next_key start m = None.
Proof.
  cut ((start <= next_key start m)%Z /\ forall k d, m !! k = Some d -> (k < next_key start m)%Z);
    [intros [H1 H2]; split; [done|]; destruct (m !! next_key start m) as [d|] eqn:E; [specialize (H2 _ _ E); lia|done]|].
  unfold next_key. apply (map_fold_weak_ind (fun n m => (start <= n)%Z /\ forall k (d : A), m !! k = Some d -> (k < n)%Z)).
  - split; [lia|]. intros k d. by rewrite lookup_empty.
  - intros i x m' n Hi [Hn IH]. split; [lia|]. intros k d. rewrite lookup_insert_Some. intros [[-> _]|[_ Hk]]; [lia|].
    specialize (IH k d Hk). lia.
Qed.

Definition succeeds (w : SimWin) : SimWin * bool := let '(w, v) := lifted verdict w in (w, v =? 0).
Definition on_handles (f : handle_table -> handle_table) (w : SimWin) : SimWin :=
  mkSimWin (sw_kernel w) (f (sw_handles w)) (sw_crt w) (sw_children w).

#[export] Instance win_win : WinKernel SimWin := {|
  handles := sw_handles;
  crt := sw_crt;
  children := sw_children;
  CreatePipe w :=
    let '(w, ok) := succeeds w in
    if ok then
      let r := next_key 4 (sw_handles w) in
      let s := next_key 4 (<[r := (HPipeRead, true)]> (sw_handles w)) in
      (on_handles (fun t => <[s := (HPipeWrite, true)]> (<[r := (HPipeRead, true)]> t)) w, Some (r, s))
    else (w, None);
  clear_inherit h w := (on_handles (alter (fun k => (k.1, false)) h) w, tt);
  GetEnvironmentStringsA w := (w, Some ["Path=bin"]);
  CreateProcessA s w :=
    let '(w, ok) := succeeds w in
    if ok then
      let p := next_key 4 (sw_handles w) in
      let t := next_key 4 (<[p := (HProcess, false)]> (sw_handles w)) in
      (mkSimWin (sw_kernel w) (<[t := (HThread, false)]> (<[p := (HProcess, false)]> (sw_handles w))) (sw_crt w)
         (sw_children w ++ [mkChild s (inheritable (sw_handles w))]), Some (7%Z, p, t))
    else (w, None);
  CloseHandle h w := (on_handles (delete h) w, tt);
  GetLastError w := (w, 2%Z);
  open_osfhandle h w :=
    let '(w, ok) := succeeds w in
    if ok then
      let fd := next_key 0 (sw_crt w) in
      (mkSimWin (sw_kernel w) (sw_handles w) (<[fd := h]> (sw_crt w)) (sw_children w), fd)
    else (w, (-1)%Z);
  TerminateProcess _ _ w := (w, tt);
  getsockopt_type fd w := (w, bool_decide (is_Some (sk_fds (sw_kernel w) !! fd)));
  crt_close fd w :=
    (mkSimWin (sw_kernel w) (match sw_crt w !! fd with Some h => delete h (sw_handles w) | None => sw_handles w end)
       (delete fd (sw_crt w)) (sw_children w), tt);
  sys_shutdown _ w := (w, tt);
|}.

Lemma succeeds_same w : same w (succeeds w).1.
Proof. unfold succeeds, lifted, verdict. by split_and!. Qed.

#[export] Instance win_laws : WinLaws SimWin.
Proof.
  split; try (intros; by split_and!).
  - intros w. cbn [CreatePipe win_win]. destruct (succeeds_same w) as (T & C & K & F). destruct (succeeds w) as [w1 [|]]; [|by split_and!].
    cbn in *. destruct (next_key_fresh 4 (sw_handles w1)) as [_ H1].
    destruct (next_key_fresh 4 (<[next_key 4 (sw_handles w1) := (HPipeRead, true)]> (sw_handles w1))) as [_ [H2 H3]%lookup_insert_None].
    rewrite <- T. by split_and!.
  - intros s w. cbn [CreateProcessA win_win]. destruct (succeeds_same w) as (T & C & K & F). destruct (succeeds w) as [w1 [|]]; [|by split_and!].
    cbn in *. destruct (next_key_fresh 4 (sw_handles w1)) as [H0 H1].
    destruct (next_key_fresh 4 (<[next_key 4 (sw_handles w1) := (HProcess, false)]> (sw_handles w1))) as [_ [H2 H3]%lookup_insert_None].
    rewrite <- T, <- K. split_and!; try done. lia.
  - intros h w. cbn [open_osfhandle win_win]. destruct (succeeds_same w) as (T & C & K & F). destruct (succeeds w) as [w1 [|]]; cbn in *.
    + destruct (next_key_fresh 0 (sw_crt w1)) as [H1 H2]. rewrite <- C. split_and!; try done. by right.
    + split_and!; try done. by left.
Qed.

#[export] Instance win_kernel_laws : KernelLaws SimWin.
Proof.
  assert (forall A (f : SimKernel -> SimKernel * A) w,
    sk_fds (sw_kernel (lifted f w).1) = sk_fds (f (sw_kernel w)).1 /\ (lifted f w).2 = (f (sw_kernel w)).2) as Hl.
  { intros A f w. unfold lifted. by destruct (f (sw_kernel w)). }
  split; intros; cbn [fds errno EINPROGRESS EWOULDBLOCK win_kernel sys_wsa_startup sys_socket sys_setsockopt sys_getfl sys_setfl
    sys_fionbio sys_bind sys_listen sys_getsockname sys_connect sys_poll_write sys_select_write sys_so_error sys_accept sys_close
    sys_pipe sys_fork] in *; rewrite ?(proj1 (Hl _ _ _)), ?(proj2 (Hl _ _ _)); try done.
  - pose proof (socket_law (sw_kernel w)) as H. unfold lifted. by destruct (sys_socket _).
  - pose proof (accept_law s (sw_kernel w)) as H. unfold lifted. by destruct (sys_accept _ _).
  - pose proof (pipe_law (sw_kernel w)) as H. unfold lifted. by destruct (sys_pipe _) as [? [[? ?]|]].
  - pose proof (bind_law fd a (sw_kernel w)) as Hb. specialize (Hb ltac:(assumption)). unfold lifted. by destruct (sys_bind _ _ _).
  - pose proof (listen_law fd n a (sw_kernel w)) as Hb. specialize (Hb ltac:(assumption)). unfold lifted. by destruct (sys_listen _ _ _).
  - by apply (getsockname_value fd a (sw_kernel w)).
  - pose proof (connect_law fd a (sw_kernel w)) as Hb. specialize (Hb ltac:(assumption)). unfold lifted. by destruct (sys_connect _ _ _).
  - pose proof (poll_write_law fd a ms (sw_kernel w)) as Hb. specialize (Hb ltac:(assumption)). unfold lifted. by destruct (sys_poll_write _ _ _) as [? [? ?]].
  - pose proof (select_write_law fd a sec usec (sw_kernel w)) as Hb. specialize (Hb ltac:(assumption)). unfold lifted. by destruct (sys_select_write _ _ _ _).
  - by apply (so_error_value fd d (sw_kernel w)).
Qed.

Definition spec : ProcessSpec := mkProcessSpec "my tool" ["a b"] [("KEY", "1")] None.
Definition windows (script : list nat) : SimWin :=
  mkSimWin (mkSimKernel ∅ script 0) ({[4%Z := (HPipeRead, false)]} : handle_table) ∅ [].

(** The child that was started, and what it holds. *)
Lemma win32_spawn_handles_witness :
  exists w' p, win32_spawn spec (windows (replicate 7 0)) = (w', Val (inl (p, 32%Z))) /\ crt w' !! stdin_fd p = Some 12%Z /\
    ch_handles <$> sw_children w' = [inherited_table (8, 20, 28)%Z (sw_handles (windows []))].
Proof.
  destruct (win32_spawn_handles spec (windows (replicate 7 0))) as (w' & r & H & _ & Hr).
  assert (win32_spawn spec (windows (replicate 7 0)) = (w', Val r)) as H' by exact H.
  vm_compute in H. injection H as <- <-.
  destruct Hr as (iw & or & er & stdio & env & _ & _ & _ & _ & _ & _ & _ & _ & Hc). eexists _, _. split; [exact H'|].
  split; [reflexivity|]. vm_compute. reflexivity.
Defined.

Lemma win32_close_fd_spec_witness :
  let w := mkSimWin (mkSimKernel {[260%Z := Accepted]} [] 0) ∅ {[260%Z := 12%Z]} [] in
  exists w', win32_close_fd 260 w = (w', Val (-1)%Z) /\ crt w' = {[260%Z := 12%Z]} /\ fds w' = ∅.
Proof.
  intros w. destruct (win32_close_fd_spec 260 w) as (w' & H & _ & _ & _ & Hs). exists w'. split; [exact H|].
  destruct Hs as (Hf & Hc & _); [lia|by eexists|]. split; [exact Hc|]. rewrite Hf. reflexivity.
Defined.

(** The run-time library has no descriptor left for the child's input: nothing
    refers to the pipe's handle any more, and [spawn] reports success. *)
Example stdin_lost :
  exists w' p, win32_spawn spec (windows [0; 0; 0; 0; 1; 0; 0]) = (w', Val (inl p)) /\ stdin_fd p.1 = (-1)%Z /\
    sw_handles w' !! 12%Z = Some (HPipeWrite, false).
Proof. eexists _, _. split; [vm_compute; reflexivity|]. by split. Qed.
End Win32Demo.
