(* ===== verification/Diagnostics.v ===== *)
(** * Diagnostics

    src/core/log.cpp and log.hpp: the level below which diagnostics are
    dropped, which is read from the environment when it is first needed, and
    where the lines go. *)

From S2P Require Import Prelude Core State.

Inductive LogLevel := trace | debug | info | warn | error_level | off.

#[export] Instance LogLevel_eq_dec : EqDecision LogLevel.
Proof. solve_decision. Defined.

Definition level_number (l : LogLevel) : Z :=
  match l with trace => 0 | debug => 1 | info => 2 | warn => 3 | error_level => 4 | off => 5 end.

(** The value of MCP_LOG, if it is set. *)
Definition level_from_env (env : option string) : LogLevel :=
  match env with
  | None => info
  | Some s =>
      if String.eqb s "trace" then trace
      else if String.eqb s "debug" then debug
      else if String.eqb s "info" then info
      else if String.eqb s "warn" then warn
      else if String.eqb s "error" then error_level
      else if String.eqb s "off" then off
      else info
  end.

Definition level_name (l : LogLevel) : string :=
  match l with
  | trace => "trace" | debug => "debug" | info => "info " | warn => "warn " | error_level => "error" | off => "?    "
  end.

(** [g_level], -1 before the first use, and [g_sink]. *)
Record Log (S : Type) : Type := mkLog { g_level : Z; g_sink : option S }.
Arguments mkLog {S}.
Arguments g_level {S}.
Arguments g_sink {S}.

(** [%02d] and [%03d]. *)
Fixpoint zeros (n : nat) : string := match n with O => EmptyString | S n => String "0" (zeros n) end.
Definition padded (width : nat) (n : Z) : string := let s := to_string n in zeros (width - size s) +:+ s.

(** The local time of a line: [tm_hour], [tm_min], [tm_sec], milliseconds. *)
Record clock_time : Type := mkClockTime { tm_hour : Z; tm_min : Z; tm_sec : Z; millis : Z }.

Definition stderr_line (t : clock_time) (level : LogLevel) (component line : string) : string :=
  "[" +:+ padded 2 (tm_hour t) +:+ ":" +:+ padded 2 (tm_min t) +:+ ":" +:+ padded 2 (tm_sec t) +:+ "." +:+
  padded 3 (millis t) +:+ "] [" +:+ level_name level +:+ "] [" +:+ component +:+ "] " +:+ c_str line +:+ String LF EmptyString.

Section log.
Context {S W : Type}.

(** The program: its log, its environment, and what it does with a line. *)
Class LogHost := {
  log_of : W -> Log S;
  put_log : Log S -> W -> W;
  getenv_log : W -> option string;
  run_sink : S -> LogLevel -> string -> string -> st W unit;
  write_stderr : string -> st W unit;
  local_time : W -> clock_time;
}.
Context {LH : LogHost}.

Definition set_log_sink (sink : option S) : st W unit := modify (fun w => put_log (mkLog (g_level (log_of w)) sink) w).
Definition set_log_level (level : LogLevel) : st W unit :=
  modify (fun w => put_log (mkLog (level_number level) (g_sink (log_of w))) w).

Definition current_level : st W Z :=
  level ← gets (fun w => g_level (log_of w));
  if (level <? 0)%Z then
    level ← gets (fun w => level_number (level_from_env (getenv_log w)));
    _ ← modify (fun w => put_log (mkLog level (g_sink (log_of w))) w);
    mret level
  else mret level.

Definition enabled (level : LogLevel) : st W bool :=
  current ← current_level; mret (current <=? level_number level)%Z.

Definition emit (level : LogLevel) (component line : string) : st W unit :=
  sink ← gets (fun w => g_sink (log_of w));
  match sink with
  | Some s => run_sink s level component line
  | None => t ← gets local_time; write_stderr (stderr_line t level component line)
  end.

(** [MCP_LOG]: the stream expression is only evaluated for a line that goes out. *)
Definition MCP_LOG (level : LogLevel) (component : string) (stream : st W string) : st W unit :=
  on ← enabled level;
  if (on : bool) then line ← stream; emit level component line else skip.

Class LogHostLaws : Prop := { log_of_put l w : log_of (put_log l w) = l }.
Context {LL : LogHostLaws}.

(** After [set_log_level] exactly the lines at or above the level go out, and
    the expression of the others is not evaluated. *)
Lemma log_threshold threshold level component stream (w : W) :
  (_ ← set_log_level threshold; MCP_LOG level component stream) w =
  let w1 := put_log (mkLog (level_number threshold) (g_sink (log_of w))) w in
  if (level_number threshold <=? level_number level)%Z then (line ← stream; emit level component line) w1 else (w1, Val tt).
Proof.
  unfold set_log_level, MCP_LOG, enabled, current_level. run. rewrite log_of_put. cbn [g_level].
  rewrite (proj2 (Z.ltb_ge (level_number threshold) 0)) by (by destruct threshold).
  by destruct (_ <=? _)%Z.
Qed.

(** The first use decides, from the environment, once. *)
Lemma log_first_use (w : W) level :
  g_level (log_of w) = (-1)%Z ->
  let threshold := level_from_env (getenv_log w) in
  let w1 := put_log (mkLog (level_number threshold) (g_sink (log_of w))) w in
  enabled level w = (w1, Val (level_number threshold <=? level_number level)%Z) /\
  enabled level w1 = (w1, Val (level_number threshold <=? level_number level)%Z).
Proof.
  intros Hw threshold w1. unfold enabled, current_level. run. rewrite Hw. cbn [Z.ltb Z.compare]. split; [done|].
  unfold w1. rewrite log_of_put. cbn [g_level]. by rewrite (proj2 (Z.ltb_ge (level_number threshold) 0)) by (by destruct threshold).
Qed.
End log.

(** ** Threads

    [current_level] without a lock: a load, and after it, for a thread that
    found -1, a store. *)
Inductive level_step := SetLevel (l : LogLevel) | Load (thread : nat) | Store (thread : nat).

Record LevelRace : Type := mkLevelRace { lr_level : Z; lr_first : gset nat }.   (** threads about to store *)

Definition level_race_step (env : option string) (r : LevelRace) (s : level_step) : LevelRace :=
  match s with
  | SetLevel l => mkLevelRace (level_number l) (lr_first r)
  | Load t => if (lr_level r <? 0)%Z then mkLevelRace (lr_level r) ({[t]} ∪ lr_first r) else r
  | Store t =>
      if decide (t ∈ lr_first r) then mkLevelRace (level_number (level_from_env env)) (lr_first r ∖ {[t]}) else r
  end.

Definition level_race (env : option string) : list level_step -> LevelRace -> LevelRace :=
  fun steps r => foldl (level_race_step env) r steps.

(** A level that is set while another thread makes the first use is lost. *)
Lemma level_lost :
  lr_level (level_race None [Load 0; SetLevel trace; Store 0] (mkLevelRace (-1) ∅)) = level_number info.
Proof. vm_compute. reflexivity. Qed.

(** Once no thread is about to store, the level that was set stays. *)
Lemma level_kept env l steps :
  (forall l', SetLevel l' ∉ steps) ->
  lr_level (level_race env steps (mkLevelRace (level_number l) ∅)) = level_number l.
Proof.
  intros Hs. assert (level_race env steps (mkLevelRace (level_number l) ∅) = mkLevelRace (level_number l) ∅) as ->; [|done].
  unfold level_race. induction steps as [|s steps IH]; [done|]. cbn [foldl].
  assert (level_race_step env (mkLevelRace (level_number l) ∅) s = mkLevelRace (level_number l) ∅) as ->.
  { destruct s as [l'|t|t]; [by destruct (Hs l'); left| |]; cbn.
    - by rewrite (proj2 (Z.ltb_ge (level_number l) 0)) by (by destruct l).
    - by rewrite decide_False by set_solver. }
  apply IH. intros l' Hin. apply (Hs l'). by right.
Qed.
