(* ===== verification/Calculator.v ===== *)
(** * The calculator example

    The expression evaluator of src/examples/calculator_server.cpp: a recursive
    descent over the text that computes as it goes, against the grammar it
    implements.  Reading a number and printing one ([std::stod],
    [std::to_string]) are arguments. *)

From Stdlib Require Import Floats.SpecFloat.
From S2P Require Import Prelude Json Core Content ToolRegistry.

Section calculator.
(** [std::stod] on digits and points, and [std::to_string] of a double. *)
Context (stod : string -> outcome double) (print_double : double -> string).

(** ** The evaluator

    The state is the text after [pos_]; [total] is the size of the text. *)

Fixpoint skip_spaces (s : string) : string :=
  match s with
  | String c s' => if Ascii.eqb c " "%char then skip_spaces s' else s
  | EmptyString => EmptyString
  end.

Definition consume (c : Ascii.ascii) (s : string) : option string :=
  match s with String d s' => if Ascii.eqb d c then Some s' else None | EmptyString => None end.

Definition number_char (c : Ascii.ascii) : bool := is_digit c || Ascii.eqb c "."%char.

Fixpoint split_number (s : string) : string * string :=
  match s with
  | String c s' => if number_char c then let '(t, rest) := split_number s' in (String c t, rest) else (EmptyString, s)
  | EmptyString => (EmptyString, EmptyString)
  end.

Definition runtime_error (message : string) : exn := ExnStd message.
Definition position (total : nat) (s : string) : string := to_string (Z.of_nat (total - size s)).

(** The value and the rest of the text; [None] is out of fuel. *)
Definition parse : Type := option (outcome (double * string)).

Definition and_then (r : parse) (k : double -> string -> parse) : parse :=
  match r with
  | Some (Val (v, s)) => k v s
  | Some (Throw e) => Some (Throw e)
  | Some Undefined => Some Undefined
  | None => None
  end.

Definition number (total : nat) (s : string) : outcome (double * string) :=
  let s := skip_spaces s in
  let '(token, rest) := split_number s in
  if String.eqb token EmptyString then Throw (runtime_error ("expected a number at position " +:+ position total s))
  else v ← stod token; Val (v, rest).

Definition add : double -> double -> double := SFadd 53 1024.
Definition sub : double -> double -> double := SFsub 53 1024.
Definition mul : double -> double -> double := SFmul 53 1024.
Definition divide (a b : double) : outcome double :=
  if double_eqb b (S754_zero false) then Throw (runtime_error "division by zero") else Val (SFdiv 53 1024 a b).

Fixpoint expression (total fuel : nat) (s : string) : parse :=
  match fuel with
  | O => None
  | S n => and_then (term total n s) (expression_loop total n)
  end
with expression_loop (total fuel : nat) (value : double) (s : string) : parse :=
  match fuel with
  | O => None
  | S n =>
      let s := skip_spaces s in
      match consume "+"%char s with
      | Some s => and_then (term total n s) (fun v => expression_loop total n (add value v))
      | None =>
          match consume "-"%char s with
          | Some s => and_then (term total n s) (fun v => expression_loop total n (sub value v))
          | None => Some (Val (value, s))
          end
      end
  end
with term (total fuel : nat) (s : string) : parse :=
  match fuel with
  | O => None
  | S n => and_then (factor total n s) (term_loop total n)
  end
with term_loop (total fuel : nat) (value : double) (s : string) : parse :=
  match fuel with
  | O => None
  | S n =>
      let s := skip_spaces s in
      match consume "*"%char s with
      | Some s => and_then (factor total n s) (fun v => term_loop total n (mul value v))
      | None =>
          match consume "/"%char s with
          | Some s =>
              and_then (factor total n s) (fun divisor s =>
                match divide value divisor with
                | Val v => term_loop total n v s
                | Throw e => Some (Throw e)
                | Undefined => Some Undefined
                end)
          | None => Some (Val (value, s))
          end
      end
  end
with factor (total fuel : nat) (s : string) : parse :=
  match fuel with
  | O => None
  | S n =>
      let s := skip_spaces s in
      match consume "("%char s with
      | Some s =>
          and_then (expression total n s) (fun value s =>
            match consume ")"%char (skip_spaces s) with
            | Some s => Some (Val (value, s))
            | None => Some (Throw (runtime_error "missing closing parenthesis"))
            end)
      | None =>
          match consume "-"%char s with
          | Some s => and_then (factor total n s) (fun v s => Some (Val (SFopp v, s)))
          | None => Some (number total s)
          end
      end
  end.

(** Enough for any text, see [parse_returns]. *)
Definition fuel_for (s : string) : nat := 3 * size s + 3.

Definition evaluate (text : string) : outcome double :=
  match expression (size text) (fuel_for text) text with
  | Some (Val (value, s)) =>
      let s := skip_spaces s in
      if String.eqb s EmptyString then Val value
      else Throw (runtime_error ("unexpected character at position " +:+ position (size text) s))
  | Some (Throw e) => Throw e
  | _ => Undefined
  end.

(** The tool's handler. *)
Definition calculate (args : json) : outcome CallToolResult :=
  match (text ← (e ← at_key "expression" args; get_string e); evaluate text) with
  | Val v => Val (mkCallToolResult [text_content (print_double v)] false)
  | Throw e => Val (mkCallToolResult [text_content ("Evaluation failed: " +:+ what e)] true)
  | Undefined => Undefined
  end.

(** ** The grammar

    [derives c x v]: the text [x] is of the category [c], and computing its
    value from left to right gives [v], which may be an exception. *)

Inductive category := Expression | Term | Factor.

Fixpoint spaces (n : nat) : string := match n with O => EmptyString | S n => String " " (spaces n) end.

Definition operate (f : double -> double -> outcome double) (v w : outcome double) : outcome double := a ← v; b ← w; f a b.

Inductive derives : category -> string -> outcome double -> Prop :=
| d_number k t : t <> EmptyString -> str_forall number_char t = true -> derives Factor (spaces k +:+ t) (stod t)
| d_negate k x v : derives Factor x v -> derives Factor (spaces k +:+ "-" +:+ x) (a ← v; Val (SFopp a))
| d_paren k x k' v : derives Expression x v -> derives Factor (spaces k +:+ "(" +:+ x +:+ spaces k' +:+ ")") v
| d_factor x v : derives Factor x v -> derives Term x v
| d_mul x v k y w :
    derives Term x v -> derives Factor y w ->
    derives Term (x +:+ spaces k +:+ "*" +:+ y) (operate (fun a b => Val (mul a b)) v w)
| d_divide x v k y w :
    derives Term x v -> derives Factor y w -> derives Term (x +:+ spaces k +:+ "/" +:+ y) (operate divide v w)
| d_term x v : derives Term x v -> derives Expression x v
| d_add x v k y w :
    derives Expression x v -> derives Term y w ->
    derives Expression (x +:+ spaces k +:+ "+" +:+ y) (operate (fun a b => Val (add a b)) v w)
| d_sub x v k y w :
    derives Expression x v -> derives Term y w ->
    derives Expression (x +:+ spaces k +:+ "-" +:+ y) (operate (fun a b => Val (sub a b)) v w).

(** ** Texts *)

Lemma skip_spaces_spaces k s : skip_spaces (spaces k +:+ s) = skip_spaces s.
Proof. by induction k. Qed.
Lemma skip_spaces_idem s : skip_spaces (skip_spaces s) = skip_spaces s.
Proof. induction s as [|c s IH]; [done|]. cbn. destruct (Ascii.eqb c " ") eqn:E; [done|]. cbn. by rewrite E. Qed.
Lemma skip_spaces_split s : exists k, s = spaces k +:+ skip_spaces s.
Proof.
  induction s as [|c s [k IH]]; [by exists 0|]. cbn. destruct (Ascii.eqb_spec c " ") as [->|]; [|by exists 0].
  exists (S k). cbn. by rewrite <- IH.
Qed.
Lemma size_skip_spaces s : size (skip_spaces s) <= size s.
Proof. induction s as [|c s IH]; [done|]. cbn. destruct (Ascii.eqb c " "); cbn; lia. Qed.

Lemma consume_Some c s s' : consume c s = Some s' -> s = String c s'.
Proof. destruct s as [|d s]; [done|]. cbn. destruct (Ascii.eqb_spec d c) as [->|]; [by intros [= ->]|done]. Qed.

(** What may follow a number. *)
Definition no_number (s : string) : Prop := match s with String c _ => number_char c = false | EmptyString => True end.

Lemma split_number_app t rest :
  str_forall number_char t = true -> no_number rest -> split_number (t +:+ rest) = (t, rest).
Proof.
  intros Ht Hr. induction t as [|c t IH].
  - destruct rest as [|c rest]; [done|]. cbn in *. by rewrite Hr.
  - cbn in Ht. apply andb_true_iff in Ht as [Hc Ht]. change (String c t +:+ rest) with (String c (t +:+ rest)).
    cbn [split_number]. by rewrite Hc, (IH Ht).
Qed.

Lemma split_number_spec s :
  let '(t, rest) := split_number s in s = t +:+ rest /\ str_forall number_char t = true.
Proof.
  induction s as [|c s IH]; [done|]. cbn. destruct (number_char c) eqn:E; [|done].
  destruct (split_number s) as [t rest]. destruct IH as [-> Ht]. cbn. by rewrite E.
Qed.

Lemma number_not_space t s :
  t <> EmptyString -> str_forall number_char t = true -> skip_spaces (t +:+ s) = t +:+ s.
Proof.
  destruct t as [|c t]; [done|]. cbn. intros _ [Hc _]%andb_true_iff.
  destruct (Ascii.eqb_spec c " ") as [->|]; [done|done].
Qed.

(** ** Fuel

    More of it changes nothing, and [fuel_for] is enough. *)

Definition extends (p q : parse) : Prop := forall r, p = Some r -> q = Some r.

Lemma extends_same p : extends p p.
Proof. by intros r. Qed.

Lemma extends_and_then p q k l :
  extends p q -> (forall v s, extends (k v s) (l v s)) -> extends (and_then p k) (and_then q l).
Proof.
  intros Hp Hk r. destruct p as [[[v s]|e|]|]; cbn; [|..|done]; intros H; rewrite (Hp _ eq_refl); cbn; [by apply Hk|done|done].
Qed.

Lemma fuel_grows total n :
  (forall s, extends (expression total n s) (expression total (S n) s)) /\
  (forall v s, extends (expression_loop total n v s) (expression_loop total (S n) v s)) /\
  (forall s, extends (term total n s) (term total (S n) s)) /\
  (forall v s, extends (term_loop total n v s) (term_loop total (S n) v s)) /\
  (forall s, extends (factor total n s) (factor total (S n) s)).
Proof.
  induction n as [|n (IHe & IHel & IHt & IHtl & IHf)]; [by repeat split|]. repeat split.
  - intros s. by apply extends_and_then.
  - intros v s. cbn [expression_loop]. destruct (consume "+" _); [by apply extends_and_then|].
    destruct (consume "-" _); [by apply extends_and_then|apply extends_same].
  - intros s. by apply extends_and_then.
  - intros v s. cbn [term_loop]. destruct (consume "*" _); [by apply extends_and_then|].
    destruct (consume "/" _); [|apply extends_same]. apply extends_and_then; [done|]. intros w s'.
    destruct (divide v w); [apply IHtl|apply extends_same|apply extends_same].
  - intros s. cbn [factor]. destruct (consume "(" _); [apply extends_and_then; [done|]; intros; apply extends_same|].
    destruct (consume "-" _); [apply extends_and_then; [done|]; intros; apply extends_same|apply extends_same].
Qed.

(** It returns, with no more text than it was given. *)
Definition returns (s : string) (p : parse) : Prop :=
  exists r, p = Some r /\ forall v rest, r = Val (v, rest) -> size rest <= size s.

Lemma returns_and_then s p k :
  returns s p -> (forall v rest, size rest <= size s -> returns rest (k v rest)) -> returns s (and_then p k).
Proof.
  intros (r & -> & Hr) Hk. destruct r as [[v rest]|e|]; [|by eexists|by eexists].
  specialize (Hr v rest eq_refl). destruct (Hk v rest Hr) as (r & Hr2 & Hs). exists r. split; [done|].
  intros v' rest' E. specialize (Hs _ _ E). lia.
Qed.

Lemma returns_weaken s s' p : size s' <= size s -> returns s' p -> returns s p.
Proof. intros Hs (r & -> & Hr). exists r. split; [done|]. intros v rest E. specialize (Hr _ _ E). lia. Qed.

Lemma returns_done s v rest : size rest <= size s -> returns s (Some (Val (v, rest))).
Proof. intros Hs. eexists. split; [done|]. by intros ? ? [= -> ->]. Qed.

Lemma consume_size c s s' : consume c (skip_spaces s) = Some s' -> size s' < size s.
Proof. intros H%consume_Some. pose proof (size_skip_spaces s) as Hs. rewrite H in Hs. cbn in Hs. lia. Qed.

Lemma number_returns total s : returns s (Some (number total s)).
Proof.
  eexists. split; [done|]. intros v rest. unfold number. pose proof (split_number_spec (skip_spaces s)) as H.
  destruct (split_number (skip_spaces s)) as [t r]. destruct H as [H _].
  destruct (String.eqb t EmptyString); [done|]. destruct (stod t) as [d| |]; [|done|done]. intros [= _ <-].
  pose proof (size_skip_spaces s) as Hs. rewrite H, size_app in Hs. lia.
Qed.

Lemma parse_returns total n :
  (forall s, 3 * size s + 3 <= n -> returns s (expression total n s)) /\
  (forall v s, 3 * size s + 1 <= n -> returns s (expression_loop total n v s)) /\
  (forall s, 3 * size s + 2 <= n -> returns s (term total n s)) /\
  (forall v s, 3 * size s + 1 <= n -> returns s (term_loop total n v s)) /\
  (forall s, 3 * size s + 1 <= n -> returns s (factor total n s)).
Proof.
  induction n as [|n (IHe & IHel & IHt & IHtl & IHf)]; [repeat split; intros; lia|]. repeat split.
  - intros s Hn. apply returns_and_then; [apply IHt; lia|]. intros v rest Hr. apply IHel. lia.
  - intros v s Hn. cbn [expression_loop]. destruct (consume "+" _) as [s'|] eqn:E.
    { apply consume_size in E. apply (returns_weaken _ s'); [lia|]. apply returns_and_then; [apply IHt; lia|]. intros. apply IHel. lia. }
    destruct (consume "-" _) as [s'|] eqn:E2; [|apply returns_done, size_skip_spaces].
    apply consume_size in E2. apply (returns_weaken _ s'); [lia|]. apply returns_and_then; [apply IHt; lia|]. intros. apply IHel. lia.
  - intros s Hn. apply returns_and_then; [apply IHf; lia|]. intros v rest Hr. apply IHtl. lia.
  - intros v s Hn. cbn [term_loop]. destruct (consume "*" _) as [s'|] eqn:E.
    { apply consume_size in E. apply (returns_weaken _ s'); [lia|]. apply returns_and_then; [apply IHf; lia|]. intros. apply IHtl. lia. }
    destruct (consume "/" _) as [s'|] eqn:E2; [|apply returns_done, size_skip_spaces].
    apply consume_size in E2. apply (returns_weaken _ s'); [lia|]. apply returns_and_then; [apply IHf; lia|]. intros w rest Hr.
    destruct (divide v w); [apply IHtl; lia|by eexists|by eexists].
  - intros s Hn. cbn [factor]. destruct (consume "(" _) as [s'|] eqn:E.
    { apply consume_size in E. apply (returns_weaken _ s'); [lia|]. apply returns_and_then; [apply IHe; lia|]. intros w rest Hr.
      destruct (consume ")" _) as [s2|] eqn:E2; [|by eexists]. apply consume_size in E2. apply returns_done. lia. }
    destruct (consume "-" _) as [s'|] eqn:E2; [|apply (returns_weaken _ (skip_spaces s)); [apply size_skip_spaces|apply number_returns]].
    apply consume_size in E2. apply (returns_weaken _ s'); [lia|]. apply returns_and_then; [apply IHf; lia|]. intros. by apply returns_done.
Qed.

(** ** What the grammar derives is computed *)

Definition runs (p : nat -> parse) (r : outcome (double * string)) : Prop := exists n, p n = Some r.

Definition growing (p : nat -> parse) : Prop := forall n, extends (p n) (p (S n)).

Lemma growing_le p n m : growing p -> n <= m -> extends (p n) (p m).
Proof. intros Hp. induction 1 as [|m Hm IH]; [apply extends_same|]. intros r H. by apply Hp, IH. Qed.

Lemma runs_unique p r r' : growing p -> runs p r -> runs p r' -> r = r'.
Proof.
  intros Hp [n Hn] [m Hm]. apply (growing_le p n (n + m) Hp ltac:(lia)) in Hn.
  apply (growing_le p m (n + m) Hp ltac:(lia)) in Hm. congruence.
Qed.

Lemma runs_and_then p k v s r :
  growing p -> (forall v s, growing (fun n => k n v s)) -> runs p (Val (v, s)) -> runs (fun n => k n v s) r ->
  runs (fun n => and_then (p n) (k n)) r.
Proof.
  intros Hp Hk [n Hn] [m Hm]. exists (n + m). rewrite (growing_le p n (n + m) Hp ltac:(lia) _ Hn). cbn.
  exact (growing_le _ m (n + m) (Hk v s) ltac:(lia) _ Hm).
Qed.

Lemma runs_and_then_stops p k r :
  match r with Val _ => False | _ => True end -> runs p r -> runs (fun n => and_then (p n) (k n)) r.
Proof. intros Hr [n Hn]. exists n. rewrite Hn. by destruct r. Qed.

Lemma growing_expression total s : growing (fun n => expression total n s).
Proof. intros n. apply fuel_grows. Qed.
Lemma growing_expression_loop total v s : growing (fun n => expression_loop total n v s).
Proof. intros n. apply fuel_grows. Qed.
Lemma growing_term total s : growing (fun n => term total n s).
Proof. intros n. apply fuel_grows. Qed.
Lemma growing_term_loop total v s : growing (fun n => term_loop total n v s).
Proof. intros n. apply fuel_grows. Qed.
Lemma growing_factor total s : growing (fun n => factor total n s).
Proof. intros n. apply fuel_grows. Qed.
Lemma growing_const r : growing (fun _ => r).
Proof. intros n. apply extends_same. Qed.
Create HintDb growing.
#[local] Hint Resolve growing_expression growing_expression_loop growing_term growing_term_loop growing_factor growing_const : growing.

(** A step of fuel around what runs. *)
Lemma runs_S (p q : nat -> parse) r : (forall n, q (S n) = p n) -> runs p r -> runs q r.
Proof. intros H [n Hn]. exists (S n). by rewrite H. Qed.

(** What a loop goes on with, after the value. *)
Definition goes_on (v : outcome double) (k : double -> nat -> parse) (r : outcome (double * string)) : Prop :=
  match v with Val a => runs (k a) r | Throw e => r = Throw e | Undefined => r = Undefined end.

(** No operator that a loop would take. *)
Definition no_operator (ops : list Ascii.ascii) (s : string) : Prop := Forall (fun c => consume c (skip_spaces s) = None) ops.

Definition term_ops : list Ascii.ascii := ["*"%char; "/"%char].
Definition expression_ops : list Ascii.ascii := ["+"%char; "-"%char].

Lemma term_loop_stops total v s : no_operator term_ops s -> runs (fun n => term_loop total n v s) (Val (v, skip_spaces s)).
Proof. intros [H1 [H2 _]%Forall_cons]%Forall_cons. exists 1. cbn [term_loop]. by rewrite H1, H2. Qed.

Lemma expression_loop_stops total v s :
  no_operator expression_ops s -> runs (fun n => expression_loop total n v s) (Val (v, skip_spaces s)).
Proof. intros [H1 [H2 _]%Forall_cons]%Forall_cons. exists 1. cbn [expression_loop]. by rewrite H1, H2. Qed.

Lemma expression_loop_skip total v s r :
  runs (fun n => expression_loop total n v s) r -> runs (fun n => expression_loop total n v (skip_spaces s)) r.
Proof. intros [[|n] Hn]; [done|]. exists (S n). cbn [expression_loop] in *. by rewrite skip_spaces_idem. Qed.

Lemma no_number_spaces k c s : number_char c = false -> no_number (spaces k +:+ String c s).
Proof. by destruct k. Qed.

Definition computed (total : nat) (c : category) (x : string) (v : outcome double) : Prop :=
  match c with
  | Factor => forall rest, no_number rest -> runs (fun n => factor total n (x +:+ rest)) (a ← v; Val (a, rest))
  | Term => forall rest r, no_number rest -> goes_on v (fun a n => term_loop total n a rest) r ->
              runs (fun n => term total n (x +:+ rest)) r
  | Expression => forall rest r, no_number rest -> no_operator term_ops rest ->
              goes_on v (fun a n => expression_loop total n a rest) r -> runs (fun n => expression total n (x +:+ rest)) r
  end.

Lemma runs_outcome p k (w : outcome double) rest r :
  growing p -> (forall v s, growing (fun n => k n v s)) ->
  runs p (b ← w; Val (b, rest)) -> goes_on w (fun b n => k n b rest) r -> runs (fun n => and_then (p n) (k n)) r.
Proof.
  intros Hp Hk Hr Hg. destruct w as [b|e|]; cbn in Hr, Hg; [by eapply runs_and_then|subst r..]; by apply runs_and_then_stops.
Qed.

Lemma consume_number c t s :
  number_char c = false -> t <> EmptyString -> str_forall number_char t = true -> consume c (t +:+ s) = None.
Proof.
  intros Hc Ht Hn. destruct t as [|d t]; [done|]. cbn in *. apply andb_true_iff in Hn as [Hd _].
  destruct (Ascii.eqb_spec d c) as [->|]; congruence.
Qed.

Lemma term_piece total y w rest :
  computed total Term y w -> no_number rest -> no_operator term_ops rest ->
  runs (fun n => term total n (y +:+ rest)) (b ← w; Val (b, skip_spaces rest)).
Proof.
  intros Hy Hn Ho. apply Hy; [done|]. destruct w as [b|e|]; [|done|done]. by apply term_loop_stops.
Qed.

Lemma add_piece total k a (op : Ascii.ascii) (f : double -> double -> double) y w rest r :
  (op = "+"%char /\ f = add \/ op = "-"%char /\ f = sub) ->
  computed total Term y w -> no_number rest -> no_operator term_ops rest ->
  goes_on (b ← w; Val (f a b)) (fun a n => expression_loop total n a rest) r ->
  runs (fun n => expression_loop total n a (spaces k +:+ String op (y +:+ rest))) r.
Proof.
  intros Hop Hy Hn Ho Hg.
  apply (runs_S (fun n => and_then (term total n (y +:+ rest)) (fun v => expression_loop total n (f a v)))).
  { intros n. cbn [expression_loop]. rewrite skip_spaces_spaces. by destruct Hop as [[-> ->]|[-> ->]]. }
  eapply (runs_outcome (fun n => term total n (y +:+ rest)) (fun n v => expression_loop total n (f a v)) w (skip_spaces rest));
    [auto with growing|auto with growing|by apply term_piece|].
  destruct w as [b|e|]; cbn in *; [by apply expression_loop_skip|done|done].
Qed.

Lemma mul_piece total k a (op : Ascii.ascii) (f : double -> double -> outcome double) y w rest r :
  (op = "*"%char /\ f = (fun a b => Val (mul a b)) \/ op = "/"%char /\ f = divide) ->
  computed total Factor y w -> no_number rest ->
  goes_on (b ← w; f a b) (fun a n => term_loop total n a rest) r ->
  runs (fun n => term_loop total n a (spaces k +:+ String op (y +:+ rest))) r.
Proof.
  intros Hop Hy Hn Hg.
  apply (runs_S (fun n => and_then (factor total n (y +:+ rest)) (fun b s =>
           match f a b with Val v => term_loop total n v s | Throw e => Some (Throw e) | Undefined => Some Undefined end))).
  { intros n. cbn [term_loop]. rewrite skip_spaces_spaces. by destruct Hop as [[-> ->]|[-> ->]]. }
  eapply (runs_outcome (fun n => factor total n (y +:+ rest)) (fun n b s =>
           match f a b with Val v => term_loop total n v s | Throw e => Some (Throw e) | Undefined => Some Undefined end) w rest);
    [auto with growing|intros v s; destruct (f a v); auto with growing|by apply Hy|].
  destruct w as [b|e|]; cbn in *; [|done|done]. destruct (f a b) as [v|e|]; cbn in *; [done|..]; subst r; by exists 0.
Qed.

Lemma derives_computed total c x v : derives c x v -> computed total c x v.
Proof.
  induction 1 as [k t Hne Ht|k x v H IH|k x k' v H IH|x v H IH|x v k y w Hx IHx Hy IHy|x v k y w Hx IHx Hy IHy
                 |x v H IH|x v k y w Hx IHx Hy IHy|x v k y w Hx IHx Hy IHy]; cbn [computed].
  - intros rest Hr. exists 1. cbn [factor]. rewrite str_app_assoc, skip_spaces_spaces, number_not_space by done.
    rewrite !consume_number by done. unfold number. rewrite number_not_space, split_number_app by done.
    by rewrite (proj2 (String.eqb_neq _ _) Hne).
  - intros rest Hr. rewrite !str_app_assoc.
    apply (runs_S (fun n => and_then (factor total n (x +:+ rest)) (fun v s => Some (Val (SFopp v, s))))).
    { intros n. cbn [factor]. by rewrite skip_spaces_spaces. }
    eapply (runs_outcome _ (fun _ v s => Some (Val (SFopp v, s))) v rest); [auto with growing|auto with growing|by apply IH|].
    destruct v; cbn; [by exists 0|done|done].
  - intros rest Hr. rewrite !str_app_assoc.
    set (close := (fun value s => match consume ")"%char (skip_spaces s) with
                                  | Some s => Some (Val (value, s))
                                  | None => Some (Throw (runtime_error "missing closing parenthesis"))
                                  end) : double -> string -> parse).
    apply (runs_S (fun n => and_then (expression total n (x +:+ spaces k' +:+ ")" +:+ rest)) close)).
    { intros n. cbn [factor]. by rewrite skip_spaces_spaces. }
    eapply (runs_outcome _ (fun _ => close) v (")" +:+ rest)); [auto with growing|intros; apply growing_const| |].
    2:{ destruct v; cbn; [by exists 0|done|done]. }
    assert (forall c, c <> ")"%char -> consume c (skip_spaces (spaces k' +:+ ")" +:+ rest)) = None) as Hc.
    { intros c Hc. rewrite skip_spaces_spaces. change ((if Ascii.eqb ")" c then Some rest else None) = None).
      by rewrite (proj2 (Ascii.eqb_neq ")" c) (not_eq_sym Hc)). }
    apply IH; [by apply no_number_spaces|by repeat (apply Forall_cons_2; [by apply Hc|])|].
    destruct v as [a|e|]; [|done|done]. cbn.
    pose proof (expression_loop_stops total a (spaces k' +:+ ")" +:+ rest)) as Hs. rewrite skip_spaces_spaces in Hs. apply Hs.
    by repeat (apply Forall_cons_2; [by apply Hc|]).
  - intros rest r Hr Hg. apply (runs_S (fun n => and_then (factor total n (x +:+ rest)) (term_loop total n))); [done|].
    eapply (runs_outcome _ (term_loop total) v rest); [auto with growing|auto with growing|by apply IH|done].
  - intros rest r Hr Hg. rewrite !str_app_assoc. apply IHx; [by apply no_number_spaces|].
    destruct v as [a|e|]; [|done|done]. apply (mul_piece total k a "*" (fun a b => Val (mul a b)) y w rest r); auto.
  - intros rest r Hr Hg. rewrite !str_app_assoc. apply IHx; [by apply no_number_spaces|].
    destruct v as [a|e|]; [|done|done]. apply (mul_piece total k a "/" divide y w rest r); auto.
  - intros rest r Hr Ho Hg. apply (runs_S (fun n => and_then (term total n (x +:+ rest)) (expression_loop total n))); [done|].
    eapply (runs_outcome _ (expression_loop total) v (skip_spaces rest)); [auto with growing|auto with growing|by apply term_piece|].
    destruct v; cbn in *; [by apply expression_loop_skip|done|done].
  - intros rest r Hr Ho Hg. rewrite !str_app_assoc.
    apply IHx; [by apply no_number_spaces|repeat (apply Forall_cons_2; [by rewrite skip_spaces_spaces|]); apply Forall_nil_2|].
    destruct v as [a|e|]; [|done|done]. apply (add_piece total k a "+" add y w rest r); auto.
  - intros rest r Hr Ho Hg. rewrite !str_app_assoc.
    apply IHx; [by apply no_number_spaces|repeat (apply Forall_cons_2; [by rewrite skip_spaces_spaces|]); apply Forall_nil_2|].
    destruct v as [a|e|]; [|done|done]. apply (add_piece total k a "-" sub y w rest r); auto.
Qed.

(** ** What is computed the grammar derives *)

Lemma and_then_inv p k r : and_then p k = Some (Val r) -> exists v s, p = Some (Val (v, s)) /\ k v s = Some (Val r).
Proof. destruct p as [[[v s]|e|]|]; [|done..]. intros H. by exists v, s. Qed.

Lemma spaces_add j k : spaces (j + k) = spaces j +:+ spaces k.
Proof. induction j as [|j IH]; [done|]. cbn. by rewrite IH. Qed.

Lemma consumed c s s' : consume c (skip_spaces s) = Some s' -> exists k, s = spaces k +:+ String c s'.
Proof. intros H%consume_Some. destruct (skip_spaces_split s) as [k Hk]. exists k. by rewrite <- H. Qed.

(** A loop adds to a text that was derived, with blanks after it. *)
Definition loop_derives (c : category) (loop : double -> string -> parse) : Prop :=
  forall a s v rest x k, loop a s = Some (Val (v, rest)) -> derives c x (Val a) ->
  exists y k', spaces k +:+ s = y +:+ spaces k' +:+ rest /\ derives c (x +:+ y) (Val v) /\ skip_spaces rest = rest.

Lemma loop_done c a s x k :
  derives c x (Val a) ->
  exists y k', spaces k +:+ s = y +:+ spaces k' +:+ skip_spaces s /\ derives c (x +:+ y) (Val a) /\
    skip_spaces (skip_spaces s) = skip_spaces s.
Proof.
  intros Hx. destruct (skip_spaces_split s) as [j Hj]. exists EmptyString, (k + j). split; [|split; [by rewrite str_app_nil_r|apply skip_spaces_idem]].
  rewrite spaces_add. cbn. rewrite str_app_assoc. by rewrite <- Hj.
Qed.

(** One turn: an operator, an operand, and the loop again. *)
Lemma loop_turn c (op : Ascii.ascii) s s' z k1 s1 x k b v rest :
  consume op (skip_spaces s) = Some s' -> s' = z +:+ spaces k1 +:+ s1 ->
  (forall j, derives c (x +:+ spaces j +:+ String op z) (Val b)) ->
  (forall x', derives c x' (Val b) ->
     exists y k', spaces k1 +:+ s1 = y +:+ spaces k' +:+ rest /\ derives c (x' +:+ y) (Val v) /\ skip_spaces rest = rest) ->
  exists y k', spaces k +:+ s = y +:+ spaces k' +:+ rest /\ derives c (x +:+ y) (Val v) /\ skip_spaces rest = rest.
Proof.
  intros [j Hj]%consumed -> Hb Hloop. destruct (Hloop _ (Hb (k + j))) as (y & k' & He & Hd & Hr).
  exists (spaces (k + j) +:+ String op (z +:+ y)), k'. split; [|split; [|done]].
  - rewrite Hj, He, spaces_add, !str_app_assoc. cbn. by rewrite !str_app_assoc.
  - rewrite !str_app_assoc in Hd. exact Hd.
Qed.

Lemma number_derives total s v rest :
  number total (skip_spaces s) = Val (v, rest) -> exists x, s = x +:+ rest /\ derives Factor x (Val v).
Proof.
  unfold number. rewrite skip_spaces_idem. destruct (skip_spaces_split s) as [k Hk].
  pose proof (split_number_spec (skip_spaces s)) as H. destruct (split_number (skip_spaces s)) as [t r]. destruct H as [Hs Ht].
  destruct (String.eqb_spec t EmptyString) as [|Hne]; [done|]. destruct (stod t) as [d| |] eqn:E; [|done|done]. intros [= <- <-].
  exists (spaces k +:+ t). split; [by rewrite Hk at 1; rewrite Hs, str_app_assoc|]. rewrite <- E. by constructor.
Qed.

Lemma computed_derives total n :
  (forall s v rest, expression total n s = Some (Val (v, rest)) ->
     exists x k, s = x +:+ spaces k +:+ rest /\ derives Expression x (Val v) /\ skip_spaces rest = rest) /\
  loop_derives Expression (expression_loop total n) /\
  (forall s v rest, term total n s = Some (Val (v, rest)) ->
     exists x k, s = x +:+ spaces k +:+ rest /\ derives Term x (Val v) /\ skip_spaces rest = rest) /\
  loop_derives Term (term_loop total n) /\
  (forall s v rest, factor total n s = Some (Val (v, rest)) -> exists x, s = x +:+ rest /\ derives Factor x (Val v)).
Proof.
  induction n as [|n (IHe & IHel & IHt & IHtl & IHf)]; [by repeat split|]. split; [|split; [|split; [|split]]].
  - intros s v rest (a & s1 & Ht & Hl)%and_then_inv. destruct (IHt _ _ _ Ht) as (x & k & -> & Hx & _).
    destruct (IHel _ _ _ _ x k Hl (d_term _ _ Hx)) as (y & k' & He & Hy & Hr). exists (x +:+ y), k'. by rewrite He, str_app_assoc.
  - intros a s v rest x k. cbn [expression_loop]. intros Hl Hx.
    destruct (consume "+" _) as [s'|] eqn:E; [|destruct (consume "-" _) as [s'|] eqn:E2; [|injection Hl as <- <-; by apply loop_done]];
      apply and_then_inv in Hl as (b & s1 & Ht & Hl); destruct (IHt _ _ _ Ht) as (z & k1 & Hs & Hz & _).
    + eapply (loop_turn Expression "+"); [exact E|exact Hs| |intros; by eapply IHel]. intros j. exact (d_add x _ j z _ Hx Hz).
    + eapply (loop_turn Expression "-"); [exact E2|exact Hs| |intros; by eapply IHel]. intros j. exact (d_sub x _ j z _ Hx Hz).
  - intros s v rest (a & s1 & Hf & Hl)%and_then_inv. destruct (IHf _ _ _ Hf) as (x & -> & Hx).
    destruct (IHtl _ _ _ _ x 0 Hl (d_factor _ _ Hx)) as (y & k' & He & Hy & Hr). cbn in He. exists (x +:+ y), k'. by rewrite He, str_app_assoc.
  - intros a s v rest x k. cbn [term_loop]. intros Hl Hx.
    destruct (consume "*" _) as [s'|] eqn:E; [|destruct (consume "/" _) as [s'|] eqn:E2; [|injection Hl as <- <-; by apply loop_done]];
      apply and_then_inv in Hl as (b & s1 & Hf & Hl); destruct (IHf _ _ _ Hf) as (z & Hs & Hz).
    + eapply (loop_turn Term "*" _ _ z 0); [exact E|exact Hs| |intros x' Hx'; exact (IHtl _ _ _ _ x' 0 Hl Hx')]. intros j. exact (d_mul x _ j z _ Hx Hz).
    + destruct (divide a b) as [q|e|] eqn:Hq; [|done|done].
      eapply (loop_turn Term "/" _ _ z 0); [exact E2|exact Hs| |intros x' Hx'; exact (IHtl _ _ _ _ x' 0 Hl Hx')].
      intros j. rewrite <- Hq. exact (d_divide x _ j z _ Hx Hz).
  - intros s v rest. cbn [factor]. destruct (consume "(" _) as [s'|] eqn:E; [|destruct (consume "-" _) as [s'|] eqn:E2].
    + intros (a & s1 & He & Hc)%and_then_inv. destruct (IHe _ _ _ He) as (x & k' & -> & Hx & _).
      destruct (consume ")" _) as [s2|] eqn:E3; [|done]. injection Hc as <- <-.
      apply consumed in E as [k ->]. apply consumed in E3 as [j ->].
      exists (spaces k +:+ "(" +:+ x +:+ spaces (k' + j) +:+ ")"). split; [|by constructor].
      rewrite spaces_add, !str_app_assoc. done.
    + intros (a & s1 & Hf & Hc)%and_then_inv. injection Hc as <- <-. destruct (IHf _ _ _ Hf) as (x & -> & Hx).
      apply consumed in E2 as [k ->]. exists (spaces k +:+ "-" +:+ x). split; [by rewrite !str_app_assoc|].
      exact (d_negate k x _ Hx).
    + intros Hn. injection Hn as Hn. by apply number_derives in Hn.
Qed.

(** ** Correctness *)

Lemma fuel_suffices total text : returns text (expression total (fuel_for text) text).
Proof. apply parse_returns. unfold fuel_for. lia. Qed.

(** The fuel is enough, and more of it gives the same. *)
Lemma fuel_irrelevant text m :
  fuel_for text <= m -> expression (size text) m text = expression (size text) (fuel_for text) text.
Proof.
  intros Hm. destruct (fuel_suffices (size text) text) as (r & Hr & _). rewrite Hr.
  exact (growing_le _ _ _ (growing_expression (size text) text) Hm r Hr).
Qed.

(** C26: the evaluator computes exactly the grammar of the four operations:
    sums of products of factors, to the left, with blanks anywhere between
    tokens.  A text of the grammar evaluates to what its derivation computes
    from left to right, the first exception of a number or a division included;
    and a text that evaluates to a value is one of the grammar, with that
    value, and blanks after it. *)
Theorem calculator_grammar :
  (forall x o k, derives Expression x o -> evaluate (x +:+ spaces k) = o) /\
  (forall text v, evaluate text = Val v -> exists x k, text = x +:+ spaces k /\ derives Expression x (Val v)).
Proof.
  split.
  - intros x o k Hx. set (text := x +:+ spaces k).
    assert (skip_spaces (spaces k) = EmptyString) as Hk.
    { pose proof (skip_spaces_spaces k EmptyString) as H. by rewrite str_app_nil_r in H. }
    assert (no_number (spaces k)) as Hn by by destruct k.
    assert (runs (fun n => expression (size text) n text) (a ← o; Val (a, EmptyString))) as Hr.
    { apply (derives_computed (size text) _ _ _ Hx); [done|by repeat (apply Forall_cons_2; [by rewrite Hk|])|].
      destruct o as [a|e|]; [|done|done]. cbn. pose proof (expression_loop_stops (size text) a (spaces k)) as Hs.
      rewrite Hk in Hs. apply Hs. by repeat (apply Forall_cons_2; [by rewrite Hk|]). }
    destruct (fuel_suffices (size text) text) as (r & Hf & _).
    assert (r = (a ← o; Val (a, EmptyString))) as ->.
    { eapply runs_unique; [apply (growing_expression (size text) text)|by eexists|exact Hr]. }
    unfold evaluate. rewrite Hf. by destruct o.
  - intros text v. unfold evaluate. destruct (expression _ _ text) as [[[a s]|e|]|] eqn:E; try done.
    destruct (String.eqb_spec (skip_spaces s) EmptyString) as [Hs|]; [|done]. intros [= <-].
    destruct (proj1 (computed_derives _ _) _ _ _ E) as (x & k & -> & Hx & Hr). rewrite Hr in Hs. subst s.
    exists x, k. by rewrite str_app_nil_r.
Qed.
End calculator.

(** ** Concrete expressions *)

Module CalculatorDemo.
(** [stod]: the longest decimal number at the front, rounded once. *)
Fixpoint fraction (m : Z) (scale : positive) (s : string) : Z * positive :=
  match s with
  | String c s' => if is_digit c then fraction (10 * m + digit_val c) (10 * scale) s' else (m, scale)
  | EmptyString => (m, scale)
  end.

Fixpoint decimal (m : Z) (s : string) : Z * positive :=
  match s with
  | String c s' => if is_digit c then decimal (10 * m + digit_val c) s' else if Ascii.eqb c "." then fraction m 1 s' else (m, 1%positive)
  | EmptyString => (m, 1%positive)
  end.

Definition stod (s : string) : outcome double :=
  if str_forall (fun c => negb (is_digit c)) s then Throw (ExnStd "stod")
  else let '(m, scale) := decimal 0 s in
    Val (match m with Zpos m => SFdiv 53 1024 (S754_finite false m 0) (S754_finite false scale 0) | _ => S754_zero false end).

Example precedence : evaluate stod "2 * (3 + 4) - 6/2 " = Val (double_of_Z 11).
Proof. vm_compute. reflexivity. Qed.

Example negated : evaluate stod "--2 - -1" = Val (double_of_Z 3).
Proof. vm_compute. reflexivity. Qed.

Example by_zero : evaluate stod "1 / (2 - 2) + x" = Throw (ExnStd "division by zero").
Proof. vm_compute. reflexivity. Qed.

Example trailing : evaluate stod "1 + 2 3" = Throw (ExnStd "unexpected character at position 6").
Proof. vm_compute. reflexivity. Qed.

(** A second point and what follows it is read, and dropped. *)
Example two_points : evaluate stod "1.5.7" = evaluate stod "1.5".
Proof. vm_compute. reflexivity. Qed.

Lemma calculator_grammar_witness : evaluate stod "1+2 " = Val (double_of_Z 3).
Proof.
  refine (eq_trans (proj1 (calculator_grammar stod) ("1" +:+ spaces 0 +:+ "+" +:+ "2") _ 1
            (d_add stod "1" (stod "1") 0 "2" (stod "2") _ _)) _).
  - apply d_term, d_factor, (d_number stod 0 "1"); [discriminate|reflexivity].
  - apply d_factor, (d_number stod 0 "2"); [discriminate|reflexivity].
  - vm_compute. reflexivity.
Defined.
End CalculatorDemo.
