(* ===== verification/Strtoull.v ===== *)
(** * Reading numbers in any base

    [std::strtoull] with its [base] and [end] arguments, as
    examples/vxworks_monitor/ uses it for object ids, and the hexadecimal
    notation [snprintf("0x%llx")] writes. *)

From S2P Require Import Prelude Json Core Decimal Chunked.

Definition digit_in (base : Z) (c : Ascii.ascii) : option Z :=
  let d := if is_digit c then Some (digit_val c)
           else if is_lower c then Some (Z.of_N (code c) - 87)%Z
           else if is_upper c then Some (Z.of_N (code c) - 55)%Z
           else None in
  match d with Some d => if (d <? base)%Z then Some d else None | None => None end.

(** The value of the digits at the front, and what follows them. *)
Fixpoint read_in (base value : Z) (s : string) : Z * string :=
  match s with
  | String c s' => match digit_in base c with Some d => read_in base (base * value + d) s' | None => (value, s) end
  | EmptyString => (value, EmptyString)
  end.

(** What follows a prefix [0x] that has a digit after it. *)
Definition hex_prefix (s : string) : option string :=
  match s with
  | String "0" (String x (String d s')) =>
      if (Ascii.eqb x "x"%char || Ascii.eqb x "X"%char) && bool_decide (is_Some (digit_in 16 d))
      then Some (String d s') else None
  | _ => None
  end.

(** The base that applies, and the text from the first digit on. *)
Definition resolve_base (base : Z) (s : string) : Z * string :=
  match hex_prefix s with
  | Some digits => if (base =? 0)%Z || (base =? 16)%Z then (16%Z, digits) else (base, s)
  | None => if (base =? 0)%Z then (if String.prefix "0" s then 8%Z else 10%Z, s) else (base, s)
  end.

(** The value and [end], or [None] when there is no number and [end] stays at
    the start.  The value saturates, and is negated modulo 2^64. *)
Definition strtoull_base (base : Z) (s : string) : Z * option string :=
  let '(negative, digits) := read_sign (skip_space s) in
  let '(b, digits) := resolve_base base digits in
  let '(v, rest) := read_in b 0 digits in
  if String.eqb rest digits then (0%Z, None)
  else (if (modulus 64 <=? v)%Z then (modulus 64 - 1)%Z else if negative then wrap_u 64 (- v) else v, Some rest).

(** [snprintf("0x%llx", value)]. *)
Definition hex_id (value : Z) : string := "0x" +:+ hex value.

(** ** Hexadecimal notation reads back *)

Lemma digit_in_hex_char d : (0 <= d < 16)%Z -> digit_in 16 (hex_char d) = Some d.
Proof.
  intros H. assert (d = 0 \/ d = 1 \/ d = 2 \/ d = 3 \/ d = 4 \/ d = 5 \/ d = 6 \/ d = 7 \/ d = 8 \/ d = 9 \/
                    d = 10 \/ d = 11 \/ d = 12 \/ d = 13 \/ d = 14 \/ d = 15)%Z as Hd by lia.
  by repeat destruct Hd as [->|Hd]; [..|subst].
Qed.

(** [hex_digits] ends with one digit, which it reads last. *)
Lemma read_in_hex_digits fuel n t :
  (0 <= n < 16 ^ Z.of_nat fuel)%Z -> fuel <> 0 -> read_in 16 0 (hex_digits fuel n +:+ t) = read_in 16 n t.
Proof.
  revert n t. induction fuel as [|fuel IH]; intros n t Hn Hf; [done|]. cbn [hex_digits].
  pose proof (Z.mod_pos_bound n 16 ltac:(lia)) as Hr.
  destruct (Z.ltb_spec n 16) as [Hlt|Hge].
  - change (read_in 16 0 (String (hex_char (n mod 16)) t) = read_in 16 n t). cbn [read_in].
    rewrite digit_in_hex_char, Z.mod_small by lia. f_equal.
  - rewrite str_app_assoc. rewrite Nat2Z.inj_succ, Z.pow_succ_r in Hn by lia.
    assert (n / 16 < 16 ^ Z.of_nat fuel)%Z as Hq by (apply Z.div_lt_upper_bound; lia).
    pose proof (Z.div_str_pos n 16 ltac:(lia)) as Hp. pose proof (Z.div_mod n 16 ltac:(lia)) as Hdm.
    rewrite IH; [|lia|by intros ->; cbn in Hq; lia].
    change (String (hex_char (n mod 16)) EmptyString +:+ t) with (String (hex_char (n mod 16)) t).
    cbn [read_in]. rewrite digit_in_hex_char by lia. by rewrite <- Hdm.
Qed.

Lemma hex_digits_first fuel n t :
  (0 <= n)%Z -> fuel <> 0 -> exists d s, (0 <= d < 16)%Z /\ hex_digits fuel n +:+ t = String (hex_char d) s.
Proof.
  revert n t. induction fuel as [|fuel IH]; intros n t Hn Hf; [done|]. cbn [hex_digits].
  pose proof (Z.mod_pos_bound n 16 ltac:(lia)) as Hr.
  destruct (n <? 16)%Z; [by exists (n mod 16)%Z, t|]. rewrite str_app_assoc.
  destruct fuel as [|fuel]; [by exists (n mod 16)%Z, t|].
  apply IH; [by apply Z.div_pos|done].
Qed.

Lemma hex_first n : in_u 64 n -> exists d s, (0 <= d < 16)%Z /\ hex n = String (hex_char d) s.
Proof. intros [Hn _]. destruct (hex_digits_first 16 n EmptyString Hn) as (d & s & Hd & Hs); [done|]. rewrite str_app_nil_r in Hs. by exists d, s. Qed.

Lemma read_in_hex n : in_u 64 n -> read_in 16 0 (hex n) = (n, EmptyString).
Proof.
  intros [H1 H2]. pose proof (read_in_hex_digits 16 n EmptyString) as H. rewrite str_app_nil_r in H. unfold hex.
  rewrite H; [done| |done]. change (16 ^ Z.of_nat 16)%Z with (modulus 64). lia.
Qed.

Lemma hex_char_plain d : (0 <= d < 16)%Z -> is_space (hex_char d) = false /\ read_sign (String (hex_char d) EmptyString) = (false, String (hex_char d) EmptyString).
Proof.
  intros H. assert (d = 0 \/ d = 1 \/ d = 2 \/ d = 3 \/ d = 4 \/ d = 5 \/ d = 6 \/ d = 7 \/ d = 8 \/ d = 9 \/
                    d = 10 \/ d = 11 \/ d = 12 \/ d = 13 \/ d = 14 \/ d = 15)%Z as Hd by lia.
  by repeat destruct Hd as [->|Hd]; [..|subst].
Qed.

Lemma hex_digits_digits fuel n : (0 <= n)%Z -> str_forall (fun c => bool_decide (is_Some (digit_in 16 c))) (hex_digits fuel n) = true.
Proof.
  revert n. induction fuel as [|fuel IH]; intros n Hn; [done|]. cbn [hex_digits].
  assert (digit_in 16 (hex_char (n mod 16)) = Some (n mod 16)%Z) as Hd by by apply digit_in_hex_char, Z.mod_pos_bound.
  assert (forall s, str_forall (fun c => bool_decide (is_Some (digit_in 16 c))) s = true ->
            str_forall (fun c => bool_decide (is_Some (digit_in 16 c))) (s +:+ String (hex_char (n mod 16)) EmptyString) = true) as H.
  { induction s as [|c s IHs]; intros Hs.
    - cbn [String.append str_forall]. rewrite Hd. by rewrite bool_decide_eq_true_2 by by eexists.
    - change (String c s +:+ ?t) with (String c (s +:+ t)). cbn [str_forall] in *. apply andb_true_iff in Hs as [-> Hs].
      by rewrite IHs. }
  apply H. destruct (n <? 16)%Z; [done|]. by apply IH, Z.div_pos.
Qed.

Lemma hex_no_prefix n : in_u 64 n -> hex_prefix (hex n) = None.
Proof.
  intros [Hn _]. pose proof (hex_digits_digits 16 n Hn) as H. unfold hex. destruct (hex_digits 16 n) as [|c [|x [|d s]]]; [done|..].
  - by destruct c as [[] [] [] [] [] [] [] []].
  - by destruct c as [[] [] [] [] [] [] [] []].
  - cbn [str_forall] in H. apply andb_true_iff in H as [_ H]. apply andb_true_iff in H as [Hx _].
    assert (Ascii.eqb x "x"%char || Ascii.eqb x "X"%char = false) as E.
    { destruct (Ascii.eqb_spec x "x") as [->|]; [done|]. destruct (Ascii.eqb_spec x "X") as [->|]; done. }
    destruct c as [[] [] [] [] [] [] [] []]; try done. cbn [hex_prefix]. by rewrite E.
Qed.

(** What a reading gives that went to the end of the text. *)
Lemma reading_done b n digits :
  in_u 64 n -> digits <> EmptyString -> read_in b 0 digits = (n, EmptyString) ->
  (let '(v, rest) := read_in b 0 digits in
   if String.eqb rest digits then (0%Z, None)
   else (if (modulus 64 <=? v)%Z then (modulus 64 - 1)%Z else v, Some rest)) = (n, Some EmptyString).
Proof.
  intros [_ Hn] Hd ->. rewrite (proj2 (String.eqb_neq EmptyString digits)) by congruence.
  by rewrite (proj2 (Z.leb_gt (modulus 64) n)) by lia.
Qed.

(** An id as it is written reads back, with base 0 from its prefix on, and with
    base 16 from behind it. *)
Lemma strtoull_hex_id n : in_u 64 n -> strtoull_base 0 (hex_id n) = (n, Some EmptyString).
Proof.
  intros Hn. destruct (hex_first n Hn) as (d & s & Hd & Hs).
  assert (resolve_base 0 (hex_id n) = (16%Z, hex n)) as Hb.
  { unfold resolve_base, hex_id. change ("0x" +:+ hex n) with (String "0" (String "x" (hex n))). rewrite Hs.
    cbn [hex_prefix]. rewrite (digit_in_hex_char d Hd). by rewrite bool_decide_eq_true_2 by by eexists. }
  unfold strtoull_base. change (read_sign (skip_space (hex_id n))) with (false, hex_id n). cbn beta iota. rewrite Hb.
  apply reading_done; [done|by rewrite Hs|by apply read_in_hex].
Qed.

Lemma strtoull_hex n : in_u 64 n -> strtoull_base 16 (hex n) = (n, Some EmptyString).
Proof.
  intros Hn. destruct (hex_first n Hn) as (d & s & Hd & Hs).
  assert (read_sign (skip_space (hex n)) = (false, hex n)) as Hr.
  { rewrite Hs. destruct (hex_char_plain d Hd) as [Hp Hg]. cbn [skip_space]. rewrite Hp.
    destruct (hex_char d) as [[] [] [] [] [] [] [] []]; done. }
  unfold strtoull_base. rewrite Hr. cbn beta iota. unfold resolve_base. rewrite (hex_no_prefix n Hn). change (16 =? 0)%Z with false. cbn iota.
  apply reading_done; [done|by rewrite Hs|by apply read_in_hex].
Qed.

(** Boundaries: octal, blanks and signs, saturation, and what is no number. *)
Example octal : strtoull_base 0 "0123" = (83%Z, Some EmptyString).
Proof. vm_compute. reflexivity. Qed.
Example minus_one : strtoull_base 0 " -1" = ((modulus 64 - 1)%Z, Some EmptyString).
Proof. vm_compute. reflexivity. Qed.
Example saturates : strtoull_base 0 "0x12345678123456789" = ((modulus 64 - 1)%Z, Some EmptyString).
Proof. vm_compute. reflexivity. Qed.
Example bare_prefix : strtoull_base 0 "0xg" = (0%Z, Some "xg").
Proof. vm_compute. reflexivity. Qed.
Example no_digits : strtoull_base 0 "tShell0" = (0%Z, None).
Proof. vm_compute. reflexivity. Qed.
