(* ===== verification/Doubles.v ===== *)
(** * Doubles, where the order of their comparison matters

    A comparison by a quotient of integers, as examples/vxworks_monitor/ sorts
    with, is a strict weak order: no conversion or quotient is NaN. *)

From S2P Require Import Prelude Json.

Definition double_div (a b : double) : double := SFdiv 53 1024 a b.
Definition double_mul (a b : double) : double := SFmul 53 1024 a b.
Definition double_lt (a b : double) : bool := SFltb a b.

Definition is_nan (d : double) : bool := match d with S754_nan => true | _ => false end.

(** ** The order of doubles is a lexicographic one *)

Definition order_key (d : double) : Z * Z * Z :=
  match d with
  | S754_infinity true => (-2, 0, 0)
  | S754_finite true m e => (-1, - e, - Zpos m)
  | S754_finite false m e => (1, e, Zpos m)
  | S754_infinity false => (2, 0, 0)
  | _ => (0, 0, 0)
  end%Z.

Definition lex_lt (a b : Z * Z * Z) : Prop :=
  let '(a1, a2, a3) := a in let '(b1, b2, b3) := b in
  (a1 < b1 \/ a1 = b1 /\ (a2 < b2 \/ a2 = b2 /\ a3 < b3))%Z.

Lemma double_lt_key a b :
  is_nan a = false -> is_nan b = false -> double_lt a b = true <-> lex_lt (order_key a) (order_key b).
Proof.
  unfold double_lt, SFltb, lex_lt.
  destruct a as [s|[]| |[] m e], b as [s'|[]| |[] m' e']; cbn [is_nan SFcompare order_key]; try done; intros _ _;
    try (split; [intros; try done; lia|intros; try done; lia]).
  - destruct (Z.compare_spec e e') as [->|He|He]; [|split; [done|lia]|split; [lia|done]].
    change (Pos.compare_cont Eq m m') with (Pos.compare m m').
    destruct (Pos.compare_spec m m') as [->|Hm|Hm]; cbn; split; (done || lia).
  - destruct (Z.compare_spec e e') as [->|He|He]; [|split; [lia|done]|split; [done|lia]].
    change (Pos.compare_cont Eq m m') with (Pos.compare m m').
    destruct (Pos.compare_spec m m') as [->|Hm|Hm]; cbn; split; (done || lia).
Qed.

(** What [std::sort] and [std::map] ask of a comparison. *)
Class StrictWeak {A} (P : A -> Prop) (less : A -> A -> bool) : Prop := {
  sw_asym a b : P a -> P b -> less a b = true -> less b a = false;
  sw_trans a b c : P a -> P b -> P c -> less a b = false -> less b c = false -> less a c = false;
}.

#[export] Instance double_strict_weak : StrictWeak (fun d => is_nan d = false) double_lt.
Proof.
  assert (forall a b, is_nan a = false -> is_nan b = false -> double_lt a b = false <-> ~ lex_lt (order_key a) (order_key b)) as H.
  { intros a b Ha Hb. rewrite <- double_lt_key by done. by destruct (double_lt a b). }
  split.
  - intros a b Ha Hb. rewrite double_lt_key, H by done. unfold lex_lt.
    destruct (order_key a) as [[??]?], (order_key b) as [[??]?]. lia.
  - intros a b c Ha Hb Hc. rewrite !H by done. unfold lex_lt.
    destruct (order_key a) as [[??]?], (order_key b) as [[??]?], (order_key c) as [[??]?]. lia.
Qed.

(** ** Rounding *)

Lemma digits_log2 p : Zpos (digits2_pos p) = (Z.log2 (Zpos p) + 1)%Z.
Proof.
  induction p as [p IH|p IH|]; cbn [digits2_pos]; [..|done]; rewrite Pos2Z.inj_succ, IH.
  - change (Zpos p~1) with (2 * Zpos p + 1)%Z. rewrite Z.log2_succ_double by lia. lia.
  - change (Zpos p~0) with (2 * Zpos p)%Z. rewrite Z.log2_double by lia. lia.
Qed.

Lemma iter_shr p mrs :
  (0 <= shr_m mrs)%Z -> shr_m (iter_pos shr_1 p mrs) = (shr_m mrs / 2 ^ Zpos p)%Z /\ (0 <= shr_m (iter_pos shr_1 p mrs))%Z.
Proof.
  assert (forall mrs, (0 <= shr_m mrs)%Z -> shr_m (shr_1 mrs) = (shr_m mrs / 2)%Z /\ (0 <= shr_m (shr_1 mrs))%Z) as H1.
  { intros [[|[m|m|]|m] r s]; cbn [shr_1 shr_m]; intros Hm; try (by split); try lia; split; try lia.
    - change (Zpos m~1) with (2 * Zpos m + 1)%Z. apply (Z.div_unique_pos _ _ _ 1); lia.
    - change (Zpos m~0) with (2 * Zpos m)%Z. rewrite Z.mul_comm. by rewrite Z.div_mul. }
  revert mrs. induction p as [p IH|p IH|]; intros mrs Hm; cbn [iter_pos]; [..|by apply H1].
  - destruct (H1 mrs Hm) as [E1 P1]. destruct (IH _ P1) as [E2 P2]. destruct (IH _ P2) as [E3 P3]. split; [|done].
    rewrite E3, E2, E1, !Z.div_div by lia. f_equal. change (Zpos p~1) with (2 * Zpos p + 1)%Z.
    rewrite Z.pow_add_r, Z.pow_mul_r by lia. change (2 ^ 2)%Z with (2 * 2)%Z. rewrite Z.pow_mul_l. lia.
  - destruct (IH _ Hm) as [E2 P2]. destruct (IH _ P2) as [E3 P3]. split; [|done].
    rewrite E3, E2, !Z.div_div by lia. f_equal. change (Zpos p~0) with (2 * Zpos p)%Z.
    rewrite Z.pow_mul_r by lia. change (2 ^ 2)%Z with (2 * 2)%Z. by rewrite Z.pow_mul_l.
Qed.

Lemma shr_m_of_loc m l : shr_m (shr_record_of_loc m l) = m.
Proof. by destruct l as [|[]]. Qed.

Lemma shr_fexp_nonneg m e l : (0 <= m)%Z -> (0 <= shr_m (shr_fexp 53 1024 m e l).1)%Z.
Proof.
  intros Hm. unfold shr_fexp, shr. rewrite <- (shr_m_of_loc m l) in Hm.
  destruct (_ - e)%Z; cbn [fst]; [done|by apply iter_shr|done].
Qed.

Lemma round_even_bounds m l : (m <= round_nearest_even m l <= m + 1)%Z.
Proof. unfold round_nearest_even. destruct l as [|[]]; [..|lia]; [lia|destruct (Z.even m); lia|lia]. Qed.

(** Rounding something that is not negative does not give NaN. *)
Lemma round_aux_not_nan s m e l : (0 <= m)%Z -> is_nan (binary_round_aux 53 1024 s m e l) = false.
Proof.
  intros Hm. unfold binary_round_aux. pose proof (shr_fexp_nonneg m e l Hm) as H1.
  destruct (shr_fexp 53 1024 m e l) as [r1 e1]. cbn [fst] in H1.
  pose proof (round_even_bounds (shr_m r1) (loc_of_shr_record r1)) as Hr.
  pose proof (shr_fexp_nonneg (round_nearest_even (shr_m r1) (loc_of_shr_record r1)) e1 loc_Exact ltac:(lia)) as H2.
  destruct (shr_fexp 53 1024 _ e1 loc_Exact) as [r2 e2]. cbn [fst] in H2.
  destruct (shr_m r2) as [|p|p]; [done| |lia]. by destruct (e2 <=? _)%Z.
Qed.

(** A shift that leaves the top bit of a number where it was. *)
Lemma shr_fexp_pos m e l :
  (-1074 <= e)%Z ->
  let '(r, e') := shr_fexp 53 1024 (Zpos m) e l in
  (0 < shr_m r)%Z /\ (e <= e')%Z /\ (e' <= Z.max e (Z.log2 (Zpos m) + e))%Z /\ (shr_m r * 2 ^ (e' - e) <= Zpos m)%Z.
Proof.
  intros He. unfold shr_fexp, shr. cbn [Zdigits2]. rewrite digits_log2. unfold fexp. change (emin 53 1024) with (-1074)%Z.
  pose proof (Z.log2_nonneg (Zpos m)) as Hl.
  destruct (Z.max _ _ - e)%Z as [|n|n] eqn:En.
  - rewrite shr_m_of_loc, Z.sub_diag. lia.
  - destruct (iter_shr n (shr_record_of_loc (Zpos m) l)) as [E _]; rewrite shr_m_of_loc in *; [lia|]. rewrite E.
    replace (e + Zpos n - e)%Z with (Zpos n) by lia. pose proof (Z.log2_spec (Zpos m) ltac:(lia)) as [Hlow _].
    assert (2 ^ Zpos n <= Zpos m)%Z as Hle by (etransitivity; [|exact Hlow]; apply Z.pow_le_mono_r; lia).
    split; [apply Z.div_str_pos; lia|]. split; [lia|]. split; [lia|].
    rewrite Z.mul_comm. apply Z.mul_div_le. lia.
  - rewrite shr_m_of_loc, Z.sub_diag. lia.
Qed.

(** Rounding a positive number of moderate size gives a positive one. *)
Lemma round_aux_finite s m e :
  (-1074 <= e)%Z -> (Z.log2 (Zpos m) + e <= 900)%Z -> (e <= 900)%Z ->
  exists m' e', binary_round_aux 53 1024 s (Zpos m) e loc_Exact = S754_finite s m' e'.
Proof.
  intros He Hd He2. unfold binary_round_aux. pose proof (shr_fexp_pos m e loc_Exact He) as H1.
  destruct (shr_fexp 53 1024 (Zpos m) e loc_Exact) as [r1 e1]. destruct H1 as (P1 & L1 & U1 & B1).
  pose proof (round_even_bounds (shr_m r1) (loc_of_shr_record r1)) as Hr.
  destruct (round_nearest_even _ _) as [|m1|m1] eqn:Em; [lia| |lia].
  pose proof (shr_fexp_pos m1 e1 loc_Exact ltac:(lia)) as H2.
  destruct (shr_fexp 53 1024 (Zpos m1) e1 loc_Exact) as [r2 e2]. destruct H2 as (P2 & L2 & U2 & B2).
  assert (Z.log2 (Zpos m1) + (e1 - e) <= Z.log2 (Zpos m) + 1)%Z as Hlog.
  { rewrite Z.add_comm, <- Z.log2_mul_pow2 by lia. transitivity (Z.log2 (2 * Zpos m)); [|rewrite Z.log2_double by lia; lia].
    apply Z.log2_le_mono. transitivity (2 * shr_m r1 * 2 ^ (e1 - e))%Z; [|lia].
    apply Z.mul_le_mono_nonneg_r; [apply Z.pow_nonneg; lia|lia]. }
  destruct (shr_m r2) as [|p|p]; [lia| |lia].
  rewrite (proj2 (Z.leb_le e2 _)) by (cbn; lia). by exists p, e2.
Qed.

Lemma iter_double m d : Zpos (Pos.iter xO m d) = (Zpos m * 2 ^ Zpos d)%Z.
Proof.
  revert d. apply Pos.peano_ind; [cbn; lia|]. intros d IH. rewrite Pos.iter_succ.
  change (Zpos (Pos.iter xO m d)~0) with (2 * Zpos (Pos.iter xO m d))%Z. rewrite IH, Pos2Z.inj_succ, Z.pow_succ_r by lia. lia.
Qed.

(** ** Integers as doubles, and their quotients *)

Lemma double_of_positive z : (0 < z < modulus 64)%Z -> exists m e, double_of_Z z = S754_finite false m e.
Proof.
  intros [Hz Hm]. destruct z as [|z|z]; [lia| |lia]. unfold double_of_Z, binary_normalize, binary_round.
  assert (Z.log2 (Zpos z) < 64)%Z as Hl by by apply Z.log2_lt_pow2. pose proof (Z.log2_nonneg (Zpos z)) as H0.
  unfold fexp. change (emin 53 1024) with (-1074)%Z. rewrite digits_log2. unfold shl_align.
  destruct (Z.max _ _ - 0)%Z as [|d|d] eqn:Ed; [apply round_aux_finite; lia..|].
  apply round_aux_finite; [lia| |lia]. rewrite iter_double, Z.log2_mul_pow2 by lia. lia.
Qed.

Lemma double_of_nonneg z :
  in_u 64 z -> double_of_Z z = S754_zero false \/ exists m e, double_of_Z z = S754_finite false m e.
Proof. intros [H0 H1]. destruct (decide (z = 0)%Z) as [->|]; [by left|]. right. apply double_of_positive. lia. Qed.

Lemma div_finite_not_nan s m e s' m' e' : is_nan (double_div (S754_finite s m e) (S754_finite s' m' e')) = false.
Proof.
  unfold double_div, SFdiv, SFdiv_core_binary. cbn zeta.
  set (x := match _ with Z0 => _ | Zpos _ => _ | Zneg _ => _ end).
  assert (0 <= x)%Z as Hx.
  { subst x. destruct (_ - _ - _)%Z; [done| |done]. by apply Z.shiftl_nonneg. }
  pose proof (Z.div_pos x (Zpos m') Hx ltac:(lia)) as Hq. unfold Z.div in Hq.
  destruct (Z.div_eucl x (Zpos m')) as [q r]. by apply round_aux_not_nan.
Qed.

(** The quotient of an unsigned number by a positive one is a number. *)
Lemma quotient_not_nan a b :
  in_u 64 a -> (0 < b < modulus 64)%Z -> is_nan (double_div (double_of_Z a) (double_of_Z b)) = false.
Proof.
  intros Ha Hb. destruct (double_of_positive b Hb) as (m & e & ->).
  destruct (double_of_nonneg a Ha) as [->|(m' & e' & ->)]; [done|]. apply div_finite_not_nan.
Qed.

(** ** Sorting *)

(** [std::sort]: which of two equal elements comes first is not said. *)
Class StdSort : Type := std_sort : forall A : Type, (A -> A -> bool) -> list A -> list A.
Arguments std_sort {_} {A} less l.

Class StdSortLaws `{!StdSort} : Prop := {
  std_sort_permutes {A} (P : A -> Prop) (less : A -> A -> bool) l :
    StrictWeak P less -> Forall P l -> std_sort less l ≡ₚ l;
  std_sort_sorted {A} (P : A -> Prop) (less : A -> A -> bool) l :
    StrictWeak P less -> Forall P l -> StronglySorted (fun a b => less b a = false) (std_sort less l);
}.

(** An insertion sort is one. *)
Fixpoint insert_sorted {A} (less : A -> A -> bool) (x : A) (l : list A) : list A :=
  match l with
  | [] => [x]
  | y :: l' => if less x y then x :: l else y :: insert_sorted less x l'
  end.

Module InsertionSort.
#[export] Instance insertion_sort : StdSort := fun A less l => foldr (insert_sorted less) [] l.

Lemma insert_sorted_permutes {A} (less : A -> A -> bool) x l : insert_sorted less x l ≡ₚ x :: l.
Proof. induction l as [|y l IH]; cbn; [done|]. destruct (less x y); [done|]. rewrite IH. apply Permutation_swap. Qed.

Lemma insertion_permutes {A} (less : A -> A -> bool) l : std_sort less l ≡ₚ l.
Proof. unfold std_sort, insertion_sort. induction l as [|x l IH]; [done|]. cbn [foldr]. by rewrite insert_sorted_permutes, IH. Qed.

Lemma insert_sorted_sorted {A} (P : A -> Prop) less `{!StrictWeak P less} x l :
  P x -> Forall P l -> StronglySorted (fun a b => less b a = false) l ->
  StronglySorted (fun a b => less b a = false) (insert_sorted less x l).
Proof.
  intros Hx Hl. induction 1 as [|y l Hs IH Hy]; [by repeat constructor|]. apply Forall_cons in Hl as [Py Hl]. cbn.
  destruct (less x y) eqn:E.
  - constructor; [by constructor|]. assert (less y x = false) as Hyx by by eapply sw_asym. constructor; [done|].
    rewrite Forall_forall in Hy, Hl |- *. intros z Hz. eapply (sw_trans z y x); auto.
  - constructor; [auto|]. rewrite insert_sorted_permutes. by constructor.
Qed.

#[export] Instance insertion_sort_laws : StdSortLaws.
Proof.
  split; intros A P less l Hw Hl; [apply insertion_permutes|].
  unfold std_sort, insertion_sort. induction Hl as [|x l Hx Hl IH]; [constructor|]. cbn [foldr].
  apply (insert_sorted_sorted P); [done|done| |done]. by rewrite (insertion_permutes less l : foldr _ _ _ ≡ₚ _).
Qed.
End InsertionSort.

(** Comparing by a key is as good as comparing the keys. *)
Lemma strict_weak_key {A B} (P : B -> Prop) less `{!StrictWeak P less} (key : A -> B) (Q : A -> Prop) :
  (forall a, Q a -> P (key a)) -> StrictWeak Q (fun a b => less (key a) (key b)).
Proof. intros H. split; intros; [eapply sw_asym|eapply (sw_trans _ (key b))]; eauto. Qed.

Lemma strict_weak_flip {A} (P : A -> Prop) less `{!StrictWeak P less} : StrictWeak P (fun a b => less b a).
Proof. split; intros; [eapply sw_asym|eapply (sw_trans c b a)]; eauto. Qed.

#[export] Instance strict_weak_ltb : StrictWeak (fun _ => True) Z.ltb.
Proof. split; intros a b; [|intros c]; rewrite ?Z.ltb_lt, ?Z.ltb_ge; lia. Qed.
