(* ===== verification/Monitor.v ===== *)
(** * The VxWorks system monitor

    examples/vxworks_monitor/: the backend interface (monitor_backend.hpp) and
    the nine tools over it (vxworks_monitor_server.cpp).  The two backends are
    in MonitorSim.v and MonitorVx.v, the program's entry points in
    MonitorMain.v. *)

From S2P Require Import Prelude Json Core Message Content Schema State Registry ToolRegistry Server Lines Chunked Strtoull Doubles.

(** ** monitor_backend.hpp *)

Record TaskSnapshot := mkTaskSnapshot {
  tk_name : string; tk_id : Z; priority : Z; tk_status : string; cpu_index : Z; error_status : Z; delay_ticks : Z;
  tk_entry : Z;
  stack_size : Z; stack_current : Z; stack_high : Z; stack_margin : Z;
  exc_stack_size : Z; exc_stack_current : Z; exc_stack_high : Z; exc_stack_margin : Z;
}.

Record KernelHeapStats := mkKernelHeapStats {
  bytes_alloc : Z; blocks_alloc : Z; bytes_free : Z; blocks_free : Z; peak_bytes_alloc : Z; max_free_block : Z;
}.

Record ModuleSnapshot := mkModuleSnapshot {
  md_name : string; md_id : Z; group : Z;
  text_addr : Z; text_size : Z; data_addr : Z; data_size : Z; bss_addr : Z; bss_size : Z;
}.

Record CpuTaskUsage := mkCpuTaskUsage { cu_name : string; cu_id : Z; cu_ticks : Z; percent : double }.

Record CpuUsageReport := mkCpuUsageReport {
  window_seconds : Z; total_ticks : Z; unattributed_ticks : Z; cpu_tasks : list CpuTaskUsage;
}.

(** [has_count], [has_full] and [has_owner] say which of the options is set. *)
Record SemSnapshot := mkSemSnapshot {
  sem_id : Z; type_raw : Z; sem_type : string; sem_options : Z; blocked_tasks : Z;
  sem_count : option Z; sem_full : option bool; sem_owner : option Z;
}.

Record MsgQSnapshot := mkMsgQSnapshot {
  q_id : Z; num_msgs : Z; num_tasks : Z; send_timeouts : Z; recv_timeouts : Z; q_options : Z; max_msgs : Z;
  max_msg_length : Z;
}.

Record SystemSnapshot := mkSystemSnapshot {
  sys_ticks : Z; tick_rate_hz : Z; uptime_seconds : double; task_count : Z; module_count : Z; sys_heap : KernelHeapStats;
}.

(** The functions: the error, or the output.  Only [cpu_usage] takes time. *)
Class Backend (W : Type) := {
  backend_name : string;
  list_tasks : W -> string + list TaskSnapshot;
  task_info : string -> W -> string + TaskSnapshot;
  kernel_heap : W -> string + KernelHeapStats;
  system_info : W -> string + SystemSnapshot;
  list_modules : W -> string + list ModuleSnapshot;
  cpu_usage : Z -> W -> W * (string + CpuUsageReport);
  sem_info : Z -> W -> string + SemSnapshot;
  msgq_info : Z -> W -> string + MsgQSnapshot;
}.

Definition sum_ticks (l : list CpuTaskUsage) : Z := foldr (fun u a => cu_ticks u + a)%Z 0%Z l.

(** What a report promises: the ticks of the window are those of its tasks and
    the unattributed ones, the tasks are distinct, and the busiest are first. *)
Record report_ok (seconds : Z) (r : CpuUsageReport) : Prop := {
  rp_window : window_seconds r = seconds;
  rp_total : (sum_ticks (cpu_tasks r) + unattributed_ticks r)%Z = total_ticks r;
  rp_range : Forall (fun u => 0 <= cu_ticks u)%Z (cpu_tasks r) /\ (0 <= unattributed_ticks r)%Z;
  rp_sorted : StronglySorted (fun a b => cu_ticks b <= cu_ticks a)%Z (cpu_tasks r);
  rp_distinct : NoDup (cu_id <$> cpu_tasks r);
}.

(** Both backends sort their report with [std::sort]. *)
Definition busier (a b : CpuTaskUsage) : bool := (cu_ticks b <? cu_ticks a)%Z.

(** The fields' widths, as far as arithmetic is done on them. *)
Definition task_wf (t : TaskSnapshot) : Prop := in_u 64 (tk_id t) /\ in_u 64 (stack_size t) /\ in_u 64 (stack_high t).

(** What a backend promises its clients. *)
Class BackendLaws `{!Backend W} (ok : W -> Prop) : Prop := {
  list_tasks_wf w tasks : ok w -> list_tasks w = inr tasks -> Forall task_wf tasks;
  task_info_listed w tasks t : ok w -> list_tasks w = inr tasks -> t ∈ tasks -> task_info (hex_id (tk_id t)) w = inr t;
  cpu_usage_report w seconds w' r :
    ok w -> (1 <= seconds <= 10)%Z -> cpu_usage seconds w = (w', inr r) -> report_ok seconds r;
  cpu_usage_ok w seconds w' r : ok w -> cpu_usage seconds w = (w', r) -> ok w';
}.

Lemma sum_ticks_permutation l l' : l ≡ₚ l' -> sum_ticks l = sum_ticks l'.
Proof. unfold sum_ticks. induction 1; cbn; lia. Qed.

#[export] Instance busier_weak : StrictWeak (fun _ => True) busier.
Proof. unfold busier. split; intros a b; [|intros c]; rewrite ?Z.ltb_lt, ?Z.ltb_ge; lia. Qed.

(** A report over the sorted tasks, from what is known of the tasks before. *)
Lemma sorted_report_ok `{!StdSort} `{!StdSortLaws} seconds total unattributed tasks :
  (sum_ticks tasks + unattributed)%Z = total -> Forall (fun u => 0 <= cu_ticks u)%Z tasks -> (0 <= unattributed)%Z ->
  NoDup (cu_id <$> tasks) ->
  report_ok seconds (mkCpuUsageReport seconds total unattributed (std_sort busier tasks)).
Proof.
  intros Hs Hr Hu Hd. assert (Forall (fun _ : CpuTaskUsage => True) tasks) as Ht by (by apply Forall_forall).
  pose proof (std_sort_permutes _ _ tasks busier_weak Ht) as Hp.
  pose proof (std_sort_sorted _ _ tasks busier_weak Ht) as Hsorted.
  split; cbn [window_seconds total_ticks unattributed_ticks cpu_tasks]; [done|by rewrite (sum_ticks_permutation _ _ Hp)|by rewrite Hp| |by rewrite Hp].
  clear -Hsorted. induction Hsorted as [|a l _ IH Ha]; constructor; [done|].
  eapply Forall_impl; [exact Ha|]. unfold busier. intros b Hb. by apply Z.ltb_ge.
Qed.

(** ** Output *)

Definition stack_json (t : TaskSnapshot) : json :=
  JObject (make_object [("size", JUInt (stack_size t)); ("used", JUInt (stack_current t));
                        ("peakUsed", JUInt (stack_high t)); ("margin", JInt (stack_margin t))]).

Definition task_json (t : TaskSnapshot) : json :=
  JObject (make_object
    [("name", JString (tk_name t)); ("id", JString (hex_id (tk_id t))); ("priority", JInt (priority t));
     ("status", JString (tk_status t)); ("cpuIndex", JInt (cpu_index t)); ("errorStatus", JInt (error_status t));
     ("delayTicks", JInt (delay_ticks t)); ("entry", JString (hex_id (tk_entry t))); ("stack", stack_json t);
     ("excStack", JObject (make_object
        [("size", JUInt (exc_stack_size t)); ("used", JUInt (exc_stack_current t));
         ("peakUsed", JUInt (exc_stack_high t)); ("margin", JInt (exc_stack_margin t))]))]).

Definition heap_json (h : KernelHeapStats) : json :=
  JObject (make_object
    [("allocatedBytes", JUInt (bytes_alloc h)); ("allocatedBlocks", JUInt (blocks_alloc h));
     ("freeBytes", JUInt (bytes_free h)); ("freeBlocks", JUInt (blocks_free h));
     ("peakAllocatedBytes", JUInt (peak_bytes_alloc h)); ("largestFreeBlockBytes", JUInt (max_free_block h));
     ("totalBytes", JUInt (wrap_u 64 (bytes_alloc h + bytes_free h)))]).

Definition size_json {A} (l : list A) : json := JUInt (Z.of_nat (length l)).

Definition fail (message : string) : CallToolResult := mkCallToolResult [text_content message] true.

(** An object id, in the shell's notation or any other base 0 reads. *)
Definition parse_object_id (args : json) : outcome (string + Z) :=
  if negb (contains "id" args) then Val (inl "missing required string argument: id")
  else
    v ← at_key "id" args;
    if negb (is_string v) then Val (inl "missing required string argument: id")
    else
      s ← get_string v;
      Val (match strtoull_base 0 (c_str s) with
           | (id, Some EmptyString) => inr id
           | _ => inl ("not a valid object ID: " +:+ s)
           end).

(** ** Schemas *)

Definition in_quotes (s : string) : string := String "034"%char (s +:+ String "034"%char EmptyString).

Definition object_id_schema (what : string) : json :=
  JObject (make_object
    [("type", JString "object");
     ("properties", JObject (make_object
        [("id", JObject (make_object
            [("type", JString "string");
             ("description", JString ("Hex ID of the " +:+ what +:+ ", e.g. " +:+ in_quotes "0x60377000"))]))]));
     ("required", JArray [JString "id"])]).

Definition kEmptySchema : json :=
  JObject (make_object [("type", JString "object"); ("properties", JObject [])]).

Definition property_schema (properties : list (string * (string * string))) (required : list string) : json :=
  JObject (make_object
    ([("type", JString "object");
      ("properties", JObject (make_object
         ((fun p => (p.1, JObject (make_object [("type", JString p.2.1); ("description", JString p.2.2)]))) <$> properties)))] ++
     match required with [] => [] | _ => [("required", JArray (JString <$> required))] end)).

Definition status_filter_schema : json :=
  property_schema [("statusFilter", ("string", "Only tasks whose status contains this string (READY, PEND, DELAY, SUSPEND, ...)"))] [].

Definition task_schema : json :=
  property_schema [("task", ("string", "Task name (e.g. " +:+ in_quotes "tShell0" +:+ ") or ID (e.g. " +:+ in_quotes "0x60351ba8" +:+ ")"))]
    ["task"].

Definition cpu_usage_schema : json :=
  property_schema [("seconds", ("integer", "Sampling window in seconds (1-10, default 3)"));
                   ("topN", ("integer", "Return at most this many tasks (default 10)"))] [].

(** ** The tools *)

Inductive MonitorTool : Set :=
| TListTasks | TTaskInfo | TStackSummary | TMemoryInfo | TCpuUsage | TSystemInfo | TListModules | TSemaphoreInfo | TMsgqInfo.

(** [std::string::find(filter) != npos]. *)
Definition status_matches (filter : string) (t : TaskSnapshot) : bool :=
  String.eqb filter EmptyString || (match str_find filter (tk_status t) with Some _ => true | None => false end).

(** The share of the stack that was in use at its peak: as the sort compares
    it, and as the row shows it, where the product may wrap around. *)
Definition peak_share (t : TaskSnapshot) : double :=
  if (stack_size t =? 0)%Z then S754_zero false else double_div (double_of_Z (stack_high t)) (double_of_Z (stack_size t)).

Definition peak_percent (t : TaskSnapshot) : Z :=
  if (stack_size t =? 0)%Z then 0%Z else wrap_u 32 (wrap_u 64 (stack_high t * 100) / stack_size t).

Definition stack_warning (t : TaskSnapshot) : option string :=
  if (85 <? peak_percent t)%Z then Some "HIGH_USAGE"
  else if (stack_margin t <? 512)%Z then Some "LOW_MARGIN"
  else None.

Definition stack_row (t : TaskSnapshot) : json :=
  JObject (set_optional JString "warning" (stack_warning t)
    (make_object [("name", JString (tk_name t)); ("id", JString (hex_id (tk_id t))); ("size", JUInt (stack_size t));
                  ("used", JUInt (stack_current t)); ("peakUsed", JUInt (stack_high t)); ("margin", JInt (stack_margin t));
                  ("peakUsePercent", JUInt (peak_percent t))])).

(** The loop: the rows, and the count of warnings. *)
Fixpoint stack_rows (tasks : list TaskSnapshot) (rows : list json) (warnings : Z) : list json * Z :=
  match tasks with
  | [] => (rows, warnings)
  | t :: tasks =>
      stack_rows tasks (rows ++ [stack_row t]) (match stack_warning t with Some _ => warnings + 1 | None => warnings end)
  end.

Definition usage_row (u : CpuTaskUsage) : json :=
  JObject (make_object [("name", JString (cu_name u)); ("id", JString (hex_id (cu_id u))); ("ticks", JUInt (cu_ticks u));
                        ("percent", JFloat (percent u))]).

Fixpoint usage_rows (top_n : Z) (tasks : list CpuTaskUsage) (rows : list json) : list json :=
  match tasks with
  | [] => rows
  | u :: tasks => if (top_n <=? wrap_s 32 (Z.of_nat (length rows)))%Z then rows else usage_rows top_n tasks (rows ++ [usage_row u])
  end.

Definition module_row (m : ModuleSnapshot) : json :=
  let segment address bytes := JObject (make_object [("address", JString (hex_id address)); ("size", JUInt bytes)]) in
  JObject (make_object
    [("name", JString (md_name m)); ("id", JString (hex_id (md_id m))); ("group", JInt (group m));
     ("segments", JObject (make_object [("text", segment (text_addr m) (text_size m));
                                        ("data", segment (data_addr m) (data_size m));
                                        ("bss", segment (bss_addr m) (bss_size m))]))]).

Definition sem_json (s : SemSnapshot) : object :=
  set_optional (fun o => JString (hex_id o)) "owner" (sem_owner s)
    (set_optional JBool "full" (sem_full s)
    (set_optional JUInt "count" (sem_count s)
      (make_object [("id", JString (hex_id (sem_id s))); ("type", JString (sem_type s)); ("typeRaw", JInt (type_raw s));
                    ("options", JInt (sem_options s)); ("blockedTasks", JUInt (blocked_tasks s))]))).

Definition msgq_json (q : MsgQSnapshot) : object :=
  make_object [("id", JString (hex_id (q_id q))); ("messagesQueued", JInt (num_msgs q)); ("tasksBlocked", JInt (num_tasks q));
               ("sendTimeouts", JInt (send_timeouts q)); ("receiveTimeouts", JInt (recv_timeouts q));
               ("options", JInt (q_options q)); ("maxMessages", JInt (max_msgs q)); ("maxMessageLength", JUInt (max_msg_length q))].

Definition clamp_seconds (seconds : Z) : Z :=
  let seconds := if (seconds <? 1)%Z then 1%Z else seconds in if (10 <? seconds)%Z then 10%Z else seconds.

Definition clamp_top (n : Z) : Z := if (n <? 1)%Z then 1%Z else n.

Section tools.
(** [dump2 j] is [j.dump(2)], which throws on invalid UTF-8. *)
Context {W : Type} `{!Backend W} `{!StdSort} (dump2 : json -> outcome string).

Definition ok (data : object) : outcome CallToolResult :=
  data ← index_set "backend" (JString backend_name) (JObject data);
  text ← dump2 data;
  Val (mkCallToolResult [text_content text] false).

(** [if (!monitor::f(..., error)) return fail(error); return ok(...);] *)
Definition answer {A} (r : string + A) (k : A -> outcome CallToolResult) : outcome CallToolResult :=
  match r with inl error => Val (fail error) | inr a => k a end.

Definition list_tasks_tool (args : json) (w : W) : outcome CallToolResult :=
  answer (list_tasks w) (fun tasks =>
    filter ← value_or get_string "statusFilter" EmptyString args;
    let rows := task_json <$> List.filter (status_matches filter) tasks in
    ok (make_object [("taskCount", size_json rows); ("tasks", JArray rows)])).

Definition task_info_tool (args : json) (w : W) : outcome CallToolResult :=
  if negb (contains "task" args) then Val (fail "missing required string argument: task")
  else
    v ← at_key "task" args;
    if negb (is_string v) then Val (fail "missing required string argument: task")
    else
      name ← get_string v;
      answer (task_info name w) (fun task => ok (make_object [("task", task_json task)])).

Definition stack_summary_tool (w : W) : outcome CallToolResult :=
  answer (list_tasks w) (fun tasks =>
    let tasks := std_sort (fun a b => double_lt (peak_share b) (peak_share a)) tasks in
    let '(rows, warnings) := stack_rows tasks [] 0 in
    ok (make_object [("taskCount", size_json rows); ("warningCount", JInt warnings); ("tasks", JArray rows)])).

Definition memory_info_tool (w : W) : outcome CallToolResult :=
  answer (kernel_heap w) (fun heap => ok (make_object [("kernelHeap", heap_json heap)])).

Definition cpu_usage_tool (args : json) : st W CallToolResult :=
  seconds ← lift (value_or get_int "seconds" 3%Z args);
  top_n ← lift (value_or get_int "topN" 10%Z args);
  report ← (fun w => let '(w, r) := cpu_usage (clamp_seconds seconds) w in (w, Val r));
  lift (answer report (fun r =>
    ok (make_object [("windowSeconds", JUInt (window_seconds r)); ("totalTicks", JUInt (total_ticks r));
                     ("unattributedTicks", JUInt (unattributed_ticks r));
                     ("tasks", JArray (usage_rows (clamp_top top_n) (cpu_tasks r) []))]))).

Definition system_info_tool (w : W) : outcome CallToolResult :=
  answer (system_info w) (fun sys =>
    ok (make_object [("uptimeSeconds", JFloat (uptime_seconds sys)); ("uptimeTicks", JUInt (sys_ticks sys));
                     ("tickRateHz", JUInt (tick_rate_hz sys)); ("taskCount", JInt (task_count sys));
                     ("moduleCount", JInt (module_count sys)); ("kernelHeap", heap_json (sys_heap sys))])).

Definition list_modules_tool (w : W) : outcome CallToolResult :=
  answer (list_modules w) (fun modules =>
    let rows := module_row <$> modules in
    ok (make_object [("moduleCount", size_json rows); ("modules", JArray rows)])).

Definition semaphore_info_tool (args : json) (w : W) : outcome CallToolResult :=
  id ← parse_object_id args;
  answer id (fun id => answer (sem_info id w) (fun s => ok (sem_json s))).

Definition msgq_info_tool (args : json) (w : W) : outcome CallToolResult :=
  id ← parse_object_id args;
  answer id (fun id => answer (msgq_info id w) (fun q => ok (msgq_json q))).

Definition observe (f : W -> outcome CallToolResult) : st W CallToolResult := fun w => (w, f w).

Definition run_tool (tool : MonitorTool) (args : json) : st W CallToolResult :=
  match tool with
  | TListTasks => observe (list_tasks_tool args)
  | TTaskInfo => observe (task_info_tool args)
  | TStackSummary => observe stack_summary_tool
  | TMemoryInfo => observe memory_info_tool
  | TCpuUsage => cpu_usage_tool args
  | TSystemInfo => observe system_info_tool
  | TListModules => observe list_modules_tool
  | TSemaphoreInfo => observe (semaphore_info_tool args)
  | TMsgqInfo => observe (msgq_info_tool args)
  end.
End tools.

(** ** Registration *)

Definition tool_schema (tool : MonitorTool) : json :=
  match tool with
  | TListTasks => status_filter_schema
  | TTaskInfo => task_schema
  | TCpuUsage => cpu_usage_schema
  | TSemaphoreInfo => object_id_schema "semaphore"
  | TMsgqInfo => object_id_schema "message queue"
  | _ => kEmptySchema
  end.

Definition tool_description (tool : MonitorTool) : string :=
  match tool with
  | TListTasks => "List all tasks with priority, status, CPU index and stack usage. Optional statusFilter substring-matches the status (e.g. "
                  +:+ in_quotes "PEND" +:+ ")."
  | TTaskInfo => "Full detail for one task (execution + exception stack, priority, status, entry point) by name, decimal ID, or hex ID."
  | TStackSummary => "Stack usage for every task, sorted by peak use percentage, with warnings for >85% peak use or margin below 512 bytes."
  | TMemoryInfo => "Kernel heap (system memory partition) statistics: allocated, free, peak, largest free block, fragmentation."
  | TCpuUsage => "Sample per-task CPU usage over a window (default 3s, max 10s) using a task-switch hook at system-tick resolution. Blocks this session for the whole window. unattributedTicks is mostly idle time."
  | TSystemInfo => "System overview: uptime, tick rate, task and module counts, kernel heap summary."
  | TListModules => "List loaded kernel object modules with text/data/bss segment addresses and sizes."
  | TSemaphoreInfo => "Inspect a semaphore by ID: type (binary/mutex/counting), state (count / full / owner task), and how many tasks are blocked on it."
  | TMsgqInfo => "Inspect a message queue by ID: queued messages, blocked tasks, send/receive timeout counters, capacity limits."
  end.

Definition tool_table : list (string * MonitorTool) :=
  [("list_tasks", TListTasks); ("task_info", TTaskInfo); ("stack_summary", TStackSummary); ("memory_info", TMemoryInfo);
   ("cpu_usage", TCpuUsage); ("system_info", TSystemInfo); ("list_modules", TListModules);
   ("semaphore_info", TSemaphoreInfo); ("msgq_info", TMsgqInfo)].

Section configure.
Context {HT HR HP K SId W : Type} `{!EqDecision SId} `{!Sessions HT HR HP K SId W} (handler_of : MonitorTool -> HT).

Definition tool_spec (tool : MonitorTool) : ToolSpec :=
  mkToolSpec None (Some (tool_description tool)) (tool_schema tool) None (Some (handler_of tool)).

(** The results of [register_tool] are not looked at. *)
Definition configure_monitor : st W unit :=
  for_each (fun entry => _ ← server_register_tool entry.1 (tool_spec entry.2); skip) tool_table.
End configure.

(** ** Arguments that conform to the schemas *)

Lemma conforms_is_object so v :
  conforms v (JObject so) -> obj_find "type" so = Some (JString "object") -> exists o, v = JObject o.
Proof. inversion 1 as [|? ? Ht]; subst; [done|]. intros E. specialize (Ht _ E). destruct v; try done. by eexists. Qed.

Lemma conforms_member so ps sub ty o key x :
  conforms (JObject o) (JObject so) -> obj_find "properties" so = Some (JObject ps) ->
  obj_find key ps = Some (JObject sub) -> obj_find "type" sub = Some (JString ty) -> obj_find key o = Some x ->
  matches_type x ty = true.
Proof.
  inversion 1 as [|? ? Ht He Hr Hp]; subst; [done|]. intros Eps Ekey Ety Ex.
  assert (conforms x (JObject sub)) as Hx by (eapply Hp; [done|done|by apply obj_find_in|done]).
  inversion Hx as [|? ? Ht2]; subst; [done|]. exact (Ht2 _ Ety).
Qed.

Lemma conforms_required so o names name :
  conforms (JObject o) (JObject so) -> obj_find "required" so = Some (JArray names) -> JString name ∈ names ->
  is_Some (obj_find name o).
Proof. inversion 1 as [|? ? Ht He Hr Hp]; subst; [done|]. intros. by eapply Hr. Qed.

(** ** The service behind the tools

    What a call asks for, once its arguments are read, and what is answered. *)

Inductive request : Set :=
| AskTasks (filter : string) | AskTask (name : string) | AskStacks | AskHeap | AskCpu (seconds top : Z) | AskSystem
| AskModules | AskSem (id : Z) | AskQueue (id : Z) | AskBadId (text : string).

Definition string_of (key : string) (o : object) : string :=
  match obj_find key o with Some (JString s) => s | _ => EmptyString end.

Definition int_of (key : string) (default : Z) (o : object) : Z :=
  match obj_find key o with Some (JInt z) | Some (JUInt z) => wrap_s 32 z | _ => default end.

Definition read_id (o : object) (ask : Z -> request) : request :=
  let s := string_of "id" o in
  match strtoull_base 0 (c_str s) with (id, Some EmptyString) => ask id | _ => AskBadId s end.

Definition reads (tool : MonitorTool) (o : object) : request :=
  match tool with
  | TListTasks => AskTasks (string_of "statusFilter" o)
  | TTaskInfo => AskTask (string_of "task" o)
  | TStackSummary => AskStacks
  | TMemoryInfo => AskHeap
  | TCpuUsage => AskCpu (1 `max` (10 `min` int_of "seconds" 3 o))%Z (1 `max` int_of "topN" 10 o)%Z
  | TSystemInfo => AskSystem
  | TListModules => AskModules
  | TSemaphoreInfo => read_id o AskSem
  | TMsgqInfo => read_id o AskQueue
  end.

Section service.
Context {W : Type} `{!Backend W} `{!StdSort}.

Definition promise {A} (r : string + A) (data : A -> list (string * json)) : string + object :=
  match r with inl error => inl error | inr a => inr (make_object (data a)) end.

Definition service (q : request) (w : W) : W * (string + object) :=
  match q with
  | AskTasks filter =>
      (w, promise (list_tasks w) (fun tasks =>
            let rows := task_json <$> List.filter (status_matches filter) tasks in
            [("taskCount", size_json rows); ("tasks", JArray rows)]))
  | AskTask name => (w, promise (task_info name w) (fun task => [("task", task_json task)]))
  | AskStacks =>
      (w, promise (list_tasks w) (fun tasks =>
            let tasks := std_sort (fun a b => double_lt (peak_share b) (peak_share a)) tasks in
            [("taskCount", size_json tasks);
             ("warningCount", JInt (Z.of_nat (length (List.filter (fun t => bool_decide (is_Some (stack_warning t))) tasks))));
             ("tasks", JArray (stack_row <$> tasks))]))
  | AskHeap => (w, promise (kernel_heap w) (fun heap => [("kernelHeap", heap_json heap)]))
  | AskCpu seconds top =>
      let '(w', r) := cpu_usage seconds w in
      (w', promise r (fun r => [("windowSeconds", JUInt (window_seconds r)); ("totalTicks", JUInt (total_ticks r));
                                ("unattributedTicks", JUInt (unattributed_ticks r));
                                ("tasks", JArray (usage_row <$> take (Z.to_nat top) (cpu_tasks r)))]))
  | AskSystem =>
      (w, promise (system_info w) (fun sys =>
            [("uptimeSeconds", JFloat (uptime_seconds sys)); ("uptimeTicks", JUInt (sys_ticks sys));
             ("tickRateHz", JUInt (tick_rate_hz sys)); ("taskCount", JInt (task_count sys));
             ("moduleCount", JInt (module_count sys)); ("kernelHeap", heap_json (sys_heap sys))]))
  | AskModules =>
      (w, promise (list_modules w) (fun modules => [("moduleCount", size_json modules); ("modules", JArray (module_row <$> modules))]))
  | AskSem id => (w, match sem_info id w with inl e => inl e | inr s => inr (sem_json s) end)
  | AskQueue id => (w, match msgq_info id w with inl e => inl e | inr q => inr (msgq_json q) end)
  | AskBadId text => (w, inl ("not a valid object ID: " +:+ text))
  end.
End service.

(** ** The handlers implement it *)

Lemma stack_rows_spec tasks rows n :
  stack_rows tasks rows n =
  (rows ++ (stack_row <$> tasks), n + Z.of_nat (length (List.filter (fun t => bool_decide (is_Some (stack_warning t))) tasks)))%Z.
Proof.
  revert rows n. induction tasks as [|t tasks IH]; intros rows n; cbn [stack_rows].
  - rewrite app_nil_r. f_equal. cbn. lia.
  - rewrite IH, fmap_cons, <- app_assoc. f_equal. cbn [List.filter].
    destruct (stack_warning t); [rewrite bool_decide_eq_true_2 by by eexists|rewrite bool_decide_eq_false_2 by by intros []];
      cbn [length]; lia.
Qed.

(** The row count never gets beyond the 32 bits it is cut to. *)
Lemma usage_rows_spec top tasks rows :
  (1 <= top < modulus 31)%Z -> (Z.of_nat (length rows) <= top)%Z ->
  usage_rows top tasks rows = rows ++ (usage_row <$> take (Z.to_nat top - length rows) tasks).
Proof.
  intros Ht. revert rows. induction tasks as [|u tasks IH]; intros rows Hr; cbn [usage_rows]; [by rewrite take_nil, app_nil_r|].
  rewrite wrap_s_id; [|done|].
  2: { unfold in_s. change (modulus (32 - 1)) with (modulus 31). lia. }
  destruct (Z.leb_spec top (Z.of_nat (length rows))) as [Hle|Hlt].
  - replace (Z.to_nat top - length rows) with 0 by lia. by rewrite app_nil_r.
  - destruct (Z.to_nat top - length rows) as [|n] eqn:En; [lia|]. rewrite IH by (rewrite length_app; cbn; lia).
    rewrite length_app, <- app_assoc. cbn [length]. replace (Z.to_nat top - (length rows + 1)) with n by lia. done.
Qed.

Lemma clamp_seconds_spec n : clamp_seconds n = (1 `max` (10 `min` n))%Z.
Proof. unfold clamp_seconds. repeat case_match; lia. Qed.

Lemma clamp_top_spec n : clamp_top n = (1 `max` n)%Z.
Proof. unfold clamp_top. case_match; lia. Qed.

Section implementation.
Context {W : Type} `{BE : !Backend W} `{SS : !StdSort} (dump2 : json -> outcome string).

Definition respond (r : string + object) : outcome CallToolResult :=
  match r with inl error => Val (fail error) | inr data => ok (W := W) dump2 data end.

Lemma answer_promise {A} (r : string + A) data :
  answer r (fun a => ok dump2 (make_object (data a))) = respond (promise r data).
Proof. by destruct r. Qed.

Lemma string_member_read key o :
  (forall x, obj_find key o = Some x -> matches_type x "string" = true) ->
  value_or get_string key EmptyString (JObject o) = Val (string_of key o).
Proof. intros H. unfold string_of. cbn. destruct (obj_find key o) as [x|]; [|done]. specialize (H x eq_refl). by destruct x. Qed.

Lemma int_member_read key default o :
  (forall x, obj_find key o = Some x -> matches_type x "integer" = true) ->
  value_or get_int key default (JObject o) = Val (int_of key default o).
Proof. intros H. unfold int_of. cbn. destruct (obj_find key o) as [x|]; [|done]. specialize (H x eq_refl). by destruct x. Qed.

Lemma int_of_range key default o : in_s 32 default -> in_s 32 (int_of key default o).
Proof. intros H. unfold int_of. repeat case_match; try done; by apply wrap_s_range. Qed.

(** A required member of type string. *)
Lemma required_string so ps sub key o :
  conforms (JObject o) (JObject so) -> obj_find "properties" so = Some (JObject ps) ->
  obj_find key ps = Some (JObject sub) -> obj_find "type" sub = Some (JString "string") ->
  obj_find "required" so = Some (JArray [JString key]) -> obj_find key o = Some (JString (string_of key o)).
Proof.
  intros Hc Hp Hk Ht Hr. destruct (conforms_required _ _ _ key Hc Hr) as [x Hx]; [by left|].
  pose proof (conforms_member _ _ _ _ _ _ _ Hc Hp Hk Ht Hx) as Hm. unfold string_of. rewrite Hx. by destruct x.
Qed.

Lemma parse_object_id_string o :
  obj_find "id" o = Some (JString (string_of "id" o)) ->
  parse_object_id (JObject o) =
    Val (match strtoull_base 0 (c_str (string_of "id" o)) with
         | (id, Some EmptyString) => inr id
         | _ => inl ("not a valid object ID: " +:+ string_of "id" o)
         end).
Proof. intros H. unfold parse_object_id, contains, jfind, at_key. by rewrite H. Qed.

Lemma read_id_implements {A} o ask (f : Z -> W -> string + A) (data : A -> object) w :
  obj_find "id" o = Some (JString (string_of "id" o)) ->
  (forall id, service (ask id) w = (w, match f id w with inl e => inl e | inr a => inr (data a) end)) ->
  service (read_id o ask) w = (w, (service (read_id o ask) w).2) /\
  (id ← parse_object_id (JObject o); answer id (fun id => answer (f id w) (fun a => ok dump2 (data a)))) =
    respond (service (read_id o ask) w).2.
Proof.
  intros Hid Hs. rewrite (parse_object_id_string o Hid). unfold read_id.
  destruct (strtoull_base 0 _) as [id [[|c s]|]]; [|done..]. rewrite Hs. split; [done|]. cbn. by destruct (f id w).
Qed.

(** The handlers, on arguments that conform to the schemas. *)
Lemma run_tool_implements tool o w :
  conforms (JObject o) (tool_schema tool) ->
  run_tool dump2 tool (JObject o) w = ((service (reads tool o) w).1, respond (service (reads tool o) w).2).
Proof.
  intros Hc. destruct tool; cbn [run_tool reads service tool_schema] in *.
  - unfold observe, list_tasks_tool. cbn [fst snd]. f_equal. unfold promise. destruct (list_tasks w) as [e|tasks]; [done|].
    cbn [answer]. rewrite string_member_read; [done|]. intros x. by eapply (conforms_member _ _ _ "string" o _ x Hc).
  - assert (obj_find "task" o = Some (JString (string_of "task" o))) as Ht by by eapply required_string.
    unfold observe, task_info_tool, contains, jfind, at_key. rewrite Ht. cbn [fst snd negb is_string mbind outcome_bind get_string].
    f_equal. apply answer_promise.
  - unfold observe, stack_summary_tool. cbn [fst snd]. f_equal. unfold promise. destruct (list_tasks w) as [e|tasks]; [done|].
    cbn [answer]. rewrite stack_rows_spec. cbn [app]. unfold size_json. by rewrite length_fmap.
  - unfold observe, memory_info_tool. cbn [fst snd]. f_equal. apply answer_promise.
  - unfold cpu_usage_tool. unfold mbind, st_bind, lift.
    rewrite !int_member_read by (intros x; eapply (conforms_member _ _ _ "integer" o _ x Hc); done).
    rewrite clamp_seconds_spec, clamp_top_spec. destruct (cpu_usage _ w) as [w' r]. cbn [fst snd]. f_equal.
    destruct r as [e|r]; [done|]. cbn [answer promise respond]. rewrite usage_rows_spec; [|..].
    + cbn [length app]. by rewrite Nat.sub_0_r.
    + pose proof (int_of_range "topN" 10 o) as [H1 H2]; [by vm_compute|]. change (modulus (32 - 1)) with (modulus 31) in *.
      change (modulus 31) with 2147483648%Z in *. lia.
    + cbn. lia.
  - unfold observe, system_info_tool. cbn [fst snd]. f_equal. apply answer_promise.
  - unfold observe, list_modules_tool. cbn [fst snd]. f_equal. unfold promise. destruct (list_modules w) as [e|l]; [done|].
    cbn [answer respond]. unfold size_json. by rewrite length_fmap.
  - assert (obj_find "id" o = Some (JString (string_of "id" o))) as Ht by by eapply required_string.
    unfold observe, semaphore_info_tool. destruct (read_id_implements o AskSem sem_info sem_json w Ht) as [-> ->]; [done|done].
  - assert (obj_find "id" o = Some (JString (string_of "id" o))) as Ht by by eapply required_string.
    unfold observe, msgq_info_tool. destruct (read_id_implements o AskQueue msgq_info msgq_json w Ht) as [-> ->]; [done|done].
Qed.
End implementation.

Lemma reads_bounds tool o :
  match reads tool o with AskCpu seconds top => (1 <= seconds <= 10 /\ 1 <= top < modulus 31)%Z | _ => True end.
Proof.
  destruct tool; cbn [reads]; try done; try (unfold read_id; by repeat case_match).
  pose proof (int_of_range "topN" 10 o) as [H1 H2]; [by vm_compute|]. change (modulus (32 - 1)) with (modulus 31) in *.
  change (modulus 31) with 2147483648%Z in *. lia.
Qed.

(** ** The configured server *)

Section configured.
Context {HR HP K SId V : Type} `{!EqDecision SId} `{SE : !Sessions MonitorTool HR HP K SId V}.

(** The server of a program's state is what was put there. *)
Hypothesis get_set : forall s (v : V), server_of (set_server s v) = s.

Definition monitor_tool (name : string) (tool : MonitorTool) : Tool :=
  mkTool name None (Some (tool_description tool)) None (tool_schema tool) None None None.

Definition registered (r : ToolRegistry MonitorTool Changed) (entry : string * MonitorTool) : ToolRegistry MonitorTool Changed :=
  (register_tool (monitor_tool entry.1 entry.2) (Some entry.2) r).1.1.

Lemma registered_callback r entry : tool_changed_callback r = None -> tool_changed_callback (registered r entry) = None.
Proof. intros H. unfold registered, register_tool. by repeat (case_match; cbn [fst]). Qed.

(** Before a session is attached, nobody is told of a new tool. *)
Lemma register_step entry v :
  tool_changed_callback (srv_tools (server_of v)) = None ->
  exists v' r, server_register_tool entry.1 (tool_spec id entry.2) v = (v', Val r) /\
    srv_tools (server_of v') = registered (srv_tools (server_of v)) entry.
Proof.
  intros H. unfold server_register_tool, add_tool, tool_spec, registered, on_server, monitor_tool. run. unfold gets. cbn [ts_title ts_description ts_input_schema ts_output_schema ts_handler id].
  destruct (register_tool _ _ _) as [[t r] c] eqn:E.
  assert (c = None) as ->.
  { unfold register_tool in E. repeat case_match; simplify_eq; done. }
  unfold mbind, st_bind, modify, run_changed, skip. cbn [fst snd]. eexists _, r. split; [done|]. by rewrite get_set.
Qed.

Lemma register_all l v :
  tool_changed_callback (srv_tools (server_of v)) = None ->
  let v' := (for_each (fun entry => _ ← server_register_tool entry.1 (tool_spec id entry.2); skip) l v) in
  v'.2 = Val tt /\ srv_tools (server_of v'.1) = foldl registered (srv_tools (server_of v)) l.
Proof.
  revert v. induction l as [|entry l IH]; intros v Hv; [done|]. cbn zeta in *. cbn [for_each foldl].
  destruct (register_step entry v Hv) as (v' & r & Hr & Ht). unfold mbind, st_bind in *. rewrite Hr. unfold skip at 1 3.
  cbn [fst snd]. destruct (IH v') as [H1 H2]; [rewrite Ht; by apply registered_callback|]. by rewrite H1, H2, Ht.
Qed.

Lemma configure_tools v :
  srv_tools (server_of v) = empty_tools ->
  srv_tools (server_of (configure_monitor id v).1) =
    mkToolRegistry ((fun entry => (monitor_tool entry.1 entry.2, entry.2)) <$> tool_table) 100 None.
Proof.
  intros Hv. destruct (register_all tool_table v) as [_ H]; [by rewrite Hv|]. unfold configure_monitor. rewrite H, Hv. reflexivity.
Qed.

Context {W : Type} `{BE : !Backend W} `{SS : !StdSort} `{JT : !JsonText} (dump2 : json -> outcome string).

(** A server configured as the monitor answers a call to each of its nine
    tools, whose arguments conform to the tool's schema, with what the
    backend's service gives for the request that the arguments read as: the
    backend's error as a result marked as one, or its data as text.  No
    access to the arguments throws, and what they ask for is within bounds. *)
Theorem monitor_calls v name tool o w :
  srv_tools (server_of v) = empty_tools -> (name, tool) ∈ tool_table -> conforms (JObject o) (tool_schema tool) ->
  call_tool (run_tool dump2) name (JObject o) (srv_tools (server_of (configure_monitor id v).1)) w =
    (let '(w', r) := service (reads tool o) w in
     (w', match respond (W := W) dump2 r with
          | Val x => Val (Ok x)
          | Throw e => Val (Ok (failed (what e)))
          | Undefined => Undefined
          end)) /\
  match reads tool o with AskCpu seconds top => (1 <= seconds <= 10 /\ 1 <= top < modulus 31)%Z | _ => True end.
Proof.
  intros Hv Hin Hc. split; [|by apply reads_bounds]. rewrite configure_tools by done. unfold call_tool. cbn [tools].
  assert (find_if (named name) ((fun entry => (monitor_tool entry.1 entry.2, entry.2)) <$> tool_table) =
            Some (monitor_tool name tool, tool)) as ->.
  { unfold tool_table in Hin. repeat (apply elem_of_cons in Hin as [Hin|Hin]; [injection Hin as -> ->; reflexivity|]).
    by apply not_elem_of_nil in Hin. }
  pose proof (proj2 (validate_at_conforms _ _ EmptyString) Hc) as Hval. unfold validate_schema. run. cbn [input_schema monitor_tool].
  rewrite Hval. rewrite run_tool_implements by done. destruct (service (reads tool o) w) as [w' r]. cbn [fst snd].
  by destruct (respond dump2 r).
Qed.
End configured.

(** ** What a backend's promises give a client *)

Section client.
Context {W : Type} `{BE : !Backend W} {good : W -> Prop} `{BL : !BackendLaws good} `{SS : !StdSort} (dump2 : json -> outcome string).

Lemma c_str_id s : find_char Ascii.zero s = None -> c_str s = s.
Proof. unfold c_str. by intros ->. Qed.

Lemma hex_id_no_nul id : in_u 64 id -> find_char Ascii.zero (hex_id id) = None.
Proof.
  intros [H _]. pose proof (hex_digits_digits 16 id H) as Hd. unfold hex_id, hex.
  change ("0x" +:+ ?s) with (String "0" (String "x" s)). rewrite !find_char_cons. cbn [Ascii.eqb].
  assert (forall s, str_forall (fun c => bool_decide (is_Some (digit_in 16 c))) s = true -> find_char Ascii.zero s = None) as Hn.
  { induction s as [|c s IH]; [done|]. cbn [str_forall]. intros [Hc Hs]%andb_true_iff. rewrite find_char_cons, (IH Hs).
    by destruct (Ascii.eqb_spec Ascii.zero c) as [<-|]. }
  by rewrite (Hn _ Hd).
Qed.

(** The ids the tools show read back: an object id, as it is written, is
    the id a query is made with; and the id in a row of [list_tasks], given to
    [task_info], gives that row again. *)
Theorem monitor_ids_read_back :
  (forall id, in_u 64 id -> parse_object_id (JObject [("id", JString (hex_id id))]) = Val (inr id)) /\
  (forall w tasks t, good w -> list_tasks w = inr tasks -> t ∈ tasks ->
     exists id, jfind "id" (task_json t) = Some id /\
       run_tool dump2 TTaskInfo (JObject [("task", id)]) w = (w, respond (W := W) dump2 (inr (make_object [("task", task_json t)])))).
Proof.
  split.
  - intros id Hid. rewrite parse_object_id_string by done. unfold string_of. cbn [obj_find String.eqb Ascii.eqb Bool.eqb].
    rewrite c_str_id by by apply hex_id_no_nul. by rewrite strtoull_hex_id.
  - intros w tasks t Hw Hl Ht. exists (JString (hex_id (tk_id t))). split; [reflexivity|].
    cbn [run_tool]. unfold observe, task_info_tool. cbn -[hex_id task_json make_object]. by rewrite (task_info_listed w tasks t Hw Hl Ht).
Qed.

Lemma filter_length_perm {A} (f : A -> bool) l l' : l ≡ₚ l' -> length (List.filter f l) = length (List.filter f l').
Proof. induction 1; cbn; repeat case_match; cbn in *; lia. Qed.

(** The comparison [stack_summary] sorts with is a strict weak order. *)
Lemma peak_share_number t : task_wf t -> is_nan (peak_share t) = false.
Proof.
  intros (_ & [H1 H2] & Hh). unfold peak_share. destruct (Z.eqb_spec (stack_size t) 0) as [|Hne]; [done|].
  apply quotient_not_nan; [done|lia].
Qed.

#[local] Instance share_order_weak : StrictWeak task_wf (fun a b => double_lt (peak_share a) (peak_share b)).
Proof. apply (strict_weak_key (fun d => is_nan d = false) double_lt peak_share), peak_share_number. Qed.

#[local] Instance stack_order_weak : StrictWeak task_wf (fun a b => double_lt (peak_share b) (peak_share a)).
Proof. apply (strict_weak_flip task_wf (fun a b => double_lt (peak_share a) (peak_share b))). Qed.

(** The stacks are shown for every task once, none before one with a
    greater share, with a count of the rows that carry a warning. *)
Theorem stack_summary_spec `{!StdSortLaws} w tasks :
  good w -> list_tasks w = inr tasks ->
  exists shown,
    shown ≡ₚ tasks /\ StronglySorted (fun a b => double_lt (peak_share a) (peak_share b) = false) shown /\
    run_tool dump2 TStackSummary (JObject []) w =
      (w, respond (W := W) dump2 (inr (make_object
            [("taskCount", size_json tasks);
             ("warningCount", JInt (Z.of_nat (length (List.filter (fun t => bool_decide (is_Some (stack_warning t))) tasks))));
             ("tasks", JArray (stack_row <$> shown))]))).
Proof.
  intros Hw Hl. pose proof (list_tasks_wf w tasks Hw Hl) as Hwf.
  pose proof (std_sort_permutes task_wf _ tasks stack_order_weak Hwf) as Hp.
  exists (std_sort (fun a b => double_lt (peak_share b) (peak_share a)) tasks). split; [done|].
  split; [by apply (std_sort_sorted task_wf _ tasks stack_order_weak Hwf)|].
  cbn [run_tool]. unfold observe, stack_summary_tool. rewrite Hl. cbn [answer]. rewrite stack_rows_spec. cbn [app].
  unfold size_json. rewrite length_fmap, (Permutation_length Hp). by rewrite (filter_length_perm _ _ _ Hp).
Qed.
End client.
