(* ===== verification/MonitorSim.v ===== *)
(** * The simulated backend of the monitor

    examples/vxworks_monitor/monitor_backend_sim.cpp, which keeps the promises
    of the backend interface, and concrete calls of the monitor's tools. *)

From Stdlib Require Import Floats.SpecFloat.
From S2P Require Import Prelude Json Core Message Content Schema State Registry Session ToolRegistry Server Strtoull Doubles Monitor.

Record SimTask := mkSimTask {
  st_name : string; st_id : Z; st_priority : Z; st_status : string; st_stack_size : Z; st_stack_high : Z;
  st_cpu_ticks : Z;   (** per 3-second window *)
}.

Definition kTasks : list SimTask :=
  [mkSimTask "tShell0" 0x60351ba8 1 "READY" 65536 22816 4;
   mkSimTask "tWdbTask" 0x60355c30 3 "PEND" 16384 3120 0;
   mkSimTask "tSpyTask" 0x60359f10 5 "DELAY" 8192 2048 1;
   mkSimTask "tNetTask" 0x6035e2c0 50 "PEND" 32768 9800 12;
   mkSimTask "tAioIoTask0" 0x60362a80 50 "PEND" 16384 2560 0;
   mkSimTask "tMcpHttp0" 0x60367140 100 "PEND" 32768 11264 6;
   mkSimTask "tWorker0" 0x6036b900 120 "READY" 8192 7420 148;
   mkSimTask "tLogTask" 0x6036fd20 0 "PEND" 16384 1980 0].

(** The milliseconds of the host's monotonic clock. *)
Class HostClock (W : Type) := clock_ms : W -> Z.

Section sim.
Context {W : Type} `{CK : !HostClock W} `{SS : !StdSort}.

Definition sim_ticks (w : W) : Z := (wrap_u 64 (wrap_u 64 (clock_ms w) * 60) / 1000)%Z.

Definition make_snapshot (t : SimTask) : TaskSnapshot :=
  mkTaskSnapshot (st_name t) (st_id t) (st_priority t) (st_status t) 0 0 0 (wrap_u 64 (st_id t - 0x1000))
    (st_stack_size t) (st_stack_high t / 2) (st_stack_high t) (wrap_s 64 (st_stack_size t - st_stack_high t))
    4096 256 512 (4096 - 512).

Definition sim_heap : KernelHeapStats :=
  mkKernelHeapStats (18 * 1024 * 1024) 4210 (46 * 1024 * 1024) 87 (21 * 1024 * 1024) (40 * 1024 * 1024).

Definition sim_list_tasks : list TaskSnapshot := make_snapshot <$> kTasks.

Definition sim_is (name_or_id : string) (t : SimTask) : bool :=
  String.eqb name_or_id (st_name t) || String.eqb name_or_id (hex_id (st_id t)) || String.eqb name_or_id (to_string (st_id t)).

Definition sim_task_info (name_or_id : string) : string + TaskSnapshot :=
  match find_if (sim_is name_or_id) kTasks with
  | Some t => inr (make_snapshot t)
  | None => inl ("task not found: " +:+ name_or_id)
  end.

Definition sim_system_info (w : W) : SystemSnapshot :=
  mkSystemSnapshot (sim_ticks w) 60 (double_div (double_of_Z (sim_ticks w)) (double_of_Z 60)) (Z.of_nat (length kTasks)) 2 sim_heap.

Definition sim_list_modules : list ModuleSnapshot :=
  [mkModuleSnapshot "vxworks_monitor_server.out" 0x60800000 2 0x60810000 (812 * 1024) 0x608e0000 (96 * 1024) 0x608f8000 (24 * 1024);
   mkModuleSnapshot "myApp.out" 0x60900000 3 0x60910000 (210 * 1024) 0x60948000 (32 * 1024) 0x60950000 (8 * 1024)].

Definition sim_usage (seconds total : Z) (t : SimTask) : CpuTaskUsage :=
  let ticks := (wrap_u 64 (st_cpu_ticks t * seconds) / 3)%Z in
  mkCpuTaskUsage (st_name t) (st_id t) ticks
    (if (total =? 0)%Z then S754_zero false
     else double_div (double_mul (double_of_Z 100) (double_of_Z ticks)) (double_of_Z total)).

(** The loop: the tasks, and the ticks attributed to them. *)
Definition sim_attribute (seconds total : Z) (l : list SimTask) : list CpuTaskUsage * Z :=
  foldl (fun acc t =>
           if (st_cpu_ticks t =? 0)%Z then acc
           else (acc.1 ++ [sim_usage seconds total t], wrap_u 64 (acc.2 + cu_ticks (sim_usage seconds total t))))
        ([], 0%Z) l.

Definition sim_cpu_usage (seconds : Z) : CpuUsageReport :=
  let total := wrap_u 64 (seconds * 60) in
  let '(tasks, attributed) := sim_attribute seconds total kTasks in
  mkCpuUsageReport seconds total (if (attributed <? total)%Z then (total - attributed)%Z else 0%Z)
    (std_sort busier tasks).

Definition sim_sem_info (id : Z) : string + SemSnapshot :=
  if negb (id =? 0x60377000)%Z then
    inl "semInfoGet failed (invalid semaphore ID?) — the simulated backend only knows 0x60377000"
  else inr (mkSemSnapshot id 1 "mutex" 0x0d 2 None None (Some 0x6036b900%Z)).

Definition sim_msgq_info (id : Z) : string + MsgQSnapshot :=
  if negb (id =? 0x60378000)%Z then
    inl "msgQInfoGet failed (invalid message queue ID?) — the simulated backend only knows 0x60378000"
  else inr (mkMsgQSnapshot id 3 0 0 7 0x01 64 512).

#[export] Instance sim_backend : Backend W := {|
  backend_name := "simulated";
  list_tasks _ := inr sim_list_tasks;
  task_info name _ := sim_task_info name;
  kernel_heap _ := inr sim_heap;
  system_info w := inr (sim_system_info w);
  list_modules _ := inr sim_list_modules;
  cpu_usage seconds w := (w, inr (sim_cpu_usage seconds));
  sem_info id _ := sim_sem_info id;
  msgq_info id _ := sim_msgq_info id;
|}.

(** Every task of the table is found by its id, in hexadecimal. *)
Lemma sim_found t : t ∈ sim_list_tasks -> sim_task_info (hex_id (tk_id t)) = inr t.
Proof. intros H. unfold sim_list_tasks, kTasks in H. rewrite !fmap_cons in H. repeat (apply elem_of_cons in H as [->|H]; [by vm_compute|]). by apply not_elem_of_nil in H. Qed.

Lemma sim_attribute_all seconds :
  (1 <= seconds <= 10)%Z ->
  let '(tasks, attributed) := sim_attribute seconds (seconds * 60) kTasks in
  (sum_ticks tasks = attributed /\ attributed < seconds * 60 /\ Forall (fun u => 0 <= cu_ticks u) tasks)%Z /\ NoDup (cu_id <$> tasks).
Proof.
  intros H. assert (seconds = 1 \/ seconds = 2 \/ seconds = 3 \/ seconds = 4 \/ seconds = 5 \/ seconds = 6 \/ seconds = 7 \/
                    seconds = 8 \/ seconds = 9 \/ seconds = 10)%Z as Hs by lia.
  repeat destruct Hs as [->|Hs]; [..|subst];
    (match goal with |- context [sim_attribute ?a ?b ?c] => let x := eval vm_compute in (sim_attribute a b c) in change (sim_attribute a b c) with x end;
     cbn beta iota; split; [split; [reflexivity|split; [reflexivity|]]|apply (bool_decide_unpack _); vm_compute; exact I];
     repeat (apply Forall_cons_2; [by vm_compute|]); apply Forall_nil_2).
Qed.

#[export] Instance sim_backend_laws `{SL : !StdSortLaws} : BackendLaws (fun _ : W => True).
Proof.
  split.
  - intros w tasks _ [= <-]. repeat constructor; by vm_compute.
  - intros w tasks t _ [= <-]. apply sim_found.
  - intros w seconds w' r _ Hs. intros [= _ <-]. unfold sim_cpu_usage. cbn zeta.
    rewrite wrap_u_id by (unfold in_u; change (modulus 64) with 18446744073709551616%Z; lia).
    pose proof (sim_attribute_all seconds Hs) as H. destruct (sim_attribute _ _ _) as [tasks attributed].
    destruct H as [(Hsum & Hlt & Hr) Hd]. rewrite (proj2 (Z.ltb_lt _ _) Hlt). apply sorted_report_ok; [lia|done|lia|done].
  - by intros.
Qed.
End sim.

(** ** Concrete calls *)

Module MonitorDemo.
#[local] Existing Instances BitText.text InsertionSort.insertion_sort InsertionSort.insertion_sort_laws.

Abbreviation server := (Server MonitorTool unit unit unit nat).

(** A program whose state is its server. *)
#[export] Instance program : Sessions MonitorTool unit unit unit nat server := {|
  server_of s := s;
  set_server s _ := s;
  session_state _ _ := Operating;
  session_notify _ _ _ := skip;
  install_on _ s := s;
  create_session _ := mret 0;
  connect_session _ := skip;
  destroy_session _ := skip;
  invoke_tool _ _ := mret (fail "not called");
  invoke_read _ _ := mret (Err (error InvalidParams "not called"));
  invoke_prompt _ _ := mret (Err (error InvalidParams "not called"));
  invoke_complete _ _ := mret (mkCompleteResult [] None None);
|}.

#[export] Instance host_clock : HostClock nat := Z.of_nat.

Definition configured : server := (configure_monitor id (make_server "vxworks-monitor" "1.0.0")).1.

Definition call (name : string) (args : object) : outcome (Result CallToolResult) :=
  (call_tool (run_tool json_dump) name (JObject args) (srv_tools configured) 90).2.

Definition pretty (data : list (string * json)) : outcome (Result CallToolResult) :=
  text ← json_dump (JObject (obj_set "backend" (JString "simulated") (make_object data)));
  Val (Ok (mkCallToolResult [text_content text] false)).

Example busiest :
  call "cpu_usage" [("seconds", JInt 60); ("topN", JInt 1)] =
  pretty [("windowSeconds", JUInt 10); ("totalTicks", JUInt 600); ("unattributedTicks", JUInt 31);
          ("tasks", JArray [usage_row (sim_usage 10 600 (mkSimTask "tWorker0" 0x6036b900 120 "READY" 8192 7420 148))])].
Proof. vm_compute. reflexivity. Qed.

Example bad_id : call "msgq_info" [("id", JString "0x6037800g")] = Val (Ok (fail "not a valid object ID: 0x6037800g")).
Proof. vm_compute. reflexivity. Qed.

Example bad_arguments : exists e, call "cpu_usage" [("seconds", JString "3")] = Val (Err e).
Proof. eexists. vm_compute. reflexivity. Qed.

(** More than 32 bits of seconds are cut before they are clamped. *)
Example seconds_cut : call "cpu_usage" [("seconds", JInt 4294967298)] = call "cpu_usage" [("seconds", JInt 2)].
Proof. vm_compute. reflexivity. Qed.

(** A zero byte ends the id. *)
Example id_cut : parse_object_id (JObject [("id", JString ("0x10" +:+ String Ascii.zero "junk"))]) = Val (inr 16%Z).
Proof. vm_compute. reflexivity. Qed.

Lemma monitor_calls_witness :
  call_tool (run_tool json_dump) "task_info" (JObject [("task", JString "0x60377000")])
    (srv_tools (server_of (configure_monitor id (make_server "vxworks-monitor" "1.0.0")).1)) 90 =
    (90, Val (Ok (fail "task not found: 0x60377000"))).
Proof.
  assert (("task_info", TTaskInfo) ∈ tool_table) as Hin by (right; left).
  assert (conforms (JObject [("task", JString "0x60377000")]) (tool_schema TTaskInfo)) as Hc
    by (apply (validate_at_conforms _ _ EmptyString); vm_compute; reflexivity).
  pose proof (monitor_calls (fun _ _ => eq_refl) json_dump (make_server "vxworks-monitor" "1.0.0") "task_info" TTaskInfo
                [("task", JString "0x60377000")] 90 eq_refl Hin Hc) as [H _].
  etransitivity; [exact H|]. vm_compute. reflexivity.
Defined.

Lemma monitor_ids_read_back_witness :
  exists id, jfind "id" (task_json (make_snapshot (mkSimTask "tShell0" 0x60351ba8 1 "READY" 65536 22816 4))) = Some id /\
    id = JString "0x60351ba8".
Proof.
  destruct (proj2 (monitor_ids_read_back (BL := sim_backend_laws (W := nat)) json_dump) 90 sim_list_tasks
              (make_snapshot (mkSimTask "tShell0" 0x60351ba8 1 "READY" 65536 22816 4)) I eq_refl ltac:(left)) as (id & Hid & _).
  exists id. split; [exact Hid|]. injection Hid as <-. vm_compute. reflexivity.
Defined.

(** The stack hog comes first, with its warning. *)
Lemma stack_summary_spec_witness :
  exists shown, shown ≡ₚ sim_list_tasks /\ StronglySorted (fun a b => double_lt (peak_share a) (peak_share b) = false) shown.
Proof.
  destruct (stack_summary_spec (BL := sim_backend_laws (W := nat)) json_dump 90 sim_list_tasks I eq_refl) as (shown & H1 & H2 & _).
  by exists shown.
Defined.
End MonitorDemo.
