(* ===== verification/MonitorVx.v ===== *)
(** * The VxWorks backend of the monitor

    examples/vxworks_monitor/monitor_backend_vxworks.cpp over an interface for
    the kernel's calls, for a target with 64-bit pointers.  The sampling of CPU
    time keeps the promises of the backend interface, and does so when several
    sessions ask for it while tasks are switched. *)

From S2P Require Import Prelude Json Core Decimal Chunked Strtoull Doubles Monitor.

Definition kMaxTasks : nat := 256.
Definition kMaxModules : Z := 64.

(** [(TASK_ID)ERROR]. *)
Definition ERROR : Z := (modulus 64 - 1)%Z.

(** ** The kernel *)

Record TaskDesc := mkTaskDesc {
  td_name : option string; td_priority : Z; td_cpuIndex : Z; td_errorStatus : Z; td_delay : Z; td_entry : Z;
  td_stackSize : Z; td_stackCurrent : Z; td_stackHigh : Z; td_stackMargin : Z;
  td_excStackSize : Z; td_excStackCurrent : Z; td_excStackHigh : Z; td_excStackMargin : Z;
}.

(** [SEM_INFO]: the type decides which member of the union is there. *)
Inductive SemState := SemBinary (full : Z) | SemMutex (owner : Z) | SemCounting (count : Z) | SemOther.
Record SemInfo := mkSemInfo { si_type_raw : Z; si_state : SemState; si_options : Z; si_numTasks : Z }.

(** [MODULE_INFO], [MSG_Q_INFO]; [MEM_PART_STATS] has the fields of
    [KernelHeapStats]. *)
Record ModuleInfo := mkModuleInfo {
  mi_name : string; mi_group : Z; mi_textAddr : Z; mi_textSize : Z; mi_dataAddr : Z; mi_dataSize : Z; mi_bssAddr : Z; mi_bssSize : Z;
}.
Record MsgQInfo := mkMsgQInfo {
  qi_numMsgs : Z; qi_numTasks : Z; qi_sendTimeouts : Z; qi_recvTimeouts : Z; qi_options : Z; qi_maxMsgs : Z; qi_maxMsgLength : Z;
}.

(** Queries see the kernel as it is; [taskDelay] gives the switches that happen
    while the caller sleeps, as the task switched out and the tick count. *)
Class VxKernel (W : Type) := {
  tickGet : W -> Z;
  sysClkRateGet : W -> Z;
  taskIdListGet : nat -> W -> option (list Z);
  taskCount : W -> Z;                            (** [taskIdListGet(nullptr, 0)] *)
  taskIdVerify : Z -> W -> bool;
  taskNameToId : string -> W -> Z;
  taskInfoGet : Z -> W -> option TaskDesc;
  taskStatusString : Z -> W -> string;
  memPartInfoGet : W -> option KernelHeapStats;
  moduleIdListGet : Z -> W -> option (list Z);
  moduleInfoGet : Z -> W -> option ModuleInfo;
  semInfoGet : Z -> W -> option SemInfo;
  msgQInfoGet : Z -> W -> option MsgQInfo;
  taskSwitchHookAdd : W -> W * bool;
  taskSwitchHookDelete : W -> W;
  taskDelay : Z -> W -> W * list (Z * Z);
}.

(** ** CPU sampling: the switch hook *)

(** [g_cpu_slots] up to [g_cpu_slot_count], [g_last_switch_tick], [g_sampling]. *)
Record Sampling := mkSampling { slots : list (Z * Z); last_switch_tick : Z; sampling : bool }.

Definition no_sampling : Sampling := mkSampling [] 0 false.

(** The first slot of the task, with [delta] added. *)
Fixpoint bump (tid delta : Z) (l : list (Z * Z)) : option (list (Z * Z)) :=
  match l with
  | [] => None
  | (t, ticks) :: l' =>
      if (t =? tid)%Z then Some ((t, wrap_u 64 (ticks + delta)) :: l')
      else match bump tid delta l' with Some l'' => Some ((t, ticks) :: l'') | None => None end
  end.

Definition mcp_monitor_switch_hook (tid now : Z) (g : Sampling) : Sampling :=
  let delta := wrap_u 64 (now - last_switch_tick g) in
  if (delta =? 0)%Z then mkSampling (slots g) now (sampling g)
  else
    match bump tid delta (slots g) with
    | Some l => mkSampling l now (sampling g)
    | None =>
        mkSampling (if length (slots g) <? kMaxTasks then slots g ++ [(tid, delta)] else slots g) now (sampling g)
    end.

Definition run_hook (switches : list (Z * Z)) (g : Sampling) : Sampling :=
  foldl (fun g sw => mcp_monitor_switch_hook sw.1 sw.2 g) g switches.

(** ** The functions of the interface *)

Section backend.
Context {W : Type} `{KN : !VxKernel W} `{SS : !StdSort}.

Definition is_hex_name (s : string) : bool := String.prefix "0x" s || String.prefix "0X" s.
Definition starts_digit (s : string) : bool := match s with String c _ => is_digit c | EmptyString => false end.

(** Hex id, decimal id, name; what follows the digits of an id is not looked
    at. *)
Definition task_lookup (name_or_id : string) (w : W) : Z :=
  let s := c_str name_or_id in
  let hex := (strtoull_base 16 (str_drop 2 s)).1 in
  let decimal := strtoull s in
  if is_hex_name s && taskIdVerify hex w then hex
  else if starts_digit s && taskIdVerify decimal w then decimal
  else
    let tid := taskNameToId s w in
    if negb (tid =? ERROR)%Z && negb (tid =? 0)%Z then tid else ERROR.

Definition fill_task (tid : Z) (w : W) : option TaskSnapshot :=
  match taskInfoGet tid w with
  | None => None
  | Some desc =>
      Some (mkTaskSnapshot (default EmptyString (td_name desc)) tid (td_priority desc) (taskStatusString tid w)
              (td_cpuIndex desc) (td_errorStatus desc) (td_delay desc) (td_entry desc)
              (td_stackSize desc) (td_stackCurrent desc) (td_stackHigh desc) (td_stackMargin desc)
              (td_excStackSize desc) (td_excStackCurrent desc) (td_excStackHigh desc) (td_excStackMargin desc))
  end.

Definition fill_heap (w : W) : string + KernelHeapStats :=
  match memPartInfoGet w with
  | Some stats => inr stats
  | None => inl "memPartInfoGet failed for the system partition"
  end.

Definition vx_list_tasks (w : W) : string + list TaskSnapshot :=
  match taskIdListGet kMaxTasks w with
  | None => inl "taskIdListGet failed"
  | Some ids => inr (omap (fun tid => fill_task tid w) ids)
  end.

Definition vx_task_info (name_or_id : string) (w : W) : string + TaskSnapshot :=
  let tid := task_lookup name_or_id w in
  if (tid =? ERROR)%Z then inl ("task not found: " +:+ name_or_id)
  else
    match fill_task tid w with
    | Some t => inr t
    | None => inl ("taskInfoGet failed for: " +:+ name_or_id)
    end.

Definition vx_system_info (w : W) : string + SystemSnapshot :=
  let ticks := tickGet w in
  let rate := wrap_u 64 (sysClkRateGet w) in
  let modules := match moduleIdListGet kMaxModules w with Some l => Z.of_nat (length l) | None => 0%Z end in
  match fill_heap w with
  | inl e => inl e
  | inr heap =>
      inr (mkSystemSnapshot ticks rate
             (if (rate =? 0)%Z then S754_zero false else double_div (double_of_Z ticks) (double_of_Z rate))
             (taskCount w) modules heap)
  end.

Definition vx_list_modules (w : W) : string + list ModuleSnapshot :=
  match moduleIdListGet kMaxModules w with
  | None => inl "moduleIdListGet failed"
  | Some ids =>
      inr (omap (fun id => match moduleInfoGet id w with
                           | None => None
                           | Some info => Some (mkModuleSnapshot (mi_name info) id (mi_group info) (mi_textAddr info) (mi_textSize info)
                                                  (mi_dataAddr info) (mi_dataSize info) (mi_bssAddr info) (mi_bssSize info))
                           end) ids)
  end.

(** The name and share of a slot, and the loop over the slots. *)
Definition slot_usage (total : Z) (w : W) (slot : Z * Z) : CpuTaskUsage :=
  let '(tid, ticks) := slot in
  let name := if taskIdVerify tid w
              then match taskInfoGet tid w with Some desc => default EmptyString (td_name desc) | None => "(exited)" end
              else "(exited)" in
  mkCpuTaskUsage name tid ticks
    (if (total =? 0)%Z then S754_zero false
     else double_div (double_mul (double_of_Z 100) (double_of_Z ticks)) (double_of_Z total)).

Definition cpu_report (seconds total : Z) (l : list (Z * Z)) (w : W) : CpuUsageReport :=
  let '(tasks, attributed) :=
    foldl (fun acc slot => (acc.1 ++ [slot_usage total w slot], wrap_u 64 (acc.2 + slot.2))) ([], 0%Z) l in
  mkCpuUsageReport seconds total (if (attributed <? total)%Z then (total - attributed)%Z else 0%Z) (std_sort busier tasks).

(** One session's call from beginning to end. *)
Definition vx_cpu_usage (seconds : Z) (s : W * Sampling) : (W * Sampling) * (string + CpuUsageReport) :=
  let '(w, g) := s in
  if sampling g then ((w, g), inl "a CPU sampling window is already running")
  else
    let start := tickGet w in
    let g := mkSampling [] start true in
    let '(w, added) := taskSwitchHookAdd w in
    if negb added then ((w, mkSampling (slots g) (last_switch_tick g) false), inl "taskSwitchHookAdd failed (hook table full?)")
    else
      let '(w, switches) := taskDelay (wrap_s 32 (seconds * wrap_u 32 (sysClkRateGet w))) w in
      let g := run_hook switches g in
      let w := taskSwitchHookDelete w in
      let total := wrap_u 64 (tickGet w - start) in
      let r := cpu_report seconds total (slots g) w in
      ((w, mkSampling (slots g) (last_switch_tick g) false), inr r).

Definition vx_sem_info (id : Z) (w : W) : string + SemSnapshot :=
  match semInfoGet id w with
  | None => inl "semInfoGet failed (invalid semaphore ID?)"
  | Some info =>
      let snapshot type count full owner :=
        mkSemSnapshot id (si_type_raw info) type (si_options info) (wrap_u 32 (si_numTasks info)) count full owner in
      inr (match si_state info with
           | SemBinary full => snapshot "binary" None (Some (negb (full =? 0)%Z)) None
           | SemMutex owner => snapshot "mutex" None None (Some owner)
           | SemCounting count => snapshot "counting" (Some (wrap_u 32 count)) None None
           | SemOther => snapshot ("type-" +:+ to_string (si_type_raw info)) None None None
           end)
  end.

Definition vx_msgq_info (id : Z) (w : W) : string + MsgQSnapshot :=
  match msgQInfoGet id w with
  | None => inl "msgQInfoGet failed (invalid message queue ID?)"
  | Some q =>
      inr (mkMsgQSnapshot id (qi_numMsgs q) (qi_numTasks q) (qi_sendTimeouts q) (qi_recvTimeouts q) (qi_options q)
             (qi_maxMsgs q) (qi_maxMsgLength q))
  end.

#[export] Instance vx_backend : Backend (W * Sampling) := {|
  backend_name := "vxworks";
  list_tasks s := vx_list_tasks s.1;
  task_info name s := vx_task_info name s.1;
  kernel_heap s := fill_heap s.1;
  system_info s := vx_system_info s.1;
  list_modules s := vx_list_modules s.1;
  cpu_usage := vx_cpu_usage;
  sem_info id s := vx_sem_info id s.1;
  msgq_info id s := vx_msgq_info id s.1;
|}.
End backend.

(** ** What the hook accounts for *)

(** The clock goes on from [a] over the switches' ticks to [b]. *)
Fixpoint clock_chain (a : Z) (switches : list (Z * Z)) (b : Z) : Prop :=
  match switches with
  | [] => (a <= b)%Z
  | (_, now) :: rest => (a <= now)%Z /\ clock_chain now rest b
  end.

(** The ticks a task ran: between a switch to it and the switch from it. *)
Fixpoint time_of (tid a : Z) (switches : list (Z * Z)) : Z :=
  match switches with
  | [] => 0%Z
  | (t, now) :: rest => ((if (t =? tid)%Z then now - a else 0) + time_of tid now rest)%Z
  end.

Definition last_tick (a : Z) (switches : list (Z * Z)) : Z := foldl (fun _ sw => sw.2) a switches.

Definition slot_sum (l : list (Z * Z)) : Z := foldr (fun s a => s.2 + a)%Z 0%Z l.

(** The slots after the switches: distinct tasks, each with exactly the ticks
    it ran, and none left out as long as there is room. *)
Record accounts (start : Z) (switches : list (Z * Z)) (l : list (Z * Z)) : Prop := {
  ac_distinct : NoDup (l.*1);
  ac_ticks tid ticks : (tid, ticks) ∈ l -> ticks = time_of tid start switches /\ (0 < ticks)%Z;
  ac_all tid : length l < kMaxTasks -> (0 < time_of tid start switches)%Z -> tid ∈ l.*1;
  ac_sum : (slot_sum l <= last_tick start switches - start)%Z;
  ac_room : length l < kMaxTasks -> slot_sum l = (last_tick start switches - start)%Z;
}.

Lemma time_of_app tid a l1 l2 : time_of tid a (l1 ++ l2) = (time_of tid a l1 + time_of tid (last_tick a l1) l2)%Z.
Proof. revert a. induction l1 as [|[t now] l1 IH]; intros a; [done|].
  change (last_tick a ((t, now) :: l1)) with (last_tick now l1). cbn [time_of app]. rewrite IH. lia.
Qed.

Lemma last_tick_app a l sw : last_tick a (l ++ [sw]) = sw.2.
Proof. unfold last_tick. by rewrite foldl_snoc. Qed.

Lemma slot_sum_cons t n l : slot_sum ((t, n) :: l) = (n + slot_sum l)%Z.
Proof. done. Qed.

Lemma slot_sum_app l t n : slot_sum (l ++ [(t, n)]) = (slot_sum l + n)%Z.
Proof. induction l as [|[t' n'] l IH]; [cbn; lia|]. change (((t', n') :: l) ++ ?k) with ((t', n') :: (l ++ k)). rewrite !slot_sum_cons, IH. lia. Qed.

Lemma bump_None tid delta l : bump tid delta l = None <-> tid ∉ l.*1.
Proof.
  induction l as [|[t n] l IH]; cbn; [split; [by intros _ ?%not_elem_of_nil|done]|].
  rewrite not_elem_of_cons, <- IH. destruct (Z.eqb_spec t tid) as [->|Hne]; [split; [done|by intros []]|].
  destruct (bump tid delta l); split; [done|by intros []|auto|done].
Qed.

Lemma bump_Some tid delta l l' :
  NoDup (l.*1) -> bump tid delta l = Some l' ->
  l'.*1 = l.*1 /\
  exists n, (tid, n) ∈ l /\ slot_sum l' = (slot_sum l - n + wrap_u 64 (n + delta))%Z /\
    forall t m, (t, m) ∈ l' <-> t = tid /\ m = wrap_u 64 (n + delta) \/ t <> tid /\ (t, m) ∈ l.
Proof.
  revert l'. induction l as [|[t n] l IH]; intros l' Hd; [done|]. rewrite fmap_cons in Hd. apply NoDup_cons in Hd as [Hn Hd].
  cbn [bump]. destruct (Z.eqb_spec t tid) as [->|Hne].
  - intros [= <-]. split; [done|]. exists n. split; [by left|]. split; [rewrite !slot_sum_cons; lia|]. intros t m. rewrite !elem_of_cons. split.
    + intros [[= -> ->]|Hin]; [by left|]. right. split; [|by right]. intros ->. apply Hn. apply list_elem_of_fmap. by exists (tid, m).
    + intros [[-> ->]|[Ht [[= -> ->]|Hin]]]; [by left|done|by right].
  - destruct (bump tid delta l) as [l2|]; [|done]. intros [= <-]. destruct (IH l2 Hd eq_refl) as (H1 & k & Hk & Hs & Hm).
    split; [cbn; by rewrite H1|]. exists k. split; [by right|]. split; [rewrite !slot_sum_cons; lia|]. intros t' m. rewrite !elem_of_cons, Hm. split.
    + intros [[= -> ->]|[[-> ->]|[Ht Hin]]]; auto.
    + intros [[-> ->]|[Ht [[= -> ->]|Hin]]]; auto.
Qed.

Lemma clock_chain_last a l b : clock_chain a l b -> (a <= last_tick a l <= b)%Z.
Proof.
  revert a. induction l as [|[t now] l IH]; intros a; cbn [clock_chain]; [unfold last_tick; cbn; lia|].
  intros [H1 H2]. specialize (IH now H2). change (last_tick a ((t, now) :: l)) with (last_tick now l). lia.
Qed.

Lemma clock_chain_snoc a l tid now b : clock_chain a (l ++ [(tid, now)]) b <-> clock_chain a l now /\ (now <= b)%Z.
Proof.
  revert a. induction l as [|[t n] l IH]; intros a; cbn [clock_chain app]; [done|]. rewrite IH. tauto.
Qed.

Lemma clock_chain_weaken a l b b' : clock_chain a l b -> (b <= b')%Z -> clock_chain a l b'.
Proof. revert a. induction l as [|[t n] l IH]; intros a; cbn [clock_chain]; [lia|]. intros [H1 H2] Hb. auto. Qed.

Lemma time_of_nonneg tid a l b : clock_chain a l b -> (0 <= time_of tid a l)%Z.
Proof.
  revert a. induction l as [|[t now] l IH]; intros a; cbn; [lia|]. intros [H1 H2]. specialize (IH now H2).
  destruct (t =? tid)%Z; lia.
Qed.

Lemma time_of_le tid a l b : clock_chain a l b -> (time_of tid a l <= last_tick a l - a)%Z.
Proof.
  revert a. induction l as [|[t now] l IH]; intros a; [unfold last_tick; cbn; lia|]. cbn [clock_chain time_of]. intros [H1 H2].
  specialize (IH now H2). change (last_tick a ((t, now) :: l)) with (last_tick now l). destruct (t =? tid)%Z; lia.
Qed.

(** One switch more. *)
Lemma hook_step start l tid now g :
  (0 <= start)%Z -> (now < modulus 64)%Z -> clock_chain start l now ->
  last_switch_tick g = last_tick start l -> accounts start l (slots g) ->
  let g' := mcp_monitor_switch_hook tid now g in
  accounts start (l ++ [(tid, now)]) (slots g') /\ last_switch_tick g' = now /\ sampling g' = sampling g.
Proof.
  intros Hs Hn Hc Hl [Hd Ht Ha Hsum Hroom]. cbn zeta. pose proof (clock_chain_last _ _ _ Hc) as Hb.
  unfold mcp_monitor_switch_hook. rewrite Hl, wrap_u_id by (unfold in_u; lia).
  assert (forall t, time_of t start (l ++ [(tid, now)]) = time_of t start l + (if (tid =? t)%Z then now - last_tick start l else 0))%Z as Hadd.
  { intros t. rewrite time_of_app. cbn. lia. }
  destruct (Z.eqb_spec (now - last_tick start l) 0) as [Hz|Hz].
  - split; [|done]. cbn [slots].
    assert (forall t, time_of t start (l ++ [(tid, now)]) = time_of t start l) as Hsame by (intros t; rewrite Hadd; destruct (tid =? t)%Z; lia).
    split; cbn [slots]; [done|..]; intros; rewrite ?Hsame, ?last_tick_app in *; cbn [snd] in *; auto; [lia|].
    rewrite Hroom by done. lia.
  - destruct (bump tid _ (slots g)) as [l'|] eqn:Eb; cbn [slots last_switch_tick sampling]; (split; [|done]).
    + destruct (bump_Some _ _ _ _ Hd Eb) as (Hk & n & Hn2 & Hs2 & Hm). destruct (Ht _ _ Hn2) as [Hn3 Hn4].
      pose proof (time_of_le tid _ _ _ Hc) as Hle.
      rewrite wrap_u_id in Hs2, Hm by (unfold in_u; lia).
      assert (length l' = length (slots g)) as Hlen by (by rewrite <- (length_fmap fst), Hk, length_fmap).
      split; rewrite ?Hk, ?Hlen, ?last_tick_app; cbn [snd]; [done|..].
      * intros t m. rewrite Hm, Hadd. intros [[-> ->]|[Hne Hin]]; [rewrite Z.eqb_refl; lia|].
        rewrite (proj2 (Z.eqb_neq tid t)) by done. rewrite Z.add_0_r. by apply Ht.
      * intros t Hr. rewrite Hadd. destruct (Z.eqb_spec tid t) as [<-|Hne]; [|rewrite Z.add_0_r; by apply Ha].
        intros _. apply list_elem_of_fmap. by exists (tid, n).
      * lia.
      * intros Hr. rewrite Hs2, Hroom by done. lia.
    + apply bump_None in Eb. destruct (Nat.ltb_spec (length (slots g)) kMaxTasks) as [Hr|Hr].
      * assert (time_of tid start l = 0)%Z as H0.
        { pose proof (time_of_nonneg tid _ _ _ Hc). destruct (decide (0 < time_of tid start l)%Z) as [Hp|]; [|lia].
          by apply Ha in Hp. }
        split; rewrite ?fmap_app, ?slot_sum_app, ?last_tick_app; cbn [snd].
        -- apply NoDup_app. split; [done|]. split; [|apply NoDup_singleton]. by intros x Hx ->%list_elem_of_singleton.
        -- intros t m. rewrite Hadd. intros [Hin|[= -> ->]%list_elem_of_singleton]%elem_of_app; [|rewrite Z.eqb_refl; lia].
           rewrite (proj2 (Z.eqb_neq tid t)); [rewrite Z.add_0_r; by apply Ht|]. intros <-. apply Eb, list_elem_of_fmap. by exists (tid, m).
        -- intros t _. rewrite Hadd, elem_of_app. destruct (Z.eqb_spec tid t) as [<-|Hne]; [by right; left|].
           rewrite Z.add_0_r. intros Hp. left. by apply Ha.
        -- lia.
        -- intros _. rewrite Hroom by done. lia.
      * split; rewrite ?last_tick_app; cbn [snd]; [done|..|lia|lia].
        -- intros t m Hin. rewrite Hadd. rewrite (proj2 (Z.eqb_neq tid t)); [rewrite Z.add_0_r; by apply Ht|].
           intros <-. apply Eb, list_elem_of_fmap. by exists (tid, m).
        -- lia.
Qed.

Lemma hook_run start l rest g b :
  (0 <= start)%Z -> (b < modulus 64)%Z -> clock_chain start (l ++ rest) b ->
  last_switch_tick g = last_tick start l -> accounts start l (slots g) ->
  accounts start (l ++ rest) (slots (run_hook rest g)) /\ last_switch_tick (run_hook rest g) = last_tick start (l ++ rest).
Proof.
  intros Hs Hb. revert l g. induction rest as [|[tid now] rest IH]; intros l g Hc Hl Ha; [by rewrite app_nil_r|].
  rewrite cons_middle, app_assoc in Hc |- *.
  assert (clock_chain start (l ++ [(tid, now)]) b) as Hc2.
  { clear -Hc. revert start Hc. induction (l ++ [(tid, now)]) as [|[t n] k IH]; intros a; cbn [clock_chain app].
    - intros Hc. pose proof (clock_chain_last _ _ _ Hc). lia.
    - intros [H1 H2]. auto. }
  apply clock_chain_snoc in Hc2 as [Hc2 Hnow].
  destruct (hook_step start l tid now g Hs ltac:(lia) Hc2 Hl Ha) as (H1 & H2 & _).
  apply IH; [done| |done]. by rewrite last_tick_app.
Qed.

Lemma accounts_start start : accounts start [] [].
Proof. split; cbn; [constructor|by intros ? ? ?%not_elem_of_nil|lia|unfold last_tick; cbn; lia|unfold last_tick; cbn; lia]. Qed.

(** ** The promises of the interface are kept *)

(** What the kernel documents: its clock goes on, ids and sizes have their
    width, a task whose description can be read is a valid one, and ERROR is
    not a task. *)
Class VxKernelLaws {W} `{!VxKernel W} (sound : W -> Prop) : Prop := {
  tick_range w : sound w -> in_u 64 (tickGet w);
  id_list_range w n ids : sound w -> taskIdListGet n w = Some ids -> Forall (in_u 64) ids;
  info_range w tid d : sound w -> taskInfoGet tid w = Some d -> in_u 64 (td_stackSize d) /\ in_u 64 (td_stackHigh d);
  info_verified w tid d : sound w -> taskInfoGet tid w = Some d -> taskIdVerify tid w = true;
  error_no_task w : sound w -> taskIdVerify ERROR w = false;
  hook_add_clock w w' b : sound w -> taskSwitchHookAdd w = (w', b) -> sound w' /\ (tickGet w <= tickGet w')%Z;
  hook_delete_clock w : sound w -> sound (taskSwitchHookDelete w) /\ (tickGet w <= tickGet (taskSwitchHookDelete w))%Z;
  delay_clock n w w' switches : sound w -> taskDelay n w = (w', switches) -> sound w' /\ clock_chain (tickGet w) switches (tickGet w');
}.

Lemma attribute_spec {W} `{KN : !VxKernel W} total (w : W) l tasks attributed :
  Forall (fun s => 0 < s.2)%Z l -> (0 <= attributed)%Z -> (attributed + slot_sum l < modulus 64)%Z ->
  foldl (fun acc slot => (acc.1 ++ [slot_usage total w slot], wrap_u 64 (acc.2 + slot.2))) (tasks, attributed) l =
    (tasks ++ (slot_usage total w <$> l), attributed + slot_sum l)%Z.
Proof.
  intros Hl. revert tasks attributed. induction Hl as [|[tid n] l Hn Hl IH]; intros tasks a Ha Hs.
  { cbn. rewrite app_nil_r, Z.add_0_r. done. }
  assert (0 <= slot_sum l)%Z as Hpos.
  { clear -Hl. induction Hl as [|[t m] l Hm _ IH]; [done|]. rewrite slot_sum_cons. cbn in Hm. lia. }
  cbn [foldl fst snd] in *. rewrite slot_sum_cons in *. rewrite wrap_u_id by (unfold in_u; lia). rewrite IH by lia.
  rewrite fmap_cons, <- app_assoc. f_equal. lia.
Qed.

Lemma slot_usage_fields {W} `{KN : !VxKernel W} total (w : W) l :
  cu_id <$> (slot_usage total w <$> l) = l.*1 /\ sum_ticks (slot_usage total w <$> l) = slot_sum l.
Proof.
  induction l as [|[t n] l [IH1 IH2]]; [done|]. rewrite !fmap_cons, IH1, slot_sum_cons, <- IH2. done.
Qed.

(** A report over slots that account for the window. *)
Lemma cpu_report_spec {W} `{KN : !VxKernel W} `{SS : !StdSort} `{SL : !StdSortLaws} seconds start trace total l (w : W) :
  accounts start trace l -> (last_tick start trace - start <= total < modulus 64)%Z ->
  report_ok seconds (cpu_report seconds total l w) /\ cpu_tasks (cpu_report seconds total l w) ≡ₚ slot_usage total w <$> l /\
  unattributed_ticks (cpu_report seconds total l w) = (total - slot_sum l)%Z.
Proof.
  intros [Hd Ht Ha Hsum Hroom] Htotal. unfold cpu_report.
  assert (Forall (fun s => 0 < s.2)%Z l) as Hpos by (apply Forall_forall; intros [t n] Hin; by apply Ht in Hin as [_ ?]).
  rewrite attribute_spec by (done || lia). cbn [app]. destruct (slot_usage_fields total w l) as [Hids Hticks].
  assert ((if (0 + slot_sum l <? total)%Z then (total - (0 + slot_sum l))%Z else 0%Z) = total - slot_sum l)%Z as ->.
  { destruct (Z.ltb_spec (0 + slot_sum l) total); lia. }
  split; [|split; [|done]].
  - apply sorted_report_ok; [lia| |lia|by rewrite Hids].
    apply Forall_forall. intros u (s & -> & Hin)%list_elem_of_fmap. destruct s as [t n]. apply Ht in Hin as [_ ?]. cbn. lia.
  - apply (std_sort_permutes _ _ _ busier_weak). by apply Forall_forall.
Qed.

Section laws.
Context {W : Type} `{KN : !VxKernel W} {sound : W -> Prop} `{KL : !VxKernelLaws sound} `{SS : !StdSort} `{SL : !StdSortLaws}.

Definition vx_good (s : W * Sampling) : Prop := sound s.1.

Lemma task_lookup_hex tid d w : sound w -> in_u 64 tid -> taskInfoGet tid w = Some d -> task_lookup (hex_id tid) w = tid.
Proof.
  intros Hw Hr Hd. unfold task_lookup. rewrite c_str_id by by apply hex_id_no_nul.
  assert (is_hex_name (hex_id tid) = true) as -> by (unfold is_hex_name, hex_id; by destruct (hex tid)). change (str_drop 2 (hex_id tid)) with (hex tid).
  rewrite strtoull_hex by done. cbn [fst]. by rewrite (info_verified w tid d Hw Hd).
Qed.

Lemma fill_task_id tid w t : fill_task tid w = Some t -> tk_id t = tid /\ exists d, taskInfoGet tid w = Some d /\
  stack_size t = td_stackSize d /\ stack_high t = td_stackHigh d.
Proof. unfold fill_task. destruct (taskInfoGet tid w) as [d|]; [|done]. intros [= <-]. split; [done|]. by exists d. Qed.

Lemma vx_listed w tasks t :
  sound w -> vx_list_tasks w = inr tasks -> t ∈ tasks -> in_u 64 (tk_id t) /\ fill_task (tk_id t) w = Some t.
Proof.
  unfold vx_list_tasks. intros Hw. destruct (taskIdListGet kMaxTasks w) as [ids|] eqn:E; [|done]. intros [= <-].
  intros (tid & Hin & Hf)%list_elem_of_omap. destruct (fill_task_id _ _ _ Hf) as [-> _]. split; [|done].
  pose proof (id_list_range w _ _ Hw E) as Hr. rewrite Forall_forall in Hr. by apply Hr.
Qed.

Lemma vx_cpu_usage_facts seconds w g s' r :
  sound w -> vx_cpu_usage seconds (w, g) = (s', r) ->
  sound s'.1 /\ sampling s'.2 = sampling g /\ forall rep, r = inr rep -> report_ok seconds rep.
Proof.
  intros Hw. unfold vx_cpu_usage. destruct (sampling g) eqn:Eg; [intros [= <- <-]; by split_and!|].
  destruct (taskSwitchHookAdd w) as [w1 b] eqn:E1. destruct (hook_add_clock _ _ _ Hw E1) as [H1 L1].
  destruct b; cbn [negb]; [|intros [= <- <-]; by split_and!].
  destruct (taskDelay _ w1) as [w2 switches] eqn:E2. destruct (delay_clock _ _ _ _ H1 E2) as [H2 Hc].
  destruct (hook_delete_clock _ H2) as [H3 L3]. intros [= <- <-]. split_and!; [done|done|]. intros rep [= <-].
  pose proof (tick_range _ Hw) as [R0 _]. pose proof (tick_range _ H3) as [_ R3].
  set (start := tickGet w) in *. set (b := tickGet (taskSwitchHookDelete w2)) in *.
  assert (clock_chain start switches b) as Hc2.
  { destruct switches as [|[t n] rest]; cbn [clock_chain] in *; [lia|]. destruct Hc as [Hc1 Hc2]. split; [lia|].
    by eapply clock_chain_weaken. }
  pose proof (clock_chain_last _ _ _ Hc2) as Hl.
  destruct (hook_run start [] switches (mkSampling [] start true) b R0 R3 Hc2 eq_refl (accounts_start start)) as [Ha _].
  rewrite wrap_u_id by (unfold in_u; lia). eapply cpu_report_spec; [exact Ha|cbn [app]; lia].
Qed.

#[export] Instance vx_backend_laws : BackendLaws vx_good.
Proof.
  split.
  - intros [w g] tasks Hw Hl. apply Forall_forall. intros t Ht. destruct (vx_listed w tasks t Hw Hl Ht) as [Hid Hf].
    destruct (fill_task_id _ _ _ Hf) as (_ & d & Hd & Es & Eh). unfold task_wf. rewrite Es, Eh. split; [done|]. by apply (info_range w (tk_id t)).
  - intros [w g] tasks t Hw Hl Ht. change (vx_task_info (hex_id (tk_id t)) w = inr t). destruct (vx_listed w tasks t Hw Hl Ht) as [Hid Hf].
    destruct (fill_task_id _ _ _ Hf) as (_ & d & Hd & _). unfold vx_task_info. rewrite (task_lookup_hex _ d) by done.
    destruct (Z.eqb_spec (tk_id t) ERROR) as [He|]; [|by rewrite Hf].
    pose proof (info_verified w _ _ Hw Hd) as Hv. by rewrite He, (error_no_task w Hw) in Hv.
  - intros [w g] seconds s' r Hw _ Hr. by apply (vx_cpu_usage_facts _ _ _ _ _ Hw Hr).
  - intros [w g] seconds s' r Hw Hr. by apply (vx_cpu_usage_facts _ _ _ _ _ Hw Hr).
Qed.
End laws.

(** ** Sessions and switches interleaved

    Every session may call [cpu_usage]; tasks are switched at any time.  A step
    of a caller is the code between two points where others can come in: the
    claim of [g_sampling]; the reset, up to the start of the window; adding the
    hook; deleting it after the delay; and collecting the slots, up to the
    release. *)

Inductive caller := Idle | Claimed | Begun (start : Z) | Hooked (start : Z) | Unhooked (start : Z).

(** A window that was reported: its slots are what [cpu_report] is made of. *)
Record window := mkWindow { win_start : Z; win_end : Z; win_switches : list (Z * Z); win_slots : list (Z * Z) }.

Record VxSystem := mkVxSystem {
  now : Z;
  globals : Sampling;
  hook_installed : bool;
  switches : list (Z * Z);     (** since the window began, as seen with the hook *)
  callers : list caller;
  windows : list window;
}.

Inductive monitor_event :=
| Tick (n : Z) | Switch (old : Z) | Claim (c : nat) | Begin (c : nat) | AddHook (c : nat) (added : bool) | DeleteHook (c : nat) | Collect (c : nat).

Definition set_sampling (b : bool) (g : Sampling) : Sampling := mkSampling (slots g) (last_switch_tick g) b.

(** [None]: the step is not the next one of that caller, or the clock would go
    back or beyond 64 bits. *)
Definition monitor_step (s : VxSystem) (e : monitor_event) : option VxSystem :=
  match e with
  | Tick n =>
      if ((now s <=? n) && (n <? modulus 64))%Z
      then Some (mkVxSystem n (globals s) (hook_installed s) (switches s) (callers s) (windows s)) else None
  | Switch old =>
      if hook_installed s
      then Some (mkVxSystem (now s) (mcp_monitor_switch_hook old (now s) (globals s)) true (switches s ++ [(old, now s)]) (callers s) (windows s))
      else Some s
  | Claim c =>
      match callers s !! c with
      | Some Idle =>
          if sampling (globals s) then Some s
          else Some (mkVxSystem (now s) (set_sampling true (globals s)) (hook_installed s) (switches s) (<[c:=Claimed]> (callers s)) (windows s))
      | _ => None
      end
  | Begin c =>
      match callers s !! c with
      | Some Claimed =>
          Some (mkVxSystem (now s) (mkSampling [] (now s) (sampling (globals s))) (hook_installed s) [] (<[c:=Begun (now s)]> (callers s)) (windows s))
      | _ => None
      end
  | AddHook c added =>
      match callers s !! c with
      | Some (Begun start) =>
          if added then Some (mkVxSystem (now s) (globals s) true (switches s) (<[c:=Hooked start]> (callers s)) (windows s))
          else Some (mkVxSystem (now s) (set_sampling false (globals s)) (hook_installed s) (switches s) (<[c:=Idle]> (callers s)) (windows s))
      | _ => None
      end
  | DeleteHook c =>
      match callers s !! c with
      | Some (Hooked start) => Some (mkVxSystem (now s) (globals s) false (switches s) (<[c:=Unhooked start]> (callers s)) (windows s))
      | _ => None
      end
  | Collect c =>
      match callers s !! c with
      | Some (Unhooked start) =>
          Some (mkVxSystem (now s) (set_sampling false (globals s)) (hook_installed s) (switches s) (<[c:=Idle]> (callers s))
                  (windows s ++ [mkWindow start (now s) (switches s) (slots (globals s))]))
      | _ => None
      end
  end.

Fixpoint monitor_run (s : VxSystem) (events : list monitor_event) : option VxSystem :=
  match events with
  | [] => Some s
  | e :: events => match monitor_step s e with Some s' => monitor_run s' events | None => None end
  end.

Definition idle_system (n : nat) (start : Z) (g : Sampling) : VxSystem :=
  mkVxSystem start (set_sampling false g) false [] (replicate n Idle) [].

(** *** The invariant *)

Definition window_ok (w : window) : Prop :=
  (0 <= win_start w)%Z /\ (win_end w < modulus 64)%Z /\ clock_chain (win_start w) (win_switches w) (win_end w) /\
  accounts (win_start w) (win_switches w) (win_slots w).

(** Who is in a window, if anybody; everybody else is idle. *)
Definition alone (l : list caller) (o : option (nat * caller)) : Prop :=
  forall c p, l !! c = Some p -> p <> Idle -> o = Some (c, p).

Definition collecting (s : VxSystem) (start : Z) : Prop :=
  (0 <= start)%Z /\ clock_chain start (switches s) (now s) /\ last_switch_tick (globals s) = last_tick start (switches s) /\
  accounts start (switches s) (slots (globals s)).

Definition phase_ok (s : VxSystem) (p : caller) : Prop :=
  match p with
  | Idle => sampling (globals s) = false /\ hook_installed s = false
  | Claimed => sampling (globals s) = true /\ hook_installed s = false
  | Begun start | Unhooked start => sampling (globals s) = true /\ hook_installed s = false /\ collecting s start
  | Hooked start => sampling (globals s) = true /\ hook_installed s = true /\ collecting s start
  end.

Record vx_inv (s : VxSystem) : Prop := {
  vi_now : (0 <= now s < modulus 64)%Z;
  vi_windows : Forall window_ok (windows s);
  vi_owner : exists o, alone (callers s) o /\ phase_ok s (from_option snd Idle o);
}.

Lemma alone_insert l c p o :
  alone l o -> (forall c' p', o = Some (c', p') -> c' = c) ->
  alone (<[c:=p]> l) (match p with Idle => None | _ => Some (c, p) end).
Proof.
  intros Ha Ho c' p' Hp Hne. destruct (decide (c' = c)) as [->|Hc].
  - apply list_lookup_insert_Some in Hp as [(_ & -> & _)|[? _]]; [|done]. by destruct p'.
  - rewrite list_lookup_insert_ne in Hp by done. specialize (Ha _ _ Hp Hne). subst o. by destruct (Hc (Ho _ _ eq_refl)).
Qed.

Lemma idle_inv n start g : in_u 64 start -> vx_inv (idle_system n start g).
Proof.
  intros Hs. split; [exact Hs|constructor|]. exists None. split; [|done]. intros c p Hp Hne.
  apply lookup_replicate in Hp as [-> _]. done.
Qed.

Lemma collecting_later s start n g h l ws :
  collecting s start -> (now s <= n)%Z -> slots g = slots (globals s) -> last_switch_tick g = last_switch_tick (globals s) ->
  collecting (mkVxSystem n g h (switches s) l ws) start.
Proof.
  intros (H0 & H1 & H2 & H3) Hn Hg Hl. unfold collecting. cbn. rewrite Hg, Hl. split_and!; try done. by eapply clock_chain_weaken.
Qed.

Lemma alone_idle l o : alone l o -> from_option snd Idle o = Idle -> alone l None.
Proof. intros Ha Ho c p Hp Hne. rewrite (Ha c p Hp Hne) in Ho. cbn in Ho. by subst p. Qed.

(** The step of a caller in a window: it is the one that is alone. *)
Lemma owner_steps s c p p' (Q : VxSystem -> Prop) :
  vx_inv s -> callers s !! c = Some p -> p <> Idle -> (phase_ok s p -> Q s) ->
  Q s /\ alone (<[c:=p']> (callers s)) (match p' with Idle => None | _ => Some (c, p') end).
Proof.
  intros [_ _ (o & Ha & Hp)] Hc Hne HQ. rewrite (Ha c p Hc Hne) in Hp. split; [by apply HQ|].
  eapply alone_insert; [exact Ha|]. intros c' q Ho. rewrite (Ha c p Hc Hne) in Ho. by injection Ho as -> _.
Qed.

Lemma monitor_step_inv s e s' : vx_inv s -> monitor_step s e = Some s' -> vx_inv s'.
Proof.
  intros Hi. pose proof Hi as [Hn Hw (o & Ha & Hp)]. destruct e as [n|old|c|c|c added|c|c]; cbn [monitor_step].
  - destruct (Z.leb_spec (now s) n), (Z.ltb_spec n (modulus 64)); try done. intros [= <-]. split; cbn; [lia|done|].
    exists o. split; [done|]. destruct (from_option snd Idle o); cbn in *; destruct_and?; split_and?; try done; by apply (collecting_later s).
  - destruct (hook_installed s) eqn:Eh; [|by intros [= <-]]. intros [= <-]. split; cbn; [done|done|]. exists o. split; [done|].
    destruct (from_option snd Idle o) as [| |st|st|st]; cbn in Hp; try (destruct_and?; congruence).
    destruct Hp as (Hs & _ & H0 & H1 & H2 & H3).
    destruct (hook_step st (switches s) old (now s) (globals s) H0 ltac:(lia) H1 H2 H3) as (G1 & G2 & G3).
    cbn. split_and!; [congruence|done|]. unfold collecting. cbn. split_and!; [done| |by rewrite last_tick_app|done].
    by apply clock_chain_snoc.
  - destruct (callers s !! c) as [[]|] eqn:Ec; try done. destruct (sampling (globals s)) eqn:Es; intros [= <-]; [done|].
    assert (from_option snd Idle o = Idle) as Ho by (destruct (from_option snd Idle o); cbn in Hp; destruct_and?; congruence).
    split; cbn; [done|done|]. exists (Some (c, Claimed)). split; [by eapply alone_insert; [by eapply alone_idle|]|].
    rewrite Ho in Hp. by destruct Hp.
  - destruct (callers s !! c) as [[| |st|st|st]|] eqn:Ec; try done. intros [= <-].
    destruct (owner_steps s c _ (Begun (now s)) (fun s => phase_ok s Claimed) Hi Ec) as [[Hs Hh] Hal]; [done|done|].
    split; cbn; [done|done|]. exists (Some (c, Begun (now s))). split; [done|]. cbn. split_and!; [done|done|].
    split_and!; cbn; [lia|lia|done|apply accounts_start].
  - destruct (callers s !! c) as [[| |st|st|st]|] eqn:Ec; try done. destruct added; intros [= <-].
    + destruct (owner_steps s c _ (Hooked st) (fun s => phase_ok s (Begun st)) Hi Ec) as [(Hs & Hh & Hc) Hal]; [done|done|].
      split; cbn; [done|done|]. exists (Some (c, Hooked st)). split; [done|]. cbn. split_and!; [done|done|]. by apply (collecting_later s).
    + destruct (owner_steps s c _ Idle (fun s => phase_ok s (Begun st)) Hi Ec) as [(Hs & Hh & Hc) Hal]; [done|done|].
      split; cbn; [done|done|]. by exists None.
  - destruct (callers s !! c) as [[| |st|st|st]|] eqn:Ec; try done. intros [= <-].
    destruct (owner_steps s c _ (Unhooked st) (fun s => phase_ok s (Hooked st)) Hi Ec) as [(Hs & Hh & Hc) Hal]; [done|done|].
    split; cbn; [done|done|]. exists (Some (c, Unhooked st)). split; [done|]. cbn. split_and!; [done|done|]. by apply (collecting_later s).
  - destruct (callers s !! c) as [[| |st|st|st]|] eqn:Ec; try done. intros [= <-].
    destruct (owner_steps s c _ Idle (fun s => phase_ok s (Unhooked st)) Hi Ec) as [(Hs & Hh & Hc) Hal]; [done|done|].
    destruct Hc as (H0 & H1 & H2 & H3). split; cbn; [done| |by exists None].
    apply Forall_app. split; [done|]. apply Forall_singleton. split_and!; cbn; [done|lia|done|done].
Qed.

Lemma monitor_run_inv events s s' : vx_inv s -> monitor_run s events = Some s' -> vx_inv s'.
Proof.
  revert s. induction events as [|e events IH]; intros s Hi; cbn [monitor_run]; [by intros [= <-]|].
  destruct (monitor_step s e) as [s1|] eqn:E; [|done]. by eapply IH, monitor_step_inv.
Qed.


(** ** A small kernel *)

Module VxDemo.
#[local] Existing Instances InsertionSort.insertion_sort InsertionSort.insertion_sort_laws.

(** Two tasks; the state is the tick count.  A delay ends with the clock's last
    tick at the latest; the first task runs one tick of it, the other the rest. *)
Definition tasks : list (Z * string) := [(0x1000, "tShell0"); (0x2000, "tNetTask")]%Z.

Definition desc (tid : Z) : option TaskDesc :=
  match find_if (fun t => (t.1 =? tid)%Z) tasks with
  | Some (_, name) => Some (mkTaskDesc (Some name) 50 0 0 0 0x500 8192 100 4096 4096 4096 0 0 4096)
  | None => None
  end.

Definition later (n w : Z) : Z := Z.min (w + Z.max 0 n) (modulus 64 - 1).

#[export] Instance kernel : VxKernel Z := {|
  tickGet w := w;
  sysClkRateGet _ := 60%Z;
  taskIdListGet n _ := Some (take n tasks.*1);
  taskCount _ := 2%Z;
  taskIdVerify tid _ := match desc tid with Some _ => true | None => false end;
  taskNameToId name _ := match find_if (fun t => String.eqb t.2 name) tasks with Some (tid, _) => tid | None => ERROR end;
  taskInfoGet tid _ := desc tid;
  taskStatusString _ _ := "READY";
  memPartInfoGet _ := None;
  moduleIdListGet _ _ := None;
  moduleInfoGet _ _ := None;
  semInfoGet _ _ := None;
  msgQInfoGet _ _ := None;
  taskSwitchHookAdd w := (w, true);
  taskSwitchHookDelete w := w;
  taskDelay n w := (later n w, [(0x1000, later (Z.min 1 n) w); (0x2000, later n w)]%Z);
|}.

#[export] Instance kernel_laws : VxKernelLaws (in_u 64).
Proof.
  assert (forall tid d, desc tid = Some d -> d = mkTaskDesc (td_name d) 50 0 0 0 0x500 8192 100 4096 4096 4096 0 0 4096) as Hd.
  { intros tid d. unfold desc. destruct (find_if _ tasks) as [[t name]|]; [|done]. by intros [= <-]. }
  split; cbn.
  - done.
  - intros w n ids _ [= <-]. apply Forall_take. repeat constructor; by vm_compute.
  - intros w tid d _ H. rewrite (Hd _ _ H). by repeat constructor; vm_compute.
  - intros w tid d _ H. by rewrite H.
  - done.
  - intros w w' b Hw [= <- _]. split; [done|lia].
  - intros w Hw. split; [done|lia].
  - intros n w w' l [H0 H1] [= <- <-]. unfold in_u, later. cbn [clock_chain]. change (modulus 64) with 18446744073709551616%Z in *. lia.
Qed.

Example by_name : task_lookup "tNetTask" 0%Z = 0x2000%Z.
Proof. vm_compute. reflexivity. Qed.
Example by_decimal : task_lookup "4096" 0%Z = 0x1000%Z.
Proof. vm_compute. reflexivity. Qed.
Example unknown : vx_task_info "tIdle" 0%Z = inl "task not found: tIdle".
Proof. vm_compute. reflexivity. Qed.

(** What follows the digits of an id is ignored. *)
Example junk_ignored : task_lookup "0x1000 or so" 0%Z = 0x1000%Z.
Proof. vm_compute. reflexivity. Qed.

(** Three seconds at 60 ticks each. *)
Example three_seconds :
  match (vx_cpu_usage 3 (7%Z, no_sampling)).2 with
  | inr r => (cu_name <$> cpu_tasks r, cu_ticks <$> cpu_tasks r, total_ticks r, unattributed_ticks r)
  | inl _ => ([], [], 0%Z, 0%Z)
  end = (["tNetTask"; "tShell0"], [179; 1]%Z, 180%Z, 0%Z).
Proof. vm_compute. reflexivity. Qed.

(** A second session is refused while the window of the first is open. *)
Definition events : list monitor_event :=
  [Switch 0x1000; Claim 0; Begin 0; AddHook 0 true; Tick 103; Switch 0x1000; Claim 1; Tick 104; Switch 0x2000; Tick 106;
   Switch 0x1000; Tick 107; DeleteHook 0; Switch 0x2000; Tick 110; Collect 0; Claim 1; Begin 1].

Definition final : VxSystem := default (idle_system 0 0 no_sampling) (monitor_run (idle_system 2 100 no_sampling) events).

End VxDemo.
