(* ===== verification/MonitorMain.v ===== *)
(** * The example servers' entry points

    The programs around the servers of examples/: the echo tool, the command
    line of [main], and the entry points a VxWorks kernel module has instead
    (examples/echo_server_http.cpp, vxworks_monitor/vxworks_monitor_server.cpp;
    the echo tool is also examples/echo_server.cpp's). *)

From S2P Require Import Prelude Json Core Message Content Schema State Registry Types Session ToolRegistry Server Decimal Listener Monitor.

(** ** The echo tool *)

Definition echo_schema : json :=
  JObject (make_object
    [("type", JString "object");
     ("properties", JObject (make_object [("message", JObject (make_object [("type", JString "string")]))]));
     ("required", JArray [JString "message"])]).

Definition echo_tool (args : json) : outcome CallToolResult :=
  v ← at_key "message" args;
  s ← get_string v;
  Val (mkCallToolResult [text_content s] false).

(** On every input that conforms, the text comes back. *)
Theorem echo_spec args :
  conforms args echo_schema ->
  exists o s, args = JObject o /\ obj_find "message" o = Some (JString s) /\
    echo_tool args = Val (mkCallToolResult [text_content s] false).
Proof.
  intros Hc. destruct (conforms_is_object _ _ Hc) as [o ->]; [done|].
  pose proof (required_string _ _ _ "message" o Hc eq_refl eq_refl eq_refl eq_refl) as Hm.
  exists o, (string_of "message" o). split_and!; [done|done|]. unfold echo_tool, at_key. by rewrite Hm.
Qed.

(** ** The command line *)

Record HttpOptions := mkHttpOptions { opt_host : string; opt_port : Z }.

Definition default_options (port : Z) : HttpOptions := mkHttpOptions "127.0.0.1" port.

(** The loop over [argv]; [args] is what follows the program's name.  Every
    argument but the last is looked at as a flag, values included. *)
Fixpoint parse_args (args : list string) (o : HttpOptions) : outcome HttpOptions :=
  match args with
  | flag :: (value :: _) as rest =>
      o ← (if String.eqb flag "--port" then n ← atoi value; Val (mkHttpOptions (opt_host o) (wrap_u 16 n))
           else if String.eqb flag "--host" then Val (mkHttpOptions value (opt_port o))
           else Val o);
      parse_args rest o
  | _ => Val o
  end.

Lemma parse_args_port args o o' : in_u 16 (opt_port o) -> parse_args args o = Val o' -> in_u 16 (opt_port o').
Proof.
  revert o. induction args as [|flag [|value rest] IH]; intros o Ho; cbn [parse_args]; [by intros [= <-]..|].
  destruct (String.eqb flag "--port"); [|destruct (String.eqb flag "--host"); cbn [mbind outcome_bind]; by apply IH].
  destruct (atoi value) as [n|e|]; [|done..]. cbn [mbind outcome_bind]. apply IH. by apply wrap_u_range.
Qed.

Example flags : parse_args ["--port"; "8080"; "--host"; "0.0.0.0"] (default_options 3003) = Val (mkHttpOptions "0.0.0.0" 8080).
Proof. vm_compute. reflexivity. Qed.

(** A value that looks like a flag is taken as one too. *)
Example value_as_flag : parse_args ["--host"; "--port"; "7"] (default_options 3003) = Val (mkHttpOptions "--port" 7).
Proof. vm_compute. reflexivity. Qed.

(** A port beyond 16 bits is cut, and one beyond 32 bits is undefined. *)
Example port_cut : parse_args ["--port"; "65616"] (default_options 3003) = Val (mkHttpOptions "127.0.0.1" 80).
Proof. vm_compute. reflexivity. Qed.
Example port_undefined : parse_args ["--port"; "4294967376"] (default_options 3003) = Undefined.
Proof. vm_compute. reflexivity. Qed.

(** ** Kernel module entry points *)

(** [HttpSessionServer::start] on a server that has a factory: the endpoint is
    there exactly while it listens.  [listen] is what opening the socket gives
    for the options: a descriptor or the reason there is none, whether there is
    a wake event, and the port that was bound. *)
Definition http_start (listen : HttpOptions -> (Z + string) * bool * Z) (o : HttpOptions) (endpoint : option Listener)
  : (bool * string) * option Listener :=
  match endpoint with
  | Some l => ((true, EmptyString), Some l)
  | None =>
      let '(socket, wake_valid, port) := listen o in
      let '((started, error), l) := listener_start socket wake_valid port new_listener in
      if started then ((true, EmptyString), Some l) else ((false, error), None)
  end.

Definition http_port (endpoint : option Listener) : Z := match endpoint with Some l => ln_port l | None => 0%Z end.

Section module.
(** A configured server. *)
Context {S : Type} (server : S).

(** [g_dkm_server] and [g_dkm_http]. *)
Record Dkm := mkDkm { g_dkm_server : option S; g_dkm_http : option (option Listener) }.

Definition unloaded : Dkm := mkDkm None None.

Definition dkm_start (listen : HttpOptions -> (Z + string) * bool * Z) (port : Z) (g : Dkm) : Dkm * Z :=
  match g_dkm_http g with
  | Some http => (g, http_port http)
  | None =>
      let o := mkHttpOptions "0.0.0.0" (wrap_u 16 port) in
      let '((started, _), http) := http_start listen o None in
      if started then (mkDkm (Some server) (Some http), http_port http) else (mkDkm None None, (-1)%Z)
  end.

(** [stop] returns when the listener's threads have been joined. *)
Definition dkm_stop (g : Dkm) : Dkm * Z :=
  match g_dkm_http g with
  | None => (g, 1%Z)
  | Some _ => (mkDkm None None, 0%Z)
  end.

Inductive dkm_op := DkmStart (listen : HttpOptions -> (Z + string) * bool * Z) (port : Z) | DkmStop.

Definition dkm_step (g : Dkm) (op : dkm_op) : Dkm * Z :=
  match op with DkmStart listen port => dkm_start listen port g | DkmStop => dkm_stop g end.

Definition dkm_run (g : Dkm) (ops : list dkm_op) : Dkm := foldl (fun g op => (dkm_step g op).1) g ops.

(** Nothing is loaded, or a configured server that listens. *)
Definition dkm_ok (g : Dkm) : Prop :=
  g = unloaded \/ exists l, g = mkDkm (Some server) (Some (Some l)) /\ ln_running l = true.

Lemma dkm_start_cases listen port g :
  dkm_ok g ->
  let '(g', status) := dkm_start listen port g in
  (exists l, g' = mkDkm (Some server) (Some (Some l)) /\ ln_running l = true /\ status = ln_port l /\
     (g <> unloaded -> g' = g)) \/
  (g = unloaded /\ g' = unloaded /\ status = (-1)%Z).
Proof.
  intros [->|(l & -> & Hr)].
  - unfold dkm_start, http_start. cbn [g_dkm_http unloaded].
    destruct (listen _) as [[[fd|e] wake] p]; cbn; [|by right]. destruct wake; cbn; [|by right]. left.
    eexists. split_and!; [reflexivity|done|done|]. by intros [].
  - left. exists l. by split_and!.
Qed.

(** However the module is started and stopped, either nothing is left loaded
    or one configured server listens: [start] gives the port it listens at,
    the same as before when it already did, or -1 and nothing is left; [stop]
    gives 0 when it stopped a server, else 1. *)
Theorem dkm_lifecycle ops :
  let g := dkm_run unloaded ops in
  dkm_ok g /\
  (forall listen port, let '(g', status) := dkm_start listen port g in
     (exists l, g' = mkDkm (Some server) (Some (Some l)) /\ ln_running l = true /\ status = ln_port l /\ (g <> unloaded -> g' = g)) \/
     (g = unloaded /\ g' = unloaded /\ status = (-1)%Z)) /\
  (dkm_stop g).1 = unloaded /\ ((dkm_stop g).2 = 1%Z <-> g = unloaded).
Proof.
  assert (dkm_ok (dkm_run unloaded ops)) as Hok.
  { unfold dkm_run. assert (dkm_ok unloaded) as H by by left. revert H. generalize unloaded.
    induction ops as [|op ops IH]; intros g Hg; [done|]. cbn [foldl]. apply IH. destruct op as [listen port|]; cbn [dkm_step].
    - pose proof (dkm_start_cases listen port g Hg) as H. destruct (dkm_start listen port g) as [g' status].
      destruct H as [(l & -> & Hr & _)|(_ & -> & _)]; [right; by exists l|by left].
    - destruct Hg as [->|(l & -> & _)]; by left. }
  cbn zeta. split; [done|]. split; [by intros; apply dkm_start_cases|].
  destruct Hok as [->|(l & -> & _)]; by split_and!.
Qed.
End module.

(** Both modules have the same two entry points, over their own server. *)
Definition mcp_monitor_start {S} (server : S) := dkm_start server.
Definition mcp_monitor_stop {S} := dkm_stop (S := S).
Definition mcp_echo_http_start {S} (server : S) := dkm_start server.
Definition mcp_echo_http_stop {S} := dkm_stop (S := S).
