(* ===== verification/Examples.v ===== *)
(** * The example programs

    The servers of examples/echo_server.cpp, echo_server_http.cpp and
    calculator_server.cpp with their tools registered, what calling the tools
    answers, and the [main]s: over stdio the session runs until the client
    closes it, over HTTP until the process is killed. *)

From S2P Require Import Prelude Json Core Message Content Schema State Registry Types Session ToolRegistry Server.
From S2P Require Import Decimal Listener Calculator Monitor MonitorMain.

(** ** The tools *)

Inductive ExampleTool := TEcho | TCalculate.

Definition calculate_schema : json :=
  JObject (make_object
    [("type", JString "object");
     ("properties", JObject (make_object [("expression", JObject (make_object [("type", JString "string")]))]));
     ("required", JArray [JString "expression"])]).

Definition example_name (t : ExampleTool) : string := match t with TEcho => "echo" | TCalculate => "calculate" end.
Definition example_description (t : ExampleTool) : string :=
  match t with TEcho => "Echoes back the input" | TCalculate => "Evaluate a mathematical expression" end.
Definition example_schema (t : ExampleTool) : json := match t with TEcho => echo_schema | TCalculate => calculate_schema end.
Definition example_decl (t : ExampleTool) : Tool :=
  mkTool (example_name t) None (Some (example_description t)) None (example_schema t) None None None.

(** [std::stod] and [std::to_string] of a double are arguments. *)
Section examples.
Context (stod : string -> outcome double) (print_double : double -> string).

(** The handlers. *)
Definition run_example {W} (t : ExampleTool) (args : json) : st W CallToolResult :=
  lift (match t with TEcho => echo_tool args | TCalculate => calculate stod print_double args end).

(** ** Configured servers *)

Section configure.
Context {HT HR HP K SId W : Type} `{!EqDecision SId} `{!Sessions HT HR HP K SId W} (handler_of : ExampleTool -> HT).

Definition example_spec (t : ExampleTool) : ToolSpec :=
  mkToolSpec None (Some (example_description t)) (example_schema t) None (Some (handler_of t)).

(** The result of [register_tool] is not looked at. *)
Definition configure_echo : st W unit := _ ← server_register_tool "echo" (example_spec TEcho); skip.
Definition configure_calculator : st W unit := _ ← server_register_tool "calculate" (example_spec TCalculate); skip.
Definition configure (t : ExampleTool) : st W unit := match t with TEcho => configure_echo | TCalculate => configure_calculator end.

(** The [main]s over stdio, up to where [run] waits for the end, and after. *)
Definition stdio_main_begin (t : ExampleTool) : st W SId := _ ← configure t; run_begin.
Definition stdio_main_end (sid : SId) : st W Z := run_end sid.
End configure.

Section configured.
Context {HR HP K SId V : Type} `{!EqDecision SId} `{SE : !Sessions ExampleTool HR HP K SId V}.
Hypothesis get_set : forall s (v : V), server_of (set_server s v) = s.

Lemma configured_tools t v :
  srv_tools (server_of v) = empty_tools ->
  srv_tools (server_of (configure id t v).1) = mkToolRegistry [(example_decl t, t)] 100 None.
Proof.
  intros Hv. destruct t; cbn [configure]; unfold configure_echo, configure_calculator, server_register_tool, add_tool, example_spec;
    run; unfold gets; cbn [ts_title ts_description ts_input_schema ts_output_schema ts_handler id]; rewrite Hv.
  1: destruct (register_tool _ _ _) as [[rt r] c] eqn:E; vm_compute in E; injection E as <- <- <-.
  2: destruct (register_tool _ _ _) as [[rt r] c] eqn:E; vm_compute in E; injection E as <- <- <-.
  all: unfold on_server, mbind, st_bind, modify, run_changed, skip; cbn [fst snd]; by rewrite get_set.
Qed.

(** What a tool computes from its argument. *)
Definition example_answer (t : ExampleTool) (text : string) : outcome CallToolResult :=
  match t with
  | TEcho => Val (mkCallToolResult [text_content text] false)
  | TCalculate =>
      match evaluate stod text with
      | Val v => Val (mkCallToolResult [text_content (print_double v)] false)
      | Throw e => Val (mkCallToolResult [text_content ("Evaluation failed: " +:+ what e)] true)
      | Undefined => Undefined
      end
  end.

Definition example_key (t : ExampleTool) : string := match t with TEcho => "message" | TCalculate => "expression" end.

Context {W : Type} `{JT : !JsonText}.

(** The example servers: a call of the tool whose arguments conform to its
    schema answers with the text, or with the value of the expression or the
    reason there is none; no access to the arguments throws. *)
Theorem example_calls t v o (w : W) :
  srv_tools (server_of v) = empty_tools -> conforms (JObject o) (example_schema t) ->
  exists text, obj_find (example_key t) o = Some (JString text) /\
    call_tool run_example (example_name t) (JObject o) (srv_tools (server_of (configure id t v).1)) w =
      (w, match example_answer t text with Val x => Val (Ok x) | Throw e => Val (Ok (failed (what e))) | Undefined => Undefined end).
Proof.
  intros Hv Hc. exists (string_of (example_key t) o).
  assert (obj_find (example_key t) o = Some (JString (string_of (example_key t) o))) as Ht by (destruct t; by eapply required_string).
  split; [done|]. rewrite configured_tools by done. unfold call_tool. cbn [tools].
  assert (find_if (named (example_name t)) [(example_decl t, t)] = Some (example_decl t, t)) as -> by by destruct t.
  pose proof (proj2 (validate_at_conforms _ _ EmptyString) Hc) as Hval. unfold validate_schema. run. cbn [input_schema example_decl].
  rewrite Hval. unfold run_example, lift, catch. destruct t; cbn [example_key] in Ht.
  - unfold echo_tool, at_key. rewrite Ht. done.
  - unfold calculate, at_key. rewrite Ht. cbn [mbind outcome_bind get_string example_answer].
    by destruct (evaluate stod _) as [x|e|].
Qed.
End configured.
End examples.

(** ** The [main]s over HTTP *)

Section http_main.
(** What opening the socket gives for the options. *)
Context (listen : HttpOptions -> (Z + string) * bool * Z).

(** Serving until killed, with the server's listener; or the exit status. *)
Inductive main_state := Serving_ (http : option Listener) | Exited (status : Z).

(** The state and what was written to stderr. *)
Definition http_main (default_port : Z) (banner : Z -> string) (args : list string) : outcome (main_state * string) :=
  o ← parse_args args (default_options default_port);
  let '((started, error), http) := http_start listen o None in
  Val (if started then (Serving_ http, banner (http_port http))
       else (Exited 1, "failed to start: " +:+ c_str error +:+ String LF EmptyString)).

Definition echo_http_main : list string -> outcome (main_state * string) :=
  http_main 3002 (fun port => "listening on " +:+ to_string port +:+ String LF EmptyString).

Definition monitor_http_main (backend_name : string) : list string -> outcome (main_state * string) :=
  http_main 3003 (fun port =>
    "vxworks-monitor (" +:+ backend_name +:+ " backend) listening on " +:+ to_string port +:+ String LF EmptyString).

(** Exactly when a socket and a wake-up event were had for the options of the
    command line, a running listener is left that serves at the bound port. *)
Lemma http_main_cases default_port banner args o :
  parse_args args (default_options default_port) = Val o ->
  let '(socket, wake_valid, port) := listen o in
  match http_main default_port banner args with
  | Val (Serving_ http, err) =>
      exists fd l, socket = inl fd /\ wake_valid = true /\ http = Some l /\ ln_running l = true /\ ln_port l = port /\ err = banner port
  | Val (Exited status, _) => status = 1%Z /\ ((exists e, socket = inr e) \/ wake_valid = false)
  | _ => False
  end.
Proof.
  intros Ho. unfold http_main. rewrite Ho. cbn [mbind outcome_bind]. unfold http_start.
  destruct (listen o) as [[[fd|e] [|]] port]; cbn; [|by split; [|right]|by split; [|left; exists e]..].
  by eexists fd, _.
Qed.
End http_main.

Module ExamplesDemo.
Definition listen (o : HttpOptions) : (Z + string) * bool * Z := (inl 5%Z, true, opt_port o).

Example serves : snd <$> echo_http_main listen ["--port"; "3010"] = Val ("listening on 3010" +:+ String LF EmptyString).
Proof. vm_compute. reflexivity. Qed.
End ExamplesDemo.
