(* ===== verification/Selftest.v ===== *)
(** * The self-test tool

    src/tools/pal_selftest.cpp: the checks it makes of the platform layer and
    of the SDK on the loopback, what it prints and what it returns.  Sockets
    and wake-up events are the ones of Sockets.v and Wake.v; reading, writing
    and waiting are an interface, and so are the SDK's calls, which FullStack.v
    makes the modelled SDK's. *)

From S2P Require Import Prelude Core State Content Decimal Descriptors Sockets Wake.

(** What was printed, line by line, and how much [g_failures] grew. *)
Record Output := mkOutput { printed : list string; g_failures : Z }.

Definition silence : Output := mkOutput [] 0.
Definition joined (a b : Output) : Output := mkOutput (printed a ++ printed b) (g_failures a + g_failures b).

(** What the checks use of the platform: [poll_readable] and [read_some] as they
    answer, [None] a failed read. *)
Class SelftestHost (W : Type) := {
  st_poll : Z -> Z -> W -> W * Z;                (** descriptor, time-out *)
  st_signal : WakeEvent -> W -> W * unit;
  st_write_all : Z -> string -> W -> W * bool;
  st_read_some : Z -> Z -> W -> W * option string;
  st_shutdown : Z -> W -> W * unit;
}.

(** The server that [test_full_stack] sets up, and its client.  FullStack.v has
    the SDK's. *)
Class SdkHost (W : Type) := {
  sdk_register_tool : W -> W * bool;
  sdk_http_start : W -> W * option string;       (** the error, if any *)
  sdk_http_port : W -> W * Z;
  sdk_connect : W -> W * option string;
  sdk_list_tools : W -> W * option (list string);       (** their names *)
  sdk_call_echo : string -> W -> W * option (list Content);
  sdk_disconnect : W -> W * unit;
  sdk_session_count : W -> W * Z;
  sdk_http_stop : W -> W * unit;
}.

Section selftest.
Context {W : Type} {KW : Kernel W} {SH : SelftestHost W} {SD : SdkHost W}.

(** One after the other. *)
Definition followed (m : st W Output) (next : st W Output) : st W Output := a ← m; b ← next; mret (joined a b).
#[local] Notation "m ;; next" := (followed m next) (at level 100, next at level 200, right associativity).

Definition print (line : string) : st W Output := mret (mkOutput [line] 0).
Definition quietly (m : st W unit) : st W Output := _ ← m; mret silence.

Definition report (name : string) (ok : bool) (detail : string) : st W Output :=
  if ok then print ("[ OK ] " +:+ name)
  else
    e ← gets errno;
    mret (mkOutput ["[FAIL] " +:+ name +:+ " " +:+ detail +:+ "(errno=" +:+ to_string e +:+ ")"] 1).

(** ** The platform layer *)

(** The destructor of [wake] runs at each return. *)
Definition test_wake_event (b : backend) : st W Output :=
  wake ← wake_event b;
  report "wake_event.create" (valid wake) EmptyString ;;
  (if valid wake then
     rc ← call (st_poll (we_read wake) 50);
     report "wake_event.silent_before_signal" (rc =? 0)%Z EmptyString ;;
     _ ← call (st_signal wake);
     rc ← call (st_poll (we_read wake) 1000);
     report "wake_event.signal_wakes_poll" (rc =? 1)%Z EmptyString
   else mret silence) ;;
  quietly (wake_event_destroy wake).

(** [message] with its terminator. *)
Definition message : string := "mcp-selftest" +:+ String Ascii.zero EmptyString.

(** [n == sizeof(message) && strcmp(buffer, message) == 0]; what was not read
    of the buffer is zero. *)
Definition read_back (n : option string) : bool :=
  match n with Some bytes => (size bytes =? size message) && String.eqb (c_str bytes) "mcp-selftest" | None => false end.

Definition exchange_data (client served : Z) : st W Output :=
  written ← call (st_write_all client message);
  report "tcp.write_all" written EmptyString ;;
  ready ← call (st_poll served 2000);
  report "tcp.poll_readable" (ready =? 1)%Z EmptyString ;;
  n ← call (st_read_some served 64);
  report "tcp.read_some_roundtrip" (read_back n) EmptyString ;;
  _ ← call (st_shutdown client);
  eof ← call (st_read_some served 64);
  report "tcp.shutdown_gives_eof" (match eof with Some bytes => String.eqb bytes EmptyString | None => false end) EmptyString.

Definition fd_of (r : Z + string) : Z := match r with inl fd => fd | inr _ => (-1)%Z end.
Definition error_of_fd (r : Z + string) : string := match r with inl _ => EmptyString | inr e => e end.

(** [error] still holds the text of [tcp_listen] if [tcp_connect] sets none, but
    that one succeeded. *)
Definition test_tcp_loopback (b : backend) : st W Output :=
  listener ← tcp_listen b "127.0.0.1" 0;
  report "tcp.listen_ephemeral" (negb (fd_of listener =? -1)%Z) (error_of_fd listener) ;;
  match listener with
  | inr _ => mret silence
  | inl listener =>
      port ← tcp_local_port listener;
      report "tcp.local_port" (negb (port =? 0)%Z) EmptyString ;;
      client ← tcp_connect b "127.0.0.1" port 2000;
      report "tcp.connect" (negb (fd_of client =? -1)%Z) (error_of_fd client) ;;
      served ← tcp_accept listener;
      report "tcp.accept" (negb (served =? -1)%Z) EmptyString ;;
      (if negb (fd_of client =? -1)%Z && negb (served =? -1)%Z then exchange_data (fd_of client) served else mret silence) ;;
      quietly (_ ← close_end (fd_of client); _ ← close_end served; close_end listener)
  end.

(** ** The whole SDK *)

(** The first block of the result is the text that was sent. *)
Definition call_ok (result : option (list Content)) : bool :=
  match result with Some (TextContent text _ :: _) => String.eqb text "vxworks" | _ => false end.

Definition test_full_stack : st W Output :=
  ok ← call sdk_register_tool;
  report "stack.register_tool" ok EmptyString ;;
  error ← call sdk_http_start;
  report "stack.http_start" (match error with None => true | Some _ => false end) (default EmptyString error) ;;
  port ← call sdk_http_port;
  if (port =? 0)%Z then mret silence
  else
    print ("       (listening on 127.0.0.1:" +:+ to_string port +:+ ")") ;;
    init ← call sdk_connect;
    report "stack.initialize" (match init with None => true | Some _ => false end) (default EmptyString init) ;;
    names ← call sdk_list_tools;
    report "stack.tools_list" (match names with Some [name] => String.eqb name "echo" | _ => false end) EmptyString ;;
    result ← call (sdk_call_echo "vxworks");
    report "stack.tools_call_roundtrip" (call_ok result) EmptyString ;;
    _ ← call sdk_disconnect;
    n ← call sdk_session_count;
    report "stack.session_delete" (n =? 0)%Z EmptyString ;;
    quietly (call sdk_http_stop).

Definition rule : string := "----------------------------------------".

(** What was printed, and the exit status. *)
Definition selftest_main (version : string) (b : backend) : st W (list string * Z) :=
  out ← (print ("mcp.cpp " +:+ version +:+ " pal_selftest") ;;
         print rule ;;
         test_wake_event b ;;
         test_tcp_loopback b ;;
         test_full_stack ;;
         print rule);
  mret (if (g_failures out =? 0)%Z then (printed out ++ ["RESULT: ALL CHECKS PASSED"], 0%Z)
        else (printed out ++ ["RESULT: " +:+ to_string (g_failures out) +:+ " CHECK(S) FAILED"], 1%Z)).

(** ** The verdict *)

(** The line begins with [[FAIL]]. *)
Definition is_failure (line : string) : bool :=
  match line with String c (String d _) => Ascii.eqb c "["%char && Ascii.eqb d "F"%char | _ => false end.

(** [g_failures] counts the lines that say so. *)
Definition counted (o : Output) : Prop := g_failures o = Z.of_nat (length (filter (fun l => is_failure l = true) (printed o))).
Definition counts (m : st W Output) : Prop := forall w w' o, m w = (w', Val o) -> counted o.

Lemma counted_joined a b : counted a -> counted b -> counted (joined a b).
Proof. unfold counted. intros Ha Hb. cbn. rewrite filter_app, length_app, Ha, Hb. lia. Qed.

Lemma counts_ret o : counted o -> counts (mret o).
Proof. by intros Ho w w' o' [= <- <-]. Qed.
Lemma counts_bind {A} (m : st W A) (k : A -> st W Output) : (forall a, counts (k a)) -> counts (mbind k m).
Proof.
  intros Hk w w' o H. apply st_bind_inv in H as [(w1 & a & _ & H)|[(e & _ & ?)|[_ ?]]]; [|done|done]. by eapply Hk.
Qed.
Lemma counts_followed m next : counts m -> counts next -> counts (followed m next).
Proof.
  intros Hm Hn w w' o H. apply st_bind_inv in H as [(w1 & a & H1 & H)|[(e & _ & ?)|[_ ?]]]; [|done|done].
  apply st_bind_inv in H as [(w2 & b & H2 & [= _ <-])|[(e & _ & ?)|[_ ?]]]; [|done|done].
  apply counted_joined; [by eapply Hm|by eapply Hn].
Qed.
Lemma counts_print line : is_failure line = false -> counts (print line).
Proof. intros Hl. apply counts_ret. unfold counted. cbn [printed g_failures]. rewrite filter_cons_False by by rewrite Hl. done. Qed.
Lemma counts_quietly m : counts (quietly m).
Proof. apply counts_bind. intros []. by apply counts_ret. Qed.
Lemma counts_report name ok detail : counts (report name ok detail).
Proof.
  destruct ok; [by apply counts_print|]. apply counts_bind. intros e. apply counts_ret. unfold counted. cbn [printed g_failures].
  rewrite filter_cons_True by (unfold is_failure; reflexivity). reflexivity.
Qed.

Create HintDb counts.
#[local] Hint Resolve counts_quietly counts_report : counts.
#[local] Hint Extern 1 (counts (print _)) => apply counts_print; reflexivity : counts.
#[local] Hint Extern 1 (counts (mret silence)) => apply counts_ret; reflexivity : counts.
#[local] Hint Extern 2 (counts (followed _ _)) => apply counts_followed : counts.
#[local] Hint Extern 2 (counts (mbind _ _)) => apply counts_bind; intros ? : counts.
#[local] Hint Extern 3 (counts (match ?x with _ => _ end)) => destruct x : counts.

Lemma tests_count b : counts (test_wake_event b) /\ counts (test_tcp_loopback b) /\ counts test_full_stack.
Proof. unfold test_wake_event, test_tcp_loopback, exchange_data, test_full_stack. auto 60 with counts. Qed.

(** The tool's exit status is 0 exactly when it printed no failed check. *)
Theorem selftest_verdict version b w w' lines status :
  selftest_main version b w = (w', Val (lines, status)) ->
  (status = 0%Z \/ status = 1%Z) /\ (status = 0%Z <-> Forall (fun l => is_failure l = false) lines).
Proof.
  unfold selftest_main. intros H. apply st_bind_inv in H as [(w1 & o & H1 & H)|[(e & _ & ?)|[_ ?]]]; [|done|done].
  assert (counted o) as Ho.
  { destruct (tests_count b) as (? & ? & ?). revert H1. apply counts_followed; [apply counts_print; reflexivity|].
    repeat apply counts_followed; try done; apply counts_print; reflexivity. }
  unfold counted in Ho. set (bad := filter _ (printed o)) in Ho.
  assert (bad = [] <-> Forall (fun l => is_failure l = false) (printed o)) as Hbad.
  { unfold bad. clear. induction (printed o) as [|l ls IH]; [by split|]. destruct (is_failure l) eqn:E.
    - rewrite filter_cons_True by done. split; [done|]. intros [Hl _]%Forall_cons. congruence.
    - rewrite filter_cons_False by by rewrite E. rewrite IH. split; [intros; by constructor|by intros [_ ?]%Forall_cons]. }
  destruct (Z.eqb_spec (g_failures o) 0) as [E|E]; injection H as <- <- <-; rewrite Forall_app, Forall_singleton.
  - split; [by left|]. split; [|done]. intros _. split; [|done]. apply Hbad. destruct bad; [done|cbn in Ho; lia].
  - split; [by right|]. split; [done|]. intros [Hf%Hbad _]. rewrite Hf in Ho. cbn in Ho. lia.
Qed.

(** ** What the checks of the platform layer leave open *)

(** Reading, writing and waiting open and close nothing, and shutting down
    closes nothing. *)
Class SelftestLaws : Prop := {
  st_poll_law fd ms w : fds (st_poll fd ms w).1 = fds w;
  st_signal_law e w : fds (st_signal e w).1 = fds w;
  st_write_law fd s w : fds (st_write_all fd s w).1 = fds w;
  st_read_law fd n w : fds (st_read_some fd n w).1 = fds w;
  st_shutdown_law fd w : fds (st_shutdown fd w).1 = fds w;
}.

Context {KL : KernelLaws W} {SL : SelftestLaws}.

(** The table is [base] and, perhaps, descriptors of [l]. *)
Definition extra (base : gmap Z descr) (l : list Z) (w : W) : Prop :=
  (forall k, (0 <= k)%Z -> k ∈ l -> base !! k = None) /\
  (forall k, ~ ((0 <= k)%Z /\ k ∈ l) -> fds w !! k = base !! k).

Lemma extra_quiet {A} base l (f : W -> W * A) : (forall w, fds (f w).1 = fds w) -> preserves (extra base l) (call f).
Proof. intros H. apply triple_call. intros w [H1 H2]. split; [done|]. intros k. rewrite H. apply H2. Qed.

(** A descriptor more. *)
Lemma extra_alone base l P fd w w' : extra base l w -> alone (fds w) P fd w' -> extra base (fd :: l) w'.
Proof.
  intros [H1 H2] (Hfd & Hn & d & _ & Hw). split.
  - intros k Hk [->|Hl]%elem_of_cons; [|by apply H1].
    destruct (decide ((0 <= fd)%Z /\ fd ∈ l)) as [[? ?]|Hno]; [by apply H1|]. by rewrite <- H2.
  - intros k Hk. rewrite Hw, lookup_insert_ne by (intros ->; apply Hk; split; [done|left]). apply H2. intros [? ?].
    apply Hk. split; [done|by right].
Qed.
Lemma extra_table base l fd w w' : extra base l w -> fds w' = fds w -> (fd < 0)%Z -> extra base (fd :: l) w'.
Proof.
  intros [H1 H2] Hw Hfd. split.
  - intros k Hk [->|Hl]%elem_of_cons; [lia|by apply H1].
  - intros k Hk. rewrite Hw. apply H2. intros [? ?]. apply Hk. split; [done|by right].
Qed.

Lemma extra_close base l fd : triple (extra base (fd :: l)) (close_end fd) (fun _ => extra base l).
Proof.
  intros w w' [] [H1 H2]. unfold close_end. destruct (Z.leb_spec 0 fd) as [Hfd|Hfd].
  - unfold call. pose proof (close_law fd w) as Hw. destruct (sys_close fd w) as [w1 []]. cbn in Hw. intros [= <-]. split.
    + intros k Hk Hl. apply H1; [done|by right].
    + intros k Hk. rewrite Hw. destruct (decide (k = fd)) as [->|Hne].
      * rewrite lookup_delete_eq. symmetry. apply H1; [done|left].
      * rewrite lookup_delete_ne by done. apply H2. intros [? [?|?]%elem_of_cons]; [done|]. by apply Hk.
  - intros [= <-]. split.
    + intros k Hk Hl. apply H1; [done|by right].
    + intros k Hk. apply H2. intros [? [?|?]%elem_of_cons]; [lia|by apply Hk].
Qed.

Lemma extra_nil base w : extra base [] w -> fds w = base.
Proof. intros [_ H]. apply map_eq. intros k. apply H. by intros [_ ?%not_elem_of_nil]. Qed.

Lemma extra_swap base fd1 fd2 l w : extra base (fd1 :: fd2 :: l) w -> extra base (fd2 :: fd1 :: l) w.
Proof.
  assert (forall k, k ∈ fd2 :: fd1 :: l <-> k ∈ fd1 :: fd2 :: l) as Hp by (intros k; rewrite !elem_of_cons; tauto).
  unfold extra. by setoid_rewrite Hp.
Qed.

(** The two ways to a socket. *)
Lemma settled_extra base l P r w w' :
  extra base l w -> settled (fds w) P r w' -> extra base (fd_of r :: l) w'.
Proof. intros He. destruct r as [fd|e]; cbn; intros Hs; [by eapply extra_alone|by eapply extra_table]. Qed.

Lemma extra_listen b base l host port :
  triple (extra base l) (tcp_listen b host port) (fun r => extra base (fd_of r :: l)).
Proof.
  intros w w' r He E. destruct (fill_addr host port) as [a|e] eqn:Hf.
  - eapply settled_extra; [exact He|]. by eapply (listen_settled b (fds w) host port a Hf).
  - destruct (tcp_bad_host b host port 0 e w Hf) as (w1 & w2 & H1 & _ & Hw & _). rewrite H1 in E. injection E as <- <-.
    by eapply extra_table.
Qed.
Lemma extra_connect b base l host port ms :
  triple (extra base l) (tcp_connect b host port ms) (fun r => extra base (fd_of r :: l)).
Proof.
  intros w w' r He E. destruct (fill_addr host port) as [a|e] eqn:Hf.
  - eapply settled_extra; [exact He|]. by eapply (connect_settled b (fds w) host port ms a Hf).
  - destruct (tcp_bad_host b host port ms e w Hf) as (w1 & w2 & _ & H1 & _ & Hw). rewrite H1 in E. injection E as <- <-.
    by eapply extra_table.
Qed.
Lemma extra_accept base l fd : triple (extra base l) (tcp_accept fd) (fun r => extra base (r :: l)).
Proof.
  unfold tcp_accept. intros w w' r He E. apply st_bind_inv in E as [(w1 & s & H1 & [= <- <-])|[(e & _ & ?)|[_ ?]]]; [|done|done].
  destruct (triple_accept (fds w) fd w w1 s eq_refl H1) as [[-> Hw]|Ha]; [by eapply extra_table|].
  rewrite (proj2 (Z.ltb_ge s 0)) by (by destruct Ha). by eapply extra_alone.
Qed.

(** Reports keep everything. *)
Lemma extra_followed base l1 l2 l3 m next :
  triple (extra base l1) m (fun _ => extra base l2) -> triple (extra base l2) next (fun _ => extra base l3) ->
  triple (extra base l1) (followed m next) (fun _ => extra base l3).
Proof.
  intros Hm Hn. eapply triple_bind; [exact Hm|]. intros a. eapply triple_bind; [exact Hn|]. intros b. apply preserves_ret.
Qed.
Lemma extra_report base l name ok detail : preserves (extra base l) (report name ok detail).
Proof. destruct ok; [apply preserves_ret|]. eapply triple_bind; [apply looks_gets|]. intros e. apply preserves_ret. Qed.
Lemma extra_quietly base l1 l2 m : triple (extra base l1) m (fun _ => extra base l2) -> triple (extra base l1) (quietly m) (fun _ => extra base l2).
Proof. intros Hm. eapply triple_bind; [exact Hm|]. intros []. apply preserves_ret. Qed.

Lemma exchange_extra base l client served : preserves (extra base l) (exchange_data client served).
Proof.
  unfold exchange_data.
  eapply triple_bind; [apply extra_quiet; intros; apply st_write_law|]. intros ?. eapply extra_followed; [apply extra_report|].
  eapply triple_bind; [apply extra_quiet; intros; apply st_poll_law|]. intros ?. eapply extra_followed; [apply extra_report|].
  eapply triple_bind; [apply extra_quiet; intros; apply st_read_law|]. intros ?. eapply extra_followed; [apply extra_report|].
  eapply triple_bind; [apply extra_quiet; intros; apply st_shutdown_law|]. intros ?.
  eapply triple_bind; [apply extra_quiet; intros; apply st_read_law|]. intros ?. apply extra_report.
Qed.

Lemma loopback_extra base b : triple (extra base []) (test_tcp_loopback b) (fun _ => extra base []).
Proof.
  unfold test_tcp_loopback. eapply triple_bind; [apply extra_listen|]. intros [listener|e].
  2:{ eapply extra_followed; [apply extra_report|]. intros w w' o He [= <- <-]. cbn in He. destruct He as [H1 H2]. split.
      - intros k Hk ?%not_elem_of_nil. done.
      - intros k _. apply H2. intros [? [?|?%not_elem_of_nil]%elem_of_cons]; [lia|done]. }
  eapply extra_followed; [apply extra_report|]. unfold tcp_local_port. cbn [fd_of].
  eapply triple_bind; [eapply triple_bind; [apply extra_quiet; intros; apply getsockname_law|intros name; apply preserves_ret]|]. intros port.
  eapply extra_followed; [apply extra_report|]. eapply triple_bind; [apply extra_connect|]. intros client.
  eapply extra_followed; [apply extra_report|]. eapply triple_bind; [apply extra_accept|]. intros served.
  eapply extra_followed; [apply extra_report|]. eapply extra_followed; [apply triple_if; intros _; [apply exchange_extra|apply preserves_ret]|].
  apply extra_quietly. eapply triple_bind; [eapply triple_pre; [apply extra_close|intros w; apply extra_swap]|]. intros ?.
  eapply triple_bind; [apply extra_close|]. intros ?. apply extra_close.
Qed.

Lemma wake_extra base b : triple (table base) (test_wake_event b) (fun _ => table base).
Proof.
  unfold test_wake_event. eapply triple_bind; [apply event_pair|]. intros e w w' o (r & -> & Hp).
  assert (forall (m next : st W Output) (I : W -> Prop),
            preserves I m -> triple I next (fun _ => table base) -> triple I (followed m next) (fun _ => table base)) as Hf.
  { intros m next I Hm Hn. eapply triple_bind; [exact Hm|]. intros a. eapply triple_bind; [exact Hn|]. intros b'. apply preserves_ret. }
  assert (forall A (f : W -> W * A), (forall w, fds (f w).1 = fds w) -> preserves (pair_of base r) (call f)) as Hq.
  { intros A f H. apply triple_call. unfold pair_of, table. intros w0. rewrite H. done. }
  assert (forall name ok detail, preserves (pair_of base r) (report name ok detail)) as Hr.
  { intros name [|] detail; [apply preserves_ret|]. eapply triple_bind; [apply looks_gets|]. intros ?. apply preserves_ret. }
  revert w w' o Hp. eapply Hf; [apply Hr|]. eapply Hf.
  - destruct (valid _); [|apply preserves_ret]. eapply triple_bind; [apply Hq; intros; apply st_poll_law|]. intros ?.
    eapply triple_bind; [apply Hr|]. intros ?. eapply triple_bind; [|intros ?; apply preserves_ret].
    eapply triple_bind; [apply Hq; intros; apply st_signal_law|]. intros ?.
    eapply triple_bind; [apply Hq; intros; apply st_poll_law|]. intros ?. apply Hr.
  - eapply triple_bind; [apply destroy_pair|]. intros []. apply preserves_ret.
Qed.

(** Whatever fails, the checks of the platform layer leave the process with the
    descriptors it had. *)
Theorem selftest_leaves_nothing_open b w w1 w2 o1 o2 :
  test_wake_event b w = (w1, Val o1) -> test_tcp_loopback b w1 = (w2, Val o2) -> fds w1 = fds w /\ fds w2 = fds w.
Proof.
  intros H1 H2. pose proof (wake_extra (fds w) b w w1 o1 eq_refl H1) as Hw. unfold table in Hw. split; [done|].
  rewrite <- Hw. apply extra_nil. eapply (loopback_extra (fds w1) b); [|exact H2]. split; [by intros k _ ?%not_elem_of_nil|done].
Qed.
End selftest.
