(* ===== verification/FullStack.v ===== *)
(** * The self-test's server and client

    [test_full_stack] of src/tools/pal_selftest.cpp with the modelled SDK in
    place: a [Server] behind an [HttpSessionServer] (ServerHub.v), a [Client]
    over an [HttpClientTransport], and everything between them down to the bytes
    of the HTTP messages (HttpPair.v).  The calls are executable; the run is at
    the end. *)

From S2P Require Import Prelude Json Core Types Message Content Schema Protocol State Router Session.
From S2P Require Import Pagination Registry ToolRegistry PromptProvider ResourceProvider Logging Server Program.
From S2P Require Import Sampling Roots Client Remote.
From S2P Require Import Lines Decimal Chunked Http Sse SseChannel HttpEndpoint PostCapture HttpServer HttpSessions.
From S2P Require Import HttpClient HttpLink HttpPair ServerHub Descriptors Listener MonitorMain Selftest.

(** ** The program *)

Section full_stack.
Context {JT : JsonText}.
(** MCP_CPP_VERSION, how bytes are cut into reads, and the time. *)
Context (version : string) (cut : string -> list string) (now : Z).

(** The only closure of the server is the echo tool's. *)
Abbreviation hub := (Hub unit Empty_set Empty_set Empty_set Empty_set Empty_set).

Definition none {A : Empty_set -> Type} (x : Empty_set) : A x := match x with end.

Definition echo (h : unit) (args : json) : st hub CallToolResult :=
  text ← lift (value_or get_string "message" "hi" args);
  mret (mkCallToolResult [text_content text] false).

Definition echo_spec : ToolSpec := mkToolSpec None None (JObject [("type", JString "object")]) None (Some tt).

#[local] Instance stack_sessions : Sessions unit Empty_set Empty_set Empty_set nat hub :=
  hub_sessions_of echo none none none.
#[local] Instance stack_host : SessionHost hub nat :=
  hub_host echo none none none none none none none none.

(** [options.http.port] is 0: the system picks. *)
Definition session_options : HttpSessionServerOptions := mkSessionServerOptions default_http_options 1800000 true.

#[local] Instance stack_connections : HttpClientHost (HttpPair hub) := pair_host (hss_http session_options) (handle_session_request now) cut.
#[local] Instance stack_transport : Transport (HttpPair hub) := pair_transport (hss_http session_options) (handle_session_request now) cut.

Abbreviation client := (Client Empty_set Empty_set Empty_set Empty_set Empty_set).
Abbreviation client_world := (Session (HttpPair hub * client) ClientHandler ClientNotice Empty_set).

#[local] Instance stack_client : Application (HttpPair hub * client) ClientHandler ClientNotice Empty_set :=
  client_application none none none none none none none none none.

(** The reader of the client's connections. *)
Definition read_heard (slot : nat) : st client_world unit :=
  ms ← on_transport (zoom fst (fun p t => (p, t.2)) take_heard);
  for_each (handle_message now) ms.

Definition hub_of (w : client_world) : hub := hp_server (transport w).1.
Definition on_hub {A} (m : st hub A) : st client_world A :=
  on_transport (zoom (fun t => hp_server t.1) (fun h t => (put_server h t.1, t.2)) m).

(** The listener and the client, with the server's end beside the client's
    transport. *)
Record Stack : Type := mkStack { endpoint : option Listener; stack : client_world }.

(** What opening the listening socket gives for a host and a port. *)
Context (listen : HttpOptions -> (Z + string) * bool * Z).

(** *** The calls of [test_full_stack]

    A call that ends in an exception is reported as one that failed. *)

Definition completes {A} (m : st client_world A) (failed : A) (k : Stack) : Stack * A :=
  let '(w, r) := m (stack k) in (mkStack (endpoint k) w, match r with Val a => a | _ => failed end).

Definition fs_register_tool : Stack -> Stack * bool :=
  completes (r ← on_hub (server_register_tool "echo" echo_spec); mret (match r with Ok _ => true | Err _ => false end)) false.

Definition fs_http_start (k : Stack) : Stack * option string :=
  let '((started, e), l) := http_start listen (mkHttpOptions (host (hss_http session_options)) 0) (endpoint k) in
  (mkStack l (stack k), if (started : bool) then None else Some e).

Definition fs_http_port (k : Stack) : Stack * Z := (k, http_port (endpoint k)).

(** The client is made for the port the server has. *)
Definition client_options_for (port : Z) : HttpClientOptions := mkHttpClientOptions "127.0.0.1" port "/mcp" [] None 200 5 true.

Definition make_transport (port : Z) : st client_world unit :=
  on_transport (zoom fst (fun p t => (p, t.2)) (modify (put_client (make_http_client (client_options_for port))))).

Definition outcome_of (r : Result InitializeResult) : option string := match r with Ok _ => None | Err e => Some (err_message e) end.

Definition fs_connect (k : Stack) : Stack * option string :=
  completes (_ ← make_transport (http_port (endpoint k)); r ← client_connect read_heard now; mret (outcome_of r)) (Some "exception") k.

Definition fs_list_tools : Stack -> Stack * option (list string) :=
  completes (r ← client_list_tools read_heard now None;
             mret (match r with Ok l => Some (tool_name <$> lr_items l) | Err _ => None end)) None.

Definition fs_call_echo (text : string) : Stack -> Stack * option (list Content) :=
  completes (r ← client_call_tool read_heard now "echo" (JObject [("message", JString text)]);
             mret (match r with Ok x => Some (ctr_content x) | Err _ => None end)) None.

Definition fs_disconnect : Stack -> Stack * unit := completes client_disconnect tt.
Definition fs_session_count (k : Stack) : Stack * Z := (k, Z.of_nat (session_count (hub_registry (hub_of (stack k))))).
Definition fs_http_stop (k : Stack) : Stack * unit :=
  let '(k, u) := completes (on_hub stop) tt k in (mkStack None (stack k), u).

(** *** Beside the platform *)

Context {P : Type} {KW : Kernel P}.

Definition beside {A} (f : P -> P * A) : P * Stack -> (P * Stack) * A := fun w => let '(p, a) := f w.1 in ((p, w.2), a).
Definition above {A} (f : Stack -> Stack * A) : P * Stack -> (P * Stack) * A := fun w => let '(k, a) := f w.2 in ((w.1, k), a).

#[local] Instance platform_beside : Kernel (P * Stack) := {|
  fds w := fds w.1;
  errno w := errno w.1;
  EINPROGRESS := EINPROGRESS;
  EWOULDBLOCK := EWOULDBLOCK;
  O_NONBLOCK := O_NONBLOCK;
  strerror := strerror;
  inet_pton := inet_pton;
  INADDR_LOOPBACK := INADDR_LOOPBACK;
  wsa_started w := wsa_started w.1;
  sys_wsa_startup := beside sys_wsa_startup;
  sys_socket := beside sys_socket;
  sys_setsockopt fd o := beside (sys_setsockopt fd o);
  sys_getfl fd := beside (sys_getfl fd);
  sys_setfl fd f := beside (sys_setfl fd f);
  sys_fionbio fd b := beside (sys_fionbio fd b);
  sys_bind fd a := beside (sys_bind fd a);
  sys_listen fd n := beside (sys_listen fd n);
  sys_getsockname fd := beside (sys_getsockname fd);
  sys_connect fd a := beside (sys_connect fd a);
  sys_poll_write fd ms := beside (sys_poll_write fd ms);
  sys_select_write fd s us := beside (sys_select_write fd s us);
  sys_so_error fd := beside (sys_so_error fd);
  sys_accept fd := beside (sys_accept fd);
  sys_close fd := beside (sys_close fd);
  sys_pipe := beside sys_pipe;
  sys_fork := beside sys_fork;
|}.

#[local] Instance full_stack : SdkHost (P * Stack) := {|
  sdk_register_tool := above fs_register_tool;
  sdk_http_start := above fs_http_start;
  sdk_http_port := above fs_http_port;
  sdk_connect := above fs_connect;
  sdk_list_tools := above fs_list_tools;
  sdk_call_echo text := above (fs_call_echo text);
  sdk_disconnect := above fs_disconnect;
  sdk_session_count := above fs_session_count;
  sdk_http_stop := above fs_http_stop;
|}.

(** The objects as they are made. *)
Definition new_hub (random : list (list Z)) : hub :=
  mkHub (make_server "selftest-server" version) (mkRegistry session_options ∅ [] []) (mkCaptures ∅ 0) [] random.

Definition new_stack (random : list (list Z)) : Stack :=
  let c := make_client "selftest-client" version in
  mkStack None (make_session (ClientSession (client_options c)) (mkHttpPair (make_http_client (client_options_for 0)) (new_hub random) [] [], c)).
End full_stack.

(** ** The run *)
Module FullStackDemo.
#[local] Existing Instances BitText.text BitText.laws.

(** Two ways to cut a text into reads: not at all, and after ten bytes. *)
Definition whole (s : string) : list string := [s].
Definition tens (s : string) : list string := [str_take 10 s; str_drop 10 s].

(** The system gives the port 40000. *)
Definition listen (o : HttpOptions) : (Z + string) * bool * Z := (inl 3%Z, true, 40000%Z).
#[local] Instance platform : Kernel (SimKernel * Stack) := platform_beside.

Definition run (cut : string -> list string) : (SimKernel * Stack) * outcome Output :=
  test_full_stack (SD := full_stack cut 0 listen) (mkSimKernel ∅ [] 0, new_stack "1.0" [[1; 2; 3; 4]%Z]).

(** What was printed, how many checks failed, the sessions attached to the
    server, those the HTTP server made and closed, and whether it still listens. *)
Definition verdict (r : (SimKernel * Stack) * outcome Output) : option (list string * Z * list nat * list nat * list nat * bool) :=
  match r.2 with
  | Val out =>
      let h := hub_of (stack r.1.2) in
      Some (printed out, g_failures out, srv_sessions (hub_server h), reg_created (hub_registry h), reg_closed (hub_registry h),
            match endpoint r.1.2 with Some _ => true | None => false end)
  | _ => None
  end.

(** Every check passes: the handshake, listing and calling the tool, and the end
    of the session, of which nothing is left on the server. *)
Theorem full_stack_passes cut :
  cut ∈ [whole; tens] ->
  verdict (run cut) =
    Some (["[ OK ] stack.register_tool"; "[ OK ] stack.http_start"; "       (listening on 127.0.0.1:40000)";
           "[ OK ] stack.initialize"; "[ OK ] stack.tools_list"; "[ OK ] stack.tools_call_roundtrip";
           "[ OK ] stack.session_delete"], 0%Z, [], [0], [0], false).
Proof.
  intros Hc. repeat (apply elem_of_cons in Hc as [->|Hc]; [vm_compute; reflexivity|]).
  by apply not_elem_of_nil in Hc.
Qed.
End FullStackDemo.
